(* ===== verification/_CoqProject ===== *)
-Q . S2P
Prelude.v
OsCommon.v
Uhsif.v
Crc.v
Stream.v
Pcapng.v
Format.v
RawQueue.v
WriteQueue.v
Transport.v
Cmd.v
Packet.v
PacketFrames.v
PacketLog.v
Session.v
SessionSafe.v
ReplaySession.v
SessionFile.v
SessionReturns.v
Extcap.v
Device.v
Libusb.v
LibusbSession.v
Gen1Writer.v
Gen1Capture.v
Gen1Safe.v
Gen1Equiv.v
Gen1Usb.v
Jtag.v
Fpga.v
Fx2lp.v
Gen1Session.v
Main.v
BlockReader.v
Usbcap.v
UsbcapFast.v
UsbCmd.v
