(* ===== verification/Prelude.v ===== *)
(** * USB sniffer capture plugin: verification development

    The program (under src/src/) is a Wireshark extcap plugin for two generations of a USB
    sniffer.  [main.c] reads the command line, answers the queries of Wireshark
    ([extcap.c]), finds out which sniffer is connected ([device.c]) and runs one of two
    capture engines, or one of the maintenance tools of the first generation.

    In the second generation (gen2) a transport ([transport.c] with a libusb and a replay
    backend) delivers bytes to a queue of raw buffers ([main.c]) whose worker feeds the
    stream layer ([stream.c]); the stream layer carves blocks and hands ACKs to the command
    layer ([cmd.c]) and payloads to the frame layer ([packet.c]), which writes records
    through the pcapng writer ([pcapng.c]) and its writer thread.  The first generation
    (gen1, under gen1/) reads a device over libusb ([usb.c]) and feeds a capture engine with
    its own writer ([capture.c]); the tools program its FPGA over JTAG ([fpga.c]) and load
    its microcontroller ([fx2lp.c]).  Beside the plugin, src/tools/ holds small programs that talk
    to the gen2 sniffer directly: [usbcap.c] and [usbcap_fast.c] capture to a file of raw
    payloads, [usb_cmd.c] sends single commands.

    ** Conventions

    A machine integer is a [Z] with its wrap-around written out ([u8], [u16], [u32], [u64],
    [s32]); a byte string is a [list Z].  The static variables and structs of a file are one
    record with setters ([x <| field := v |>]).  A failed assertion, an [os_error] or an
    access outside an array is a value of the result type: [option] in the gen2 layers,
    [res] in Session.v, [run] in Gen1Capture.v, [outcome] in Extcap.v, [answer] in the gen1
    device layers.  Definitions keep the names of the code and evaluate.  Threads and the
    event loop are step relations or schedules.  libusb, the devices and the file system are
    classes, lists of answers, or arguments.

    ** Files, in dependency order

    - Prelude: notations, machine integers, byte lists, bounded rings, tactics.
    - OsCommon ([os_common.c]): [os_rand16], [find_str], the clock and the log routing.
    - Uhsif, Crc ([uhsif.h]): the wire format; its header checksum detects every burst of
      16 bits and every odd error.
    - Stream ([stream.c]): [stream_feed] on its staging buffer refines [parse], a parser with
      unlimited memory; round trip, recovery from garbage, independence of transfer sizes.
    - Pcapng ([pcapng.c], blocks): the block writer over a [ByteSink]; a reader gets every
      block back.  Format: the printf conversions used.
    - RawQueue ([main.c], the raw queue) and WriteQueue ([pcapng.c], writer thread): two threads each
      over a ring of buffers, as step relations with condition variables, spurious wake-ups and
      partial writes: order is kept, buffers have one owner, no deadlock, calls return.
    - Transport ([transport.c], [transport_replay.c]), Cmd ([cmd.c]): the table of operations,
      the replay backend, and the acknowledged commands with their retries.
    - Packet ([packet.c]): the frame layer, safe on any bytes.  PacketFrames: the byte walk
      refines a machine on whole frames.  PacketLog: what is written, losslessness, the
      capture limit, folding, desynchronization.
    - Session ([main.c], run_capture_gen2): start-up, main loop and shut-down over any transport
      and any output.  SessionSafe: no failure whatever the device sends.  ReplaySession: a
      replay ends, and its records are those of the frames.  SessionFile: the file is a readable
      pcapng file of exactly the records written.  SessionReturns: on every transport a session
      the user ends comes to a result.
    - Extcap ([extcap.c]): option parser and queries.  Device ([device.c]): the probe.
    - Libusb ([transport_libusb.c]): the libusb backend over a script of libusb's results; the pool
      of transfers and its spare buffer, whose bytes are delivered once and in order although the
      driver writes into every buffer it holds.  LibusbSession: the backend keeps the contract of a
      transport ([feeds_bytes]), so the guarantees of a session hold for live captures.
    - Gen1Writer, Gen1Capture ([gen1/capture.c]): the gen1 writer and engine.  Gen1Safe: memory
      safety on any bytes, and the file.  Gen1Equiv: both engines write the same records.
    - Gen1Usb ([gen1/usb.c]): programs over a control pipe ([ControlPipe]); vendor requests,
      choice of the device, capture register, completions, speed test.
    - Jtag, Fpga ([gen1/fpga.c]): the scans refine a scan-level specification ([Jtag] has two
      instances) on any device with an IEEE 1149.1 controller; the JED parser against what the
      file spells; a flash that goes through was written and read back.
    - Fx2lp ([gen1/fx2lp.c]): both uploads on memories whose cells may be faulty.
    - Gen1Session ([capture_start], [run_capture_gen1]): device, event loop, engine and writer
      as one program, and the file it leaves.
    - Main ([main.c]): the dispatch and the maintenance tools; what a run may open.
    - BlockReader, Usbcap, UsbcapFast, UsbCmd (src/tools/): the block reader the capture tools
      share, equivalent to the plugin's stream layer; a run of [usbcap.c] and its file; the packet
      statistics of [usbcap_fast.c]; a run of [usb_cmd.c].

    ** Fuel and bounds

    The loop of [stream_feed], the waits of [cmd_exec] and the main loop of a replay take fuel;
    the theorems give an amount that is enough (the pending bytes, the retries and time-outs,
    the length of the file).  [run_capture_gen2] and the polls of the flash take fuel for loops
    that last as long as the device makes them; running out is a result of its own ([No_fuel],
    [Spinning]), and the statements name it.  SessionReturns shows that a session does not run out
    where the clock passes every deadline and the user ends the capture.  The loops over a file in Fx2lp.v take its length or
    the number of pages, and their theorems show that this is enough.

    ** Not modelled

    - In [transport_libusb.c] the time-outs given to libusb, the cancellations and the freeing of
      memory: what they bring about is what the script says.  An [os_error] of the backend is a flag
      of its state ([exited]); the theorems say nothing of a run after it.
    - In src/tools/: [uhsif_bulk.c], which measures the downlink of the bench firmware; the writer
      thread, the gap statistics and the command line of [usbcap_fast.c]; the text the tools print.
    - Allocation, thread creation, the log file and the console progress of the tools; signal
      handlers appear as the stop flag they set.
    - In [gen1/usb.c] the allocation and first submission of the transfers.  The bus is the same for
      the probe and the open that follows it.
    - Code under #if 0 in [gen1/fpga.c]: the identifiers and the JTAG enable. *)

From Stdlib Require Export ZArith Lia Bool List.
From Stdlib Require Import String Ascii.
From stdpp Require Export base tactics option list numbers.
From stdpp Require Import strings.

#[export] Set Default Goal Selector "!".

#[global] Open Scope Z_scope.

(** ** Record update

    [r <| f := v |>] is the record [r] with field [f] replaced by [v].  A record
    type takes part by giving its eta expansion as a [Settable] instance. *)

Class Settable (R : Type) := eta_expand : R -> R.

Class Setter {R T : Type} (get : R -> T) := { over : (T -> T) -> R -> R }.
Arguments over {R T} get {_} f r /.

Ltac derive_setter get :=
  lazymatch type of get with
  | ?R -> ?T =>
      let f := fresh "f" in
      let r := fresh "r" in
      constructor; intros f r;
      let e := eval cbv beta delta [eta_expand] in (eta_expand r) in
      let e := lazymatch e with
               | ?inst r => let i := eval hnf in (inst r) in i
               | _ => e
               end in
      let e := eval pattern (get r) in e in
      lazymatch e with
      | ?k _ => let b := eval cbv beta in (k (f (get r))) in exact b
      end
  end.

#[export] Hint Extern 0 (Setter ?get) => derive_setter get : typeclass_instances.

Declare Scope sniffer_scope.
Delimit Scope sniffer_scope with sniffer.
#[global] Open Scope sniffer_scope.
Notation "r <| f := v |>" := (over f (fun _ => v) r)
  (at level 1, left associativity, f constr at level 9, v at level 99,
   format "r  <| f  :=  v |>") : sniffer_scope.

(** ** C strings: the bytes before the terminator *)

Fixpoint cstr (s : string) : list Z :=
  match s with
  | EmptyString => []
  | String a s => Z.of_nat (nat_of_ascii a) :: cstr s
  end.

(** ** Machine integers

    A w-bit C integer is a [Z]; the wrap-around of the type is written where the
    code converts to it. *)

Definition u8 (z : Z) : Z := z mod 256.
Definition u16 (z : Z) : Z := z mod 65536.
Definition u32 (z : Z) : Z := z mod 4294967296.
Definition u64 (z : Z) : Z := z mod 18446744073709551616.
Definition s32 (z : Z) : Z := (z + 2147483648) mod 4294967296 - 2147483648.
Definition s64 (z : Z) : Z :=
  (z + 9223372036854775808) mod 18446744073709551616 - 9223372036854775808.

(** C's test [x & mask] used as a condition. *)
Definition has (x mask : Z) : bool := negb (Z.land x mask =? 0).

Abbreviation byte_ok b := (0 <= b < 256).
Definition bytes_ok (l : list Z) : Prop := Forall (fun b => byte_ok b) l.

(** ** Tactics and hints *)

Create HintDb sniffer.
Create Rewrite HintDb sniffer.

(** Decide the boolean tests of a goal and of its hypotheses. *)
Ltac bool_split :=
  repeat first
    [ progress simplify_eq
    | match goal with
      | H : _ && _ = true |- _ => apply andb_true_iff in H as [? ?]
      | H : negb _ = true |- _ => apply negb_true_iff in H
      | H : negb _ = false |- _ => apply negb_false_iff in H
      | H : (_ =? _) = true |- _ => apply Z.eqb_eq in H
      | H : (_ =? _) = false |- _ => apply Z.eqb_neq in H
      | H : (_ <? _) = true |- _ => apply Z.ltb_lt in H
      | H : (_ <? _) = false |- _ => apply Z.ltb_ge in H
      | H : (_ <=? _) = true |- _ => apply Z.leb_le in H
      | H : (_ <=? _) = false |- _ => apply Z.leb_gt in H
      end ].

(** Linear arithmetic with [/] and [mod] by constants. *)
Ltac divmod := Z.to_euclidean_division_equations; lia.
(** The same for [_ mod n] on [nat], innermost remainders first. *)
Ltac name_mod x n :=
  lazymatch x with
  | context [Nat.modulo _ _] => fail
  | _ =>
      let q := fresh "q" in
      let r := fresh "r" in
      pose proof (Nat.div_mod_eq x n);
      pose proof (Nat.mod_upper_bound x n ltac:(discriminate));
      set (q := Nat.div x n) in *; set (r := Nat.modulo x n) in *; clearbody q r
  end.
Ltac natmod :=
  repeat match goal with
         | |- context [Nat.modulo ?x ?n] => name_mod x n
         | _ : context [Nat.modulo ?x ?n] |- _ => name_mod x n
         end; lia.

(** Offsets below the modulus are told apart modulo it. *)
Lemma mod_inj_small (a m i j : nat) :
  (i < m)%nat -> (j < m)%nat -> ((a + i) mod m = (a + j) mod m)%nat -> i = j.
Proof.
  intros Hi Hj E. pose proof (Nat.div_mod_eq (a + i) m). pose proof (Nat.div_mod_eq (a + j) m).
  set (x := ((a + i) / m)%nat) in *. set (y := ((a + j) / m)%nat) in *. clearbody x y.
  destruct (lt_eq_lt_dec x y) as [[Hl|Hl]|Hl]; [|subst; lia|]; exfalso.
  - assert (m * (x + 1) <= m * y)%nat by (apply Nat.mul_le_mono_l; lia). lia.
  - assert (m * (y + 1) <= m * x)%nat by (apply Nat.mul_le_mono_l; lia). lia.
Qed.

(** Closes [Forall] facts about concrete lists of numbers. *)
Ltac forall_concrete :=
  repeat first [apply Forall_nil_2 | apply Forall_cons_2 | split | lia].

(** Split the first [if] or [match] of the goal. *)
Ltac split_ifs := repeat (case_match; bool_split).

(** ** Generic lemmas *)

Lemma u8_small z : 0 <= z < 256 -> u8 z = z.
Proof. apply Z.mod_small. Qed.
Lemma u16_small z : 0 <= z < 65536 -> u16 z = z.
Proof. apply Z.mod_small. Qed.
Lemma u32_small z : 0 <= z < 4294967296 -> u32 z = z.
Proof. apply Z.mod_small. Qed.
Lemma u64_small z : 0 <= z < 18446744073709551616 -> u64 z = z.
Proof. apply Z.mod_small. Qed.
Lemma u8_range z : 0 <= u8 z < 256.
Proof. apply Z.mod_pos_bound. lia. Qed.
Lemma u16_range z : 0 <= u16 z < 65536.
Proof. apply Z.mod_pos_bound. lia. Qed.
Lemma u32_range z : 0 <= u32 z < 4294967296.
Proof. apply Z.mod_pos_bound. lia. Qed.
Lemma u64_range z : 0 <= u64 z < 18446744073709551616.
Proof. apply Z.mod_pos_bound. lia. Qed.
Lemma s32_small z : -2147483648 <= z < 2147483648 -> s32 z = z.
Proof. intros. unfold s32. rewrite Z.mod_small; lia. Qed.
Lemma s64_small z :
  -9223372036854775808 <= z < 9223372036854775808 -> s64 z = z.
Proof. intros. unfold s64. rewrite Z.mod_small; lia. Qed.

#[export] Hint Resolve u8_range u16_range u32_range u64_range : sniffer.
#[export] Hint Rewrite u8_small u16_small u32_small u64_small s32_small s64_small
  using lia : sniffer.

(** A disjoint [lor] is a sum. *)
Lemma lor_shiftl_add a b n :
  0 <= n -> 0 <= a < 2 ^ n -> Z.lor a (Z.shiftl b n) = a + b * 2 ^ n.
Proof.
  intros Hn Ha.
  assert (Hd : Z.land a (Z.shiftl b n) = 0).
  { apply Z.bits_inj'. intros k Hk. rewrite Z.land_spec, Z.bits_0.
    destruct (Z.ltb_spec k n).
    - rewrite Z.shiftl_spec_low by done. apply andb_false_r.
    - rewrite <- (Z.mod_small a (2 ^ n)) by done.
      rewrite Z.mod_pow2_bits_high by lia. done. }
  rewrite <- Z.lxor_lor, <- Z.add_nocarry_lxor, Z.shiftl_mul_pow2; done || lia.
Qed.

Lemma land_ones_mod z n : 0 <= n -> Z.land z (Z.ones n) = z mod 2 ^ n.
Proof. apply Z.land_ones. Qed.

Lemma bytes_ok_app l k : bytes_ok (l ++ k) <-> bytes_ok l /\ bytes_ok k.
Proof. apply Forall_app. Qed.
Lemma bytes_ok_take n l : bytes_ok l -> bytes_ok (take n l).
Proof. apply Forall_take. Qed.
Lemma bytes_ok_drop n l : bytes_ok l -> bytes_ok (drop n l).
Proof. apply Forall_drop. Qed.
Lemma bytes_ok_lookup_total l i : bytes_ok l -> byte_ok (l !!! i).
Proof.
  intros H. destruct (l !! i) eqn:E.
  - rewrite (list_lookup_total_correct _ _ _ E). eapply Forall_lookup_1 in H; [|done]. done.
  - rewrite list_lookup_total_alt, E. cbn. lia.
Qed.
#[export] Hint Resolve bytes_ok_take bytes_ok_drop bytes_ok_lookup_total : sniffer.

(** ** Bits *)

Lemma has_bit x n : 0 <= n -> has x (2 ^ n) = Z.testbit x n.
Proof.
  intros Hn. unfold has.
  assert (Hl : Z.land x (2 ^ n) = if Z.testbit x n then 2 ^ n else 0).
  { apply Z.bits_inj'. intros k Hk. rewrite Z.land_spec.
    destruct (decide (k = n)) as [->|Hne].
    - rewrite Z.pow2_bits_true by done.
      destruct (Z.testbit x n) eqn:E; [by rewrite Z.pow2_bits_true|].
      by rewrite Z.bits_0.
    - rewrite Z.pow2_bits_false by done. rewrite andb_false_r.
      destruct (Z.testbit x n); [by rewrite Z.pow2_bits_false|by rewrite Z.bits_0]. }
  rewrite Hl. destruct (Z.testbit x n); [|done].
  pose proof (Z.pow_pos_nonneg 2 n). destruct (Z.eqb_spec (2 ^ n) 0); [lia|done].
Qed.

Lemma has_div x n : 0 <= n -> has x (2 ^ n) = negb ((x / 2 ^ n) mod 2 =? 0).
Proof.
  intros Hn. rewrite has_bit, <- Z.testbit_spec' by done. by destruct (Z.testbit x n).
Qed.

Lemma land_low x n : 0 <= n -> Z.land x (2 ^ n - 1) = x mod 2 ^ n.
Proof. intros. rewrite <- Z.land_ones by done. by rewrite Z.ones_equiv, Z.sub_1_r. Qed.

Lemma lxor_range x y n :
  0 <= n -> 0 <= x < 2 ^ n -> 0 <= y < 2 ^ n -> 0 <= Z.lxor x y < 2 ^ n.
Proof.
  intros Hn Hx Hy.
  rewrite <- (Z.mod_small x (2 ^ n)), <- (Z.mod_small y (2 ^ n)) by done.
  rewrite <- !Z.land_ones by done.
  assert (E : Z.lxor (Z.land x (Z.ones n)) (Z.land y (Z.ones n))
              = Z.land (Z.lxor x y) (Z.ones n)).
  { apply Z.bits_inj'. intros k Hk. rewrite !Z.lxor_spec, !Z.land_spec, Z.lxor_spec.
    by destruct (Z.testbit x k), (Z.testbit y k), (Z.testbit (Z.ones n) k). }
  rewrite E, Z.land_ones by done. apply Z.mod_pos_bound. lia.
Qed.

Lemma testbit_above z n k : 0 <= z < 2 ^ n -> n <= k -> 0 <= n -> Z.testbit z k = false.
Proof.
  intros Hz Hk Hn. rewrite <- (Z.mod_small z (2 ^ n)) by done.
  by rewrite Z.mod_pow2_bits_high by lia.
Qed.

Lemma lor_range x y n :
  0 <= n -> 0 <= x < 2 ^ n -> 0 <= y < 2 ^ n -> 0 <= Z.lor x y < 2 ^ n.
Proof.
  intros Hn Hx Hy.
  assert (E : Z.lor x y = Z.land (Z.lor x y) (Z.ones n)).
  { apply Z.bits_inj'. intros k Hk. rewrite Z.land_spec, Z.lor_spec.
    destruct (Z.lt_ge_cases k n).
    - rewrite Z.ones_spec_low by lia. by rewrite andb_true_r.
    - by rewrite !(testbit_above _ n) by (done || lia). }
  rewrite E, Z.land_ones by done. apply Z.mod_pos_bound. lia.
Qed.

(** Two n-bit words with the same bits are equal. *)
Lemma bits_inj_range x y n :
  0 <= n -> 0 <= x < 2 ^ n -> 0 <= y < 2 ^ n ->
  (forall k, 0 <= k < n -> Z.testbit x k = Z.testbit y k) -> x = y.
Proof.
  intros Hn Hx Hy H. apply Z.bits_inj'. intros k Hk.
  destruct (Z.lt_ge_cases k n); [by apply H|].
  by rewrite !(testbit_above _ n) by (done || lia).
Qed.

Lemma fold_left_map {A B C} (f : A -> B -> A) (g : C -> B) l a :
  fold_left f (map g l) a = fold_left (fun a x => f a (g x)) l a.
Proof. revert a. induction l as [|x l IH]; intros a; [done|]. apply IH. Qed.

(** ** Byte buffers

    [write_at b off d] is [memcpy(&b[off], d, length d)] into the buffer [b]. *)

Definition write_at {A} (b : list A) (off : nat) (d : list A) : list A :=
  take off b ++ d ++ drop (off + length d) b.

Definition memmove {A} (b : list A) (dst src n : nat) : list A :=
  write_at b dst (take n (drop src b)).

Lemma length_write_at {A} (b : list A) off d :
  (off + length d <= length b)%nat -> length (write_at b off d) = length b.
Proof. intros. unfold write_at. rewrite !length_app, length_take, length_drop. lia. Qed.

Lemma take_drop_write_at {A} (b : list A) off d n :
  (off + length d <= length b)%nat -> n = length d ->
  take n (drop off (write_at b off d)) = d.
Proof.
  intros Hl ->. unfold write_at.
  rewrite drop_app_length' by (rewrite length_take; lia).
  by rewrite take_app_length.
Qed.

(** Appending in place: a window that ends where the write begins grows by it. *)
Lemma window_append {A} (b : list A) off n d :
  (off + n + length d <= length b)%nat ->
  take (n + length d) (drop off (write_at b (off + n) d))
  = take n (drop off b) ++ d.
Proof.
  intros Hl. unfold write_at.
  rewrite drop_app_le by (rewrite length_take; lia).
  rewrite <- firstn_skipn_comm.
  assert (El : length (take n (drop off b)) = n) by (rewrite length_take, length_drop; lia).
  rewrite take_app_ge by lia. rewrite El. f_equal.
  rewrite take_app_le by lia. apply take_ge. lia.
Qed.

Lemma window_move_front {A} (b : list A) src n :
  (src + n <= length b)%nat ->
  take n (memmove b 0 src n) = take n (drop src b).
Proof.
  intros Hl. unfold memmove. apply (take_drop_write_at _ 0).
  all: rewrite length_take, length_drop; lia.
Qed.

Lemma length_memmove {A} (b : list A) dst src n :
  (dst + n <= length b)%nat -> (src + n <= length b)%nat ->
  length (memmove b dst src n) = length b.
Proof.
  intros. unfold memmove. apply length_write_at. rewrite length_take, length_drop. lia.
Qed.


Lemma lookup_total_take_lt {A} `{Inhabited A} (l : list A) n i :
  (i < n)%nat -> take n l !!! i = l !!! i.
Proof. intros. rewrite !list_lookup_total_alt. by rewrite lookup_take_lt. Qed.

Lemma write_at_front {A} `{Inhabited A} (d l : list A) i :
  (i < length l)%nat -> write_at d 0 l !!! i = l !!! i.
Proof.
  intros. unfold write_at. rewrite take_0. cbn [app].
  rewrite !list_lookup_total_alt. by rewrite lookup_app_l.
Qed.

(** ** Rings

    The [n] entries of a circular array of [m] slots from slot [first] on. *)

Section Ring.
Context {A : Type} `{!Inhabited A} (m : nat).
Implicit Type q : list A.

Definition ring q (first n : nat) : list A := map (fun i => q !!! ((first + i) mod m)%nat) (seq 0 n).

Lemma length_ring q first n : length (ring q first n) = n.
Proof. unfold ring. by rewrite length_map, length_seq. Qed.

Lemma ring_next a k : (((a + 1) mod m + k) mod m = (a + S k) mod m)%nat.
Proof. rewrite Nat.Div0.add_mod_idemp_l. f_equal. lia. Qed.

Lemma ring_cons q first n :
  (first < m)%nat -> (0 < n)%nat ->
  ring q first n = q !!! first :: ring q ((first + 1) mod m) (n - 1).
Proof.
  intros Hf Hn. unfold ring. destruct n as [|n]; [lia|].
  cbn [seq map]. rewrite Nat.add_0_r, Nat.mod_small by done. f_equal.
  replace (S n - 1)%nat with n by lia. rewrite <- seq_shift, map_map. apply map_ext.
  intros i. by rewrite ring_next.
Qed.

Lemma ring_snoc q first n x :
  length q = m -> (n < m)%nat ->
  ring (<[((first + n) mod m)%nat := x]> q) first (n + 1) = ring q first n ++ [x].
Proof.
  intros Hq Hn. unfold ring. rewrite Nat.add_1_r, seq_S, map_app. cbn [map]. f_equal.
  - apply map_ext_in. intros i Hi. apply in_seq in Hi. apply list_lookup_total_insert_ne.
    intros E. apply mod_inj_small in E; lia.
  - f_equal. apply list_lookup_total_insert_eq. rewrite Hq. apply Nat.mod_upper_bound. lia.
Qed.
End Ring.

(** *** A stack of free slots *)

Lemma take_pop {A} `{!Inhabited A} (l : list A) n :
  (0 < n)%nat -> (n <= length l)%nat -> take n l = take (n - 1) l ++ [l !!! (n - 1)%nat].
Proof.
  intros Hn Hl. destruct n as [|n]; [lia|]. replace (S n - 1)%nat with n by lia.
  destruct (lookup_lt_is_Some_2 l n ltac:(lia)) as [x Ex].
  by rewrite (take_S_r _ _ _ Ex), (list_lookup_total_correct _ _ _ Ex).
Qed.

Lemma take_push {A} (l : list A) n x :
  (n < length l)%nat -> take (n + 1) (<[n := x]> l) = take n l ++ [x].
Proof.
  intros Hn. rewrite Nat.add_1_r, (take_S_r _ _ x) by (apply list_lookup_insert_eq; lia).
  by rewrite take_insert_ge by lia.
Qed.

(** ** Checked stores

    A C array store at an index outside the array, or a [memcpy] past either
    buffer, is undefined behaviour: [None]. *)

Definition set_at {A} (l : list A) (i : Z) (x : A) : option (list A) :=
  if (0 <=? i) && (i <? Z.of_nat (length l)) then Some (<[Z.to_nat i := x]> l) else None.

(** [memcpy(dst, src, n)] *)
Definition copy_in {A} (dst src : list A) (n : Z) : option (list A) :=
  if (0 <=? n) && (n <=? Z.of_nat (length dst)) && (n <=? Z.of_nat (length src))
  then Some (write_at dst 0 (take (Z.to_nat n) src)) else None.

Lemma set_at_Some {A} (l : list A) i x :
  0 <= i < Z.of_nat (length l) -> set_at l i x = Some (<[Z.to_nat i := x]> l).
Proof.
  intros. unfold set_at. destruct (Z.leb_spec 0 i), (Z.ltb_spec i (Z.of_nat (length l))); done || lia.
Qed.

Lemma copy_in_Some {A} (dst src : list A) n :
  0 <= n <= Z.of_nat (length dst) -> n <= Z.of_nat (length src) ->
  copy_in dst src n = Some (write_at dst 0 (take (Z.to_nat n) src)).
Proof.
  intros. unfold copy_in.
  destruct (Z.leb_spec 0 n), (Z.leb_spec n (Z.of_nat (length dst))),
    (Z.leb_spec n (Z.of_nat (length src))); done || lia.
Qed.

Lemma bytes_ok_write_at b off d : bytes_ok b -> bytes_ok d -> bytes_ok (write_at b off d).
Proof. intros. unfold write_at. rewrite !bytes_ok_app. auto with sniffer. Qed.
Lemma bytes_ok_memmove b dst src n : bytes_ok b -> bytes_ok (memmove b dst src n).
Proof. intros. unfold memmove. apply bytes_ok_write_at; auto with sniffer. Qed.
#[export] Hint Resolve bytes_ok_write_at bytes_ok_memmove : sniffer.

Lemma bytes_ok_cstr s : bytes_ok (cstr s).
Proof.
  induction s as [|a s IH]; [constructor|]. cbn [cstr]. constructor; [|done].
  pose proof (nat_ascii_bounded a). lia.
Qed.
#[export] Hint Resolve bytes_ok_cstr : sniffer.
