(* ===== verification/OsCommon.v ===== *)
(** * Shared helpers (src/os_common.c)

    The pseudo-random sequence of the transfer-rate test, the substring search of
    the bitstream parser, the host's clock and the routing of log lines. *)

From Stdlib Require Import Btauto String.
From S2P Require Import Prelude.
Local Open Scope list_scope.

(** ** [os_rand16]: one step of a 16-bit xorshift *)

(** The static variable at program start. *)
Definition rand_state0 : Z := 0x6c41.

Definition os_rand16 (state seed : Z) : Z :=
  let state := if seed =? 0 then state else seed in
  let state := u16 (Z.lxor state (Z.shiftl state 7)) in
  let state := u16 (Z.lxor state (Z.shiftr state 9)) in
  u16 (Z.lxor state (Z.shiftl state 8)).

(** The three steps undone, last one first. *)
Definition rand_back (s : Z) : Z :=
  let s := u16 (Z.lxor s (Z.shiftl s 8)) in
  let s := u16 (Z.lxor s (Z.shiftr s 9)) in
  u16 (Z.lxor (Z.lxor s (Z.shiftl s 7)) (Z.shiftl s 14)).

(** ** [find_str] *)

(** The loop over the start offsets, [i] the first and [n] their number. *)
Fixpoint find_from (buf str : list Z) (i n : nat) : option nat :=
  match n with
  | O => None
  | S n =>
      if decide (take (length str) (drop i buf) = str) then Some i else find_from buf str (S i) n
  end.

(** The offset of the result in [buf]; [size] is the length given. *)
Definition find_str (buf : list Z) (size : Z) (str : list Z) : option nat :=
  let len := Z.of_nat (length str) in
  if (size =? 0) || (len =? 0) || (size <? len) then None
  else find_from buf str 0 (Z.to_nat (size - len + 1)).

(** ** The host's clock *)

(** [os_get_time_ms] from the fields of [struct timeval]. *)
Definition os_get_time_ms (tv_sec tv_usec : Z) : Z := tv_sec * 1000 + Z.quot tv_usec 1000.

Definition os_get_time (tv_sec tv_usec : Z) : Z := os_get_time_ms tv_sec tv_usec.

(** [os_sleep]: the [struct timespec] given to [nanosleep]. *)
Definition os_sleep (ms : Z) : Z * Z := (Z.quot ms 1000, Z.rem ms 1000 * 1000000).

(** ** Where a log line goes *)

Inductive log_dest := Log_stderr | Log_file (name : list Z).

(** [g_log_quiet] and [g_log_fd]. *)
Record log_state := mk_log { g_log_quiet : bool; g_log_fd : option (list Z) }.
#[export] Instance log_settable : Settable log_state := fun l =>
  mk_log (g_log_quiet l) (g_log_fd l).

Definition log_set_quiet (quiet : bool) (l : log_state) : log_state := l <| g_log_quiet := quiet |>.

(** [err] is the text of the error of [fopen], [None] when it succeeds. *)
Definition log_open_file (err : option (list Z)) (name : option (list Z)) (l : log_state)
    : log_state * list (log_dest * list Z) :=
  match name with
  | None | Some [] => (l, [])
  | Some name =>
      match err with
      | None => (l <| g_log_fd := Some name |>, [])
      | Some e =>
          (l <| g_log_fd := None |>,
           [(Log_stderr, cstr "Error: could not open log file '" ++ name ++ cstr "': " ++ e)])
      end
  end.

Definition log_print (l : log_state) (line : list Z) : list (log_dest * list Z) :=
  if g_log_quiet l && negb (bool_decide (is_Some (g_log_fd l))) then []
  else [(match g_log_fd l with Some name => Log_file name | None => Log_stderr end, line)].

(** ** The sequence *)

Lemma os_rand16_range state seed : 0 <= os_rand16 state seed < 65536.
Proof. apply u16_range. Qed.

(** The bits of the words the sequence is made of. *)
Lemma testbit_u16 z i : 0 <= i -> Z.testbit (u16 z) i = Z.testbit z i && (i <? 16).
Proof.
  intros Hi. unfold u16. change 65536 with (2 ^ 16). destruct (Z.ltb_spec i 16).
  - by rewrite Z.mod_pow2_bits_low, andb_true_r by lia.
  - by rewrite Z.mod_pow2_bits_high, andb_false_r by lia.
Qed.

Lemma testbit_shl s k i : 0 <= i -> Z.testbit (Z.shiftl s k) i = Z.testbit s (i - k).
Proof. intros Hi. by apply Z.shiftl_spec. Qed.

Lemma testbit_word s i : 0 <= s < 65536 -> i < 0 \/ 16 <= i -> Z.testbit s i = false.
Proof.
  intros Hs [Hi|Hi]; [by apply Z.testbit_neg_r|]. apply (testbit_above _ 16); [exact Hs|lia|lia].
Qed.

(** Push [Z.testbit] at a numeral down to the bits of the state [s]. *)
Ltac bit_words s :=
  repeat first
    [ rewrite testbit_u16 by lia | rewrite Z.lxor_spec | rewrite testbit_shl by lia
    | rewrite Z.shiftr_spec by lia | rewrite andb_true_r | rewrite andb_false_r
    | rewrite xorb_false_r
    | match goal with
      | |- context [Z.testbit s ?k] => rewrite (testbit_word s k) by lia
      | |- context [Z.ltb ?a ?b] => let e := eval vm_compute in (Z.ltb a b) in change (Z.ltb a b) with e
      | |- context [Z.testbit ?z (?a - ?b)] =>
          let e := eval vm_compute in (a - b) in
          progress change (Z.testbit z (a - b)) with (Z.testbit z e)
      | |- context [Z.testbit ?z (?a + ?b)] =>
          let e := eval vm_compute in (a + b) in
          progress change (Z.testbit z (a + b)) with (Z.testbit z e)
      | |- context [Z.testbit ?z (Z.neg ?k)] => rewrite (Z.testbit_neg_r z (Z.neg k)) by lia
      end ].

Lemma rand_back_step s : 0 <= s < 65536 -> rand_back (os_rand16 s 0) = s.
Proof.
  intros Hs. apply (bits_inj_range _ _ 16); [lia|apply u16_range|exact Hs|].
  intros i Hi. unfold rand_back, os_rand16. cbn [Z.eqb].
  assert (Hc : i = 0 \/ i = 1 \/ i = 2 \/ i = 3 \/ i = 4 \/ i = 5 \/ i = 6 \/ i = 7
               \/ i = 8 \/ i = 9 \/ i = 10 \/ i = 11 \/ i = 12 \/ i = 13 \/ i = 14 \/ i = 15) by lia.
  destruct_or! Hc; subst i; bit_words s; btauto.
Qed.

Lemma os_rand16_seed s seed : os_rand16 s seed = os_rand16 (if seed =? 0 then s else seed) 0.
Proof. unfold os_rand16. by destruct (seed =? 0). Qed.

(** The generator steps through the non-zero words without repeating itself
    before it has to: a step can be undone, so two states never meet, and zero is
    reached only from zero; a seed replaces the state first. *)
Theorem os_rand16_reversible s seed :
  0 <= s < 65536 -> 0 <= seed < 65536 ->
  rand_back (os_rand16 s seed) = (if seed =? 0 then s else seed)
  /\ (os_rand16 s seed = 0 <-> s = 0 /\ seed = 0).
Proof.
  intros Hs Hd. rewrite os_rand16_seed. set (t := if seed =? 0 then s else seed).
  assert (Ht : 0 <= t < 65536) by (subst t; by destruct (seed =? 0)).
  split; [by apply rand_back_step|].
  transitivity (t = 0).
  - split; [|by intros ->]. intros E. rewrite <- (rand_back_step t Ht), E. reflexivity.
  - subst t. destruct (Z.eqb_spec seed 0); lia.
Qed.

Lemma os_rand16_reversible_witness :
  rand_back (os_rand16 rand_state0 0) = rand_state0 /\ os_rand16 rand_state0 0 <> 0.
Proof.
  destruct (os_rand16_reversible rand_state0 0) as [E Z0];
    [unfold rand_state0; lia|lia|]. split; [exact E|].
  intros E0. apply Z0 in E0. destruct E0 as [E0 _]. discriminate E0.
Defined.

(** ** The search *)

(** [str] occurs in [buf] at offset [i]. *)
Definition occurs_at (buf str : list Z) (i : nat) : Prop := take (length str) (drop i buf) = str.

Lemma find_from_spec buf str n i :
  match find_from buf str i n with
  | Some k => (i <= k < i + n)%nat /\ occurs_at buf str k /\ forall j, (i <= j < k)%nat -> ~ occurs_at buf str j
  | None => forall j, (i <= j < i + n)%nat -> ~ occurs_at buf str j
  end.
Proof.
  revert i. induction n as [|n IH]; intros i; cbn [find_from]; [intros j; lia|].
  case_decide as Hd.
  - split; [lia|]. split; [exact Hd|]. intros j; lia.
  - specialize (IH (S i)). destruct (find_from buf str (S i) n) as [k|].
    + destruct IH as (Hk & Ho & Hf). split; [lia|]. split; [done|].
      intros j Hj. destruct (decide (j = i)) as [->|Hne]; [exact Hd|apply Hf; lia].
    + intros j Hj. destruct (decide (j = i)) as [->|Hne]; [exact Hd|apply IH; lia].
Qed.

(** An occurrence lies inside the buffer. *)
Lemma occurs_at_fits buf str i : str <> [] -> occurs_at buf str i -> (i + length str <= length buf)%nat.
Proof.
  unfold occurs_at. intros Hs E. apply (f_equal length) in E. rewrite length_take, length_drop in E.
  destruct str; [done|]. cbn [length] in *. lia.
Qed.

(** The search returns the first occurrence of a non-empty string, the match
    that ends at the end of the buffer included, and nothing exactly when there is
    none; the match lies inside the buffer. *)
Theorem find_str_first buf str :
  str <> [] ->
  match find_str buf (Z.of_nat (length buf)) str with
  | Some k => (k + length str <= length buf)%nat /\ occurs_at buf str k
              /\ forall j, (j < k)%nat -> ~ occurs_at buf str j
  | None => forall j, ~ occurs_at buf str j
  end.
Proof.
  intros Hs. unfold find_str.
  assert (Hl : (0 < length str)%nat) by (destruct str; [done|cbn; lia]).
  destruct (Z.ltb_spec (Z.of_nat (length buf)) (Z.of_nat (length str))) as [Hlt|Hle].
  { rewrite orb_true_r. intros j Ho. apply occurs_at_fits in Ho; [lia|done]. }
  destruct (Z.eqb_spec (Z.of_nat (length buf)) 0); [lia|].
  destruct (Z.eqb_spec (Z.of_nat (length str)) 0); [lia|]. cbn [orb].
  pose proof (find_from_spec buf str (Z.to_nat (Z.of_nat (length buf) - Z.of_nat (length str) + 1)) 0) as H.
  destruct (find_from _ _ _ _) as [k|].
  - destruct H as (Hk & Ho & Hf). split; [lia|]. split; [done|]. intros j Hj. apply Hf. lia.
  - intros j Ho. apply (H j); [|exact Ho]. apply occurs_at_fits in Ho; [lia|done].
Qed.

Lemma find_str_first_witness :
  find_str [7; 1; 2; 1; 2] 5 [1; 2] = Some 1%nat
  /\ (1 + 2 <= 5)%nat /\ occurs_at [7; 1; 2; 1; 2] [1; 2] 1
  /\ forall j, (j < 1)%nat -> ~ occurs_at [7; 1; 2; 1; 2] [1; 2] j.
Proof.
  split; [reflexivity|].
  exact (find_str_first [7; 1; 2; 1; 2] [1; 2] ltac:(discriminate)).
Defined.

(** A routine line reaches stderr only outside a capture session or before the
    session is told apart, never once the log goes to a file. *)
Lemma log_print_stderr l line d :
  In (Log_stderr, d) (log_print l line) -> g_log_quiet l = false /\ g_log_fd l = None.
Proof.
  unfold log_print. destruct l as [[] [f|]]; cbn; intuition (discriminate || done).
Qed.
