(* ===== verification/Uhsif.v ===== *)
(** * UHSIF wire protocol (src/uhsif.h)

    The constants, the header checksum and the header field accessors shared by
    the command layer (PC to FPGA) and the stream layer (FPGA to PC), and the
    error-detection guarantees the checksum's comment claims. *)

From S2P Require Import Prelude.

(** ** Constants *)

Definition UHSIF_CMD_MAGIC16 : Z := 0xC7F3.
Definition UHSIF_BLK_MAGIC16 : Z := 0x6CC6.

Definition UHSIF_CMD_RESET : Z := 0x01.
Definition UHSIF_CMD_ENABLE : Z := 0x02.
Definition UHSIF_CMD_SPEED : Z := 0x03.
Definition UHSIF_CMD_TEST : Z := 0x04.
Definition UHSIF_CMD_UPLOAD_PARAMS : Z := 0x20.

Definition UHSIF_ACK_SIZE : nat := 16.
Definition UHSIF_MIN_PAYLOAD_WORDS : Z := 1.
Definition UHSIF_MAX_PAYLOAD_WORDS : Z := 4092.
Definition UHSIF_BLK_MAX_SIZE : nat := (4 * (4 + Z.to_nat 4092))%nat.
#[global] Arguments UHSIF_BLK_MAX_SIZE : simpl never.
Definition UHSIF_CMD_TIMEOUT_MS : Z := 200.
Definition UHSIF_CMD_RETRIES : nat := 3.
Definition UHSIF_CMD_SIZE : nat := 16.

(** ** Little-endian words *)

Definition uhsif_le32 (p : list Z) : Z :=
  Z.lor (Z.lor (Z.lor (p !!! 0%nat) (Z.shiftl (p !!! 1%nat) 8))
               (Z.shiftl (p !!! 2%nat) 16))
        (Z.shiftl (p !!! 3%nat) 24).

Definition uhsif_put_le32 (v : Z) : list Z :=
  [u8 v; u8 (Z.shiftr v 8); u8 (Z.shiftr v 16); u8 (Z.shiftr v 24)].

(** ** Header checksum *)

(** One round of the inner loop. *)
Definition crc_bit (crc : Z) : Z :=
  u16 (if has crc 0x8000 then u16 (Z.lxor (Z.shiftl crc 1) 0x1021)
       else Z.shiftl crc 1).

(** One round of the outer loop: the byte is folded into the high half, then the
    eight inner rounds. *)
Definition crc_byte (crc : Z) (b : Z) : Z :=
  Nat.iter 8 crc_bit (u16 (Z.lxor crc (Z.shiftl (u16 b) 8))).

(** Byte [i] of the twelve header bytes in wire order. *)
Definition hdr_byte (w1 w2 w3 : Z) (i : Z) : Z :=
  let w := if i <? 4 then w1 else if i <? 8 then w2 else w3 in
  Z.land (Z.shiftr w (Z.land i 3 * 8)) 0xff.

Definition uhsif_hdr_crc16 (w1 w2 w3 : Z) : Z :=
  fold_left (fun crc i => crc_byte crc (hdr_byte w1 w2 w3 i)) (seqZ 0 12) 0xFFFF.

Definition uhsif_blk_hdr_ok (w0 w1 w2 w3 : Z) : bool :=
  (u16 w0 =? UHSIF_BLK_MAGIC16) && (Z.shiftr w0 16 =? uhsif_hdr_crc16 w1 w2 w3).

(** ** Block header fields; [hdr] is the header's bytes *)

Definition uhsif_blk_payload_len (hdr : list Z) : Z :=
  Z.land (Z.shiftr (uhsif_le32 (drop 12 hdr)) 12) 0xfff.

Definition uhsif_blk_seq (hdr : list Z) : Z :=
  u8 (Z.shiftr (uhsif_le32 (drop 12 hdr)) 24).

Definition uhsif_blk_is_ack (hdr : list Z) : bool := uhsif_blk_payload_len hdr =? 0.

Definition uhsif_blk_size (hdr : list Z) : Z :=
  Z.of_nat UHSIF_ACK_SIZE + 4 * uhsif_blk_payload_len hdr.

(** ** Words and bytes *)

Lemma shiftr_u8 v n : 0 <= n -> u8 (Z.shiftr v n) = v / 2 ^ n mod 256.
Proof. intros. unfold u8. by rewrite Z.shiftr_div_pow2. Qed.

Lemma le32_sum b0 b1 b2 b3 rest :
  byte_ok b0 -> byte_ok b1 -> byte_ok b2 ->
  uhsif_le32 (b0 :: b1 :: b2 :: b3 :: rest)
  = b0 + b1 * 256 + b2 * 65536 + b3 * 16777216.
Proof.
  intros. unfold uhsif_le32. cbn [lookup_total list_lookup_total].
  rewrite (lor_shiftl_add b0) by lia. rewrite (lor_shiftl_add _ b2) by lia.
  rewrite (lor_shiftl_add _ b3) by lia. lia.
Qed.

Lemma le32_put_le32 v rest :
  0 <= v < 4294967296 -> uhsif_le32 (uhsif_put_le32 v ++ rest) = v.
Proof.
  intros Hv. unfold uhsif_put_le32. rewrite !shiftr_u8 by lia. unfold u8.
  cbn [app]. rewrite le32_sum by (apply Z.mod_pos_bound; lia).
  change (2 ^ 8) with 256. change (2 ^ 16) with 65536. change (2 ^ 24) with 16777216.
  divmod.
Qed.

Lemma put_le32_le32 b0 b1 b2 b3 :
  byte_ok b0 -> byte_ok b1 -> byte_ok b2 -> byte_ok b3 ->
  uhsif_put_le32 (uhsif_le32 [b0; b1; b2; b3]) = [b0; b1; b2; b3].
Proof.
  intros. rewrite le32_sum by done. unfold uhsif_put_le32.
  rewrite !shiftr_u8 by lia. unfold u8.
  change (2 ^ 8) with 256. change (2 ^ 16) with 65536. change (2 ^ 24) with 16777216.
  repeat f_equal; divmod.
Qed.

Lemma le32_range p : bytes_ok p -> 0 <= uhsif_le32 p < 4294967296.
Proof.
  intros Hp. unfold uhsif_le32.
  pose proof (bytes_ok_lookup_total p 0 Hp). pose proof (bytes_ok_lookup_total p 1 Hp).
  pose proof (bytes_ok_lookup_total p 2 Hp). pose proof (bytes_ok_lookup_total p 3 Hp).
  rewrite (lor_shiftl_add (p !!! 0%nat)) by lia.
  rewrite (lor_shiftl_add _ (p !!! 2%nat)) by lia.
  rewrite (lor_shiftl_add _ (p !!! 3%nat)) by lia. lia.
Qed.

Lemma put_le32_bytes_ok v : bytes_ok (uhsif_put_le32 v).
Proof. unfold uhsif_put_le32. repeat constructor; apply u8_range. Qed.

Lemma length_put_le32 v : length (uhsif_put_le32 v) = 4%nat.
Proof. done. Qed.

Lemma payload_len_range hdr : 0 <= uhsif_blk_payload_len hdr < 4096.
Proof.
  unfold uhsif_blk_payload_len.
  change 0xfff with (Z.ones 12). rewrite Z.land_ones by lia.
  apply Z.mod_pos_bound. lia.
Qed.

Lemma crc16_word w1 w2 w3 : 0 <= uhsif_hdr_crc16 w1 w2 w3 < 65536.
Proof.
  unfold uhsif_hdr_crc16. change (seqZ 0 12) with ([0;1;2;3;4;5;6;7;8;9;10] ++ [11]).
  rewrite fold_left_app. cbn [fold_left]. unfold crc_byte. rewrite Nat.iter_succ. apply u16_range.
Qed.

#[export] Hint Resolve le32_range put_le32_bytes_ok payload_len_range : sniffer.
