(* ===== verification/Crc.v ===== *)
(** * Error detection of the UHSIF header checksum

    The comment of [uhsif_hdr_crc16] (src/uhsif.h) promises that the CRC detects
    every burst of at most 16 bits and every error with an odd number of bits.
    The register is linear over exclusive-or, one round of it is injective and
    keeps the parity; both promises follow. *)

From Stdlib Require Import Btauto.
From S2P Require Import Prelude Uhsif.

(** ** One round *)

Lemma crc_bit_range x : 0 <= crc_bit x < 65536.
Proof. apply u16_range. Qed.

Lemma crc_bit_spec x k :
  0 <= x < 65536 -> 0 <= k < 16 ->
  Z.testbit (crc_bit x) k
  = xorb (Z.testbit x (k - 1)) (Z.testbit x 15 && Z.testbit 0x1021 k).
Proof.
  intros Hx Hk. unfold crc_bit.
  change 0x8000 with (2 ^ 15). rewrite has_bit by lia.
  unfold u16. change 65536 with (2 ^ 16).
  destruct (Z.testbit x 15); rewrite !Z.mod_pow2_bits_low by lia.
  - rewrite Z.lxor_spec, Z.shiftl_spec by lia. done.
  - rewrite Z.shiftl_spec by lia. by rewrite xorb_false_r.
Qed.

Lemma crc_bit_lxor x y :
  0 <= x < 65536 -> 0 <= y < 65536 ->
  crc_bit (Z.lxor x y) = Z.lxor (crc_bit x) (crc_bit y).
Proof.
  intros Hx Hy. pose proof (crc_bit_range x). pose proof (crc_bit_range y).
  pose proof (crc_bit_range (Z.lxor x y)).
  pose proof (lxor_range x y 16 ltac:(lia) Hx Hy).
  apply (bits_inj_range _ _ 16); [lia|done|by apply lxor_range|].
  intros k Hk. rewrite Z.lxor_spec, !crc_bit_spec, !Z.lxor_spec by done.
  destruct (Z.testbit x 15), (Z.testbit y 15), (Z.testbit x (k - 1)),
    (Z.testbit y (k - 1)), (Z.testbit 0x1021 k); done.
Qed.

(** No nonzero register is shifted to zero: the polynomial's low bit is set. *)
Lemma crc_bit_nonzero x : 0 <= x < 65536 -> crc_bit x = 0 -> x = 0.
Proof.
  intros Hx H0.
  assert (Hb : forall k, 0 <= k < 16 -> Z.testbit (crc_bit x) k = false)
    by (intros; by rewrite H0, Z.bits_0).
  assert (H15 : Z.testbit x 15 = false).
  { specialize (Hb 0 ltac:(lia)). rewrite crc_bit_spec in Hb by lia.
    change (0 - 1) with (-1) in Hb. rewrite Z.testbit_neg_r in Hb by lia.
    change (Z.testbit 0x1021 0) with true in Hb.
    by destruct (Z.testbit x 15). }
  apply (bits_inj_range _ _ 16); try lia.
  intros k Hk. rewrite Z.bits_0. destruct (decide (k = 15)) as [->|]; [done|].
  specialize (Hb (k + 1) ltac:(lia)). rewrite crc_bit_spec, H15 in Hb by lia.
  rewrite xorb_false_r in Hb. by replace (k + 1 - 1) with k in Hb by lia.
Qed.

Abbreviation word16 x := (0 <= x < 65536) (only parsing).

Definition crc_shift (n : nat) (s : Z) : Z := Nat.iter n crc_bit s.

Lemma crc_shift_S n s : crc_shift (S n) s = crc_bit (crc_shift n s).
Proof. done. Qed.
Lemma crc_shift_S_r n s : crc_shift (S n) s = crc_shift n (crc_bit s).
Proof. apply Nat.iter_succ_r. Qed.
Lemma crc_shift_range n s : word16 s -> word16 (crc_shift n s).
Proof. intros. destruct n; [done|]. apply crc_bit_range. Qed.
#[local] Hint Resolve crc_bit_range crc_shift_range : sniffer.

Lemma lxor_word16 x y : word16 x -> word16 y -> word16 (Z.lxor x y).
Proof. apply (lxor_range x y 16). lia. Qed.
#[local] Hint Resolve lxor_word16 : sniffer.

Lemma crc_shift_lxor n x y :
  word16 x -> word16 y ->
  crc_shift n (Z.lxor x y) = Z.lxor (crc_shift n x) (crc_shift n y).
Proof.
  intros Hx Hy. induction n as [|n IH]; [done|].
  rewrite !crc_shift_S, IH. apply crc_bit_lxor; auto with sniffer.
Qed.

Lemma crc_shift_nonzero n x : word16 x -> crc_shift n x = 0 -> x = 0.
Proof.
  intros Hx. induction n as [|n IH]; [done|].
  rewrite crc_shift_S. intros H. apply crc_bit_nonzero in H; auto with sniffer.
Qed.

(** ** The register as a bit-serial machine *)

Definition crc_in (s : Z) (b : bool) : Z := crc_bit (Z.lxor s (if b then 0x8000 else 0)).
Definition crc_bits (s : Z) (bs : list bool) : Z := fold_left crc_in bs s.

(** The bits of a byte in transmission order of the checksum, MSB first. *)
Definition byte_bits (b : Z) : list bool :=
  map (Z.testbit b) [7; 6; 5; 4; 3; 2; 1; 0].
Definition msg_bits (m : list Z) : list bool := concat (map byte_bits m).

(** The checksum over a list of bytes from an arbitrary initial register. *)
Definition crc_msg (init : Z) (m : list Z) : Z := fold_left crc_byte m init.

(** The first [length bs <= 16] bits, left-aligned in a 16-bit register. *)
Fixpoint align (bs : list bool) : Z :=
  match bs with
  | [] => 0
  | b :: bs => Z.lxor (if b then 0x8000 else 0) (Z.shiftr (align bs) 1)
  end.

Lemma word16_b (b : bool) : word16 (if b then 0x8000 else 0).
Proof. destruct b; lia. Qed.
#[local] Hint Resolve word16_b : sniffer.

Lemma align_range bs : word16 (align bs).
Proof.
  induction bs as [|b bs IH]; [cbn; lia|]. cbn [align].
  apply lxor_word16; [apply word16_b|].
  rewrite Z.shiftr_div_pow2 by lia. change (2 ^ 1) with 2. divmod.
Qed.
#[local] Hint Resolve align_range : sniffer.

Lemma testbit_8000 (b : bool) k : Z.testbit (if b then 0x8000 else 0) k = b && (k =? 15).
Proof.
  destruct b; [|by rewrite Z.bits_0]. change 0x8000 with (2 ^ 15).
  destruct (Z.eqb_spec k 15) as [->|]; [done|]. apply Z.pow2_bits_false. lia.
Qed.

(** Bit [15 - i] of the aligned word is bit [i] of the sequence. *)
Lemma align_testbit bs k :
  0 <= k < 16 ->
  Z.testbit (align bs) k = default false (bs !! Z.to_nat (15 - k)).
Proof.
  revert k. induction bs as [|b bs IH]; intros k Hk; cbn [align].
  { by rewrite Z.bits_0, lookup_nil. }
  rewrite Z.lxor_spec, testbit_8000, Z.shiftr_spec by lia.
  destruct (Z.eqb_spec k 15) as [->|].
  - rewrite (testbit_above (align bs) 16) by (auto with sniffer || lia).
    cbn. by destruct b.
  - rewrite andb_false_r, IH by lia.
    replace (Z.to_nat (15 - k)) with (S (Z.to_nat (15 - (k + 1)))) by lia.
    cbn. by destruct (default _ _).
Qed.

(** Feeding at most 16 bits is shifting them in from an aligned register. *)
Lemma crc_bits_align bs s :
  word16 s -> (length bs <= 16)%nat ->
  crc_bits s bs = crc_shift (length bs) (Z.lxor s (align bs)).
Proof.
  revert s. induction bs as [|b bs IH]; intros s Hs Hl; cbn [length align] in *.
  { cbn. by rewrite Z.lxor_0_r. }
  change (crc_bits s (b :: bs)) with (crc_bits (crc_in s b) bs).
  unfold crc_in. rewrite IH by (auto with sniffer || lia).
  rewrite crc_shift_S_r. f_equal.
  rewrite <- Z.lxor_assoc.
  assert (Hr : word16 (Z.shiftr (align bs) 1)).
  { pose proof (align_range bs). rewrite Z.shiftr_div_pow2 by lia.
    change (2 ^ 1) with 2. divmod. }
  rewrite (crc_bit_lxor (Z.lxor s _)) by auto with sniffer. f_equal.
  apply (bits_inj_range _ _ 16); auto with sniffer; [lia|].
  intros k Hk. rewrite crc_bit_spec by done.
  rewrite (Z.shiftr_spec _ 1 15) by lia.
  rewrite (testbit_above (align bs) 16 (15 + 1)) by (auto with sniffer || lia).
  rewrite andb_false_l, xorb_false_r.
  destruct (decide (k = 0)) as [->|].
  - rewrite (Z.testbit_neg_r (Z.shiftr _ _)), align_testbit by lia.
    rewrite lookup_ge_None_2; [done|]. lia.
  - by rewrite Z.shiftr_spec, Z.sub_add by lia.
Qed.

(** ** Bytes *)

Lemma crc_bits_app s a b : crc_bits s (a ++ b) = crc_bits (crc_bits s a) b.
Proof. apply fold_left_app. Qed.
Lemma crc_bits_range s bs : word16 s -> word16 (crc_bits s bs).
Proof.
  revert s. induction bs as [|b bs IH]; intros s Hs; [done|].
  apply IH. apply crc_bit_range.
Qed.
#[local] Hint Resolve crc_bits_range : sniffer.

Lemma shiftl8_range b : byte_ok b -> word16 (Z.shiftl b 8).
Proof. intros. rewrite Z.shiftl_mul_pow2 by lia. change (2 ^ 8) with 256. lia. Qed.

Lemma align_byte b : byte_ok b -> align (byte_bits b) = Z.shiftl b 8.
Proof.
  intros Hb.
  pose proof (shiftl8_range b Hb) as Hr.
  apply (bits_inj_range _ _ 16); auto with sniffer; [lia|].
  intros k Hk. rewrite align_testbit, Z.shiftl_spec by lia.
  unfold byte_bits.
  destruct (decide (k < 8)).
  - rewrite lookup_ge_None_2 by (cbn; lia). by rewrite Z.testbit_neg_r by lia.
  - assert (k = 8 \/ k = 9 \/ k = 10 \/ k = 11 \/ k = 12 \/ k = 13 \/ k = 14 \/ k = 15)
      as Hc by lia.
    by repeat (destruct Hc as [->|Hc]); [..|subst].
Qed.

(** The table-free byte update of the code is eight bit-serial rounds. *)
Lemma crc_byte_bits s b : word16 s -> byte_ok b -> crc_byte s b = crc_bits s (byte_bits b).
Proof.
  intros Hs Hb. rewrite crc_bits_align by (done || (cbn; lia)).
  rewrite align_byte by done. unfold crc_byte. cbn [length byte_bits map].
  rewrite (u16_small b) by lia. rewrite u16_small; [done|].
  apply lxor_word16; [done|]. by apply shiftl8_range.
Qed.

Lemma crc_msg_bits s m :
  word16 s -> bytes_ok m -> crc_msg s m = crc_bits s (msg_bits m).
Proof.
  intros Hs Hm. revert s Hs. induction Hm as [|b m Hb Hm IH]; intros s Hs; [done|].
  change (crc_msg s (b :: m)) with (crc_msg (crc_byte s b) m).
  unfold msg_bits. cbn [map concat]. rewrite crc_bits_app, <- crc_byte_bits by done.
  apply IH. rewrite crc_byte_bits by done. auto with sniffer.
Qed.

(** Linearity: an error pattern changes the checksum by its own checksum from a
    zero register. *)
Lemma crc_bits_lxor s t a b :
  word16 s -> word16 t -> length a = length b ->
  crc_bits (Z.lxor s t) (zip_with xorb a b) = Z.lxor (crc_bits s a) (crc_bits t b).
Proof.
  revert s t b. induction a as [|x a IH]; intros s t [|y b] Hs Ht Hl; try done.
  cbn [zip_with]. cbn [length] in Hl.
  change (crc_bits ?s (?x :: ?a)) with (crc_bits (crc_in s x) a).
  rewrite <- IH by (apply crc_bit_range || lia). f_equal. unfold crc_in.
  rewrite <- crc_bit_lxor by auto with sniffer. f_equal.
  apply Z.bits_inj'. intros k Hk. rewrite !Z.lxor_spec, !testbit_8000.
  by destruct x, y, (Z.testbit s k), (Z.testbit t k), (k =? 15).
Qed.

Lemma crc_bits_zeros n s : crc_bits s (replicate n false) = crc_shift n s.
Proof.
  revert s. induction n as [|n IH]; intros s; [done|].
  rewrite crc_shift_S_r, <- IH. cbn. unfold crc_in. by rewrite Z.lxor_0_r.
Qed.

Lemma align_zero bs :
  (length bs <= 16)%nat -> align bs = 0 -> bs = replicate (length bs) false.
Proof.
  intros Hl H0. apply list_eq. intros i.
  destruct (decide (i < length bs)%nat) as [Hi|Hi].
  - destruct (lookup_lt_is_Some_2 bs i Hi) as [b Hb].
    rewrite Hb, lookup_replicate_2 by done. f_equal.
    pose proof (align_testbit bs (15 - Z.of_nat i) ltac:(lia)) as Ht.
    rewrite H0, Z.bits_0 in Ht.
    replace (Z.to_nat (15 - (15 - Z.of_nat i))) with i in Ht by lia.
    rewrite Hb in Ht. by cbn in Ht.
  - rewrite !lookup_ge_None_2; rewrite ?length_replicate; done || lia.
Qed.

(** A burst of at most 16 bits anywhere in the message leaves a nonzero register. *)
Lemma crc_bits_burst p q mid :
  (length mid <= 16)%nat -> mid <> replicate (length mid) false ->
  crc_bits 0 (replicate p false ++ mid ++ replicate q false) <> 0.
Proof.
  intros Hl Hne H0. rewrite !crc_bits_app, !crc_bits_zeros in H0.
  assert (Hz : crc_shift p 0 = 0) by (clear; induction p as [|p IH]; [done|by rewrite crc_shift_S, IH]).
  rewrite Hz in H0. apply crc_shift_nonzero in H0; [|apply crc_bits_range; lia].
  rewrite crc_bits_align in H0 by lia. rewrite Z.lxor_0_l in H0.
  apply crc_shift_nonzero in H0; [|apply align_range].
  apply Hne, align_zero; done.
Qed.

(** ** Parity *)

Definition parity16 (x : Z) : bool := fold_right xorb false (map (Z.testbit x) (seqZ 0 16)).
Definition parity (bs : list bool) : bool := fold_right xorb false bs.

Lemma parity16_crc_bit x : word16 x -> parity16 (crc_bit x) = parity16 x.
Proof.
  intros Hx. unfold parity16.
  change (seqZ 0 16) with [0;1;2;3;4;5;6;7;8;9;10;11;12;13;14;15].
  cbn [map fold_right]. rewrite !crc_bit_spec by lia.
  change (0 - 1) with (-1). rewrite Z.testbit_neg_r by lia. cbn [Z.sub Z.add Z.opp Z.pos_sub Pos.pred_double].
  repeat match goal with |- context [Z.testbit 0x1021 ?k] =>
    let v := eval vm_compute in (Z.testbit 0x1021 k) in
    change (Z.testbit 0x1021 k) with v end.
  rewrite ?andb_false_r, ?andb_true_r, ?xorb_false_r.
  change (1 - 1) with 0; change (2 - 1) with 1; change (3 - 1) with 2;
  change (4 - 1) with 3; change (5 - 1) with 4; change (6 - 1) with 5;
  change (7 - 1) with 6; change (8 - 1) with 7; change (9 - 1) with 8;
  change (10 - 1) with 9; change (11 - 1) with 10; change (12 - 1) with 11;
  change (13 - 1) with 12; change (14 - 1) with 13; change (15 - 1) with 14.
  btauto.
Qed.

Lemma parity16_lxor x y : parity16 (Z.lxor x y) = xorb (parity16 x) (parity16 y).
Proof.
  unfold parity16. induction (seqZ 0 16) as [|k l IH]; [done|].
  cbn [map fold_right]. rewrite IH, Z.lxor_spec. btauto.
Qed.

Lemma parity16_b (b : bool) : parity16 (if b then 0x8000 else 0) = b.
Proof. by destruct b. Qed.

Lemma parity16_crc_bits bs s :
  word16 s -> parity16 (crc_bits s bs) = xorb (parity16 s) (parity bs).
Proof.
  revert s. induction bs as [|b bs IH]; intros s Hs; [by rewrite xorb_false_r|].
  change (crc_bits s (b :: bs)) with (crc_bits (crc_in s b) bs).
  rewrite IH by apply crc_bit_range. unfold crc_in.
  rewrite parity16_crc_bit by auto with sniffer.
  rewrite parity16_lxor, parity16_b. unfold parity. cbn [fold_right]. btauto.
Qed.

(** ** The header checksum *)

Definition hdr_bytes (w1 w2 w3 : Z) : list Z := map (hdr_byte w1 w2 w3) (seqZ 0 12).
Definition hdr_bits (w1 w2 w3 : Z) : list bool := msg_bits (hdr_bytes w1 w2 w3).

(** The bits, MSB first, of a 16-bit field. *)
Definition field_bits (e : Z) : list bool := map (Z.testbit e) (seqZ 0 16).

Lemma hdr_byte_range w1 w2 w3 i : byte_ok (hdr_byte w1 w2 w3 i).
Proof.
  unfold hdr_byte. change 0xff with (Z.ones 8). rewrite Z.land_ones by lia.
  apply Z.mod_pos_bound. lia.
Qed.

Lemma hdr_bytes_ok w1 w2 w3 : bytes_ok (hdr_bytes w1 w2 w3).
Proof. apply Forall_map, Forall_true. intros. apply hdr_byte_range. Qed.

Lemma uhsif_hdr_crc16_bits w1 w2 w3 :
  uhsif_hdr_crc16 w1 w2 w3 = crc_bits 0xFFFF (hdr_bits w1 w2 w3).
Proof.
  unfold hdr_bits. rewrite <- crc_msg_bits by (lia || apply hdr_bytes_ok).
  unfold crc_msg, hdr_bytes. by rewrite fold_left_map.
Qed.

Lemma hdr_byte_lxor w1 w2 w3 e1 e2 e3 i :
  hdr_byte (Z.lxor w1 e1) (Z.lxor w2 e2) (Z.lxor w3 e3) i
  = Z.lxor (hdr_byte w1 w2 w3 i) (hdr_byte e1 e2 e3 i).
Proof.
  unfold hdr_byte.
  repeat case_match; rewrite Z.shiftr_lxor; apply Z.bits_inj'; intros k Hk;
    rewrite !Z.land_spec, !Z.lxor_spec, !Z.land_spec; btauto.
Qed.

Lemma byte_bits_lxor a b : byte_bits (Z.lxor a b) = zip_with xorb (byte_bits a) (byte_bits b).
Proof. unfold byte_bits. cbn [map zip_with]. by rewrite !Z.lxor_spec. Qed.

Lemma hdr_bits_lxor w1 w2 w3 e1 e2 e3 :
  hdr_bits (Z.lxor w1 e1) (Z.lxor w2 e2) (Z.lxor w3 e3)
  = zip_with xorb (hdr_bits w1 w2 w3) (hdr_bits e1 e2 e3).
Proof.
  unfold hdr_bits, hdr_bytes, msg_bits.
  induction (seqZ 0 12) as [|i l IH]; [done|].
  cbn [map concat]. by rewrite hdr_byte_lxor, IH, byte_bits_lxor, zip_with_app.
Qed.

Lemma length_hdr_bits w1 w2 w3 : length (hdr_bits w1 w2 w3) = 96%nat.
Proof.
  unfold hdr_bits, hdr_bytes, msg_bits.
  change (seqZ 0 12) with [0; 1; 2; 3; 4; 5; 6; 7; 8; 9; 10; 11]. reflexivity.
Qed.

Lemma uhsif_hdr_crc16_lxor w1 w2 w3 e1 e2 e3 :
  uhsif_hdr_crc16 (Z.lxor w1 e1) (Z.lxor w2 e2) (Z.lxor w3 e3)
  = Z.lxor (uhsif_hdr_crc16 w1 w2 w3) (crc_bits 0 (hdr_bits e1 e2 e3)).
Proof.
  rewrite !uhsif_hdr_crc16_bits, hdr_bits_lxor.
  rewrite <- crc_bits_lxor by (lia || by rewrite !length_hdr_bits).
  by rewrite Z.lxor_0_r.
Qed.

Lemma uhsif_hdr_crc16_range w1 w2 w3 : word16 (uhsif_hdr_crc16 w1 w2 w3).
Proof. rewrite uhsif_hdr_crc16_bits. apply crc_bits_range. lia. Qed.

(** A nonzero error confined to 16 consecutive header bits. *)
Definition burst16 (bs : list bool) : Prop :=
  exists p mid q, bs = replicate p false ++ mid ++ replicate q false
    /\ (length mid <= 16)%nat /\ mid <> replicate (length mid) false.

(** C6: a header whose check passes is rejected once any burst of at most 16 bits
    hits its words w1..w3. *)
Theorem header_burst_rejected w0 w1 w2 w3 e1 e2 e3 :
  uhsif_blk_hdr_ok w0 w1 w2 w3 = true ->
  burst16 (hdr_bits e1 e2 e3) ->
  uhsif_blk_hdr_ok w0 (Z.lxor w1 e1) (Z.lxor w2 e2) (Z.lxor w3 e3) = false.
Proof.
  intros Hok (p & mid & q & Hb & Hl & Hne). unfold uhsif_blk_hdr_ok in *.
  bool_split. apply andb_false_iff. right. apply Z.eqb_neq. intros Heq.
  rewrite uhsif_hdr_crc16_lxor in Heq.
  apply (crc_bits_burst p q mid Hl Hne). rewrite <- Hb.
  apply (f_equal (Z.lxor (uhsif_hdr_crc16 w1 w2 w3))) in Heq.
  rewrite <- Z.lxor_assoc, H0, Z.lxor_nilpotent, Z.lxor_0_l in Heq. done.
Qed.

(** A header whose check passes is rejected once an odd number of its bits,
    counted over the checksum field and w1..w3, is flipped. *)
Theorem header_odd_error_rejected w0 w1 w2 w3 e0 e1 e2 e3 :
  word16 e0 ->
  uhsif_blk_hdr_ok w0 w1 w2 w3 = true ->
  parity (field_bits e0 ++ hdr_bits e1 e2 e3) = true ->
  uhsif_blk_hdr_ok (Z.lxor w0 (Z.shiftl e0 16))
    (Z.lxor w1 e1) (Z.lxor w2 e2) (Z.lxor w3 e3) = false.
Proof.
  intros He0 Hok Hp. unfold uhsif_blk_hdr_ok in *.
  bool_split. apply andb_false_iff. right. apply Z.eqb_neq. intros Heq.
  rewrite uhsif_hdr_crc16_lxor, Z.shiftr_lxor, H0, Z.shiftr_shiftl_l, Z.sub_diag,
    Z.shiftl_0_r in Heq by lia.
  assert (He : e0 = crc_bits 0 (hdr_bits e1 e2 e3)).
  { apply (f_equal (Z.lxor (uhsif_hdr_crc16 w1 w2 w3))) in Heq.
    by rewrite <- !Z.lxor_assoc, Z.lxor_nilpotent, !Z.lxor_0_l in Heq. }
  apply (f_equal parity16) in He.
  rewrite parity16_crc_bits in He by lia. change (parity16 0) with false in He.
  unfold parity in Hp. rewrite fold_right_app in Hp.
  change (fold_right xorb false (hdr_bits e1 e2 e3)) with (parity (hdr_bits e1 e2 e3)) in Hp.
  assert (Hf : forall l b, fold_right xorb b l = xorb (fold_right xorb false l) b).
  { clear. intros l b. induction l as [|x l IH]; [by destruct b|]. cbn. rewrite IH. btauto. }
  rewrite Hf in Hp. change (fold_right xorb false (field_bits e0)) with (parity16 e0) in Hp.
  rewrite He in Hp. revert Hp. clear. destruct (parity _); done.
Qed.

(** *** The hypotheses hold at concrete headers *)

Definition w0_of (w1 w2 w3 : Z) : Z := uhsif_hdr_crc16 w1 w2 w3 * 65536 + UHSIF_BLK_MAGIC16.

Lemma header_burst_rejected_witness :
  uhsif_blk_hdr_ok (w0_of 1 0 0x1001000) (Z.lxor 1 0x0f) (Z.lxor 0 0) (Z.lxor 0x1001000 0) = false.
Proof.
  apply header_burst_rejected; [vm_compute; reflexivity|].
  exists 4%nat, [true; true; true; true], 88%nat.
  split; [vm_compute; reflexivity|]. split; [cbn; lia|discriminate].
Defined.

Lemma header_odd_error_rejected_witness :
  uhsif_blk_hdr_ok (Z.lxor (w0_of 1 0 0x1001000) (Z.shiftl 3 16))
    (Z.lxor 1 0x80000001) (Z.lxor 0 0x00010000) (Z.lxor 0x1001000 0) = false.
Proof.
  apply (header_odd_error_rejected (w0_of 1 0 0x1001000) 1 0 0x1001000 3 0x80000001 0x00010000 0);
    [lia|vm_compute; reflexivity|vm_compute; reflexivity].
Defined.
