(* ===== verification/Stream.v ===== *)
(** * UHSIF stream layer (src/stream.c)

    [stream_feed] carves the upstream byte stream into blocks.  The staging
    buffer, its offsets and the lazy compaction are modelled as they are in the
    code; [parse] is the specification: what a parser with unlimited memory
    would report for the whole byte string. *)

From S2P Require Import Prelude Uhsif.

Definition STREAM_BUF_SIZE : nat := Z.to_nat 1048576.
Definition SCAN_KEEP_TAIL : nat := 3.

Inductive stream_state := STREAM_SCAN | STREAM_BLOCK.

(** The callbacks of the client, over the client's own state [U]. *)
Class StreamClient (U : Type) := {
  data_cb : list Z -> U -> U;
  ack_cb : U -> U;
  rsync_cb : U -> U;
}.

Record stream := mk_stream {
  buf : list Z;            (* linear staging buffer *)
  cap : nat;
  head : nat;              (* offset of first unprocessed byte *)
  len : nat;               (* number of unprocessed bytes *)
  state : stream_state;
  last_seq : Z;            (* sequence of the previous block *)
  have_seq : bool;
  good : Z;                (* consecutive good blocks since the last resync *)
}.
#[export] Instance stream_settable : Settable stream := fun s =>
  mk_stream (buf s) (cap s) (head s) (len s) (state s) (last_seq s) (have_seq s) (good s).

Definition stream_new : stream :=
  mk_stream (replicate STREAM_BUF_SIZE 0) STREAM_BUF_SIZE 0 0 STREAM_SCAN 0 false 0.

Definition compact (s : stream) : stream :=
  if (0 <? head s)%nat
  then s <| buf := memmove (buf s) 0 (head s) (len s) |> <| head := 0%nat |>
  else s.

Definition buf_at (s : stream) (off : nat) : list Z := drop (head s + off) (buf s).

(** [Some len] is the C function's [true] with [*payload_len = len]. *)
Definition header_valid (hdr : list Z) : option Z :=
  let w0 := uhsif_le32 hdr in
  let w1 := uhsif_le32 (drop 4 hdr) in
  let w2 := uhsif_le32 (drop 8 hdr) in
  let w3 := uhsif_le32 (drop 12 hdr) in
  let len := Z.land (Z.shiftr w3 12) 0xfff in
  if negb (uhsif_blk_hdr_ok w0 w1 w2 w3) then None
  else if has w1 0xfffff000 then None
  else if negb (len =? 0)
          && negb ((UHSIF_MIN_PAYLOAD_WORDS <=? len) && (len <=? UHSIF_MAX_PAYLOAD_WORDS))
  then None
  else Some len.

(** Size in bytes of a block with [payload_len] payload words. *)
Definition block_span (payload_len : Z) : nat :=
  (UHSIF_ACK_SIZE + 4 * Z.to_nat payload_len)%nat.
#[global] Arguments block_span : simpl never.

Section Stream.
Context {U : Type} `{StreamClient U}.

Definition accept_block (s : stream) (u : U) (payload_len : Z) : stream * U :=
  let hdr := buf_at s 0 in
  let seq := uhsif_blk_seq hdr in
  let span := block_span payload_len in
  let '(s, u) :=
    if have_seq s then
      let expected := u8 (last_seq s + 1) in
      if negb (u8 seq =? expected)
      then (s <| have_seq := false |> <| good := 0 |>, rsync_cb u)
      else (s, u)
    else (s, u) in
  let s := s <| last_seq := u8 seq |> <| have_seq := true |> in
  let s := if good s =? 0 then s <| good := 1 |>
           else if good s <? 2 then s <| good := good s + 1 |> else s in
  let u := if payload_len =? 0 then ack_cb u
           else data_cb (take (4 * Z.to_nat payload_len) (drop UHSIF_ACK_SIZE hdr)) u in
  let s := s <| head := (head s + span)%nat |> <| len := (len s - span)%nat |> in
  (s <| state := STREAM_BLOCK |>, u).

(** Report a framing error at an aligned position and rescan. *)
Definition lose_sync (s : stream) (u : U) : stream * U :=
  (s <| have_seq := false |> <| good := 0 |> <| state := STREAM_SCAN |>, rsync_cb u).

(** The first offset [i >= i0] with [i + 4 <= len] whose half-word is the magic. *)
Fixpoint find_magic (s : stream) (i : nat) (n : nat) : option nat :=
  match n with
  | O => None
  | S n => if u16 (uhsif_le32 (buf_at s i)) =? UHSIF_BLK_MAGIC16 then Some i
           else find_magic s (S i) n
  end.

(** [memmove(s->buf, &s->buf[s->head + from], n); s->head = 0; s->len = n]. *)
Definition move_front (s : stream) (from n : nat) : stream :=
  s <| buf := memmove (buf s) 0 (head s + from) n |> <| head := 0%nat |> <| len := n |>.

(** One round of the loop body: [inl] is [continue] (or the end of the body),
    [inr] is [return]. *)
Definition process_round (s : stream) (u : U) : (stream * U) + (stream * U) :=
  match state s with
  | STREAM_BLOCK =>
      match header_valid (buf_at s 0) with
      | Some payload_len =>
          let full_size := block_span payload_len in
          if (len s <? full_size)%nat then
            if (full_size <=? cap s)%nat then inr (s, u) else inl (lose_sync s u)
          else inl (accept_block s u payload_len)
      | None => inl (lose_sync s u)
      end
  | STREAM_SCAN =>
      match find_magic s 0 (len s + 1 - 4) with
      | None =>
          let keep := Nat.min (len s) SCAN_KEEP_TAIL in
          if (0 <? head s + len s)%nat && (keep + UHSIF_ACK_SIZE <=? cap s)%nat
          then inr (move_front s (len s - keep) keep, u)
          else inr (s, u)
      | Some found =>
          if (len s - found <? UHSIF_ACK_SIZE)%nat
          then inr (move_front s found (len s - found), u)
          else
            match header_valid (buf_at s found) with
            | None =>
                inl (s <| head := (head s + (found + 1))%nat |>
                       <| len := (len s - (found + 1))%nat |>, u)
            | Some payload_len =>
                if (len s - found <? block_span payload_len)%nat
                then inr (move_front s found (len s - found), u)
                else
                  let s := s <| head := (head s + found)%nat |>
                             <| len := (len s - found)%nat |> in
                  inl (accept_block s u payload_len)
            end
      end
  end.

(** The loop, with one unit of fuel per round. *)
Fixpoint process_available_loop (fuel : nat) (s : stream) (u : U) : option (stream * U) :=
  if (len s <? UHSIF_ACK_SIZE)%nat then Some (s, u)
  else match fuel with
       | O => None
       | S fuel =>
           match process_round s u with
           | inl (s, u) => process_available_loop fuel s u
           | inr r => Some r
           end
       end.

Definition process_available (s : stream) (u : U) : option (stream * U) :=
  process_available_loop (2 * len s + 2) s u.

(** The [while (size > 0)] loop of [stream_feed] with the final
    [process_available]; [data] is the remaining input, [size] its length. *)
Fixpoint stream_feed_loop (fuel : nat) (s : stream) (u : U) (data : list Z)
  : option (stream * U) :=
  let size := length data in
  if (size =? 0)%nat then process_available s u
  else match fuel with
       | O => None
       | S fuel =>
           let s :=
             if negb (head s =? 0)%nat && (cap s - head s <? len s + size)%nat
             then s <| buf := memmove (buf s) 0 (head s) (len s) |> <| head := 0%nat |>
             else s in
           if (len s + size <=? cap s - head s)%nat then
             process_available
               (s <| buf := write_at (buf s) (head s + len s) data |>
                  <| len := (len s + size)%nat |>) u
           else
             let s := compact s in
             let room := (cap s - len s)%nat in
             let part := Nat.min size room in
             let s := s <| buf := write_at (buf s) (len s) (take part data) |>
                        <| len := (len s + part)%nat |> in
             let data := drop part data in
             if (length data =? 0)%nat then process_available s u
             else
               match process_available s u with
               | None => None
               | Some (s, u) => stream_feed_loop fuel (compact s) u data
               end
       end.

Definition stream_feed (s : stream) (u : U) (data : list Z) : option (stream * U) :=
  stream_feed_loop (length data) s u data.

End Stream.

(** ** Specification: a parser with unlimited memory *)

Inductive stream_event := EvData (payload : list Z) | EvAck | EvRsync.

Definition apply_event {U} `{StreamClient U} (u : U) (e : stream_event) : U :=
  match e with EvData d => data_cb d u | EvAck => ack_cb u | EvRsync => rsync_cb u end.
Definition apply_events {U} `{StreamClient U} (es : list stream_event) (u : U) : U :=
  fold_left apply_event es u.

(** What stands at the front of a byte string. *)
Inductive look := Short | Bad | Full (payload_len : Z).

Definition look_block (l : list Z) : look :=
  if (length l <? UHSIF_ACK_SIZE)%nat then Short
  else match header_valid l with
       | None => Bad
       | Some n => if (length l <? block_span n)%nat then Short else Full n
       end.

(** The events of one block whose header starts [l]; [sq] is the previous
    sequence number, when there is one. *)
Definition block_events (sq : option Z) (l : list Z) (n : Z) : list stream_event :=
  (match sq with
   | Some q => if uhsif_blk_seq l =? u8 (q + 1) then [] else [EvRsync]
   | None => []
   end) ++
  [if n =? 0 then EvAck else EvData (take (4 * Z.to_nat n) (drop UHSIF_ACK_SIZE l))].

Fixpoint parse_n (fuel : nat) (m : stream_state) (sq : option Z) (l : list Z)
  : list stream_event :=
  match fuel with
  | O => []
  | S fuel =>
      match look_block l, m with
      | Short, _ => []
      | Bad, STREAM_BLOCK => EvRsync :: parse_n fuel STREAM_SCAN None l
      | Bad, STREAM_SCAN => parse_n fuel STREAM_SCAN sq (tail l)
      | Full n, _ =>
          block_events sq l n
          ++ parse_n fuel STREAM_BLOCK (Some (uhsif_blk_seq l)) (drop (block_span n) l)
      end
  end.

Definition parse (m : stream_state) (sq : option Z) (l : list Z) : list stream_event :=
  parse_n (2 * length l + 2) m sq l.

Definition pending (s : stream) : list Z := take (len s) (drop (head s) (buf s)).
Definition seq_of (s : stream) : option Z := if have_seq s then Some (last_seq s) else None.

(** What state [s] still reports when the bytes [y] follow. *)
Definition denote (s : stream) (y : list Z) : list stream_event :=
  parse (state s) (seq_of s) (pending s ++ y).

#[global] Arguments parse : simpl never.
#[global] Arguments denote : simpl never.

(** *** Unfolding [parse] *)

Definition weight (m : stream_state) (l : list Z) : nat :=
  2 * length l + match m with STREAM_BLOCK => 1 | STREAM_SCAN => 0 end.

Lemma block_span_ge n : (16 <= block_span n)%nat.
Proof. unfold block_span, UHSIF_ACK_SIZE. lia. Qed.

Lemma look_block_Bad l :
  look_block l = Bad <-> (16 <= length l)%nat /\ header_valid l = None.
Proof.
  unfold look_block, UHSIF_ACK_SIZE. destruct (Nat.ltb_spec (length l) 16).
  - split; [done|lia].
  - destruct (header_valid l); [|naive_solver].
    destruct (_ <? _)%nat; naive_solver.
Qed.

Lemma look_block_Full l n :
  look_block l = Full n <->
  header_valid l = Some n /\ (block_span n <= length l)%nat.
Proof.
  unfold look_block. pose proof (block_span_ge n). unfold UHSIF_ACK_SIZE.
  destruct (Nat.ltb_spec (length l) 16); [split; [done|lia]|].
  destruct (header_valid l) as [k|]; [|naive_solver].
  destruct (Nat.ltb_spec (length l) (block_span k)); [|naive_solver].
  split; [done|]. intros [[= ->] ?]. lia.
Qed.

Lemma parse_n_enough n n' m sq l :
  (weight m l < n)%nat -> (weight m l < n')%nat -> parse_n n m sq l = parse_n n' m sq l.
Proof.
  revert n' m sq l. induction n as [|n IH]; intros n' m sq l Hn Hn'; [lia|].
  destruct n' as [|n']; [lia|]. cbn [parse_n]. unfold weight in *.
  destruct (look_block l) as [| |k] eqn:E; [done|..].
  - apply look_block_Bad in E as [Hl _]. destruct m.
    + destruct l; cbn [length tail] in *; [lia|]. apply IH; lia.
    + f_equal. apply IH; lia.
  - apply look_block_Full in E as [_ Hl]. pose proof (block_span_ge k).
    f_equal. apply IH; rewrite length_drop; lia.
Qed.

Lemma parse_unfold m sq l :
  parse m sq l =
  match look_block l, m with
  | Short, _ => []
  | Bad, STREAM_BLOCK => EvRsync :: parse STREAM_SCAN None l
  | Bad, STREAM_SCAN => parse STREAM_SCAN sq (tail l)
  | Full n, _ =>
      block_events sq l n ++ parse STREAM_BLOCK (Some (uhsif_blk_seq l)) (drop (block_span n) l)
  end.
Proof.
  unfold parse at 1. replace (2 * length l + 2)%nat with (S (2 * length l + 1)) by lia.
  cbn [parse_n]. destruct (look_block l) as [| |n] eqn:E; [done|..].
  - apply look_block_Bad in E as [Hl _]. destruct m.
    + apply parse_n_enough; unfold weight; destruct l; cbn [length tail] in *; lia.
    + f_equal. apply parse_n_enough; unfold weight; lia.
  - apply look_block_Full in E as [_ Hl]. pose proof (block_span_ge n).
    f_equal. apply parse_n_enough; unfold weight; rewrite length_drop; lia.
Qed.

(** *** A header is its first sixteen bytes *)

Lemma le32_take n l : (4 <= n)%nat -> uhsif_le32 (take n l) = uhsif_le32 l.
Proof. intros. unfold uhsif_le32. by rewrite !lookup_total_take_lt by lia. Qed.

Lemma le32_drop_take k n l :
  (k + 4 <= n)%nat -> uhsif_le32 (drop k (take n l)) = uhsif_le32 (drop k l).
Proof. intros. rewrite skipn_firstn_comm. apply le32_take. lia. Qed.

Lemma header_valid_take n l : (16 <= n)%nat -> header_valid (take n l) = header_valid l.
Proof.
  intros. unfold header_valid. by rewrite le32_take, !le32_drop_take by lia.
Qed.

Lemma header_valid_app l y : (16 <= length l)%nat -> header_valid (l ++ y) = header_valid l.
Proof.
  intros. rewrite <- (header_valid_take (length l)) by done. by rewrite take_app_length.
Qed.

Lemma blk_seq_take n l : (16 <= n)%nat -> uhsif_blk_seq (take n l) = uhsif_blk_seq l.
Proof. intros. unfold uhsif_blk_seq. by rewrite le32_drop_take by lia. Qed.

Lemma blk_seq_app l y : (16 <= length l)%nat -> uhsif_blk_seq (l ++ y) = uhsif_blk_seq l.
Proof.
  intros. rewrite <- (blk_seq_take (length l)) by done. by rewrite take_app_length.
Qed.

(** The payload length an accepted header can carry. *)
Lemma header_valid_range l n : header_valid l = Some n -> 0 <= n <= 4092.
Proof.
  unfold header_valid. intros H. repeat case_match; try done. simplify_eq.
  apply andb_false_iff in H2. unfold UHSIF_MIN_PAYLOAD_WORDS, UHSIF_MAX_PAYLOAD_WORDS in *.
  destruct H2; bool_split; lia.
Qed.

Lemma block_span_le l n : header_valid l = Some n -> (block_span n <= UHSIF_BLK_MAX_SIZE)%nat.
Proof.
  intros H%header_valid_range. unfold block_span, UHSIF_ACK_SIZE, UHSIF_BLK_MAX_SIZE. lia.
Qed.

Lemma header_valid_magic l n :
  header_valid l = Some n -> u16 (uhsif_le32 l) = UHSIF_BLK_MAGIC16.
Proof.
  unfold header_valid, uhsif_blk_hdr_ok. intros. repeat case_match; try done. bool_split. done.
Qed.

(** *** Looking at the staging buffer is looking at the pending bytes *)

Lemma length_pending s :
  (head s + len s <= length (buf s))%nat -> length (pending s) = len s.
Proof. intros. unfold pending. rewrite length_take, length_drop. lia. Qed.

Lemma header_valid_buf_at s i :
  (i + 16 <= len s)%nat -> header_valid (buf_at s i) = header_valid (drop i (pending s)).
Proof.
  intros. unfold buf_at, pending. rewrite skipn_firstn_comm, drop_drop.
  by rewrite header_valid_take by lia.
Qed.

Lemma le32_buf_at s i :
  (i + 4 <= len s)%nat -> uhsif_le32 (buf_at s i) = uhsif_le32 (drop i (pending s)).
Proof.
  intros. unfold buf_at, pending. rewrite skipn_firstn_comm, drop_drop.
  by rewrite le32_take by lia.
Qed.

Lemma pending_skip s k :
  (k <= len s)%nat ->
  pending (s <| head := (head s + k)%nat |> <| len := (len s - k)%nat |>)
  = drop k (pending s).
Proof. intros. unfold pending. cbn. by rewrite skipn_firstn_comm, drop_drop. Qed.

Lemma find_magic_None s i n :
  find_magic s i n = None ->
  forall j, (i <= j < i + n)%nat -> u16 (uhsif_le32 (buf_at s j)) <> UHSIF_BLK_MAGIC16.
Proof.
  revert i. induction n as [|n IH]; intros i H j Hj; [lia|]. cbn [find_magic] in H.
  case_match; [done|]. bool_split. destruct (decide (j = i)) as [->|]; [done|].
  apply (IH (S i) H). lia.
Qed.

Lemma find_magic_Some s i n k :
  find_magic s i n = Some k ->
  (i <= k < i + n)%nat /\ u16 (uhsif_le32 (buf_at s k)) = UHSIF_BLK_MAGIC16 /\
  forall j, (i <= j < k)%nat -> u16 (uhsif_le32 (buf_at s j)) <> UHSIF_BLK_MAGIC16.
Proof.
  revert i. induction n as [|n IH]; intros i H; [done|]. cbn [find_magic] in H.
  case_match; bool_split.
  - split; [lia|]. split; [done|]. lia.
  - apply IH in H as (? & ? & Hlt). split; [lia|]. split; [done|].
    intros j Hj. destruct (decide (j = i)) as [->|]; [done|]. apply Hlt. lia.
Qed.

(** Scanning drops a byte that does not carry the magic. *)
Lemma parse_skip_byte sq b l :
  (4 <= length (b :: l))%nat -> u16 (uhsif_le32 (b :: l)) <> UHSIF_BLK_MAGIC16 ->
  parse STREAM_SCAN sq (b :: l) = parse STREAM_SCAN sq l.
Proof.
  intros Hl Hm. rewrite parse_unfold.
  destruct (look_block (b :: l)) as [| |n] eqn:E; [|done|].
  - rewrite parse_unfold. unfold look_block in *. cbn [length] in *. unfold UHSIF_ACK_SIZE in *.
    destruct (Nat.ltb_spec (S (length l)) 16).
    + destruct (Nat.ltb_spec (length l) 16); [done|lia].
    + destruct (header_valid (b :: l)) eqn:Hv; [|done].
      by apply header_valid_magic in Hv.
  - apply look_block_Full in E as [E _]. by apply header_valid_magic in E.
Qed.

Lemma parse_skip sq k l :
  (forall j, (j < k)%nat ->
     (j + 4 <= length l)%nat /\ u16 (uhsif_le32 (drop j l)) <> UHSIF_BLK_MAGIC16) ->
  parse STREAM_SCAN sq l = parse STREAM_SCAN sq (drop k l).
Proof.
  revert l. induction k as [|k IH]; intros l H; [done|].
  destruct (H 0%nat ltac:(lia)) as [Hl H0]. rewrite drop_0 in H0.
  destruct l as [|b l]; [cbn in Hl; lia|].
  rewrite parse_skip_byte by done. cbn [drop]. apply IH.
  intros j Hj. destruct (H (S j) ltac:(lia)) as [? ?]. cbn in *. split; [lia|done].
Qed.

(** ** The implementation refines the specification *)

(** The buffer invariant: every window the code reads or moves lies inside the
    allocation. *)
Definition wf (s : stream) : Prop :=
  length (buf s) = cap s /\ (head s + len s <= cap s)%nat /\ (UHSIF_BLK_MAX_SIZE <= cap s)%nat.

(** Nothing more can be reported before further bytes arrive. *)
Definition quiet (s : stream) : Prop :=
  denote s [] = [] /\ (len s < UHSIF_BLK_MAX_SIZE)%nat.

Lemma blk_seq_u8 l : u8 (uhsif_blk_seq l) = uhsif_blk_seq l.
Proof. apply u8_small, u8_range. Qed.

Section Refinement.
Context {U : Type} `{StreamClient U}.
Implicit Types (s : stream) (u : U).

Lemma apply_events_app es es' u :
  apply_events (es ++ es') u = apply_events es' (apply_events es u).
Proof. apply fold_left_app. Qed.

Lemma accept_block_spec s u n :
  (head s + len s <= length (buf s))%nat ->
  header_valid (buf_at s 0) = Some n -> (block_span n <= len s)%nat ->
  exists s', accept_block s u n = (s', apply_events (block_events (seq_of s) (pending s) n) u)
    /\ buf s' = buf s /\ cap s' = cap s
    /\ head s' = (head s + block_span n)%nat /\ len s' = (len s - block_span n)%nat
    /\ state s' = STREAM_BLOCK /\ seq_of s' = Some (uhsif_blk_seq (pending s)).
Proof.
  intros Hb Hv Hl. pose proof (block_span_ge n).
  assert (Hs : uhsif_blk_seq (buf_at s 0) = uhsif_blk_seq (pending s)).
  { unfold pending, buf_at. by rewrite blk_seq_take, Nat.add_0_r by lia. }
  assert (Hp : take (4 * Z.to_nat n) (drop UHSIF_ACK_SIZE (buf_at s 0))
               = take (4 * Z.to_nat n) (drop UHSIF_ACK_SIZE (pending s))).
  { unfold pending, buf_at. rewrite Nat.add_0_r, skipn_firstn_comm, take_take.
    f_equal. unfold block_span in Hl. lia. }
  unfold accept_block, block_events. rewrite Hs, Hp, blk_seq_u8.
  unfold seq_of. destruct (have_seq s) eqn:Eh.
  - destruct (uhsif_blk_seq (pending s) =? u8 (last_seq s + 1)); cbn;
      destruct (good s =? 0), (good s <? 2); cbn; destruct (n =? 0); eauto 10.
  - cbn. destruct (good s =? 0), (good s <? 2); cbn; destruct (n =? 0); eauto 10.
Qed.

(** The measure of the loop: every round consumes a byte or leaves the aligned
    state. *)
Definition round_weight s : nat :=
  2 * len s + match state s with STREAM_BLOCK => 1 | STREAM_SCAN => 0 end.

Definition round_ok s u (r : (stream * U) + (stream * U)) : Prop :=
  match r with
  | inl (s', u') =>
      wf s' /\ cap s' = cap s /\ (round_weight s' < round_weight s)%nat /\
      (len s' <= len s)%nat /\
      exists es, u' = apply_events es u /\ forall y, denote s y = es ++ denote s' y
  | inr (s', u') =>
      wf s' /\ cap s' = cap s /\ u' = u /\ quiet s' /\ forall y, denote s y = denote s' y
  end.

Lemma accept_round s u n :
  wf s -> header_valid (buf_at s 0) = Some n -> (block_span n <= len s)%nat ->
  let '(s', u') := accept_block s u n in
  wf s' /\ cap s' = cap s /\ (2 * len s' + 1 < 2 * len s)%nat /\ (len s' <= len s)%nat /\
  exists es, u' = apply_events es u /\ forall y, denote s y = es ++ denote s' y.
Proof.
  intros (Hb & Hc & Hm) Hv Hl. pose proof (block_span_ge n).
  destruct (accept_block_spec s u n) as (s' & -> & E1 & E2 & E3 & E4 & E5 & E6); [lia|done..|].
  unfold wf. rewrite E1, E2, E3, E4. repeat (split; [done || lia|]).
  exists (block_events (seq_of s) (pending s) n). split; [done|]. intros y.
  assert (Hlen : length (pending s) = len s) by (apply length_pending; lia).
  unfold denote at 1. rewrite parse_unfold.
  assert (look_block (pending s ++ y) = Full n) as ->.
  { apply look_block_Full. rewrite header_valid_app by lia.
    rewrite header_valid_buf_at, drop_0 in Hv by lia.
    split; [done|]. rewrite length_app. lia. }
  unfold denote. rewrite E5, E6.
  assert (Hp : pending s' = drop (block_span n) (pending s)).
  { unfold pending. by rewrite E1, E3, E4, skipn_firstn_comm, drop_drop. }
  rewrite Hp, drop_app_le, blk_seq_app by lia.
  destruct (state s); f_equal; unfold block_events; rewrite blk_seq_app by lia;
    do 4 f_equal; rewrite drop_app_le by (unfold UHSIF_ACK_SIZE; lia);
    rewrite take_app_le; try done; rewrite length_drop; unfold block_span in Hl; lia.
Qed.

Lemma move_front_spec s from :
  wf s -> (from <= len s)%nat ->
  let s' := move_front s from (len s - from) in
  wf s' /\ cap s' = cap s /\ pending s' = drop from (pending s)
  /\ state s' = state s /\ seq_of s' = seq_of s.
Proof.
  intros (Hb & Hc & Hm) Hf s'. unfold s', move_front, wf, pending. cbn.
  repeat split; try done; try lia.
  - rewrite length_memmove by lia. done.
  - rewrite drop_0, window_move_front by lia.
    by rewrite skipn_firstn_comm, drop_drop.
Qed.

Lemma quiet_short s from :
  wf s -> (from <= len s)%nat -> look_block (drop from (pending s)) = Short ->
  (len s - from < UHSIF_BLK_MAX_SIZE)%nat -> quiet (move_front s from (len s - from)).
Proof.
  intros Hwf Hf Hs Hl. destruct (move_front_spec s from Hwf Hf) as (_ & _ & W3 & _).
  split; [|done]. unfold denote. by rewrite parse_unfold, app_nil_r, W3, Hs.
Qed.

(** In the scanning state the bytes before [from] are garbage. *)
Definition garbage_to s from : Prop :=
  forall y, denote s y = parse STREAM_SCAN (seq_of s) (drop from (pending s) ++ y).

Lemma scan_garbage s from :
  wf s -> state s = STREAM_SCAN -> (from <= len s)%nat ->
  (forall j, (j < from)%nat ->
     (j + 4 <= len s)%nat /\ u16 (uhsif_le32 (buf_at s j)) <> UHSIF_BLK_MAGIC16) ->
  garbage_to s from.
Proof.
  intros (Hb & Hc & Hm) Est Hf Hj y.
  assert (Hlen : length (pending s) = len s) by (apply length_pending; lia).
  unfold denote. rewrite Est, <- drop_app_le by lia. apply parse_skip. intros j Hlt.
  destruct (Hj j Hlt) as [Hj4 Hjm]. rewrite length_app. split; [lia|].
  rewrite le32_buf_at in Hjm by done. rewrite drop_app_le by lia.
  rewrite <- (le32_take (len s - j)) by lia.
  rewrite take_app_le by (rewrite length_drop; lia).
  by rewrite take_ge by (rewrite length_drop; lia).
Qed.

(** The scan holds the candidate at [found] and waits. *)
Lemma scan_hold s u found :
  wf s -> state s = STREAM_SCAN -> (found <= len s)%nat -> garbage_to s found ->
  look_block (drop found (pending s)) = Short ->
  (len s - found < UHSIF_BLK_MAX_SIZE)%nat ->
  round_ok s u (inr (move_front s found (len s - found), u)).
Proof.
  intros Hwf Est Hf Hden Hs Hl.
  destruct (move_front_spec s found Hwf Hf) as (W1 & W2 & W3 & W4 & W5).
  unfold round_ok. split_and!; try done; [by apply quiet_short|].
  intros y. rewrite Hden. unfold denote. by rewrite W3, W4, W5, Est.
Qed.

(** The candidate at [found] carries the magic but not a valid header. *)
Lemma scan_bogus s u found :
  wf s -> state s = STREAM_SCAN -> (found + 16 <= len s)%nat -> garbage_to s found ->
  header_valid (buf_at s found) = None ->
  round_ok s u (inl (s <| head := (head s + (found + 1))%nat |>
                       <| len := (len s - (found + 1))%nat |>, u)).
Proof.
  intros Hwf Est Hf Hden Hv. pose proof Hwf as (Hb & Hc & Hm).
  assert (Hlen : length (pending s) = len s) by (apply length_pending; lia).
  set (s1 := s <| head := _ |> <| len := _ |>).
  assert (Hp1 : pending s1 = drop (found + 1) (pending s)) by (apply pending_skip; lia).
  assert (Hl1 : len s1 = (len s - (found + 1))%nat) by done.
  unfold round_ok. split_and!; try done || lia.
  - unfold wf, s1. cbn. lia.
  - unfold round_weight. rewrite Hl1. change (state s1) with (state s). rewrite Est. lia.
  - exists []. split; [done|]. intros y. rewrite Hden. unfold denote.
    rewrite Hp1. change (state s1) with (state s). rewrite Est.
    rewrite header_valid_buf_at in Hv by lia. rewrite parse_unfold.
    assert (look_block (drop found (pending s) ++ y) = Bad) as ->.
    { apply look_block_Bad. rewrite length_app, length_drop.
      rewrite header_valid_app by (rewrite length_drop; lia). split; [lia|done]. }
    rewrite <- drop_drop. destruct (drop found (pending s)) as [|b l] eqn:Ed; [|done].
    apply (f_equal length) in Ed. rewrite length_drop in Ed. cbn in Ed. lia.
Qed.

(** The candidate at [found] is a complete block. *)
Lemma scan_accept s u found n :
  wf s -> state s = STREAM_SCAN -> garbage_to s found ->
  header_valid (buf_at s found) = Some n -> (found + block_span n <= len s)%nat ->
  round_ok s u (inl (accept_block (s <| head := (head s + found)%nat |>
                                     <| len := (len s - found)%nat |>) u n)).
Proof.
  intros Hwf Est Hden Hv Hl. pose proof Hwf as (Hb & Hc & Hm). pose proof (block_span_ge n).
  set (s1 := s <| head := _ |> <| len := _ |>).
  assert (Hp1 : pending s1 = drop found (pending s)) by (apply pending_skip; lia).
  assert (Hl1 : len s1 = (len s - found)%nat) by done.
  pose proof (accept_round s1 u n) as Ha. destruct (accept_block s1 u n) as [s2 u2].
  destruct Ha as (A1 & A2 & A3 & A4 & es & A5 & A6).
  - unfold wf, s1. cbn. lia.
  - rewrite header_valid_buf_at by lia. rewrite header_valid_buf_at in Hv by lia.
    by rewrite Hp1, drop_0.
  - lia.
  - unfold round_ok. split_and!; try done || lia.
    + unfold round_weight. rewrite Est. destruct (state s2); lia.
    + exists es. split; [done|]. intros y. rewrite Hden, <- A6. unfold denote.
      rewrite Hp1. change (state s1) with (state s). by rewrite Est.
Qed.

Lemma look_block_short_header l : (length l < 16)%nat -> look_block l = Short.
Proof.
  intros. unfold look_block, UHSIF_ACK_SIZE. by destruct (Nat.ltb_spec (length l) 16); [|lia].
Qed.
Lemma look_block_short_block l n :
  header_valid l = Some n -> (length l < block_span n)%nat -> look_block l = Short.
Proof.
  intros Hv Hl. unfold look_block, UHSIF_ACK_SIZE. rewrite Hv.
  destruct (Nat.ltb_spec (length l) 16); [done|].
  by destruct (Nat.ltb_spec (length l) (block_span n)); [|lia].
Qed.

Lemma process_round_scan s u :
  wf s -> (16 <= len s)%nat -> state s = STREAM_SCAN -> round_ok s u (process_round s u).
Proof.
  intros Hwf Hl Est. pose proof Hwf as (Hb & Hc & Hm). unfold process_round. rewrite Est.
  assert (Hlen : length (pending s) = len s) by (apply length_pending; lia).
  destruct (find_magic s 0 (len s + 1 - 4)) as [found|] eqn:Ef.
  - apply find_magic_Some in Ef as (Hr & Hmg & Hno).
    assert (Hg : garbage_to s found).
    { apply scan_garbage; [done..|lia|]. intros j Hj. split; [lia|apply Hno; lia]. }
    unfold UHSIF_ACK_SIZE. destruct (Nat.ltb_spec (len s - found) 16).
    { apply scan_hold; try done || lia.
      - apply look_block_short_header. rewrite length_drop. lia.
      - unfold UHSIF_BLK_MAX_SIZE. lia. }
    destruct (header_valid (buf_at s found)) as [n|] eqn:Hv; [|apply scan_bogus; done || lia].
    destruct (Nat.ltb_spec (len s - found) (block_span n)); [|apply scan_accept; done || lia].
    rewrite header_valid_buf_at in Hv by lia. pose proof (block_span_le _ _ Hv).
    apply scan_hold; try done || lia.
    apply (look_block_short_block _ n); [done|]. rewrite length_drop. lia.
  - assert (Hno := find_magic_None _ _ _ Ef). unfold SCAN_KEEP_TAIL, UHSIF_ACK_SIZE.
    rewrite Nat.min_r by lia.
    assert (((0 <? head s + len s)%nat && (3 + 16 <=? cap s)%nat) = true) as ->.
    { apply andb_true_iff. split; [apply Nat.ltb_lt; lia|apply Nat.leb_le].
      unfold UHSIF_BLK_MAX_SIZE in Hm. lia. }
    replace 3%nat with (len s - (len s - 3))%nat at 2 by lia.
    apply scan_hold; try done || lia.
    + apply scan_garbage; [done..|lia|]. intros j Hj. split; [lia|apply Hno; lia].
    + apply look_block_short_header. rewrite length_drop. lia.
    + unfold UHSIF_BLK_MAX_SIZE. lia.
Qed.

Lemma process_round_aligned s u :
  wf s -> (16 <= len s)%nat -> state s = STREAM_BLOCK -> round_ok s u (process_round s u).
Proof.
  intros Hwf Hl Est. pose proof Hwf as (Hb & Hc & Hm). unfold process_round. rewrite Est.
  assert (Hlen : length (pending s) = len s) by (apply length_pending; lia).
  destruct (header_valid (buf_at s 0)) as [n|] eqn:Hv.
  - destruct (Nat.ltb_spec (len s) (block_span n)).
    + rewrite header_valid_buf_at, drop_0 in Hv by lia. pose proof (block_span_le _ _ Hv).
      destruct (Nat.leb_spec (block_span n) (cap s)); [|lia].
      unfold round_ok. split_and!; try done. split; [|lia]. unfold denote.
      rewrite parse_unfold, app_nil_r, (look_block_short_block _ n) by (done || lia). done.
    + pose proof (accept_round s u n Hwf Hv ltac:(lia)) as Ha.
      destruct (accept_block s u n) as [s2 u2].
      destruct Ha as (A1 & A2 & A3 & A4 & A5). unfold round_ok. split_and!; try done.
      unfold round_weight. rewrite Est. destruct (state s2); lia.
  - unfold round_ok, lose_sync, wf, round_weight; cbn. rewrite Est. split_and!; try done || lia.
    exists [EvRsync]. split; [done|]. intros y.
    unfold denote at 1. rewrite parse_unfold, Est.
    rewrite header_valid_buf_at, drop_0 in Hv by lia.
    assert (look_block (pending s ++ y) = Bad) as ->; [|done].
    apply look_block_Bad. rewrite length_app, header_valid_app by lia. split; [lia|done].
Qed.

Lemma process_round_spec s u :
  wf s -> (16 <= len s)%nat -> round_ok s u (process_round s u).
Proof.
  intros. destruct (state s) eqn:E; [by apply process_round_scan|by apply process_round_aligned].
Qed.

(** *** The loops *)

Lemma process_available_loop_spec fuel s u :
  wf s -> (round_weight s < fuel)%nat ->
  exists s' es, process_available_loop fuel s u = Some (s', apply_events es u)
    /\ wf s' /\ cap s' = cap s /\ quiet s' /\ forall y, denote s y = es ++ denote s' y.
Proof.
  revert s u. induction fuel as [|fuel IH]; intros s u Hwf Hw; [lia|].
  cbn [process_available_loop]. unfold UHSIF_ACK_SIZE.
  destruct (Nat.ltb_spec (len s) 16) as [Hl|Hl].
  - exists s, []. pose proof Hwf as (Hb & Hc & Hm). split_and!; try done. split.
    + unfold denote. rewrite parse_unfold, app_nil_r.
      by rewrite look_block_short_header by (rewrite length_pending; lia).
    + unfold UHSIF_BLK_MAX_SIZE. lia.
  - pose proof (process_round_spec s u Hwf Hl) as Hr.
    destruct (process_round s u) as [[s1 u1]|[s1 u1]]; cbn [round_ok] in Hr.
    + destruct Hr as (R1 & R2 & R3 & R4 & es & -> & R5).
      destruct (IH s1 (apply_events es u) R1 ltac:(lia)) as (s' & es' & E & E1 & E2 & E3 & E4).
      exists s', (es ++ es'). rewrite E, apply_events_app. split_and!; try done.
      * congruence.
      * intros y. by rewrite R5, E4, app_assoc.
    + destruct Hr as (R1 & R2 & -> & R4 & R5). exists s1, []. done.
Qed.

Lemma process_available_spec s u :
  wf s ->
  exists s' es, process_available s u = Some (s', apply_events es u)
    /\ wf s' /\ cap s' = cap s /\ quiet s' /\ forall y, denote s y = es ++ denote s' y.
Proof.
  intros Hwf. apply process_available_loop_spec; [done|].
  unfold round_weight. destruct (state s); lia.
Qed.

Lemma append_spec s data :
  wf s -> (head s + len s + length data <= cap s)%nat ->
  let s' := s <| buf := write_at (buf s) (head s + len s) data |>
              <| len := (len s + length data)%nat |> in
  wf s' /\ forall y, denote s' y = denote s (data ++ y).
Proof.
  intros (Hb & Hc & Hm) Hl s'. split.
  - unfold wf, s'. cbn. rewrite length_write_at by lia. lia.
  - intros y. unfold denote, pending, s'. cbn [buf cap head len state over].
    cbn. rewrite window_append by lia. by rewrite <- app_assoc.
Qed.

Lemma rewind_spec s :
  wf s ->
  let s' := s <| buf := memmove (buf s) 0 (head s) (len s) |> <| head := 0%nat |> in
  wf s' /\ forall y, denote s' y = denote s y.
Proof.
  intros Hwf s'. pose proof (move_front_spec s 0 Hwf ltac:(lia)) as (W1 & W2 & W3 & W4 & W5).
  assert (s' = move_front s 0 (len s - 0)) as ->.
  { unfold s', move_front. rewrite Nat.sub_0_r, Nat.add_0_r. cbn. by destruct s. }
  split; [done|]. intros y. unfold denote. by rewrite W3, W4, W5, drop_0.
Qed.

Lemma compact_spec s :
  wf s -> wf (compact s) /\ (forall y, denote (compact s) y = denote s y)
          /\ head (compact s) = 0%nat /\ len (compact s) = len s /\ cap (compact s) = cap s.
Proof.
  intros Hwf. unfold compact. destruct (Nat.ltb_spec 0 (head s)).
  - destruct (rewind_spec s Hwf). done.
  - split_and!; try done. lia.
Qed.
(** Between feeds the layer is ready: invariant, nothing left to report. *)
Definition ready s : Prop := wf s /\ quiet s.

Lemma quiet_room s : wf s -> quiet s -> (len s < cap s)%nat.
Proof. intros (_ & _ & ?) [_ ?]. lia. Qed.

Lemma stream_feed_loop_spec fuel s u data :
  wf s -> (len s < cap s)%nat -> (length data <= fuel)%nat ->
  exists s' es, stream_feed_loop fuel s u data = Some (s', apply_events es u)
    /\ ready s' /\ forall y, denote s (data ++ y) = es ++ denote s' y.
Proof.
  revert s u data. induction fuel as [|fuel IH]; intros s u data Hwf Hroom Hf.
  { destruct data; cbn in Hf; [|lia]. cbn [stream_feed_loop length Nat.eqb app].
    destruct (process_available_spec s u Hwf) as (s' & es & E & ?).
    exists s', es. unfold ready. naive_solver. }
  cbn [stream_feed_loop]. destruct (Nat.eqb_spec (length data) 0) as [H0|H0].
  { destruct data; [|done].
    destruct (process_available_spec s u Hwf) as (s' & es & E & ?).
    exists s', es. unfold ready. naive_solver. }
  set (s1 := if _ && _ then _ else s).
  assert (Hs1 : wf s1 /\ (forall y, denote s1 y = denote s y) /\ len s1 = len s
                /\ cap s1 = cap s
                /\ (head s1 = 0%nat \/ (len s + length data <= cap s - head s1)%nat)).
  { unfold s1. destruct (Nat.eqb_spec (head s) 0); cbn [negb andb]; [naive_solver|].
    destruct (Nat.ltb_spec (cap s - head s) (len s + length data)); [|naive_solver].
    destruct (rewind_spec s Hwf). cbn. naive_solver. }
  clearbody s1. destruct Hs1 as (W1 & D1 & L1 & C1 & Hh).
  pose proof W1 as (Hb & Hc & Hm).
  destruct (Nat.leb_spec (len s1 + length data) (cap s1 - head s1)) as [Hfit|Hfull].
  - destruct (append_spec s1 data W1 ltac:(lia)) as [W2 D2].
    destruct (process_available_spec _ u W2) as (s' & es & E & E1 & E2 & E3 & E4).
    exists s', es. split; [done|]. split; [done|]. intros y. by rewrite <- E4, D2, D1.
  - destruct Hh as [Hh|Hh]; [|lia].
    destruct (compact_spec s1 W1) as (W2 & D2 & H2 & L2 & C2).
    set (s2 := compact s1) in *. clearbody s2. rewrite L2, C2, L1, C1 in *.
    set (part := Nat.min (length data) (cap s - len s)).
    assert (Hp : (0 < part < length data)%nat) by (unfold part; lia).
    assert (Hlp : length (take part data) = part) by (rewrite length_take; lia).
    destruct (append_spec s2 (take part data) W2 ltac:(lia)) as [W3 D3].
    rewrite Hlp, H2, L2 in W3, D3. cbn [Nat.add] in W3, D3.
    set (s3 := s2 <| buf := _ |> <| len := _ |>) in *. clearbody s3.
    rewrite length_drop. destruct (Nat.eqb_spec (length data - part) 0); [lia|].
    destruct (process_available_spec s3 u W3) as (s4 & es & -> & E1 & E2 & E3 & E4).
    destruct (compact_spec s4 E1) as (W5 & D5 & H5 & L5 & C5).
    destruct (IH (compact s4) (apply_events es u) (drop part data) W5) as (s' & es' & E & F1 & F2).
    { rewrite L5, C5. by apply quiet_room. }
    { rewrite length_drop. lia. }
    exists s', (es ++ es'). rewrite E, apply_events_app. split; [done|]. split; [done|].
    intros y. rewrite <- app_assoc, <- F2, D5, <- E4, D3, D2, D1.
    by rewrite app_assoc, take_drop.
Qed.

Lemma ready_denote s : ready s -> denote s [] = [].
Proof. by intros [_ [? _]]. Qed.

Lemma stream_feed_denote s u data :
  ready s ->
  exists s', stream_feed s u data = Some (s', apply_events (denote s data) u)
    /\ ready s' /\ forall y, denote s (data ++ y) = denote s data ++ denote s' y.
Proof.
  intros Hr. pose proof Hr as [Hwf Hq].
  destruct (stream_feed_loop_spec (length data) s u data Hwf) as (s' & es & E & E1 & E2);
    [by apply quiet_room|done|].
  assert (denote s data = es) as ->.
  { rewrite <- (app_nil_r data), E2, ready_denote by done. apply app_nil_r. }
  by exists s'.
Qed.

(** C1: feeding any chunk to a ready stream terminates, stays inside the buffer,
    delivers to the callbacks exactly the events the specification finds in the
    pending bytes followed by the chunk, in order, and leaves a ready state that
    stands for the rest of the byte string. *)
Theorem stream_feed_refines s u data :
  ready s ->
  exists s', stream_feed s u data = Some (s', apply_events (denote s data) u)
    /\ ready s' /\ forall y, denote s (data ++ y) = denote s data ++ denote s' y.
Proof. apply stream_feed_denote. Qed.

(** Feeding a list of chunks one after the other. *)
Fixpoint feed_chunks s u (chunks : list (list Z)) : option (stream * U) :=
  match chunks with
  | [] => Some (s, u)
  | c :: cs => match stream_feed s u c with
               | Some (s, u) => feed_chunks s u cs
               | None => None
               end
  end.

Lemma feed_chunks_spec s u chunks :
  ready s ->
  exists s', feed_chunks s u chunks = Some (s', apply_events (denote s (concat chunks)) u)
    /\ ready s'
    /\ forall y, denote s (concat chunks ++ y) = denote s (concat chunks) ++ denote s' y.
Proof.
  revert s u. induction chunks as [|c cs IH]; intros s u Hr; cbn [feed_chunks concat].
  - exists s. by rewrite ready_denote.
  - destruct (stream_feed_denote s u c Hr) as (s1 & -> & R1 & D1).
    destruct (IH s1 (apply_events (denote s c) u) R1) as (s2 & -> & R2 & D2).
    exists s2. rewrite <- apply_events_app, D1. split; [done|]. split; [done|].
    intros y. by rewrite <- !app_assoc, D1, D2, app_assoc.
Qed.

(** *** Bytes stay bytes *)

Lemma accept_block_buf s u n : buf (accept_block s u n).1 = buf s.
Proof.
  unfold accept_block. destruct (have_seq s); [destruct (negb _)|]; cbn;
    destruct (good s =? 0), (good s <? 2); reflexivity.
Qed.

Definition round_state (r : (stream * U) + (stream * U)) : stream :=
  match r with inl x => x.1 | inr x => x.1 end.

Lemma process_round_bytes s u :
  bytes_ok (buf s) -> bytes_ok (buf (round_state (process_round s u))).
Proof.
  intros Hb. unfold process_round.
  repeat case_match; cbn [round_state fst]; rewrite ?accept_block_buf; cbn; auto with sniffer.
Qed.

Lemma process_available_bytes fuel s u s' u' :
  bytes_ok (buf s) -> process_available_loop fuel s u = Some (s', u') -> bytes_ok (buf s').
Proof.
  revert s u. induction fuel as [|fuel IH]; intros s u Hb; cbn [process_available_loop].
  { destruct (_ <? _)%nat; [by intros [= <- <-]|done]. }
  destruct (_ <? _)%nat; [by intros [= <- <-]|].
  pose proof (process_round_bytes s u Hb) as Hr.
  destruct (process_round s u) as [[s1 u1]|[s1 u1]]; cbn [round_state fst] in Hr.
  - by apply IH.
  - by intros [= <- <-].
Qed.

Lemma compact_bytes s : bytes_ok (buf s) -> bytes_ok (buf (compact s)).
Proof. intros Hb. unfold compact. destruct (_ <? _)%nat; cbn; auto with sniffer. Qed.

Lemma stream_feed_loop_bytes fuel s u data s' u' :
  bytes_ok (buf s) -> bytes_ok data ->
  stream_feed_loop fuel s u data = Some (s', u') -> bytes_ok (buf s').
Proof.
  revert s u data. induction fuel as [|fuel IH]; intros s u data Hb Hd; cbn [stream_feed_loop];
    (destruct (_ =? 0)%nat; [by apply process_available_bytes|]); [done|].
  cbv zeta. match goal with |- context [if ?c then ?a else s] => set (s1 := if c then a else s) end.
  assert (H1 : bytes_ok (buf s1)) by (subst s1; case_match; cbn; auto with sniffer).
  clearbody s1. destruct (_ <=? _)%nat; [apply process_available_bytes; cbn; auto with sniffer|].
  pose proof (compact_bytes s1 H1) as H2. set (s2 := compact s1) in *. clearbody s2.
  destruct (_ =? 0)%nat; [apply process_available_bytes; cbn; auto with sniffer|].
  destruct (process_available _ u) as [[s4 u4]|] eqn:E; [|done].
  apply IH; [|auto with sniffer]. apply compact_bytes.
  eapply process_available_bytes; [|exact E]. cbn. auto with sniffer.
Qed.

Lemma stream_feed_bytes s u data s' u' :
  bytes_ok (buf s) -> bytes_ok data -> stream_feed s u data = Some (s', u') -> bytes_ok (buf s').
Proof. apply stream_feed_loop_bytes. Qed.

Definition event_ok (e : stream_event) : Prop :=
  match e with EvData d => bytes_ok d | _ => True end.

Lemma parse_ok m sq l : bytes_ok l -> Forall event_ok (parse m sq l).
Proof.
  unfold parse. generalize (2 * length l + 2)%nat as fuel. intros fuel. revert m sq l.
  induction fuel as [|fuel IH]; intros m sq l Hl; cbn [parse_n]; [constructor|].
  destruct (look_block l) as [| |n]; [constructor| |].
  - destruct m; [|constructor; [done|by apply IH]]. apply IH. destruct Hl; [constructor|done].
  - apply Forall_app. split; [|apply IH; auto with sniffer].
    unfold block_events. apply Forall_app. split.
    + repeat case_match; repeat constructor.
    + constructor; [|constructor]. destruct (_ =? 0); [done|]. cbn. auto with sniffer.
Qed.

Lemma denote_ok s y : bytes_ok (buf s) -> bytes_ok y -> Forall event_ok (denote s y).
Proof.
  intros Hb Hy. apply parse_ok. apply bytes_ok_app. split; [|done]. unfold pending. auto with sniffer.
Qed.

(** C5: how the byte stream is cut into USB transfers does not matter: chunks fed
    one by one report what their concatenation reports, and the two final states
    agree on every continuation. *)
Theorem stream_feed_chunking s u chunks :
  ready s ->
  exists s1 s2 u',
    feed_chunks s u chunks = Some (s1, u') /\ stream_feed s u (concat chunks) = Some (s2, u')
    /\ ready s1 /\ ready s2 /\ forall y, denote s1 y = denote s2 y.
Proof.
  intros Hr. destruct (feed_chunks_spec s u chunks Hr) as (s1 & E1 & R1 & D1).
  destruct (stream_feed_denote s u (concat chunks) Hr) as (s2 & E2 & R2 & D2).
  exists s1, s2, (apply_events (denote s (concat chunks)) u).
  split_and!; try done. intros y. specialize (D1 y). rewrite D2 in D1. by apply app_inv_head in D1.
Qed.
End Refinement.

Lemma stream_new_ready : ready stream_new.
Proof.
  split.
  - unfold wf, stream_new, STREAM_BUF_SIZE, UHSIF_BLK_MAX_SIZE. cbn [buf cap head len].
    rewrite length_replicate. lia.
  - split; [|cbn; unfold UHSIF_BLK_MAX_SIZE; lia]. reflexivity.
Qed.

(** The event log is a client: it records the callbacks in order. *)
#[export] Instance log_client : StreamClient (list stream_event) := {
  data_cb d l := l ++ [EvData d];
  ack_cb l := l ++ [EvAck];
  rsync_cb l := l ++ [EvRsync];
}.

Lemma apply_events_log es l : apply_events es l = l ++ es.
Proof.
  revert l. induction es as [|e es IH]; intros l; [by rewrite app_nil_r|].
  change (apply_events (e :: es) l) with (apply_events es (apply_event l e)).
  rewrite IH. by destruct e; cbn; rewrite <- app_assoc.
Qed.

(** ** Well-formed streams and recovery *)

(** One upstream block as the protocol lays it out: channel mask, status word,
    and a payload of whole words (no payload: an ACK). *)
Record block := mk_block { b_mask : Z; b_status : Z; b_payload : list Z }.

Definition block_words (b : block) : Z := Z.of_nat (length (b_payload b)) / 4.

Definition block_ok (b : block) : Prop :=
  0 <= b_mask b < 4096 /\ 0 <= b_status b < 4294967296 /\
  exists n, length (b_payload b) = (4 * n)%nat /\ (Z.of_nat n <= 4092).

Definition encode_block (seq : Z) (b : block) : list Z :=
  let w3 := seq * 16777216 + block_words b * 4096 in
  let w0 := uhsif_hdr_crc16 (b_mask b) (b_status b) w3 * 65536 + UHSIF_BLK_MAGIC16 in
  uhsif_put_le32 w0 ++ uhsif_put_le32 (b_mask b) ++ uhsif_put_le32 (b_status b)
  ++ uhsif_put_le32 w3 ++ b_payload b.

(** Consecutive blocks carry consecutive 8-bit sequence numbers. *)
Fixpoint encode_stream (seq : Z) (bs : list block) : list Z :=
  match bs with
  | [] => []
  | b :: bs => encode_block seq b ++ encode_stream (u8 (seq + 1)) bs
  end.

Definition block_event (b : block) : stream_event :=
  match b_payload b with [] => EvAck | d => EvData d end.

Section Encode.
Context (seq : Z) (b : block) (Hseq : byte_ok seq) (Hb : block_ok b) (y : list Z).

Lemma block_words_nat :
  length (b_payload b) = (4 * Z.to_nat (block_words b))%nat /\ 0 <= block_words b <= 4092.
Proof. destruct Hb as (_ & _ & n & Hn & ?). unfold block_words. rewrite Hn. divmod. Qed.

Lemma encode_block_words :
  let l := encode_block seq b ++ y in
  let w3 := seq * 16777216 + block_words b * 4096 in
  uhsif_le32 l = uhsif_hdr_crc16 (b_mask b) (b_status b) w3 * 65536 + UHSIF_BLK_MAGIC16
  /\ uhsif_le32 (drop 4 l) = b_mask b /\ uhsif_le32 (drop 8 l) = b_status b
  /\ uhsif_le32 (drop 12 l) = w3
  /\ drop 16 l = b_payload b ++ y.
Proof.
  intros l w3. unfold l, encode_block. fold w3.
  pose proof (crc16_word (b_mask b) (b_status b) w3).
  pose proof Hb as (? & ? & _). pose proof block_words_nat as [_ ?].
  rewrite <- !app_assoc. unfold UHSIF_BLK_MAGIC16.
  split_and!.
  - apply le32_put_le32. lia.
  - rewrite drop_app_length' by done. apply le32_put_le32. lia.
  - rewrite app_assoc, drop_app_length' by done. by apply le32_put_le32.
  - rewrite !app_assoc, <- (app_assoc _ (b_payload b)), <- (app_assoc _ _ (b_payload b ++ y)).
    rewrite drop_app_length' by done. apply le32_put_le32. unfold w3. lia.
  - rewrite !app_assoc, <- (app_assoc _ (b_payload b)). by rewrite drop_app_length' by done.
Qed.

Lemma encode_block_length : length (encode_block seq b) = block_span (block_words b).
Proof.
  unfold encode_block. rewrite !length_app, !length_put_le32.
  destruct block_words_nat as [-> _]. unfold block_span, UHSIF_ACK_SIZE. lia.
Qed.

Lemma encode_block_look : look_block (encode_block seq b ++ y) = Full (block_words b).
Proof.
  destruct encode_block_words as (E0 & E1 & E2 & E3 & _).
  pose proof block_words_nat as [_ Hw]. destruct Hb as (Hm & Hs & _).
  apply look_block_Full. rewrite length_app, encode_block_length. split; [|lia].
  unfold header_valid, uhsif_blk_hdr_ok. rewrite E0, E1, E2, E3.
  set (w3 := seq * 16777216 + block_words b * 4096).
  pose proof (crc16_word (b_mask b) (b_status b) w3).
  assert (Hl : Z.land (Z.shiftr w3 12) 0xfff = block_words b).
  { change 0xfff with (Z.ones 12). rewrite Z.land_ones, Z.shiftr_div_pow2 by lia.
    change (2 ^ 12) with 4096. unfold w3. divmod. }
  rewrite Hl.
  assert (u16 (uhsif_hdr_crc16 (b_mask b) (b_status b) w3 * 65536 + UHSIF_BLK_MAGIC16)
          = UHSIF_BLK_MAGIC16) as -> by (unfold u16, UHSIF_BLK_MAGIC16; divmod).
  rewrite Z.eqb_refl, Z.shiftr_div_pow2 by lia. change (2 ^ 16) with 65536.
  assert ((uhsif_hdr_crc16 (b_mask b) (b_status b) w3 * 65536 + UHSIF_BLK_MAGIC16) / 65536
          = uhsif_hdr_crc16 (b_mask b) (b_status b) w3) as ->
    by (unfold UHSIF_BLK_MAGIC16; divmod).
  rewrite Z.eqb_refl. cbn [negb andb].
  assert (has (b_mask b) 0xfffff000 = false) as ->.
  { unfold has. change 0xfffff000 with (Z.shiftl (Z.ones 20) 12).
    rewrite <- (Z.mod_small (b_mask b) (2 ^ 12)) by (change (2 ^ 12) with 4096; lia).
    rewrite <- Z.land_ones by lia. rewrite <- Z.land_assoc.
    change (Z.land (Z.ones 12) (Z.shiftl (Z.ones 20) 12)) with 0. by rewrite Z.land_0_r. }
  unfold UHSIF_MIN_PAYLOAD_WORDS, UHSIF_MAX_PAYLOAD_WORDS.
  destruct (Z.eqb_spec (block_words b) 0); [done|]. cbn [negb andb].
  destruct (Z.leb_spec 1 (block_words b)), (Z.leb_spec (block_words b) 4092); done || lia.
Qed.

Lemma encode_block_seq : uhsif_blk_seq (encode_block seq b ++ y) = seq.
Proof.
  destruct encode_block_words as (_ & _ & _ & E3 & _). pose proof block_words_nat as [_ ?].
  unfold uhsif_blk_seq. rewrite E3, shiftr_u8 by lia. change (2 ^ 24) with 16777216. divmod.
Qed.

(** An encoded block at the front is parsed in either state, after a sequence
    report when it does not follow the previous block. *)
Lemma parse_block m sq :
  parse m sq (encode_block seq b ++ y)
  = (match sq with Some q => if seq =? u8 (q + 1) then [] else [EvRsync] | None => [] end)
    ++ block_event b :: parse STREAM_BLOCK (Some seq) y.
Proof.
  rewrite parse_unfold, encode_block_look. unfold block_events.
  destruct encode_block_words as (_ & _ & _ & _ & E4). unfold UHSIF_ACK_SIZE.
  rewrite E4, encode_block_seq, drop_app_length' by (by rewrite encode_block_length).
  pose proof block_words_nat as [Hl Hw].
  assert ([if block_words b =? 0 then EvAck
           else EvData (take (4 * Z.to_nat (block_words b)) (b_payload b ++ y))]
          = [block_event b]) as ->.
  { rewrite <- Hl, take_app_length. unfold block_event.
    destruct (Z.eqb_spec (block_words b) 0) as [E|E].
    - rewrite E in Hl. by destruct (b_payload b).
    - destruct (b_payload b); [cbn in Hl; lia|done]. }
  rewrite <- app_assoc. by destruct m.
Qed.
End Encode.

Lemma parse_nil m sq : parse m sq [] = [].
Proof. by rewrite parse_unfold. Qed.

Lemma parse_encode_stream bs m seq sq y :
  byte_ok seq -> Forall block_ok bs ->
  (sq = None \/ exists q, sq = Some q /\ u8 (q + 1) = seq) ->
  exists m' sq', parse m sq (encode_stream seq bs ++ y)
                 = map block_event bs ++ parse m' sq' y.
Proof.
  intros Hseq Hbs. revert m seq sq Hseq. induction Hbs as [|b bs Hb Hbs IH]; intros m seq sq Hseq Hq.
  - by exists m, sq.
  - cbn [encode_stream]. rewrite <- app_assoc, parse_block by done.
    assert ((match sq with Some q => if seq =? u8 (q + 1) then [] else [EvRsync] | None => [] end)
            = []) as ->.
    { destruct Hq as [->|(q & -> & ->)]; [done|]. by rewrite Z.eqb_refl. }
    destruct (IH STREAM_BLOCK (u8 (seq + 1)) (Some seq)) as (m' & sq' & E).
    + apply u8_range.
    + right. by exists seq.
    + exists m', sq'. cbn [map app]. by rewrite E.
Qed.

(** C3: round trip.  Whatever the transfer boundaries, the blocks an FPGA sends with
    consecutive sequence numbers come out as their payloads and ACKs, in order,
    with no loss and no spurious resynchronization report. *)
Theorem stream_roundtrip seq bs chunks :
  byte_ok seq -> Forall block_ok bs -> concat chunks = encode_stream seq bs ->
  exists s', feed_chunks stream_new [] chunks = Some (s', map block_event bs) /\ ready s'.
Proof.
  intros Hseq Hbs Hc.
  destruct (feed_chunks_spec stream_new [] chunks stream_new_ready) as (s' & E & R & _).
  exists s'. split; [|done]. rewrite E, apply_events_log. do 3 f_equal.
  rewrite Hc. change (denote stream_new ?x) with (parse STREAM_SCAN None x).
  destruct (parse_encode_stream bs STREAM_SCAN seq None [] Hseq Hbs) as (m' & sq' & Ep);
    [by left|].
  rewrite app_nil_r in Ep. by rewrite Ep, parse_nil, app_nil_r.
Qed.

(** No block starts at any of the first [length g] bytes. *)
Definition no_header_in (g rest : list Z) : Prop :=
  forall j, (j < length g)%nat ->
    (16 <= length (drop j (g ++ rest)))%nat -> header_valid (drop j (g ++ rest)) = None.

Lemma parse_garbage g sq rest :
  no_header_in g rest -> (16 <= length rest)%nat ->
  parse STREAM_SCAN sq (g ++ rest) = parse STREAM_SCAN sq rest.
Proof.
  intros Hg Hl. induction g as [|x g IH]; [done|].
  rewrite parse_unfold.
  assert (look_block ((x :: g) ++ rest) = Bad) as ->.
  { apply look_block_Bad. rewrite length_app. cbn [length]. split; [lia|].
    apply (Hg 0%nat); cbn [length drop app]; rewrite ?length_app; lia. }
  apply IH. intros j Hj. apply (Hg (S j)). cbn. lia.
Qed.

Lemma no_header_in_app g rest y :
  (16 <= length rest)%nat -> no_header_in g rest -> no_header_in g (rest ++ y).
Proof.
  intros Hl Hg j Hj Hlen. rewrite app_assoc, drop_app_le by (rewrite length_app; lia).
  assert (16 <= length (drop j (g ++ rest)))%nat by (rewrite length_drop, length_app; lia).
  rewrite header_valid_app by done. by apply Hg.
Qed.

Lemma parse_lost_block g sq seq b y :
  byte_ok seq -> block_ok b -> g <> [] -> no_header_in g (encode_block seq b) ->
  parse STREAM_BLOCK sq (g ++ encode_block seq b ++ y)
  = EvRsync :: block_event b :: parse STREAM_BLOCK (Some seq) y.
Proof.
  intros Hseq Hb Hne Hg.
  assert (16 <= length (encode_block seq b))%nat
    by (rewrite encode_block_length by done; apply block_span_ge).
  pose proof (no_header_in_app g _ y ltac:(done) Hg) as Hgy.
  rewrite parse_unfold.
  assert (look_block (g ++ encode_block seq b ++ y) = Bad) as ->.
  { apply look_block_Bad. rewrite !length_app. split; [lia|].
    destruct g as [|x g]; [done|].
    apply (Hgy 0%nat); cbn [length drop app]; rewrite ?length_app; lia. }
  rewrite parse_garbage by (done || (rewrite length_app; lia)).
  by rewrite parse_block.
Qed.

(** C4: recovery.  In the aligned state, garbage that contains no valid header costs
    exactly one resynchronization report; the next block is delivered, whatever
    its sequence number, and the layer is aligned behind it. *)
Theorem stream_recovery {U} `{StreamClient U} s (u : U) g seq b :
  ready s -> state s = STREAM_BLOCK -> pending s = [] ->
  byte_ok seq -> block_ok b ->
  g <> [] -> no_header_in g (encode_block seq b) ->
  exists s',
    stream_feed s u (g ++ encode_block seq b)
    = Some (s', apply_events [EvRsync; block_event b] u)
    /\ ready s' /\ forall y, denote s' y = parse STREAM_BLOCK (Some seq) y.
Proof.
  intros Hr Est Hp Hseq Hb Hne Hg.
  destruct (stream_feed_denote s u (g ++ encode_block seq b) Hr) as (s' & E & R & D).
  assert (Hd : forall y, denote s ((g ++ encode_block seq b) ++ y)
                         = EvRsync :: block_event b :: parse STREAM_BLOCK (Some seq) y).
  { intros y. unfold denote. rewrite Est, Hp, <- app_assoc. cbn [app]. by apply parse_lost_block. }
  assert (H0 : denote s (g ++ encode_block seq b) = [EvRsync; block_event b]).
  { rewrite <- (app_nil_r (g ++ _)), Hd. by rewrite parse_nil. }
  exists s'. rewrite E, H0. split; [done|]. split; [done|].
  intros y. specialize (D y). rewrite Hd, H0 in D. by injection D as D.
Qed.

(** A jump of the sequence number is reported once and the block that carries it
    is still delivered; no rescan starts: the layer stays aligned behind it. *)
Theorem stream_sequence_jump {U} `{StreamClient U} s (u : U) seq b :
  ready s -> pending s = [] -> byte_ok seq -> block_ok b ->
  have_seq s = true -> seq <> u8 (last_seq s + 1) ->
  exists s',
    stream_feed s u (encode_block seq b) = Some (s', apply_events [EvRsync; block_event b] u)
    /\ ready s' /\ forall y, denote s' y = parse STREAM_BLOCK (Some seq) y.
Proof.
  intros Hr Hp Hseq Hb Hh Hne.
  destruct (stream_feed_denote s u (encode_block seq b) Hr) as (s' & E & R & D).
  assert (Hd : forall y, denote s (encode_block seq b ++ y)
                         = EvRsync :: block_event b :: parse STREAM_BLOCK (Some seq) y).
  { intros y. unfold denote, seq_of. rewrite Hp, Hh. cbn [app].
    rewrite parse_block by done. by rewrite (proj2 (Z.eqb_neq _ _) Hne). }
  assert (H0 : denote s (encode_block seq b) = [EvRsync; block_event b]).
  { rewrite <- (app_nil_r (encode_block _ _)), Hd. by rewrite parse_nil. }
  exists s'. rewrite E, H0. split; [done|]. split; [done|].
  intros y. specialize (D y). rewrite Hd, H0 in D. by injection D as D.
Qed.

(** *** The hypotheses hold at concrete states and blocks *)

Definition ack_block : block := mk_block 1 0 [].
Definition data_block : block := mk_block 1 2 [1; 2; 3; 4].

Lemma ack_block_ok : block_ok ack_block.
Proof. split_and!; [cbn; lia..|]. exists 0%nat. cbn. lia. Qed.
Lemma data_block_ok : block_ok data_block.
Proof. split_and!; [cbn; lia..|]. exists 1%nat. cbn. lia. Qed.

(** The empty buffer of an aligned layer that has seen block 9. *)
Definition stream_aligned : stream :=
  mk_stream (replicate STREAM_BUF_SIZE 0) STREAM_BUF_SIZE 0 0 STREAM_BLOCK 9 true 1.

Lemma stream_aligned_ready : ready stream_aligned.
Proof.
  split.
  - unfold wf, stream_aligned, STREAM_BUF_SIZE, UHSIF_BLK_MAX_SIZE. cbn [buf cap head len].
    rewrite length_replicate. lia.
  - split; [|cbn; unfold UHSIF_BLK_MAX_SIZE; lia]. reflexivity.
Qed.

Lemma stream_feed_refines_witness :
  exists s', stream_feed stream_new [] [0xc6; 0x6c; 1]
             = Some (s', apply_events (denote stream_new [0xc6; 0x6c; 1]) []) /\ ready s'.
Proof.
  destruct (stream_feed_refines stream_new ([] : list stream_event) [0xc6; 0x6c; 1] stream_new_ready)
    as (s' & E & R & _).
  exists s'. split; [exact E|exact R].
Defined.

Lemma stream_feed_chunking_witness :
  exists s1 s2 u',
    feed_chunks stream_new ([] : list stream_event) [[0xc6]; [0x6c; 1]] = Some (s1, u')
    /\ stream_feed stream_new [] [0xc6; 0x6c; 1] = Some (s2, u').
Proof.
  destruct (stream_feed_chunking stream_new ([] : list stream_event) [[0xc6]; [0x6c; 1]]
              stream_new_ready) as (s1 & s2 & u' & E1 & E2 & _).
  exists s1, s2, u'. split; [exact E1|exact E2].
Defined.

Lemma stream_roundtrip_witness :
  exists s', feed_chunks stream_new []
    [encode_block 255 ack_block; encode_block 0 data_block]
    = Some (s', [EvAck; EvData [1; 2; 3; 4]]).
Proof.
  destruct (stream_roundtrip 255 [ack_block; data_block]
              [encode_block 255 ack_block; encode_block 0 data_block]) as (s' & E & _).
  - lia.
  - apply Forall_cons_2; [exact ack_block_ok|]. apply Forall_cons_2; [exact data_block_ok|constructor].
  - reflexivity.
  - exists s'. exact E.
Defined.

Lemma stream_recovery_witness :
  exists s', stream_feed stream_aligned ([] : list stream_event) ([0x55] ++ encode_block 3 data_block)
    = Some (s', [EvRsync; EvData [1; 2; 3; 4]]).
Proof.
  destruct (stream_recovery stream_aligned ([] : list stream_event) [0x55] 3 data_block)
    as (s' & E & _).
  - exact stream_aligned_ready.
  - reflexivity.
  - reflexivity.
  - lia.
  - exact data_block_ok.
  - discriminate.
  - intros [|j] Hj Hl; [vm_compute; reflexivity|cbn in Hj; lia].
  - exists s'. exact E.
Defined.

Lemma stream_sequence_jump_witness :
  exists s', stream_feed stream_aligned ([] : list stream_event) (encode_block 12 data_block)
    = Some (s', [EvRsync; EvData [1; 2; 3; 4]]).
Proof.
  destruct (stream_sequence_jump stream_aligned ([] : list stream_event) 12 data_block)
    as (s' & E & _).
  - exact stream_aligned_ready.
  - reflexivity.
  - lia.
  - exact data_block_ok.
  - reflexivity.
  - discriminate.
  - exists s'. exact E.
Defined.
