(* ===== verification/Pcapng.v ===== *)
(** * pcapng writer: block assembly (src/pcapng.c, block layer)

    Blocks are assembled in a fixed 4096-byte buffer and handed, as whole
    blocks, to the asynchronous sink; blocks written before [pcapng_begin] are
    staged.  The sink is an interface ([ByteSink]); WriteQueue.v models the
    writer thread behind it. *)

From Stdlib Require Import String.
From S2P Require Import Prelude.

Definition PCAPNG_BLOCK_BUF_SIZE : nat := Z.to_nat 4096.

Definition LINKTYPE_USB_2_0 : Z := 288.
Definition LINKTYPE_USB_2_0_LOW_SPEED : Z := 293.
Definition LINKTYPE_USB_2_0_FULL_SPEED : Z := 294.
Definition LINKTYPE_USB_2_0_HIGH_SPEED : Z := 295.
Definition LINKTYPE_WIRESHARK_UPPER_PDU : Z := 252.

(** What the block layer asks of the asynchronous sink: [sunk] is the byte
    sequence accepted so far, which flushing does not change. *)
Class ByteSink (S : Type) := {
  sink_write : list Z -> S -> S;
  chunk_flush : S -> S;
  sink_drain : S -> S;
  sunk : S -> list Z;
  sunk_write d s : sunk (sink_write d s) = (sunk s ++ d)%list;
  sunk_chunk_flush s : sunk (chunk_flush s) = sunk s;
  sunk_drain s : sunk (sink_drain s) = sunk s;
}.

#[export] Instance list_sink : ByteSink (list Z) := {
  sink_write d s := (s ++ d)%list;
  chunk_flush s := s;
  sink_drain s := s;
  sunk s := s;
  sunk_write d s := eq_refl;
  sunk_chunk_flush s := eq_refl;
  sunk_drain s := eq_refl;
}.

Record pcapng (S : Type) := mk_pcapng {
  begun : bool;
  block : list Z;          (* current block assembly buffer *)
  ptr : nat;
  pend : list Z;           (* blocks staged before pcapng_begin() *)
  pend_cap : Z;
  out : S;
}.
Arguments mk_pcapng {S}. Arguments begun {S}. Arguments block {S}. Arguments ptr {S}.
Arguments pend {S}. Arguments pend_cap {S}. Arguments out {S}.
#[export] Instance pcapng_settable S : Settable (pcapng S) := fun p =>
  mk_pcapng (begun p) (block p) (ptr p) (pend p) (pend_cap p) (out p).

Section Pcapng.
Context {S : Type} `{ByteSink S}.
Implicit Type p : pcapng S.

Definition pcapng_open (o : S) : pcapng S :=
  mk_pcapng false (replicate PCAPNG_BLOCK_BUF_SIZE 0) 0 [] 0 o.

(** Store bytes at [block[ptr]] and advance. *)
Definition store p (d : list Z) : pcapng S :=
  p <| block := write_at (block p) (ptr p) d |> <| ptr := (ptr p + length d)%nat |>.

Fixpoint put_pad_loop (fuel : nat) p : pcapng S :=
  match fuel with
  | O => p
  | Datatypes.S fuel => if (ptr p mod 4 =? 0)%nat then p else put_pad_loop fuel (store p [0])
  end.
Definition put_pad p : pcapng S := put_pad_loop 4 p.

Definition put_half p (value : Z) : pcapng S :=
  store p [u8 value; u8 (Z.shiftr value 8)].

Definition put_word p (value : Z) : pcapng S :=
  store p [u8 value; u8 (Z.shiftr value 8); u8 (Z.shiftr value 16); u8 (Z.shiftr value 24)].

Definition put_data p (data : list Z) (size : Z) : pcapng S :=
  store p (take (Z.to_nat size) data).

Definition put_option p (index : Z) (s : string) : pcapng S :=
  let len := Z.of_nat (String.length s) in
  let p := put_half p (u16 index) in
  let p := put_half p (u16 len) in
  let p := put_data p (cstr s) len in
  put_pad p.

Definition send_buffer p : pcapng S :=
  let size := Z.of_nat (ptr p) + 4 in
  let p := put_word p (u32 size) in
  let p := p <| block := write_at (block p) 4
                  [u8 size; u8 (Z.shiftr size 8); u8 (Z.shiftr size 16); u8 (Z.shiftr size 24)] |> in
  let p :=
    if begun p then p <| out := sink_write (take (ptr p) (block p)) (out p) |>
    else
      let p :=
        if pend_cap p <? Z.of_nat (length (pend p) + ptr p)
        then p <| pend_cap := if pend_cap p =? 0 then 65536 else pend_cap p * 2 |>
        else p in
      p <| pend := (pend p ++ take (ptr p) (block p))%list |> in
  p <| ptr := 0%nat |>.

Definition write_block_type p (type : Z) : pcapng S :=
  let p := put_word p type in
  put_word p 0.

Definition write_file_header p : pcapng S :=
  let p := write_block_type p 0x0a0d0d0a in
  let p := put_word p 0x1a2b3c4d in
  let p := put_half p 1 in
  let p := put_half p 0 in
  let p := put_word p 0xffffffff in
  let p := put_word p 0xffffffff in
  let p := put_option p 0x0002 "USB Sniffer 2"%string in
  let p := put_option p 0x0000 ""%string in
  send_buffer p.

Definition write_usb_header p (link_type : Z) : pcapng S :=
  let p := write_block_type p 1 in
  let p := put_half p (u16 link_type) in
  let p := put_half p 0 in
  let p := put_word p 0xffff in
  let p := put_option p 0x0002 "usb"%string in
  let p := put_option p 0x0003 "Hardware USB interface"%string in
  let p := put_half p 9 in
  let p := put_half p 1 in
  let p := put_word p 9 in
  let p := put_option p 0x0000 ""%string in
  send_buffer p.

Definition write_info_header p : pcapng S :=
  let p := write_block_type p 1 in
  let p := put_half p LINKTYPE_WIRESHARK_UPPER_PDU in
  let p := put_half p 0 in
  let p := put_word p 0xffff in
  let p := put_option p 0x0002 "info"%string in
  let p := put_option p 0x0003 "Out of band information"%string in
  let p := put_half p 9 in
  let p := put_half p 1 in
  let p := put_word p 9 in
  let p := put_option p 0x0000 ""%string in
  send_buffer p.

(** [if (p->pend_len) sink_write(p, p->pend, p->pend_len)] *)
Definition flush_pending p : pcapng S :=
  if (length (pend p) =? 0)%nat then p
  else p <| out := sink_write (pend p) (out p) |>.

(** [None] is the failed [os_assert(!p->begun)], which exits. *)
Definition pcapng_begin p (usb_link_type : Z) : option (pcapng S) :=
  if begun p then None
  else
    Some (flush_pending
            (write_info_header
               (write_usb_header (write_file_header (p <| begun := true |>)) usb_link_type))).

Definition pcapng_write_epb p (ts : Z) (data : list Z) (size : Z) : pcapng S :=
  let p := write_block_type p 6 in
  let p := put_word p 0 in
  let p := put_word p (u32 (Z.shiftr ts 32)) in
  let p := put_word p (u32 ts) in
  let p := put_word p (u32 size) in
  let p := put_word p (u32 size) in
  let p := put_data p data size in
  let p := put_pad p in
  let p := put_option p 0x0000 ""%string in
  send_buffer p.

Definition info_hdr : list Z := [0; 12; 0; 6; 115; 121; 115; 108; 111; 103; 0; 0; 0; 0].

Definition pcapng_write_info p (ts : Z) (s : list Z) (size : Z) : pcapng S :=
  let p := write_block_type p 6 in
  let p := put_word p 1 in
  let p := put_word p (u32 (Z.shiftr ts 32)) in
  let p := put_word p (u32 ts) in
  let p := put_word p (u32 (14 + size)) in
  let p := put_word p (u32 (14 + size)) in
  let p := put_data p info_hdr 14 in
  let p := put_data p s size in
  let p := put_pad p in
  let p := send_buffer p in
  p <| out := chunk_flush (out p) |>.

Definition pcapng_flush p : pcapng S :=
  if negb (begun p) then p
  else p <| out := sink_drain (chunk_flush (out p)) |>.

End Pcapng.

(** ** Specification: blocks as byte strings *)

Definition le16 (v : Z) : list Z := [u8 v; u8 (Z.shiftr v 8)].
Definition le32 (v : Z) : list Z :=
  [u8 v; u8 (Z.shiftr v 8); u8 (Z.shiftr v 16); u8 (Z.shiftr v 24)].

Definition pad4 (l : list Z) : list Z := (l ++ replicate ((4 - length l mod 4) mod 4) 0)%list.

(** A general block: type, total length, body, total length. *)
Definition block_bytes (type : Z) (body : list Z) : list Z :=
  let size := Z.of_nat (length body) + 12 in
  (le32 type ++ le32 size ++ body ++ le32 size)%list.

Definition option_bytes (index : Z) (s : list Z) : list Z :=
  (le16 index ++ le16 (Z.of_nat (length s)) ++ pad4 s)%list.

Definition shb_body : list Z :=
  (le32 0x1a2b3c4d ++ le16 1 ++ le16 0 ++ le32 0xffffffff ++ le32 0xffffffff
   ++ option_bytes 2 (cstr "USB Sniffer 2"%string) ++ option_bytes 0 [])%list.

Definition idb_body (link_type : Z) (name descr : string) : list Z :=
  (le16 link_type ++ le16 0 ++ le32 0xffff
   ++ option_bytes 2 (cstr name) ++ option_bytes 3 (cstr descr)
   ++ option_bytes 9 [9] ++ option_bytes 0 [])%list.

(** The two kinds of packet records a session writes. *)
Inductive record :=
| Packet (ts : Z) (data : list Z)       (* EPB on interface 0 *)
| Info (ts : Z) (text : list Z).        (* EPB on interface 1, UPPER_PDU *)

Definition epb_prefix (iface ts caplen : Z) : list Z :=
  (le32 iface ++ le32 (u32 (Z.shiftr ts 32)) ++ le32 (u32 ts)
   ++ le32 caplen ++ le32 caplen)%list.

Definition record_body (r : record) : list Z :=
  match r with
  | Packet ts d =>
      (epb_prefix 0 ts (Z.of_nat (length d)) ++ pad4 d ++ option_bytes 0 [])%list
  | Info ts t =>
      (epb_prefix 1 ts (14 + Z.of_nat (length t)) ++ pad4 (info_hdr ++ t))%list
  end.

Definition record_bytes (r : record) : list Z := block_bytes 6 (record_body r).

Definition header_bytes (link_type : Z) : list Z :=
  (block_bytes 0x0a0d0d0a shb_body
   ++ block_bytes 1 (idb_body link_type "usb"%string "Hardware USB interface"%string)
   ++ block_bytes 1 (idb_body 252 "info"%string "Out of band information"%string))%list.

(** *** A reader for the blocks, as a consumer of the file would write it *)

Definition get32 (l : list Z) : Z :=
  l !!! 0%nat + l !!! 1%nat * 256 + l !!! 2%nat * 65536 + l !!! 3%nat * 16777216.

(** One block off the front: its type, its body and the rest. *)
Definition read_block (l : list Z) : option (Z * list Z * list Z) :=
  let size := get32 (drop 4 l) in
  if (length l <? 12)%nat || (size <? 12) || negb (size mod 4 =? 0)
     || (Z.of_nat (length l) <? size) then None
  else
    let body := take (Z.to_nat size - 12) (drop 8 l) in
    if get32 (drop (Z.to_nat size - 4) l) =? size
    then Some (get32 l, body, drop (Z.to_nat size) l)
    else None.

Fixpoint read_blocks (fuel : nat) (l : list Z) : option (list (Z * list Z)) :=
  match l, fuel with
  | [], _ => Some []
  | _, O => None
  | _, Datatypes.S fuel =>
      match read_block l with
      | None => None
      | Some (ty, body, rest) =>
          match read_blocks fuel rest with
          | None => None
          | Some bs => Some ((ty, body) :: bs)
          end
      end
  end.

Definition read_record (blk : Z * list Z) : option record :=
  let '(ty, body) := blk in
  let iface := get32 body in
  let ts := get32 (drop 4 body) * 4294967296 + get32 (drop 8 body) in
  let caplen := get32 (drop 12 body) in
  let data := take (Z.to_nat caplen) (drop 20 body) in
  if negb (ty =? 6) then None
  else if iface =? 0 then Some (Packet ts data)
  else Some (Info ts (drop 14 data)).

(** ** The writer implements the specification *)

Arguments PCAPNG_BLOCK_BUF_SIZE : simpl never.
Arguments block_bytes : simpl never.
Arguments le32 : simpl never.
Arguments le16 : simpl never.

Lemma length_pad4 l : length (pad4 l) = (length l + (4 - length l mod 4) mod 4)%nat.
Proof. unfold pad4. by rewrite length_app, length_replicate. Qed.
Lemma pad4_aligned l : (length (pad4 l) mod 4 = 0)%nat.
Proof. rewrite length_pad4. natmod. Qed.
Lemma pad4_app c d : (length c mod 4 = 0)%nat -> pad4 (c ++ d) = (c ++ pad4 d)%list.
Proof.
  intros Hc. unfold pad4. rewrite <- app_assoc. do 3 f_equal. rewrite length_app. natmod.
Qed.
Lemma length_pad4_le l : (length (pad4 l) <= length l + 3)%nat.
Proof. rewrite length_pad4. natmod. Qed.
Lemma length_option_bytes i s : length (option_bytes i s) = (4 + length (pad4 s))%nat.
Proof. unfold option_bytes. by rewrite !length_app. Qed.
Lemma option_bytes_aligned i s : (length (option_bytes i s) mod 4 = 0)%nat.
Proof. rewrite length_option_bytes. pose proof (pad4_aligned s). natmod. Qed.

Lemma take_write_at {A} (b d : list A) off n :
  (off + length d <= n)%nat -> (n <= length b)%nat ->
  take n (write_at b off d) = write_at (take n b) off d.
Proof.
  intros Hn Hb. unfold write_at.
  rewrite take_app_ge by (rewrite length_take; lia).
  rewrite length_take, Nat.min_l by lia. rewrite take_app_ge by lia.
  rewrite take_take, Nat.min_l by lia. rewrite skipn_firstn_comm. do 3 f_equal. lia.
Qed.

Lemma length_le32 v : length (le32 v) = 4%nat.
Proof. done. Qed.
Lemma length_le16 v : length (le16 v) = 2%nat.
Proof. done. Qed.

Section Assembly.
Context {S : Type} `{ByteSink S}.
Implicit Type p : pcapng S.

(** [p] has assembled exactly the bytes [c]; the other fields are those of [p0]. *)
Definition holds p0 p (c : list Z) : Prop :=
  length (block p) = PCAPNG_BLOCK_BUF_SIZE /\ ptr p = length c /\ take (ptr p) (block p) = c
  /\ begun p = begun p0 /\ pend p = pend p0 /\ pend_cap p = pend_cap p0 /\ out p = out p0.

Lemma store_holds p0 p c d :
  holds p0 p c -> (length c + length d <= PCAPNG_BLOCK_BUF_SIZE)%nat ->
  holds p0 (store p d) (c ++ d).
Proof.
  intros (Hb & Hp & Hc & E) Hl. unfold holds, store. cbn.
  rewrite length_write_at, length_app by lia. split_and!; try lia; try apply E.
  rewrite Hp in *. rewrite <- Hc at 3.
  rewrite <- (drop_0 (write_at _ _ _)), <- (drop_0 (block p)) at 1.
  by rewrite (window_append (block p) 0) by lia.
Qed.

Lemma put_half_holds p0 p c v :
  holds p0 p c -> (length c + 2 <= PCAPNG_BLOCK_BUF_SIZE)%nat ->
  holds p0 (put_half p v) (c ++ le16 v).
Proof. apply (store_holds p0 p c (le16 v)). Qed.

Lemma put_word_holds p0 p c v :
  holds p0 p c -> (length c + 4 <= PCAPNG_BLOCK_BUF_SIZE)%nat ->
  holds p0 (put_word p v) (c ++ le32 v).
Proof. apply (store_holds p0 p c (le32 v)). Qed.

Lemma put_data_holds p0 p c d n :
  holds p0 p c -> n = Z.of_nat (length d) ->
  (length c + length d <= PCAPNG_BLOCK_BUF_SIZE)%nat ->
  holds p0 (put_data p d n) (c ++ d).
Proof. intros Hh -> Hl. unfold put_data. rewrite Nat2Z.id, firstn_all. by apply store_holds. Qed.

Lemma put_pad_loop_holds n p0 p c :
  holds p0 p c -> (length c + (4 - length c mod 4) mod 4 <= PCAPNG_BLOCK_BUF_SIZE)%nat ->
  ((4 - length c mod 4) mod 4 <= n)%nat ->
  holds p0 (put_pad_loop n p) (pad4 c).
Proof.
  revert c p. induction n as [|n IH]; intros c p Hh Hl Hn; pose proof Hh as (_ & Hp & _);
    cbn [put_pad_loop].
  - unfold pad4. replace ((4 - length c mod 4) mod 4)%nat with 0%nat by lia.
    by rewrite app_nil_r.
  - rewrite Hp. destruct (Nat.eqb_spec (length c mod 4) 0) as [E|E].
    + unfold pad4. rewrite E. by rewrite app_nil_r.
    + assert (pad4 c = pad4 (c ++ [0])) as ->.
      { unfold pad4. rewrite <- app_assoc. f_equal. rewrite length_app. cbn [length].
        replace ((4 - length c mod 4) mod 4)%nat
          with (Datatypes.S ((4 - (length c + 1) mod 4) mod 4)) by natmod. done. }
      apply IH; rewrite ?length_app; cbn [length].
      * apply store_holds; cbn [length]; [done|natmod].
      * natmod.
      * natmod.
Qed.

Lemma put_pad_holds p0 p c :
  holds p0 p c -> (length c + 3 <= PCAPNG_BLOCK_BUF_SIZE)%nat -> holds p0 (put_pad p) (pad4 c).
Proof. intros. apply put_pad_loop_holds; [done|natmod..]. Qed.

Lemma length_cstr s : length (cstr s) = String.length s.
Proof. induction s as [|a s IH]; cbn; [done|]. by rewrite IH. Qed.

Lemma put_option_holds p0 p c i s :
  holds p0 p c -> (length c mod 4 = 0)%nat -> 0 <= i < 65536 ->
  (length c + String.length s + 7 <= PCAPNG_BLOCK_BUF_SIZE)%nat ->
  holds p0 (put_option p i s) (c ++ option_bytes i (cstr s)).
Proof.
  intros Hh Hc Hi Hl. unfold put_option, option_bytes. rewrite length_cstr.
  rewrite !u16_small by (unfold PCAPNG_BLOCK_BUF_SIZE in Hl; lia).
  rewrite app_assoc, app_assoc, <- pad4_app; [|rewrite !length_app; rewrite ?length_le16; natmod].
  apply put_pad_holds; [|rewrite !length_app, length_cstr; rewrite ?length_le16; lia].
  apply put_data_holds; [|f_equal; symmetry; apply length_cstr|rewrite !length_app, length_cstr; rewrite ?length_le16; lia].
  apply put_half_holds; [|rewrite !length_app; rewrite ?length_le16; lia].
  apply put_half_holds; [done|lia].
Qed.

(** A state between blocks, with a staging area inside its allocation. *)
Definition idle p : Prop :=
  length (block p) = PCAPNG_BLOCK_BUF_SIZE /\ ptr p = 0%nat
  /\ (pend_cap p = 0 \/ 65536 <= pend_cap p) /\ Z.of_nat (length (pend p)) <= pend_cap p.

(** [p'] is [p] after the bytes [d] went to the sink, or to the staging area when
    the section header is not out yet. *)
Definition emits p p' (d : list Z) : Prop :=
  idle p' /\ begun p' = begun p /\
  if begun p then pend p' = pend p /\ sunk (out p') = (sunk (out p) ++ d)%list
  else pend p' = (pend p ++ d)%list /\ sunk (out p') = sunk (out p).

Lemma idle_holds p : idle p -> holds p p [].
Proof. intros (Hb & Hp & _). unfold holds. rewrite Hp. done. Qed.

Lemma holds_eq p0 p c c' : holds p0 p c -> c = c' -> holds p0 p c'.
Proof. by intros ? <-. Qed.

Lemma send_buffer_emits p0 p type body :
  idle p0 -> holds p0 p (le32 type ++ le32 0 ++ body) ->
  (length body + 12 <= PCAPNG_BLOCK_BUF_SIZE)%nat ->
  emits p0 (send_buffer p) (block_bytes type body).
Proof.
  intros (Hb0 & Hp0 & Hcap & Hpl) Hh Hl.
  pose proof Hh as (Hb & Hp & Hc & Ebg & Epd & Ecap & Eout).
  set (c := (le32 type ++ le32 0 ++ body)%list) in *.
  assert (Hlc : length c = (8 + length body)%nat) by (unfold c; rewrite !length_app; done).
  set (size := Z.of_nat (ptr p) + 4).
  assert (Hsz : size = Z.of_nat (length body) + 12) by lia.
  assert (Hlt : 0 <= size < 4294967296) by (unfold PCAPNG_BLOCK_BUF_SIZE in *; lia).
  pose proof (put_word_holds p0 p c (u32 size) Hh ltac:(lia)) as (Wb & Wp & Wc & Wbg & Wpd & Wcap & Wout).
  set (p1 := put_word p (u32 size)) in *.
  assert (Hbytes : take (ptr p1) (write_at (block p1) 4 (le32 size)) = block_bytes type body).
  { rewrite take_write_at; [|rewrite Wp, length_app; rewrite ?length_le32; lia|
      rewrite Wp, Wb, length_app; rewrite ?length_le32; lia].
    rewrite Wc, u32_small by done. unfold c, block_bytes. rewrite <- Hsz. done. }
  assert (Hlb : length (block_bytes type body) = (length body + 12)%nat).
  { unfold block_bytes. rewrite !length_app. rewrite ?length_le32. lia. }
  assert (Hwl : length (write_at (block p1) 4 (le32 size)) = PCAPNG_BLOCK_BUF_SIZE).
  { rewrite length_write_at; [done|]. rewrite ?length_le32. lia. }
  unfold send_buffer. fold size. fold p1. clearbody p1. cbv zeta.
  change [u8 size; u8 (Z.shiftr size 8); u8 (Z.shiftr size 16); u8 (Z.shiftr size 24)]
    with (le32 size).
  set (p2 := p1 <| block := _ |>).
  assert (Hp2 : length (block p2) = PCAPNG_BLOCK_BUF_SIZE
    /\ take (ptr p2) (block p2) = block_bytes type body
    /\ ptr p2 = (length body + 12)%nat
    /\ begun p2 = begun p0 /\ pend p2 = pend p0 /\ pend_cap p2 = pend_cap p0 /\ out p2 = out p0).
  { unfold p2. cbn. split_and!; try done. rewrite Wp, length_app, ?length_le32. lia. }
  clearbody p2. destruct Hp2 as (X1 & X2 & X3 & X4 & X5 & X6 & X7).
  unfold PCAPNG_BLOCK_BUF_SIZE in *. unfold emits, idle. rewrite X4.
  destruct (begun p0) eqn:Eb; cbn.
  - by rewrite X1, X2, X4, X5, X6, X7, sunk_write.
  - rewrite X5, X6. destruct (Z.ltb_spec (pend_cap p0) (Z.of_nat (length (pend p0) + ptr p2)));
      cbn; rewrite X2, ?X5, ?X6, ?X7; rewrite length_app, Hlb; split_and!; try done || lia.
    + right. destruct (Z.eqb_spec (pend_cap p0) 0); lia.
    + destruct (Z.eqb_spec (pend_cap p0) 0); lia.
Qed.

End Assembly.

(** Discharge the room and alignment conditions of the assembly lemmas. *)
Ltac room :=
  rewrite ?length_app, ?length_option_bytes, ?length_le32, ?length_le16;
  apply Nat.leb_le; vm_compute; reflexivity.
Ltac assemble :=
  lazymatch goal with
  | |- holds _ (put_word _ _) _ => eapply put_word_holds; [assemble|room]
  | |- holds _ (put_half _ _) _ => eapply put_half_holds; [assemble|room]
  | |- holds _ (put_option _ _ _) _ =>
      eapply put_option_holds; [assemble|vm_compute; reflexivity|lia|room]
  | |- _ => eapply idle_holds; eassumption
  end.

Section Blocks.
Context {S : Type} `{ByteSink S}.
Implicit Type p : pcapng S.

Lemma write_file_header_emits p :
  idle p -> emits p (write_file_header p) (block_bytes 0x0a0d0d0a shb_body).
Proof.
  intros Hi. unfold write_file_header, write_block_type.
  apply send_buffer_emits; [done| |room].
  eapply holds_eq; [assemble|]. by rewrite <- !app_assoc.
Qed.

Lemma write_usb_header_emits p link_type :
  idle p -> 0 <= link_type < 65536 ->
  emits p (write_usb_header p link_type)
    (block_bytes 1 (idb_body link_type "usb" "Hardware USB interface")).
Proof.
  intros Hi Hl. unfold write_usb_header, write_block_type. rewrite u16_small by done.
  apply send_buffer_emits; [done| |room].
  eapply holds_eq; [assemble|]. by rewrite <- !app_assoc.
Qed.

Lemma write_info_header_emits p :
  idle p ->
  emits p (write_info_header p) (block_bytes 1 (idb_body 252 "info" "Out of band information")).
Proof.
  intros Hi. unfold write_info_header, write_block_type.
  apply send_buffer_emits; [done| |room].
  eapply holds_eq; [assemble|]. by rewrite <- !app_assoc.
Qed.

(** A record fits the assembly buffer.  The largest record the capture engine can
    write has 1273 payload bytes, or a 511-byte message. *)
Definition record_fits (r : record) : Prop :=
  match r with
  | Packet ts d => 0 <= ts < 18446744073709551616 /\ bytes_ok d /\ Z.of_nat (length d) <= 4032
  | Info ts t => 0 <= ts < 18446744073709551616 /\ bytes_ok t /\ Z.of_nat (length t) <= 4032
  end.

Lemma epb_prefix_holds p ts iface n :
  idle p ->
  holds p (put_word (put_word (put_word (put_word (put_word (write_block_type p 6) iface)
            (u32 (Z.shiftr ts 32))) (u32 ts)) n) n)
    (le32 6 ++ le32 0 ++ epb_prefix iface ts n).
Proof.
  intros Hi. unfold write_block_type. eapply holds_eq; [assemble|].
  unfold epb_prefix. by rewrite <- !app_assoc.
Qed.

Lemma length_epb_prefix iface ts n : length (epb_prefix iface ts n) = 20%nat.
Proof. done. Qed.

Lemma pcapng_write_epb_emits p ts d :
  idle p -> record_fits (Packet ts d) ->
  emits p (pcapng_write_epb p ts d (Z.of_nat (length d))) (record_bytes (Packet ts d)).
Proof.
  intros Hi (Hts & Hd & Hl). unfold pcapng_write_epb, record_bytes.
  pose proof (length_pad4_le d). cbv zeta. rewrite (u32_small (Z.of_nat _)) by lia.
  apply send_buffer_emits; [done| |].
  - cbn [record_body]. eapply holds_eq.
    + apply put_option_holds; [apply put_pad_holds; [apply put_data_holds|]|..];
        [by apply epb_prefix_holds|done|..].
      all: rewrite ?pad4_app by done.
      all: rewrite ?length_app, ?length_le32, ?length_epb_prefix; cbn [length String.length].
      all: unfold PCAPNG_BLOCK_BUF_SIZE; try lia.
      pose proof (pad4_aligned d). natmod.
    + rewrite pad4_app by done. by rewrite <- !app_assoc.
  - cbn [record_body]. rewrite !length_app, length_epb_prefix, length_option_bytes.
    cbn [length pad4]. unfold PCAPNG_BLOCK_BUF_SIZE. cbn. lia.
Qed.

Lemma emits_chunk_flush p p1 d :
  emits p p1 d -> emits p (p1 <| out := chunk_flush (out p1) |>) d.
Proof.
  intros (I & Hb & He). split; [done|]. split; [done|]. cbn.
  destruct (begun p); by rewrite sunk_chunk_flush.
Qed.

Lemma pcapng_write_info_emits p ts t :
  idle p -> record_fits (Info ts t) ->
  emits p (pcapng_write_info p ts t (Z.of_nat (length t))) (record_bytes (Info ts t)).
Proof.
  intros Hi (Hts & Ht & Hl). unfold pcapng_write_info, record_bytes.
  pose proof (length_pad4_le (info_hdr ++ t)). rewrite length_app in *. cbn [length info_hdr] in *.
  cbv zeta. rewrite (u32_small (14 + Z.of_nat _)) by lia.
  apply emits_chunk_flush. apply send_buffer_emits; [done| |].
  - cbn [record_body]. eapply holds_eq.
    + apply put_pad_holds; [apply put_data_holds; [apply put_data_holds|..]|];
        [by apply epb_prefix_holds|done|..].
      all: rewrite ?length_app, ?length_le32, ?length_epb_prefix; cbn [length info_hdr].
      all: unfold PCAPNG_BLOCK_BUF_SIZE; try lia.
    + rewrite <- (app_assoc (le32 6 ++ le32 0 ++ _)), pad4_app by done.
      by rewrite <- !app_assoc.
  - cbn [record_body]. rewrite length_app, length_epb_prefix.
    unfold PCAPNG_BLOCK_BUF_SIZE. lia.
Qed.
End Blocks.

(** ** Sessions *)

Section Session.
Context {S : Type} `{ByteSink S}.
Implicit Type p : pcapng S.

Lemma emits_refl p : idle p -> emits p p [].
Proof. intros Hi. split; [done|]. split; [done|]. destruct (begun p); by rewrite app_nil_r. Qed.

Lemma emits_trans p p1 p2 d1 d2 :
  emits p p1 d1 -> emits p1 p2 d2 -> emits p p2 (d1 ++ d2).
Proof.
  intros (I1 & B1 & E1) (I2 & B2 & E2). split; [done|]. split; [congruence|].
  rewrite B1 in E2. destruct (begun p); destruct E1 as [P1 E1], E2 as [P2 E2];
    by rewrite P2, P1, E2, E1, ?app_assoc.
Qed.

Definition write_record p (r : record) : pcapng S :=
  match r with
  | Packet ts d => pcapng_write_epb p ts d (Z.of_nat (length d))
  | Info ts t => pcapng_write_info p ts t (Z.of_nat (length t))
  end.
Definition write_records p (rs : list record) : pcapng S := fold_left write_record rs p.

Definition records_bytes (rs : list record) : list Z := concat (map record_bytes rs).

Lemma write_records_emits p rs :
  idle p -> Forall record_fits rs -> emits p (write_records p rs) (records_bytes rs).
Proof.
  intros Hi Hrs. revert p Hi. induction Hrs as [|r rs Hr Hrs IH]; intros p Hi.
  { by apply emits_refl. }
  assert (He : emits p (write_record p r) (record_bytes r)).
  { destruct r; [by apply pcapng_write_epb_emits|by apply pcapng_write_info_emits]. }
  eapply emits_trans; [exact He|]. apply IH. apply He.
Qed.

Lemma pcapng_open_idle (o : S) : idle (pcapng_open o).
Proof.
  unfold idle, pcapng_open. cbn [block ptr pend pend_cap].
  rewrite length_replicate. cbn [length]. lia.
Qed.

Lemma write_headers_emits p link :
  idle p -> 0 <= link < 65536 ->
  emits p (write_info_header (write_usb_header (write_file_header p) link)) (header_bytes link).
Proof.
  intros Hi Hl.
  pose proof (write_file_header_emits p Hi) as E1.
  pose proof (write_usb_header_emits _ link (proj1 E1) Hl) as E2.
  pose proof (write_info_header_emits _ (proj1 E2)) as E3.
  unfold header_bytes. eapply emits_trans; [exact E1|]. eapply emits_trans; [exact E2|exact E3].
Qed.

Lemma emits_begun p p' d :
  begun p = true -> emits p p' d ->
  idle p' /\ begun p' = true /\ pend p' = pend p /\ sunk (out p') = (sunk (out p) ++ d)%list.
Proof. intros Hb (I & B & E). rewrite Hb in *. done. Qed.

Lemma pcapng_begin_spec p link :
  idle p -> begun p = false -> 0 <= link < 65536 ->
  exists p', pcapng_begin p link = Some p' /\ idle p' /\ begun p' = true
    /\ sunk (out p') = (sunk (out p) ++ header_bytes link ++ pend p)%list.
Proof.
  intros Hi Hb Hl. unfold pcapng_begin. rewrite Hb.
  assert (exists p0, p0 = p <| begun := true |> /\ idle p0 /\ begun p0 = true
          /\ pend p0 = pend p /\ out p0 = out p) as (p0 & <- & I0 & B0 & P0 & O0)
    by (eexists; split; [done|]; done).
  destruct (emits_begun _ _ _ B0 (write_headers_emits p0 link I0 Hl)) as (I & B & P & O).
  eexists. split; [done|]. revert I B P O. rewrite P0, O0.
  generalize (write_info_header (write_usb_header (write_file_header p0) link)).
  clear. intros p3 I B P O. unfold flush_pending.
  destruct (Nat.eqb_spec (length (pend p3)) 0) as [E|E].
  - rewrite P in E. destruct (pend p); [|done]. by rewrite app_nil_r, O.
  - split; [exact I|]. split; [exact B|].
    change (out (p3 <| out := ?o |>)) with o.
    by rewrite sunk_write, O, P, app_assoc.
Qed.
End Session.

(** ** Reading the file back *)

Lemma get32_le32 v rest : 0 <= v < 4294967296 -> get32 (le32 v ++ rest) = v.
Proof.
  intros Hv. unfold get32, le32. cbn [app lookup_total list_lookup_total].
  unfold u8. rewrite !Z.shiftr_div_pow2 by lia.
  change (2 ^ 8) with 256. change (2 ^ 16) with 65536. change (2 ^ 24) with 16777216. divmod.
Qed.

Lemma drop_le32 v l k : drop (Datatypes.S (Datatypes.S (Datatypes.S (Datatypes.S k)))) (le32 v ++ l) = drop k l.
Proof. done. Qed.

Lemma read_block_bytes type body rest :
  0 <= type < 4294967296 -> (length body mod 4 = 0)%nat ->
  Z.of_nat (length body) < 4294967000 ->
  read_block (block_bytes type body ++ rest) = Some (type, body, rest).
Proof.
  intros Ht Hm Hl. unfold read_block, block_bytes.
  set (size := Z.of_nat (length body) + 12).
  assert (Hs : 0 <= size < 4294967296) by lia.
  rewrite <- !app_assoc.
  rewrite get32_le32 by done.
  rewrite (drop_app_length' (le32 type)) by done. rewrite get32_le32 by done.
  assert (length (le32 type ++ le32 size ++ body ++ le32 size ++ rest)
          = (length body + 12 + length rest)%nat) as ->.
  { rewrite !length_app, !length_le32. lia. }
  assert (size mod 4 = 0) as ->.
  { pose proof (Nat.div_mod_eq (length body) 4). unfold size.
    replace (Z.of_nat (length body) + 12) with ((Z.of_nat (length body / 4) + 3) * 4) by lia.
    apply Z.mod_mul. lia. }
  destruct (Nat.ltb_spec (length body + 12 + length rest) 12); [lia|].
  destruct (Z.ltb_spec size 12); [lia|].
  destruct (Z.ltb_spec (Z.of_nat (length body + 12 + length rest)) size); [lia|].
  cbn [orb negb Z.eqb].
  assert (Z.to_nat size = (4 + (4 + (length body + 4)))%nat) as -> by lia.
  replace (4 + (4 + (length body + 4)) - 4)%nat with (4 + (4 + length body))%nat by lia.
  replace (4 + (4 + (length body + 4)) - 12)%nat with (length body) by lia.
  rewrite <- !drop_drop.
  rewrite !(drop_app_length' (le32 type)) by done.
  change 8%nat with (4 + 4)%nat. rewrite <- drop_drop.
  rewrite !(drop_app_length' (le32 type)) by done.
  rewrite !(drop_app_length' (le32 size)) by done.
  rewrite !drop_app_length, take_app_length.
  rewrite get32_le32, Z.eqb_refl by done. done.
Qed.

Lemma read_blocks_concat fuel (bs : list (Z * list Z)) :
  (length bs <= fuel)%nat ->
  Forall (fun b => 0 <= b.1 < 4294967296 /\ (length b.2 mod 4 = 0)%nat
                   /\ Z.of_nat (length b.2) < 4294967000) bs ->
  read_blocks fuel (concat (map (fun b => block_bytes b.1 b.2) bs)) = Some bs.
Proof.
  intros Hf Hbs. revert fuel Hf. induction Hbs as [|[ty body] bs (Ht & Hm & Hl) Hbs IH];
    intros fuel Hf; [by destruct fuel|].
  destruct fuel as [|fuel]; cbn [length] in Hf; [lia|]. cbn [map concat fst snd].
  destruct (block_bytes ty body ++ _) as [|x l] eqn:E.
  { unfold block_bytes, le32 in E. discriminate E. }
  cbn [read_blocks]. rewrite <- E, read_block_bytes by done.
  rewrite IH by lia. done.
Qed.

Lemma record_body_aligned r : (length (record_body r) mod 4 = 0)%nat.
Proof.
  destruct r as [ts d|ts t]; cbn [record_body]; rewrite !length_app, length_epb_prefix.
  - pose proof (pad4_aligned d). change (length (option_bytes 0 [])) with 4%nat. natmod.
  - pose proof (pad4_aligned (info_hdr ++ t)). natmod.
Qed.

Lemma record_body_length r :
  record_fits r -> Z.of_nat (length (record_body r)) < 4294967000.
Proof.
  destruct r as [ts d|ts t]; intros (_ & _ & Hl); cbn [record_body];
    rewrite !length_app, length_epb_prefix.
  - pose proof (length_pad4_le d). change (length (option_bytes 0 [])) with 4%nat. lia.
  - pose proof (length_pad4_le (info_hdr ++ t)). rewrite length_app in *.
    change (length info_hdr) with 14%nat in *. lia.
Qed.

Lemma read_epb_prefix iface ts n rest :
  0 <= iface < 4294967296 -> 0 <= ts < 18446744073709551616 -> 0 <= n < 4294967296 ->
  let l := (epb_prefix iface ts n ++ rest)%list in
  get32 l = iface /\ get32 (drop 4 l) * 4294967296 + get32 (drop 8 l) = ts
  /\ get32 (drop 12 l) = n /\ drop 20 l = rest.
Proof.
  intros Hi Ht Hn l. unfold l, epb_prefix. rewrite <- !app_assoc.
  rewrite get32_le32 by done.
  rewrite !drop_le32, !drop_0, !get32_le32 by (done || apply u32_range).
  split_and!; try done. unfold u32. rewrite Z.shiftr_div_pow2 by lia.
  change (2 ^ 32) with 4294967296. divmod.
Qed.

Lemma read_record_body r :
  record_fits r -> read_record (6, record_body r) = Some r.
Proof.
  destruct r as [ts d|ts t]; intros (Ht & Hd & Hl); unfold read_record, record_body.
  - destruct (read_epb_prefix 0 ts (Z.of_nat (length d)) (pad4 d ++ option_bytes 0 []))
      as (E1 & E2 & E3 & E4); [lia..|].
    rewrite E1, E2, E3, E4, Nat2Z.id. cbn [negb Z.eqb]. do 2 f_equal.
    unfold pad4. rewrite <- app_assoc. by rewrite take_app_length.
  - destruct (read_epb_prefix 1 ts (14 + Z.of_nat (length t)) (pad4 (info_hdr ++ t)))
      as (E1 & E2 & E3 & E4); [lia..|].
    rewrite E1, E2, E3, E4. cbn [negb Z.eqb]. do 2 f_equal.
    unfold pad4. rewrite take_app_le by (rewrite length_app; change (length info_hdr) with 14%nat; lia).
    rewrite take_ge by (rewrite length_app; change (length info_hdr) with 14%nat; lia).
    done.
Qed.

(** The blocks of a session's file. *)
Definition session_blocks (link : Z) (rs : list record) : list (Z * list Z) :=
  ((0x0a0d0d0a, shb_body)
   :: (1, idb_body link "usb" "Hardware USB interface")
   :: (1, idb_body 252 "info" "Out of band information")
   :: map (fun r => (6, record_body r)) rs)%list.

Lemma session_blocks_bytes link rs :
  concat (map (fun b => block_bytes b.1 b.2) (session_blocks link rs))
  = (header_bytes link ++ records_bytes rs)%list.
Proof.
  unfold session_blocks, header_bytes, records_bytes. cbn [map concat fst snd].
  rewrite map_map, <- !app_assoc. done.
Qed.

(** Reading a session's file back, block by block and record by record. *)
Lemma read_session_blocks link rs :
  Forall record_fits rs ->
  read_blocks (length rs + 3) (header_bytes link ++ records_bytes rs)%list
  = Some (session_blocks link rs).
Proof.
  intros Hrs. rewrite <- session_blocks_bytes. apply read_blocks_concat.
  - unfold session_blocks. cbn [length]. rewrite length_map. lia.
  - unfold session_blocks. repeat apply Forall_cons_2; try (cbn; lia).
    + split_and!; vm_compute; done.
    + cbn [fst snd]. split_and!; try lia; by vm_compute.
    + split_and!; vm_compute; done.
    + apply Forall_map. eapply Forall_impl; [|exact Hrs]. intros r Hr. unfold compose. cbn [fst snd].
      split_and!; [lia|lia|apply record_body_aligned|by apply record_body_length].
Qed.

Lemma read_session_records rs :
  Forall record_fits rs -> map (fun r => read_record (6, record_body r)) rs = map Some rs.
Proof.
  intros Hrs. apply map_ext_Forall. eapply Forall_impl; [|exact Hrs]. apply read_record_body.
Qed.

(** C2: whatever is recorded before and after [pcapng_begin], the sink receives the
    section header, the two interface descriptions, then every record in the
    order written; a reader of the file gets exactly these blocks back and
    decodes every record to its timestamp and bytes. *)
Theorem pcapng_session_roundtrip {S} `{ByteSink S} (o : S) link pre post :
  sunk o = [] -> 0 <= link < 65536 -> Forall record_fits pre -> Forall record_fits post ->
  exists p,
    pcapng_begin (write_records (pcapng_open o) pre) link = Some p /\
    let bytes := sunk (out (write_records p post)) in
    bytes = (header_bytes link ++ records_bytes pre ++ records_bytes post)%list /\
    read_blocks (length pre + length post + 3) bytes = Some (session_blocks link (pre ++ post)) /\
    map (fun r => read_record (6, record_body r)) (pre ++ post) = map Some (pre ++ post).
Proof.
  intros Ho Hl Hpre Hpost.
  destruct (write_records_emits (pcapng_open o) pre (pcapng_open_idle o) Hpre) as (I1 & B1 & P1 & O1).
  cbn [begun pcapng_open pend out app] in B1, P1, O1.
  destruct (pcapng_begin_spec _ link I1 B1 Hl) as (p & E & I2 & B2 & O2).
  destruct (write_records_emits p post I2 Hpost) as (I3 & B3 & E3). rewrite B2 in E3.
  destruct E3 as [_ O3].
  assert (Hbytes : sunk (out (write_records p post))
                   = (header_bytes link ++ records_bytes pre ++ records_bytes post)%list).
  { rewrite O3, O2, O1, P1, Ho. cbn [app]. by rewrite <- app_assoc. }
  assert (Hr : Forall record_fits (pre ++ post)) by by apply Forall_app_2.
  exists p. split; [done|]. cbv zeta. split; [done|]. split.
  - rewrite Hbytes. unfold records_bytes. rewrite <- concat_app, <- map_app.
    fold (records_bytes (pre ++ post)). rewrite <- length_app. by apply read_session_blocks.
  - by apply read_session_records.
Qed.

Lemma pcapng_session_roundtrip_witness :
  exists p, pcapng_begin (write_records (pcapng_open []) [Packet 7 [0xa5; 1; 2]]) 294 = Some p
    /\ read_blocks 5 (sunk (out (write_records p [Info 9 (cstr "Starting capture"%string)])))
       = Some (session_blocks 294 [Packet 7 [0xa5; 1; 2]; Info 9 (cstr "Starting capture"%string)]).
Proof.
  destruct (pcapng_session_roundtrip ([] : list Z) 294 [Packet 7 [0xa5; 1; 2]]
              [Info 9 (cstr "Starting capture"%string)]) as (p & E & _ & R & _).
  - reflexivity.
  - lia.
  - repeat constructor; cbn; lia.
  - repeat constructor; cbn; lia.
  - exists p. split; [exact E|exact R].
Defined.
