(* ===== verification/Format.v ===== *)
(** * printf conversions the messages use

    ["%d"], ["%02x"] and ["%.nf"] as functions to byte strings.  Floating point is
    computed exactly: a finite IEEE value is a rational (a numerator over a
    positive denominator), and every operation rounds to nearest-even at the
    precision of its type.  Overflow, subnormals and NaN are outside the ranges
    the code prints. *)

From Stdlib Require Import String.
From S2P Require Import Prelude.

(** ** Integers *)

Fixpoint dec_digits (fuel : nat) (n : Z) (acc : list Z) : list Z :=
  match fuel with
  | O => acc
  | S fuel =>
      let acc := (48 + n mod 10) :: acc in
      if n <? 10 then acc else dec_digits fuel (n / 10) acc
  end.

(** ["%d"], for at most 64 bits. *)
Definition dec (n : Z) : list Z :=
  if n <? 0 then 45 :: dec_digits 20 (- n) [] else dec_digits 20 n [].

Definition hex_digit (d : Z) : Z := if d <? 10 then 48 + d else 87 + d.

(** ["%02x"] of a byte. *)
Definition hex2 (b : Z) : list Z := [hex_digit (b / 16); hex_digit (b mod 16)].

(** ** Floating point *)

(** [n / d] rounded to the nearest integer, ties to even. *)
Definition round_half_even (n d : Z) : Z :=
  let q := n / d in
  let r := n mod d in
  if 2 * r <? d then q
  else if d <? 2 * r then q + 1
  else if Z.even q then q else q + 1.

Definition rat : Type := Z * Z.

(** The exponent of the leading bit of [a / d]. *)
Definition lead (a d : Z) : Z :=
  let l := Z.log2 a - Z.log2 d in
  if d * 2 ^ Z.max 0 l <=? a * 2 ^ Z.max 0 (- l) then l else l - 1.

(** [n / d] rounded to [prec] significant bits. *)
Definition fround (prec : Z) (q : rat) : rat :=
  let '(n, d) := q in
  if n =? 0 then (0, 1)
  else
    let a := Z.abs n in
    let e := lead a d - (prec - 1) in
    if 0 <=? e then (Z.sgn n * round_half_even a (d * 2 ^ e) * 2 ^ e, 1)
    else (Z.sgn n * round_half_even (a * 2 ^ (- e)) d, 2 ^ (- e)).

Definition f32 : rat -> rat := fround 24.
Definition f64 : rat -> rat := fround 53.

Definition rmul (x y : rat) : rat := (x.1 * y.1, x.2 * y.2).
Definition rdiv (x : rat) (d : Z) : rat := (x.1, x.2 * d).
Definition rlt (x y : rat) : bool := x.1 * y.2 <? y.1 * x.2.

(** ["%.<digits>f"]: the exact value rounded to [digits] decimals. *)
Fixpoint zero_pad (digits : nat) (n : Z) : list Z :=
  match digits with
  | O => []
  | S k => zero_pad k (n / 10) ++ [48 + n mod 10]
  end.

Definition fixed_units (digits : nat) (q : rat) : Z :=
  round_half_even (Z.abs q.1 * 10 ^ Z.of_nat digits) q.2.

Definition fixed (digits : nat) (q : rat) : list Z :=
  let u := fixed_units digits q in
  (if q.1 <? 0 then [45] else [])
  ++ dec (u / 10 ^ Z.of_nat digits) ++ [46] ++ zero_pad digits (u mod 10 ^ Z.of_nat digits).

Example dec_ex : map dec [0; 7; 1280; -15] = map cstr ["0"; "7"; "1280"; "-15"]%string.
Proof. reflexivity. Qed.
Example fixed_ex :
  map (fun q => fixed 2 (f32 q)) [(1005, 1000); (123456, 1000); (999999, 1000); (-7, 1)]
  = map cstr ["1.00"; "123.46"; "1000.00"; "-7.00"]%string.
Proof. vm_compute. reflexivity. Qed.

(** ** Decimal text denotes the number *)

Fixpoint undec (acc : Z) (l : list Z) : Z :=
  match l with
  | [] => acc
  | c :: l => undec (acc * 10 + (c - 48)) l
  end.

Lemma undec_app acc l k : undec acc (l ++ k) = undec (undec acc l) k.
Proof. revert acc. induction l as [|c l IH]; intros acc; [done|]. apply IH. Qed.

Lemma undec_dec_digits fuel n acc a :
  0 <= n < 10 ^ Z.of_nat fuel -> undec a (dec_digits fuel n acc) = undec (undec a (dec_digits fuel n [])) acc.
Proof.
  revert n acc a. induction fuel as [|fuel IH]; intros n acc a Hn; [done|].
  cbn [dec_digits]. destruct (Z.ltb_spec n 10); [done|].
  rewrite Nat2Z.inj_succ, Z.pow_succ_r in Hn by lia.
  assert (0 <= n / 10 < 10 ^ Z.of_nat fuel) by divmod.
  rewrite (IH _ (_ :: acc)), (IH _ [_]) by done. done.
Qed.

Lemma undec_dec n : 0 <= n < 10 ^ 20 -> undec 0 (dec n) = n.
Proof.
  intros Hn. unfold dec. destruct (Z.ltb_spec n 0); [lia|].
  change 20 with (Z.of_nat 20) in Hn. revert n Hn H. generalize 20%nat as fuel.
  induction fuel as [|fuel IH]; intros n Hn H; [cbn in *; lia|].
  cbn [dec_digits]. rewrite Nat2Z.inj_succ, Z.pow_succ_r in Hn by lia.
  destruct (Z.ltb_spec n 10).
  - cbn [undec]. rewrite Z.mod_small; lia.
  - rewrite undec_dec_digits, IH by divmod. cbn [undec]. divmod.
Qed.

(** ** Rounding *)

Lemma round_half_even_error n d :
  0 < d -> 2 * Z.abs (round_half_even n d * d - n) <= d.
Proof.
  intros Hd. unfold round_half_even.
  pose proof (Z.div_mod n d ltac:(lia)). pose proof (Z.mod_pos_bound n d Hd).
  destruct (Z.ltb_spec (2 * (n mod d)) d); [nia|].
  destruct (Z.ltb_spec d (2 * (n mod d))); [nia|].
  destruct (Z.even _); nia.
Qed.

Lemma lead_spec a d :
  0 < a -> 0 < d ->
  d * 2 ^ Z.max 0 (lead a d) <= a * 2 ^ Z.max 0 (- lead a d)
  /\ a * 2 ^ Z.max 0 (- (lead a d + 1)) < d * 2 ^ Z.max 0 (lead a d + 1).
Proof.
  intros Ha Hd. unfold lead.
  pose proof (Z.log2_spec a Ha) as [A1 A2]. pose proof (Z.log2_spec d Hd) as [D1 D2].
  pose proof (Z.log2_nonneg a). pose proof (Z.log2_nonneg d).
  set (x := Z.log2 a) in *. set (y := Z.log2 d) in *. clearbody x y.
  unfold Z.succ in *.
  assert (A : d * 2 ^ Z.max 0 (x - y - 1) <= a * 2 ^ Z.max 0 (- (x - y - 1))).
  { destruct (Z.le_gt_cases 1 (x - y)).
    - rewrite (Z.max_r 0), (Z.max_l 0), Z.pow_0_r by lia.
      assert (E : 2 ^ x = 2 ^ (y + 1) * 2 ^ (x - y - 1)) by (rewrite <- Z.pow_add_r by lia; f_equal; lia).
      pose proof (Z.pow_pos_nonneg 2 (x - y - 1)). nia.
    - rewrite (Z.max_l 0), (Z.max_r 0), Z.pow_0_r by lia.
      assert (E : 2 ^ (y + 1) = 2 ^ x * 2 ^ (- (x - y - 1))) by (rewrite <- Z.pow_add_r by lia; f_equal; lia).
      pose proof (Z.pow_pos_nonneg 2 (- (x - y - 1))). nia. }
  assert (B : a * 2 ^ Z.max 0 (- (x - y + 1)) < d * 2 ^ Z.max 0 (x - y + 1)).
  { destruct (Z.le_gt_cases (-1) (x - y)).
    - rewrite (Z.max_l 0), (Z.max_r 0), Z.pow_0_r by lia.
      assert (E : 2 ^ (x + 1) = 2 ^ y * 2 ^ (x - y + 1)) by (rewrite <- Z.pow_add_r by lia; f_equal; lia).
      pose proof (Z.pow_pos_nonneg 2 (x - y + 1)). nia.
    - rewrite (Z.max_r 0), (Z.max_l 0), Z.pow_0_r by lia.
      assert (E : 2 ^ y = 2 ^ (x + 1) * 2 ^ (- (x - y + 1))) by (rewrite <- Z.pow_add_r by lia; f_equal; lia).
      pose proof (Z.pow_pos_nonneg 2 (- (x - y + 1))). nia. }
  destruct (Z.leb_spec (d * 2 ^ Z.max 0 (x - y)) (a * 2 ^ Z.max 0 (- (x - y)))) as [C|C].
  - split; [exact C|exact B].
  - split; [exact A|]. replace (x - y - 1 + 1) with (x - y) by lia. exact C.
Qed.

(** A positive value below [2 ^ m] keeps [prec - m] bits after the point. *)
Lemma fround_error prec m a d :
  0 < a -> 0 < d -> 0 <= m < prec -> a < d * 2 ^ m ->
  exists k r, fround prec (a, d) = (r, 2 ^ k) /\ prec - m <= k /\ 0 <= r
    /\ 2 * Z.abs (r * d - a * 2 ^ k) <= d.
Proof.
  intros Ha Hd Hm Hlt. unfold fround. destruct (Z.eqb_spec a 0); [lia|].
  rewrite Z.abs_eq, Z.sgn_pos by lia. pose proof (lead_spec a d Ha Hd) as [L1 L2].
  set (l := lead a d) in *. clearbody l.
  assert (Hl : l < m).
  { destruct (Z.lt_ge_cases l m); [done|].
    rewrite (Z.max_r 0), (Z.max_l 0), Z.pow_0_r in L1 by lia.
    pose proof (Z.pow_le_mono_r 2 m l). nia. }
  destruct (Z.leb_spec 0 (l - (prec - 1))); [lia|].
  exists (- (l - (prec - 1))), (round_half_even (a * 2 ^ (- (l - (prec - 1)))) d).
  rewrite Z.mul_1_l. split; [done|]. split; [lia|].
  split; [|by apply round_half_even_error].
  pose proof (Z.pow_pos_nonneg 2 (- (l - (prec - 1)))).
  pose proof (round_half_even_error (a * 2 ^ (- (l - (prec - 1)))) d Hd). nia.
Qed.

(** Printing with two decimals a value given to [d] units, computed in single
    precision, is off by at most half of the last printed digit. *)
Lemma fixed2_error a d m t :
  0 < a -> 0 < t -> d = 100 * t -> 0 <= m < 24 -> a < d * 2 ^ m -> d < 10 * 2 ^ (24 - m) ->
  2 * Z.abs (fixed_units 2 (f32 (a, d)) * t - a) <= t + 9.
Proof.
  intros Ha Ht Hd Hm Hlt Hp.
  destruct (fround_error 24 m a d Ha ltac:(lia) Hm Hlt) as (k & r & E & Hk & Hr & He).
  unfold fixed_units, f32. rewrite E. cbn [fst snd]. rewrite (Z.abs_eq r) by done.
  change (10 ^ Z.of_nat 2) with 100.
  pose proof (Z.pow_pos_nonneg 2 k ltac:(lia) ltac:(lia)) as Hpk.
  pose proof (Z.pow_le_mono_r 2 (24 - m) k ltac:(lia) Hk) as Hge.
  pose proof (round_half_even_error (r * 100) (2 ^ k) Hpk) as Hh.
  set (h := round_half_even (r * 100) (2 ^ k)) in *. clearbody h.
  set (P := 2 ^ k) in *. clearbody P.
  assert (Hb : d < 10 * P) by lia.
  assert (X : (h * t - a) * (P * 100) = d * (h * P - r * 100) + 100 * (r * d - a * P))
    by (subst d; ring).
  assert (Z.abs (h * t - a) * (P * 100) <= d * Z.abs (h * P - r * 100) + 100 * Z.abs (r * d - a * P)).
  { rewrite <- (Z.abs_eq (P * 100)), <- Z.abs_mul, X by lia.
    etransitivity; [apply Z.abs_triangle|]. rewrite !Z.abs_mul, (Z.abs_eq d), (Z.abs_eq 100); lia. }
  set (y := Z.abs (h * t - a)) in *. set (u := Z.abs (h * P - r * 100)) in *.
  set (v := Z.abs (r * d - a * P)) in *. clearbody y u v. clear X E Hp Hlt Hge.
  assert (2 * (d * u) <= d * P) by nia.
  assert (E1 : d * P = t * (P * 100)) by (subst d; ring).
  assert (2 * y * (P * 100) < (t + 10) * (P * 100)) by lia.
  assert (2 * y < t + 10) by (apply (Zmult_lt_reg_r _ _ (P * 100)); lia).
  lia.
Qed.

(** ** Texts are bytes *)

Lemma bytes_ok_dec_digits fuel n acc : bytes_ok acc -> bytes_ok (dec_digits fuel n acc).
Proof.
  revert n acc. induction fuel as [|fuel IH]; intros n acc Ha; [done|]. cbn [dec_digits].
  assert (bytes_ok ((48 + n mod 10) :: acc)) by (constructor; [divmod|done]).
  destruct (n <? 10); [done|]. by apply IH.
Qed.
Lemma bytes_ok_dec n : bytes_ok (dec n).
Proof.
  unfold dec. destruct (n <? 0).
  - constructor; [lia|]. by apply bytes_ok_dec_digits, Forall_nil.
  - by apply bytes_ok_dec_digits, Forall_nil.
Qed.
Lemma bytes_ok_hex2 b : byte_ok b -> bytes_ok (hex2 b).
Proof.
  intros Hb. assert (Hd : forall d, 0 <= d < 16 -> byte_ok (hex_digit d)).
  { intros d ?. unfold hex_digit. destruct (d <? 10); lia. }
  constructor; [|constructor; [|constructor]]; apply Hd; divmod.
Qed.
Lemma bytes_ok_zero_pad k n : bytes_ok (zero_pad k n).
Proof.
  revert n. induction k as [|k IH]; intros n; [constructor|]. cbn [zero_pad].
  apply bytes_ok_app. split; [apply IH|]. constructor; [divmod|constructor].
Qed.
Lemma bytes_ok_fixed k q : bytes_ok (fixed k q).
Proof.
  unfold fixed. rewrite !bytes_ok_app. split_and!.
  - destruct (_ <? _); repeat constructor; lia.
  - apply bytes_ok_dec.
  - repeat constructor; lia.
  - apply bytes_ok_zero_pad.
Qed.
Lemma bytes_ok_nil : bytes_ok [].
Proof. constructor. Qed.
Lemma bytes_ok_app_2 l k : bytes_ok l -> bytes_ok k -> bytes_ok (l ++ k).
Proof. intros. by apply bytes_ok_app. Qed.
#[export] Hint Resolve bytes_ok_dec bytes_ok_hex2 bytes_ok_zero_pad bytes_ok_fixed bytes_ok_nil
  bytes_ok_app_2 : sniffer.

(** [bytes_ok] of a message put together from literal and formatted pieces. *)
Ltac bytes_pieces :=
  repeat match goal with |- bytes_ok (_ ++ _) => apply bytes_ok_app_2 end; auto with sniffer.

Lemma length_dec_digits fuel n acc : (length (dec_digits fuel n acc) <= fuel + length acc)%nat.
Proof.
  revert n acc. induction fuel as [|fuel IH]; intros n acc; cbn [dec_digits]; [lia|].
  destruct (n <? 10); [cbn; lia|]. etransitivity; [apply IH|]. cbn. lia.
Qed.
Lemma length_dec n : (length (dec n) <= 21)%nat.
Proof.
  unfold dec. destruct (n <? 0); cbn [length].
  - pose proof (length_dec_digits 20 (- n) []). cbn in *. lia.
  - pose proof (length_dec_digits 20 n []). cbn in *. lia.
Qed.
