(* ===== verification/RawQueue.v ===== *)
(** * The raw-byte queue between the USB callback and the worker (src/main.c)

    [rawq_push] and [rawq_stop] on the transport's thread, [rawq_thread] on the
    worker's.  A critical section, the copy into a buffer and the parse of a
    buffer are one step each; a wait on a condition variable is a state of its
    own, left by the signals of the other side.  The queue is a ring of slots
    that name buffers; the free buffers are a stack. *)

From stdpp Require Import sorting sets.
From S2P Require Import Prelude.
Local Open Scope list_scope.

Section RawQueue.
(** [RAWQ_SLOTS] and [RAWQ_CHUNK]. *)
Context (slots chunk : nat).

(** Where the transport's thread is: outside, at the head of the loop of
    [rawq_push] with the bytes left, in its wait, holding a buffer to fill,
    holding a filled buffer, in [pthread_join], or past it. *)
Inductive producer :=
| PIdle
| PCheck (data : list Z)
| PSleep (data : list Z)
| PCopy (b : nat) (data : list Z)
| PEnq (b n : nat) (data : list Z)
| PJoin
| PDone.

(** Where the worker is: at the head of its loop, in its wait, holding an item to
    parse, holding a parsed buffer, or past the [break]. *)
Inductive worker :=
| CCheck
| CSleep
| CFeed (b n : nat)
| CReturn (b : nat)
| CDone.

(** [struct rawq], the content of the buffers, both threads, and two histories:
    the bytes given to [rawq_push] and the bytes [stream_feed] got. *)
Record rawq := mk_rawq {
  q : list (nat * nat);
  head : nat;
  tail : nat;
  count : nat;
  free_bufs : list nat;
  free_count : nat;
  stop : bool;
  bufs : list (list Z);
  prod : producer;
  work : worker;
  given : list Z;
  fed : list Z;
}.
#[export] Instance rawq_settable : Settable rawq := fun r =>
  mk_rawq (q r) (head r) (tail r) (count r) (free_bufs r) (free_count r) (stop r) (bufs r)
    (prod r) (work r) (given r) (fed r).

Definition rawq_init : rawq :=
  mk_rawq (replicate slots (0, 0)%nat) 0 0 0 (seq 0 slots) slots false
    (replicate slots (replicate chunk 0)) PIdle CCheck [] [].

Definition signal_nonfull (r : rawq) : rawq :=
  match prod r with PSleep d => r <| prod := PCheck d |> | _ => r end.
Definition signal_nonempty (r : rawq) : rawq :=
  match work r with CSleep => r <| work := CCheck |> | _ => r end.

(** The next step of the transport's thread inside [rawq_push] and [rawq_stop];
    [None] when it cannot move by itself. *)
Definition push_step (r : rawq) : option rawq :=
  match prod r with
  | PCheck data =>
      Some (
        if (length data =? 0)%nat then r <| prod := PIdle |>
        else if (free_count r =? 0)%nat && negb (stop r) then r <| prod := PSleep data |>
        else if stop r || (free_count r =? 0)%nat then r <| prod := PIdle |>
        else
          let r := r <| free_count := (free_count r - 1)%nat |> in
          r <| prod := PCopy (free_bufs r !!! free_count r) data |>)
  | PCopy b data =>
      let n := Nat.min (length data) chunk in
      let r := r <| bufs := <[b := write_at (bufs r !!! b) 0 (take n data)]> (bufs r) |> in
      Some (r <| prod := PEnq b n (drop n data) |>)
  | PEnq b n data =>
      let r := r <| q := <[head r := (b, n)]> (q r) |>
                 <| head := ((head r + 1) mod slots)%nat |> <| count := (count r + 1)%nat |> in
      Some (signal_nonempty (r <| prod := PCheck data |>))
  | PJoin => match work r with CDone => Some (r <| prod := PDone |>) | _ => None end
  | PIdle | PSleep _ | PDone => None
  end.

(** The next step of the worker. *)
Definition thread_step (r : rawq) : option rawq :=
  match work r with
  | CCheck =>
      Some (
        if (count r =? 0)%nat && negb (stop r) then r <| work := CSleep |>
        else if (count r =? 0)%nat && stop r then r <| work := CDone |>
        else
          let it := q r !!! tail r in
          let r := r <| tail := ((tail r + 1) mod slots)%nat |> <| count := (count r - 1)%nat |> in
          signal_nonfull (r <| work := CFeed it.1 it.2 |>))
  | CFeed b n =>
      Some (r <| fed := fed r ++ take n (bufs r !!! b) |> <| work := CReturn b |>)
  | CReturn b =>
      let r := r <| free_bufs := <[free_count r := b]> (free_bufs r) |>
                 <| free_count := (free_count r + 1)%nat |> in
      Some (r <| work := CCheck |>)
  | CSleep | CDone => None
  end.

(** A call of [rawq_push] and of [rawq_stop]. *)
Definition push_call (data : list Z) (r : rawq) : rawq :=
  r <| prod := PCheck data |> <| given := given r ++ data |>.
Definition stop_call (r : rawq) : rawq :=
  signal_nonfull (signal_nonempty (r <| stop := true |> <| prod := PJoin |>)).

(** A wake-up without a signal. *)
Definition spurious (r r' : rawq) : Prop :=
  (exists d, prod r = PSleep d /\ r' = r <| prod := PCheck d |>)
  \/ (work r = CSleep /\ r' = r <| work := CCheck |>).

Inductive step : rawq -> rawq -> Prop :=
| step_producer r r' : push_step r = Some r' -> step r r'
| step_worker r r' : thread_step r = Some r' -> step r r'
| step_push r data : prod r = PIdle -> stop r = false -> step r (push_call data r)
| step_stop r : prod r = PIdle -> stop r = false -> step r (stop_call r)
| step_spurious r r' : spurious r r' -> step r r'.

Inductive reachable : rawq -> Prop :=
| reachable_init : reachable rawq_init
| reachable_step r r' : reachable r -> step r r' -> reachable r'.

(** ** The invariant *)

Definition items (r : rawq) : list (nat * nat) := ring slots (q r) (tail r) (count r).

Definition prod_bufs (p : producer) : list nat :=
  match p with PCopy b _ | PEnq b _ _ => [b] | _ => [] end.
Definition work_bufs (w : worker) : list nat :=
  match w with CFeed b _ | CReturn b => [b] | _ => [] end.

(** Every buffer with its owner. *)
Definition owned (r : rawq) : list nat :=
  take (free_count r) (free_bufs r) ++ map fst (items r) ++ prod_bufs (prod r) ++ work_bufs (work r).

Definition content (r : rawq) (it : nat * nat) : list Z := take it.2 (bufs r !!! it.1).

(** The bytes between [given] and [fed], oldest first. *)
Definition work_bytes (r : rawq) : list Z :=
  match work r with CFeed b n => content r (b, n) | _ => [] end.
Definition prod_bytes (r : rawq) : list Z :=
  match prod r with
  | PCheck d | PSleep d | PCopy _ d => d
  | PEnq b n d => content r (b, n) ++ d
  | _ => []
  end.

Definition phase_ok (r : rawq) : Prop :=
  match prod r with
  | PSleep _ => stop r = false /\ (slots <= count r + 1)%nat
  | PJoin | PDone => stop r = true
  | _ => stop r = false
  end
  /\ match work r with
     | CSleep => stop r = false /\ count r = 0%nat
     | CDone => stop r = true /\ count r = 0%nat
     | _ => True
     end.

Definition fill_ok (p : producer) : Prop :=
  match p with PEnq _ n _ => (n <= chunk)%nat | PCopy _ d => (0 < length d)%nat | _ => True end.

Record ring_ok (r : rawq) : Prop := {
  ring_q : length (q r) = slots;
  ring_free : length (free_bufs r) = slots;
  ring_bufs : length (bufs r) = slots;
  ring_chunks : Forall (fun b => length b = chunk) (bufs r);
  ring_tail : (tail r < slots)%nat;
  ring_head : head r = ((tail r + count r) mod slots)%nat;
  ring_free_count : (free_count r <= slots)%nat;
  ring_owned : Permutation (owned r) (seq 0 slots);
  ring_fill : fill_ok (prod r);
  ring_bytes : given r = fed r ++ work_bytes r ++ concat (map (content r) (items r)) ++ prod_bytes r;
}.

Definition inv (r : rawq) : Prop := ring_ok r /\ phase_ok r.

(** Every buffer has one owner, so the counts add up. *)
Lemma ring_counts r :
  ring_ok r ->
  (free_count r + count r + length (prod_bufs (prod r)) + length (work_bufs (work r)) = slots)%nat.
Proof.
  intros Hi. pose proof (Permutation_length (ring_owned r Hi)) as Hl. unfold owned, items in Hl.
  rewrite !length_app, length_take, length_map, length_ring, length_seq, (ring_free r Hi) in Hl.
  pose proof (ring_free_count r Hi). lia.
Qed.

Lemma ring_nodup r : ring_ok r -> NoDup (owned r).
Proof. intros Hi. rewrite (ring_owned r Hi). apply NoDup_seq. Qed.

Lemma ring_lt r b : ring_ok r -> b ∈ owned r -> (b < slots)%nat.
Proof. intros Hi Hb. rewrite (ring_owned r Hi) in Hb. apply elem_of_seq in Hb. lia. Qed.

(** The ring after a pop, and after a store at [head]. *)
Lemma items_pop r :
  (0 < count r)%nat -> (tail r < slots)%nat ->
  items r = q r !!! tail r
    :: items (r <| tail := ((tail r + 1) mod slots)%nat |> <| count := (count r - 1)%nat |>).
Proof. intros Hc Ht. by apply ring_cons. Qed.

Lemma items_push r it :
  length (q r) = slots -> (count r < slots)%nat -> head r = ((tail r + count r) mod slots)%nat ->
  items (r <| q := <[head r := it]> (q r) |> <| head := ((head r + 1) mod slots)%nat |>
           <| count := (count r + 1)%nat |>)
  = items r ++ [it].
Proof. intros Hq Hc Hh. unfold items. cbn. rewrite Hh. by apply ring_snoc. Qed.

(** *** The steps keep the ring *)

Ltac ring_fields Hr := destruct Hr; constructor; cbn in *; try assumption; try exact Logic.I.

Lemma ring_prod r p :
  ring_ok r -> prod_bufs p = prod_bufs (prod r) ->
  prod_bytes (r <| prod := p |>) = prod_bytes r ->
  fill_ok p -> ring_ok (r <| prod := p |>).
Proof.
  intros Hr Hb Hd Hn. ring_fields Hr.
  - unfold owned, items in *. cbn. by rewrite Hb.
  - rewrite Hd. exact ring_bytes0.
Qed.

Lemma ring_work r w :
  ring_ok r -> work_bufs w = work_bufs (work r) ->
  work_bytes (r <| work := w |>) = work_bytes r -> ring_ok (r <| work := w |>).
Proof.
  intros Hr Hb Hd. ring_fields Hr.
  - unfold owned, items in *. cbn. by rewrite Hb.
  - rewrite Hd. exact ring_bytes0.
Qed.

Lemma ring_stop r b : ring_ok r -> ring_ok (r <| stop := b |>).
Proof. intros Hr. ring_fields Hr. Qed.

Lemma ring_signal_nonfull r : ring_ok r -> ring_ok (signal_nonfull r).
Proof.
  intros Hr. unfold signal_nonfull. destruct (prod r) eqn:E; try done.
  apply ring_prod; [done|by rewrite E| |done]. unfold prod_bytes. cbn. by rewrite E.
Qed.

Lemma ring_signal_nonempty r : ring_ok r -> ring_ok (signal_nonempty r).
Proof.
  intros Hr. unfold signal_nonempty. destruct (work r) eqn:E; try done.
  apply ring_work; [done|by rewrite E|]. unfold work_bytes. cbn. by rewrite E.
Qed.

Lemma ring_pop r :
  ring_ok r -> work r = CCheck -> (0 < count r)%nat ->
  let it := q r !!! tail r in
  ring_ok (r <| tail := ((tail r + 1) mod slots)%nat |> <| count := (count r - 1)%nat |>
             <| work := CFeed it.1 it.2 |>).
Proof.
  intros Hr Hw Hc it. pose proof (items_pop r Hc (ring_tail r Hr)) as Hi. fold it in Hi.
  set (r1 := r <| tail := ((tail r + 1) mod slots)%nat |> <| count := (count r - 1)%nat |>) in *.
  ring_fields Hr.
  - apply Nat.mod_upper_bound. lia.
  - rewrite ring_head0, ring_next. do 2 f_equal. lia.
  - change (items (r1 <| work := CFeed it.1 it.2 |>)) with (items r1).
    unfold owned in *. rewrite Hi, Hw in ring_owned0. cbn in *. rewrite <- ring_owned0.
    change (items (r1 <| work := ?w |>)) with (items r1). solve_Permutation.
  - change (items (r1 <| work := CFeed it.1 it.2 |>)) with (items r1).
    rewrite ring_bytes0. unfold work_bytes at 1. rewrite Hw, Hi. cbn [map concat app].
    unfold work_bytes. cbn. destruct it as [b n]. by rewrite <- app_assoc.
Qed.

Lemma ring_enqueue r b n d :
  ring_ok r -> prod r = PEnq b n d ->
  ring_ok (r <| q := <[head r := (b, n)]> (q r) |> <| head := ((head r + 1) mod slots)%nat |>
             <| count := (count r + 1)%nat |> <| prod := PCheck d |>).
Proof.
  intros Hr Hp. pose proof (ring_counts r Hr) as Hc. rewrite Hp in Hc. cbn in Hc.
  pose proof (items_push r (b, n) (ring_q r Hr) ltac:(lia) (ring_head r Hr)) as Hi.
  set (r1 := r <| q := _ |> <| head := _ |> <| count := _ |>) in *.
  ring_fields Hr.
  - by rewrite length_insert.
  - rewrite ring_head0, Nat.Div0.add_mod_idemp_l. f_equal. lia.
  - unfold owned in *. change (items (r1 <| prod := ?p |>)) with (items r1).
    rewrite Hi, map_app. rewrite Hp in ring_owned0. cbn in *. rewrite <- ring_owned0. solve_Permutation.
  - change (items (r1 <| prod := PCheck d |>)) with (items r1). rewrite Hi, map_app, concat_app.
    etransitivity; [exact ring_bytes0|]. unfold prod_bytes at 1. rewrite Hp. cbn. rewrite app_nil_r, <- !app_assoc. done.
Qed.

Lemma ring_take_free r d :
  ring_ok r -> prod r = PCheck d -> (0 < free_count r)%nat -> (0 < length d)%nat ->
  ring_ok (r <| free_count := (free_count r - 1)%nat |>
             <| prod := PCopy (free_bufs r !!! (free_count r - 1)%nat) d |>).
Proof.
  intros Hr Hp Hf Hd. ring_fields Hr.
  - lia.
  - unfold owned, items in *. cbn. rewrite Hp in ring_owned0. cbn in *. rewrite <- ring_owned0.
    rewrite (take_pop _ (free_count r)) by lia. solve_Permutation.
  - etransitivity; [exact ring_bytes0|]. unfold prod_bytes at 1. by rewrite Hp.
Qed.

(** Writing a buffer the queue does not hold. *)
Lemma content_other r b v it :
  it.1 <> b -> content (r <| bufs := <[b := v]> (bufs r) |>) it = content r it.
Proof. intros Hne. unfold content. cbn. by rewrite list_lookup_total_insert_ne. Qed.

Lemma ring_copy r b d :
  ring_ok r -> prod r = PCopy b d ->
  let n := Nat.min (length d) chunk in
  ring_ok (r <| bufs := <[b := write_at (bufs r !!! b) 0 (take n d)]> (bufs r) |>
             <| prod := PEnq b n (drop n d) |>).
Proof.
  intros Hr Hp n. pose proof (ring_nodup r Hr) as Hnd. unfold owned in Hnd. rewrite Hp in Hnd.
  assert (Hb : (b < slots)%nat).
  { apply (ring_lt r); [done|]. unfold owned. rewrite Hp. cbn. set_solver. }
  assert (Hlb : length (bufs r !!! b) = chunk).
  { destruct (lookup_lt_is_Some_2 (bufs r) b) as [x Ex]; [by rewrite (ring_bufs r Hr)|].
    rewrite (list_lookup_total_correct _ _ _ Ex).
    exact (proj1 (Forall_lookup _ _) (ring_chunks r Hr) _ _ Ex). }
  assert (Hln : length (take n d) = n) by (rewrite length_take; lia).
  apply list.NoDup_app in Hnd as (_ & _ & Hnd). apply list.NoDup_app in Hnd as (_ & Hnd & Hnw).
  cbn in Hnw. apply list.NoDup_cons in Hnw as [Hnw _].
  set (r1 := r <| bufs := _ |>).
  assert (Hc : map (content r1) (items r) = map (content r) (items r)).
  { apply map_ext_in. intros it Hit. apply content_other. intros E.
    apply (Hnd b); [|cbn; set_solver]. rewrite <- E. apply list_elem_of_In, in_map, Hit. }
  set (r2 := r1 <| prod := PEnq b n (drop n d) |>).
  assert (Hby : given r2 = fed r2 ++ work_bytes r2 ++ concat (map (content r2) (items r2)) ++ prod_bytes r2).
  { change (given r2) with (given r). rewrite (ring_bytes r Hr).
    change (items r2) with (items r). change (content r2) with (content r1). rewrite Hc.
    change (fed r2) with (fed r).
    assert (work_bytes r2 = work_bytes r) as ->.
    { unfold work_bytes. change (work r2) with (work r).
      destruct (work r) as [| |b' n'|b'|] eqn:Ew; try done.
      apply content_other. cbn in *. set_solver. }
    do 3 f_equal. unfold prod_bytes. rewrite Hp.
    change (d = take n (<[b := write_at (bufs r !!! b) 0 (take n d)]> (bufs r) !!! b) ++ drop n d).
    rewrite list_lookup_total_insert_eq by by rewrite (ring_bufs r Hr).
    rewrite <- (drop_0 (write_at _ _ _)), take_drop_write_at by lia. by rewrite take_drop. }
  ring_fields Hr.
  - by rewrite length_insert.
  - apply Forall_insert; [done|]. rewrite length_write_at; lia.
  - unfold owned, items in *. cbn. rewrite Hp in ring_owned0. exact ring_owned0.
  - lia.
Qed.

Lemma ring_return r b :
  ring_ok r -> work r = CReturn b ->
  ring_ok (r <| free_bufs := <[free_count r := b]> (free_bufs r) |>
             <| free_count := (free_count r + 1)%nat |> <| work := CCheck |>).
Proof.
  intros Hr Hw. pose proof (ring_counts r Hr) as Hc. rewrite Hw in Hc. cbn in Hc. ring_fields Hr.
  - by rewrite length_insert.
  - lia.
  - unfold owned, items in *. cbn. rewrite Hw in ring_owned0. cbn in *. rewrite <- ring_owned0.
    rewrite take_push by lia. solve_Permutation.
  - etransitivity; [exact ring_bytes0|]. unfold work_bytes at 1. by rewrite Hw.
Qed.

Lemma ring_feed r b n :
  ring_ok r -> work r = CFeed b n ->
  ring_ok (r <| fed := fed r ++ take n (bufs r !!! b) |> <| work := CReturn b |>).
Proof.
  intros Hr Hw. ring_fields Hr.
  - unfold owned, items in *. cbn. by rewrite Hw in ring_owned0.
  - etransitivity; [exact ring_bytes0|]. unfold work_bytes at 1. rewrite Hw. unfold content at 1. cbn.
    by rewrite <- app_assoc.
Qed.

(** *** Every step keeps the invariant *)

Ltac phases :=
  unfold phase_ok, signal_nonfull, signal_nonempty in *; cbn in *;
  repeat (case_match; cbn in *; simplify_eq);
  intuition (discriminate || congruence || lia).

Lemma push_step_inv r r' : inv r -> push_step r = Some r' -> inv r'.
Proof.
  intros [Hr Hph] E. unfold push_step in E. destruct (prod r) as [|d|d|b d|b n d| |] eqn:Ep; try done.
  - assert (Es : stop r = false) by (unfold phase_ok in Hph; rewrite Ep in Hph; apply Hph).
    rewrite Es in E. cbn [negb orb] in E. injection E as <-.
    pose proof (ring_counts r Hr) as Hc. rewrite Ep in Hc. cbn in Hc.
    assert (Hw : (length (work_bufs (work r)) <= 1)%nat) by (destruct (work r); cbn; lia).
    destruct (Nat.eqb_spec (length d) 0) as [E0|E0].
    { split; [|phases]. apply ring_prod; [done|by rewrite Ep| |done].
      unfold prod_bytes. cbn. rewrite Ep. by destruct d. }
    destruct (Nat.eqb_spec (free_count r) 0) as [Ef|Ef]; cbn [andb].
    { split; [|phases]. apply ring_prod; [done|by rewrite Ep| |done]. unfold prod_bytes. cbn. by rewrite Ep. }
    split; [apply ring_take_free; [done|done|lia|lia]|phases].
  - injection E as <-. split; [by apply ring_copy|phases].
  - injection E as <-. split; [apply ring_signal_nonempty, ring_enqueue; [done|exact Ep]|phases].
  - destruct (work r) eqn:Ew; try done. injection E as <-. split; [|phases].
    apply ring_prod; [done|by rewrite Ep| |done]. unfold prod_bytes. cbn. by rewrite Ep.
Qed.

Lemma thread_step_inv r r' : inv r -> thread_step r = Some r' -> inv r'.
Proof.
  intros [Hr Hph] E. unfold thread_step in E. destruct (work r) as [| |b n|b|] eqn:Ew; try done.
  - apply (inj Some) in E as <-. destruct (Nat.eqb_spec (count r) 0) as [Ec|Ec]; cbn [andb].
    + assert (Hk : forall w, work_bufs w = [] -> ring_ok (r <| work := w |>)).
      { intros w Hb. apply ring_work; [done|by rewrite Ew|]. unfold work_bytes. cbn. rewrite Ew.
        by destruct w. }
      destruct (bool_dec (stop r) true) as [Es|Es]; [|apply not_true_is_false in Es];
        rewrite Es; cbn [negb]; (split; [by apply Hk|phases]).
    + split; [apply ring_signal_nonfull, ring_pop; [done|done|lia]|phases].
  - injection E as <-. split; [by apply ring_feed|phases].
  - injection E as <-. split; [by apply ring_return|phases].
Qed.

Lemma step_inv r r' : inv r -> step r r' -> inv r'.
Proof.
  intros Hi Hs. destruct Hs as [r r' E|r r' E|r d Ep Es|r Ep Es|r r' E].
  - by eapply push_step_inv.
  - by eapply thread_step_inv.
  - destruct Hi as [Hr Hph]. split; [|unfold push_call; phases].
    ring_fields Hr.
    + unfold owned, items in *. cbn. by rewrite Ep in ring_owned0.
    + rewrite ring_bytes0. unfold prod_bytes at 1. rewrite Ep, app_nil_r, <- !app_assoc. done.
  - destruct Hi as [Hr Hph]. split; [|unfold stop_call; phases].
    unfold stop_call. apply ring_signal_nonfull, ring_signal_nonempty, ring_prod; [by apply ring_stop|cbn; by rewrite Ep| |done].
    unfold prod_bytes. cbn. by rewrite Ep.
  - destruct Hi as [Hr Hph]. destruct E as [(d & Ep & ->)|[Ew ->]].
    + split; [|phases]. apply ring_prod; [done|by rewrite Ep| |done]. unfold prod_bytes. cbn. by rewrite Ep.
    + split; [|phases]. apply ring_work; [done|by rewrite Ew|]. unfold work_bytes. cbn. by rewrite Ew.
Qed.

Lemma init_inv : (0 < slots)%nat -> inv rawq_init.
Proof.
  intros Hs. split; [|by split].
  constructor; cbn; rewrite ?length_replicate, ?length_seq; try done; try lia.
  - apply Forall_replicate, length_replicate.
  - by rewrite Nat.Div0.mod_0_l.
  - unfold owned. cbn. rewrite take_ge by (rewrite length_seq; lia). by rewrite !app_nil_r.
Qed.

Lemma reachable_inv r : (0 < slots)%nat -> reachable r -> inv r.
Proof. intros Hs Hr. induction Hr as [|r r' _ IH Hst]; [by apply init_inv|by eapply step_inv]. Qed.

(** ** What the queue promises *)

(** C20: buffers and order.  Whatever the interleaving of the two threads, no buffer
    has two owners among the free list, the queue, the copying producer and the
    parsing worker, and the bytes parsed so far, the bytes on their way and those
    still to be pushed are the bytes given, in order. *)
Theorem rawq_fifo r :
  (0 < slots)%nat -> reachable r ->
  NoDup (owned r)
  /\ given r = fed r ++ work_bytes r ++ concat (map (content r) (items r)) ++ prod_bytes r.
Proof.
  intros Hs Hr. destruct (reachable_inv r Hs Hr) as [Hi _]. split; [by apply ring_nodup|apply Hi].
Qed.

Lemma stuck_fed r :
  (2 <= slots)%nat -> inv r -> push_step r = None -> thread_step r = None ->
  fed r = given r /\ (prod r = PIdle /\ work r = CSleep \/ prod r = PDone /\ work r = CDone).
Proof.
  intros Hs [Hr Hph] Hp Ht. rewrite (ring_bytes r Hr). unfold push_step, thread_step in *.
  unfold phase_ok in Hph. unfold work_bytes, prod_bytes, items.
  destruct (work r) eqn:Ew; try done; destruct (prod r) eqn:Ep; try done;
    destruct Hph as [H1 H2]; try (intuition (congruence || lia)).
  - destruct H2 as [_ ->]. cbn. rewrite !app_nil_r. auto.
  - destruct H2 as [_ ->]. cbn. rewrite !app_nil_r. auto.
Qed.

(** C21: no lost wake-up.  With at least two slots the threads cannot both be stuck
    with work left: when neither can move without a signal, a call or a spurious
    wake-up, every byte given was parsed, and the worker waits for the next push
    or both threads have finished. *)
Theorem rawq_no_deadlock r :
  (2 <= slots)%nat -> reachable r -> push_step r = None -> thread_step r = None ->
  fed r = given r /\ (prod r = PIdle /\ work r = CSleep \/ prod r = PDone /\ work r = CDone).
Proof. intros Hs Hr. apply stuck_fed; [done|]. apply reachable_inv; [lia|done]. Qed.

(** A bound on the steps the threads can make between two calls. *)
Definition prod_weight (p : producer) : nat :=
  match p with
  | PIdle | PDone => 0
  | PJoin => 1
  | PCheck d => 20 * length d + 2
  | PSleep d => 20 * length d + 1
  | PCopy _ d => 20 * length d
  | PEnq _ _ d => 20 * length d + 10
  end.
Definition work_weight (w : worker) : nat :=
  match w with CFeed _ _ => 4 | CReturn _ => 3 | CCheck => 2 | CSleep => 1 | CDone => 0 end.
Definition measure (r : rawq) : nat := prod_weight (prod r) + work_weight (work r) + 6 * count r.

Lemma measure_signals r :
  (measure (signal_nonfull r) <= measure r + 1 /\ measure (signal_nonempty r) <= measure r + 1)%nat.
Proof.
  unfold signal_nonfull, signal_nonempty, measure.
  split; [destruct (prod r) eqn:E|destruct (work r) eqn:E]; cbn -[Nat.mul]; rewrite ?E; cbn -[Nat.mul]; lia.
Qed.

Lemma push_step_measure r r' :
  (0 < chunk)%nat -> inv r -> push_step r = Some r' -> (measure r' < measure r)%nat.
Proof.
  intros Hck [Hr Hph] E. pose proof (ring_fill r Hr) as Hf. unfold push_step in E.
  destruct (prod r) as [|d|d|b d|b n d| |] eqn:Ep; try done; cbn in Hf.
  - assert (Es : stop r = false) by (unfold phase_ok in Hph; rewrite Ep in Hph; apply Hph).
    rewrite Es in E. apply (inj Some) in E as <-. unfold measure.
    repeat case_match; cbn -[Nat.mul]; rewrite Ep; cbn -[Nat.mul]; lia.
  - injection E as <-. unfold measure. cbn -[Nat.mul]. rewrite Ep. cbn -[Nat.mul]. rewrite length_drop. lia.
  - apply (inj Some) in E as <-. set (r1 := r <| q := _ |> <| head := _ |> <| count := _ |> <| prod := _ |>).
    pose proof (proj2 (measure_signals r1)) as Hm. unfold measure in *. rewrite Ep.
    cbn -[Nat.mul] in *. lia.
  - destruct (work r) eqn:Ew; try done. injection E as <-. unfold measure. cbn -[Nat.mul].
    rewrite Ep. cbn -[Nat.mul]. lia.
Qed.

Lemma thread_step_measure r r' : thread_step r = Some r' -> (measure r' < measure r)%nat.
Proof.
  intros E. unfold thread_step in E. destruct (work r) as [| |b n|b|] eqn:Ew; try done.
  - apply (inj Some) in E as <-. destruct (Nat.eqb_spec (count r) 0) as [Ec|Ec]; cbn [andb].
    + unfold measure. repeat case_match; cbn -[Nat.mul]; rewrite Ew; cbn -[Nat.mul]; try lia; by destruct (stop r).
    + set (r1 := r <| tail := _ |> <| count := _ |> <| work := _ |>).
      pose proof (proj1 (measure_signals r1)) as Hm. unfold measure in *. rewrite Ew.
      cbn -[Nat.mul] in *. lia.
  - injection E as <-. unfold measure. cbn -[Nat.mul]. rewrite Ew. cbn -[Nat.mul]. lia.
  - injection E as <-. unfold measure. cbn -[Nat.mul]. rewrite Ew. cbn -[Nat.mul]. lia.
Qed.

(** [n] steps of the two threads, in any order. *)
Inductive runs : nat -> rawq -> rawq -> Prop :=
| runs_none r : runs 0 r r
| runs_more n r r1 r2 :
    push_step r = Some r1 \/ thread_step r = Some r1 -> runs n r1 r2 -> runs (S n) r r2.

(** C22: delivery.  Between two calls the threads make at most [measure r] steps,
    however they are scheduled; and where they come to rest every byte given to
    [rawq_push] was parsed, in particular when [rawq_stop] returns. *)
Theorem rawq_delivers n r r' :
  (2 <= slots)%nat -> (0 < chunk)%nat -> reachable r -> runs n r r' ->
  (n <= measure r)%nat
  /\ (push_step r' = None -> thread_step r' = None -> fed r' = given r').
Proof.
  intros Hs Hck Hr Hn. apply reachable_inv in Hr; [|lia].
  induction Hn as [r|n r r1 r2 E Hn IH].
  - split; [lia|]. intros Hp Ht. by apply stuck_fed.
  - assert (H1 : inv r1 /\ (measure r1 < measure r)%nat).
    { destruct E as [E|E].
      - split; [by eapply push_step_inv|by apply push_step_measure].
      - split; [by eapply thread_step_inv|by apply thread_step_measure]. }
    destruct H1 as [H1 Hm]. destruct (IH H1) as [IH1 IH2]. split; [lia|done].
Qed.
End RawQueue.

(** ** A run of two slots of three bytes *)

(** The steps a scheduler picks: [true] is the transport's thread. *)
Fixpoint schedule (slots chunk : nat) (picks : list bool) (r : rawq) : option rawq :=
  match picks with
  | [] => Some r
  | p :: picks =>
      if p then r ← push_step slots chunk r; schedule slots chunk picks r
      else r ← thread_step slots r; schedule slots chunk picks r
  end.

Lemma schedule_runs slots chunk picks r r' :
  schedule slots chunk picks r = Some r' -> runs slots chunk (length picks) r r'.
Proof.
  revert r. induction picks as [|[] picks IH]; intros r E; cbn in *.
  - simplify_eq. constructor.
  - destruct (push_step slots chunk r) eqn:Ep; [|done]. eapply runs_more; [by left|by apply IH].
  - destruct (thread_step slots r) eqn:Et; [|done]. eapply runs_more; [by right|by apply IH].
Qed.

Lemma runs_reachable slots chunk n r r' :
  reachable slots chunk r -> runs slots chunk n r r' -> reachable slots chunk r'.
Proof.
  intros Hr Hn. induction Hn as [r|n r r1 r2 [E|E] _ IH]; [done| |].
  - apply IH. eapply reachable_step; [done|by apply step_producer].
  - apply IH. eapply reachable_step; [done|by apply step_worker].
Qed.

(** Five bytes pushed, with the worker not yet running. *)
Definition demo_pushed : rawq := push_call [1; 2; 3; 4; 5] (rawq_init 2 3).
Definition demo_half : rawq := default demo_pushed (schedule 2 3 [true; true; true; true; true] demo_pushed).
Definition demo_rest : rawq :=
  default demo_pushed
    (schedule 2 3 (replicate 7 true ++ replicate 7 false) demo_pushed).

Lemma demo_pushed_reachable : reachable 2 3 demo_pushed.
Proof. apply (reachable_step 2 3 (rawq_init 2 3)); [constructor|apply step_push; reflexivity]. Qed.

Lemma demo_half_reachable : reachable 2 3 demo_half.
Proof.
  eapply runs_reachable; [apply demo_pushed_reachable|].
  apply (schedule_runs 2 3 [true; true; true; true; true]). vm_compute. reflexivity.
Qed.

Lemma demo_rest_runs : runs 2 3 14 demo_pushed demo_rest.
Proof. apply (schedule_runs 2 3 (replicate 7 true ++ replicate 7 false)). vm_compute. reflexivity. Qed.

Lemma rawq_fifo_witness :
  given demo_half = [1; 2; 3; 4; 5] /\ owned 2 demo_half = [1; 0]%nat /\ NoDup (owned 2 demo_half).
Proof.
  split; [vm_compute; reflexivity|]. split; [vm_compute; reflexivity|].
  exact (proj1 (rawq_fifo 2 3 demo_half (Nat.lt_0_succ 1) demo_half_reachable)).
Defined.

Lemma rawq_no_deadlock_witness :
  given demo_rest = [1; 2; 3; 4; 5] /\ fed demo_rest = given demo_rest.
Proof.
  split; [vm_compute; reflexivity|].
  refine (proj1 (rawq_no_deadlock 2 3 demo_rest (le_n 2) _ _ _)); [|vm_compute; reflexivity|vm_compute; reflexivity].
  exact (runs_reachable _ _ _ _ _ demo_pushed_reachable demo_rest_runs).
Defined.

Lemma rawq_delivers_witness :
  (14 <= measure demo_pushed)%nat /\ fed demo_rest = given demo_rest.
Proof.
  split.
  - exact (proj1 (rawq_delivers 2 3 14 demo_pushed demo_rest (le_n 2) (Nat.lt_0_succ 2)
             demo_pushed_reachable demo_rest_runs)).
  - refine (proj2 (rawq_delivers 2 3 14 demo_pushed demo_rest (le_n 2) (Nat.lt_0_succ 2)
             demo_pushed_reachable demo_rest_runs) _ _); vm_compute; reflexivity.
Defined.
