(* ===== verification/WriteQueue.v ===== *)
(** * The writer thread of the pcapng file (src/pcapng.c, sink and thread)

    [sink_write], [chunk_flush], [buf_get_free], [pcapng_flush] and
    [pcapng_close] on the producing thread, [writer_main] on the writer's.  A
    critical section, a [memcpy] and an [fwrite] are one step each; a wait on a
    condition variable is a state of its own, left by the signals of the other
    thread or without one.  [fwrite] may store any part of what it is given, or
    nothing, which sets [wr_err] outside the lock.  The tests of [begun] and [fd]
    at the entries are not repeated here: the block layer writes after
    [pcapng_begin] only, and on an empty queue [pcapng_flush] does nothing. *)

From stdpp Require Import sorting sets.
From S2P Require Import Prelude.
Local Open Scope list_scope.

Section WriteQueue.
(** [WQ_SLOTS], [WQ_CHUNK] and [LIVE_FLUSH_MS]. *)
Context (slots size : nat) (live : Z).

(** What a call of [chunk_flush] returns to: the loop of [sink_write] with the bytes
    left, its last lines, or [pcapng_flush], called by itself or by
    [pcapng_close]. *)
Inductive after :=
| ALoop (data : list Z)
| ATail
| AFlush (closing : bool).

(** Who called [buf_get_free]. *)
Inductive getter :=
| GLoop (data : list Z)
| GNext (k : after).

(** Where the producing thread is. *)
Inductive producer :=
| PIdle
| PLoop (data : list Z)
| PTail
| PFull (k : after)
| PFullSleep (k : after)
| PGet (g : getter)
| PGetSleep (g : getter)
| PDrain (closing : bool)
| PDrainSleep (closing : bool)
| PStop
| PJoin
| PClosed.

(** Where [writer_main] is: at the head of its loop, in its wait, in the [fwrite]
    loop of a chunk of [len] bytes, holding a written buffer, or returned. *)
Inductive writer :=
| WCheck
| WSleep
| WWrite (b len off : nat)
| WReturn (b : nat)
| WDone.

(** The asynchronous part of [struct pcapng], the content of the buffers, both
    threads, the clock, the bytes [sink_write] was given, the bytes of the file,
    and how many of these [fflush] has pushed out. *)
Record wq := mk_wq {
  q : list (nat * nat);
  q_head : nat;
  q_tail : nat;
  q_count : nat;
  freeq : list nat;
  free_n : nat;
  bufs : list (list Z);
  chunk : option nat;
  chunk_len : nat;
  chunk_ts : Z;
  stop : bool;
  wr_err : bool;
  prod : producer;
  wtr : writer;
  clock : Z;
  given : list Z;
  file : list Z;
  pushed : nat;
}.
#[export] Instance wq_settable : Settable wq := fun p =>
  mk_wq (q p) (q_head p) (q_tail p) (q_count p) (freeq p) (free_n p) (bufs p) (chunk p)
    (chunk_len p) (chunk_ts p) (stop p) (wr_err p) (prod p) (wtr p) (clock p) (given p)
    (file p) (pushed p).

(** What [pcapng_open] sets up. *)
Definition wq_open (now : Z) : wq :=
  mk_wq (replicate slots (0, 0)%nat) 0 0 0 (seq 0 slots) slots (replicate slots (replicate size 0))
    None 0 0 false false PIdle WCheck now [] [] 0.

Definition signal_nonempty (p : wq) : wq :=
  match wtr p with WSleep => p <| wtr := WCheck |> | _ => p end.
Definition signal_nonfull (p : wq) : wq :=
  match prod p with PFullSleep k => p <| prod := PFull k |> | _ => p end.
Definition signal_freecv (p : wq) : wq :=
  match prod p with
  | PGetSleep g => p <| prod := PGet g |>
  | PDrainSleep c => p <| prod := PDrain c |>
  | _ => p
  end.

(** [chunk_flush]: its first test, and where it returns. *)
Definition return_to (k : after) : producer :=
  match k with ALoop d => PLoop d | ATail => PIdle | AFlush c => PDrain c end.
Definition flush_enter (k : after) (p : wq) : wq :=
  match chunk p with
  | Some _ => if (chunk_len p =? 0)%nat then p <| prod := return_to k |> else p <| prod := PFull k |>
  | None => p <| prod := return_to k |>
  end.

(** A round of the loop of [sink_write]. *)
Definition loop_step (data : list Z) (p : wq) : wq :=
  if (length data =? 0)%nat then p <| prod := PTail |>
  else match chunk p with
    | None => p <| prod := PGet (GLoop data) |>
    | Some b =>
        let room := (size - chunk_len p)%nat in
        let n := Nat.min (length data) room in
        let p := p <| bufs := <[b := write_at (bufs p !!! b) (chunk_len p) (take n data)]> (bufs p) |>
                   <| chunk_len := (chunk_len p + n)%nat |> in
        if (chunk_len p =? size)%nat then flush_enter (ALoop (drop n data)) p
        else p <| prod := PLoop (drop n data) |>
    end.

(** The last lines of [sink_write]: a chunk open for [LIVE_FLUSH_MS] is flushed. *)
Definition tail_step (p : wq) : wq :=
  match chunk p with
  | Some _ =>
      if (0 <? chunk_len p)%nat && (live <=? s64 (clock p - chunk_ts p))
      then flush_enter ATail p else p <| prod := PIdle |>
  | None => p <| prod := PIdle |>
  end.

(** The critical section of [chunk_flush]. *)
Definition full_step (k : after) (p : wq) : wq :=
  if (q_count p =? slots)%nat && negb (wr_err p) then p <| prod := PFullSleep k |>
  else if wr_err p then p <| chunk_len := 0%nat |> <| prod := return_to k |>
  else match chunk p with
    | Some b =>
        signal_nonempty
          (p <| q := <[q_tail p := (b, chunk_len p)]> (q p) |>
             <| q_tail := ((q_tail p + 1) mod slots)%nat |>
             <| q_count := (q_count p + 1)%nat |> <| prod := PGet (GNext k) |>)
    | None => p <| prod := return_to k |>
    end.

(** [buf_get_free], and what its caller does with the buffer. *)
Definition got (g : getter) (b : option nat) (p : wq) : wq :=
  match g with
  | GLoop d =>
      let p := p <| chunk := b |> <| chunk_ts := clock p |> in
      match b with
      | Some _ => p <| prod := PLoop d |>
      | None => p <| wr_err := true |> <| prod := PIdle |>
      end
  | GNext k =>
      p <| chunk := b |> <| chunk_len := 0%nat |> <| chunk_ts := clock p |> <| prod := return_to k |>
  end.
Definition get_step (g : getter) (p : wq) : wq :=
  if (free_n p =? 0)%nat && negb (wr_err p) then p <| prod := PGetSleep g |>
  else if (free_n p =? 0)%nat then got g None p
  else
    let p := p <| free_n := (free_n p - 1)%nat |> in
    got g (Some (freeq p !!! free_n p)) p.

(** [pcapng_flush] after [chunk_flush]. *)
Definition drain_step (closing : bool) (p : wq) : wq :=
  if negb (q_count p =? 0)%nat && negb (wr_err p) then p <| prod := PDrainSleep closing |>
  else p <| pushed := length (file p) |> <| prod := if closing then PStop else PIdle |>.

(** The next step of the producing thread inside its calls; [None] when it cannot
    move by itself. *)
Definition prod_step (p : wq) : option wq :=
  match prod p with
  | PLoop d => Some (loop_step d p)
  | PTail => Some (tail_step p)
  | PFull k => Some (full_step k p)
  | PGet g => Some (get_step g p)
  | PDrain c => Some (drain_step c p)
  | PStop => Some (signal_nonempty (p <| stop := true |> <| prod := PJoin |>))
  | PJoin =>
      match wtr p with
      | WDone => Some (p <| pushed := length (file p) |> <| prod := PClosed |>)
      | _ => None
      end
  | PIdle | PFullSleep _ | PGetSleep _ | PDrainSleep _ | PClosed => None
  end.

(** The next step of [writer_main]; [n] is what a call of [fwrite] returns. *)
Definition writer_step (n : nat) (p : wq) : option wq :=
  match wtr p with
  | WCheck =>
      Some (
        if (q_count p =? 0)%nat && negb (stop p) then p <| wtr := WSleep |>
        else if (q_count p =? 0)%nat && stop p then p <| wtr := WDone |>
        else
          let it := q p !!! q_head p in
          signal_nonfull
            (p <| q_head := ((q_head p + 1) mod slots)%nat |> <| q_count := (q_count p - 1)%nat |>
               <| wtr := WWrite it.1 it.2 0 |>))
  | WWrite b len off =>
      if (off <? len)%nat then
        if (n =? 0)%nat then Some (p <| wr_err := true |> <| wtr := WReturn b |>)
        else if (n <=? len - off)%nat then
          Some (p <| file := file p ++ take n (drop off (bufs p !!! b)) |>
                  <| wtr := WWrite b len (off + n) |>)
        else None
      else Some (p <| pushed := if wr_err p then pushed p else length (file p) |> <| wtr := WReturn b |>)
  | WReturn b =>
      Some (signal_freecv
        (p <| freeq := <[free_n p := b]> (freeq p) |> <| free_n := (free_n p + 1)%nat |>
           <| wtr := WCheck |>))
  | WSleep | WDone => None
  end.

(** The calls of the block layer, and [pcapng_write_failed]. *)
Definition write_call (data : list Z) (p : wq) : wq :=
  let p := p <| given := given p ++ data |> in
  if wr_err p then p else p <| prod := PLoop data |>.
Definition flush_call (p : wq) : wq := flush_enter (AFlush false) p.
Definition close_call (p : wq) : wq := flush_enter (AFlush true) p.
Definition pcapng_write_failed (p : wq) : bool := wr_err p.

(** A wake-up without a signal. *)
Definition wake_prod (p : wq) : wq := signal_nonfull (signal_freecv p).

Inductive step : wq -> wq -> Prop :=
| step_prod p p' : prod_step p = Some p' -> step p p'
| step_writer n p p' : writer_step n p = Some p' -> step p p'
| step_write p data : prod p = PIdle -> step p (write_call data p)
| step_flush p : prod p = PIdle -> step p (flush_call p)
| step_close p : prod p = PIdle -> step p (close_call p)
| step_wake_prod p : step p (wake_prod p)
| step_wake_writer p : step p (signal_nonempty p)
| step_tick p d : 0 <= d -> step p (p <| clock := clock p + d |>).

Inductive reachable (now : Z) : wq -> Prop :=
| reachable_open : reachable now (wq_open now)
| reachable_step p p' : reachable now p -> step p p' -> reachable now p'.

(** ** The invariant *)

Definition items (p : wq) : list (nat * nat) := ring slots (q p) (q_head p) (q_count p).

(** The chunk being filled; while [chunk_flush] waits for the next one, [chunk]
    still names the chunk it has queued. *)
Definition holding (p : wq) : option nat :=
  match prod p with PGet (GNext _) | PGetSleep (GNext _) => None | _ => chunk p end.
Definition writer_bufs (w : writer) : list nat :=
  match w with WWrite b _ _ | WReturn b => [b] | _ => [] end.

(** Every buffer with its owner. *)
Definition owned (p : wq) : list nat :=
  take (free_n p) (freeq p) ++ map fst (items p) ++ option_list (holding p) ++ writer_bufs (wtr p).

(** The bytes between [given] and [file], oldest first. *)
Definition content (p : wq) (it : nat * nat) : list Z := take it.2 (bufs p !!! it.1).
Definition writer_bytes (p : wq) : list Z :=
  match wtr p with WWrite b len off => take (len - off) (drop off (bufs p !!! b)) | _ => [] end.
Definition chunk_bytes (p : wq) : list Z :=
  match holding p with Some b => content p (b, chunk_len p) | None => [] end.
Definition after_bytes (k : after) : list Z := match k with ALoop d => d | _ => [] end.
Definition prod_bytes (s : producer) : list Z :=
  match s with
  | PLoop d => d
  | PFull k | PFullSleep k => after_bytes k
  | PGet g | PGetSleep g => match g with GLoop d => d | GNext k => after_bytes k end
  | _ => []
  end.
Definition pending (p : wq) : list Z :=
  writer_bytes p ++ concat (map (content p) (items p)) ++ chunk_bytes p ++ prod_bytes (prod p).

Record buffers_ok (p : wq) : Prop := {
  ok_q : length (q p) = slots;
  ok_freeq : length (freeq p) = slots;
  ok_bufs : length (bufs p) = slots;
  ok_sizes : Forall (fun b => length b = size) (bufs p);
  ok_head : (q_head p < slots)%nat;
  ok_tail : q_tail p = ((q_head p + q_count p) mod slots)%nat;
  ok_free_n : (free_n p <= slots)%nat;
  ok_owned : Permutation (owned p) (seq 0 slots);
}.

(** Until a write fails no byte is lost, repeated or moved. *)
Definition in_order (p : wq) : Prop := wr_err p = false -> given p = file p ++ pending p.

Definition fill_ok (p : wq) : Prop :=
  match prod p with
  | PFull _ => is_Some (chunk p) /\ (0 < chunk_len p <= size)%nat
  | PFullSleep _ => False
  | PGet (GLoop d) | PGetSleep (GLoop d) => chunk p = None /\ chunk_len p = 0%nat /\ (0 < length d)%nat
  | PGet (GNext _) | PGetSleep (GNext _) => True
  | PDrain _ | PDrainSleep _ | PStop | PJoin | PClosed => chunk_len p = 0%nat
  | PIdle | PLoop _ | PTail => (chunk_len p < size)%nat /\ (chunk p = None -> chunk_len p = 0%nat)
  end.

Definition prod_ok (p : wq) : Prop :=
  match prod p with
  | PGetSleep _ => free_n p = 0%nat
  | PDrainSleep _ => match wtr p with WWrite _ _ _ | WReturn _ => True | _ => q_count p <> 0%nat end
  | PClosed => wtr p = WDone
  | _ => True
  end.
Definition stop_ok (p : wq) : Prop :=
  stop p = match prod p with PJoin | PClosed => true | _ => false end.
Definition writer_ok (p : wq) : Prop :=
  match wtr p with
  | WSleep => stop p = false /\ q_count p = 0%nat
  | WDone => stop p = true /\ q_count p = 0%nat
  | _ => True
  end.
Definition pushed_ok (p : wq) : Prop :=
  wr_err p = false -> match wtr p with WWrite _ _ _ => True | _ => pushed p = length (file p) end.
Definition phase_ok (p : wq) : Prop := fill_ok p /\ prod_ok p /\ stop_ok p /\ writer_ok p /\ pushed_ok p.

Definition placed (p : wq) : Prop := buffers_ok p /\ in_order p.
Definition inv (p : wq) : Prop := placed p /\ phase_ok p.

(** Every buffer has one owner, so the counts add up. *)
Lemma buffer_counts p :
  buffers_ok p ->
  (free_n p + q_count p + length (option_list (holding p)) + length (writer_bufs (wtr p)) = slots)%nat.
Proof.
  intros Hi. pose proof (Permutation_length (ok_owned p Hi)) as Hl. unfold owned, items in Hl.
  rewrite !length_app, length_take, length_map, length_ring, length_seq, (ok_freeq p Hi) in Hl.
  pose proof (ok_free_n p Hi). lia.
Qed.

Lemma buffer_lt p b : buffers_ok p -> b ∈ owned p -> (b < slots)%nat.
Proof. intros Hi Hb. rewrite (ok_owned p Hi) in Hb. apply elem_of_seq in Hb. lia. Qed.

Lemma buffer_size p b : buffers_ok p -> b ∈ owned p -> length (bufs p !!! b) = size.
Proof.
  intros Hi Hb. apply (buffer_lt p) in Hb; [|done].
  destruct (lookup_lt_is_Some_2 (bufs p) b) as [x Ex]; [by rewrite (ok_bufs p Hi)|].
  rewrite (list_lookup_total_correct _ _ _ Ex).
  exact (proj1 (Forall_lookup _ _) (ok_sizes p Hi) _ _ Ex).
Qed.

(** *** Steps that only move a thread *)

Ltac fields H := destruct H; constructor; cbn -[ring] in *; try assumption.

Lemma buffers_move p p' :
  buffers_ok p ->
  (q p', q_head p', q_tail p', q_count p', freeq p', free_n p', bufs p')
  = (q p, q_head p, q_tail p, q_count p, freeq p, free_n p, bufs p) ->
  holding p' = holding p -> writer_bufs (wtr p') = writer_bufs (wtr p) -> buffers_ok p'.
Proof.
  intros H E Eh Ew. inversion E as [[E1 E2 E3 E4 E5 E6 E7]]. destruct H. unfold owned, items in *.
  constructor; unfold owned, items; rewrite ?E1, ?E2, ?E3, ?E4, ?E5, ?E6, ?E7, ?Eh, ?Ew; assumption.
Qed.

Lemma in_order_prod p s :
  in_order p -> holding (p <| prod := s |>) = holding p -> prod_bytes s = prod_bytes (prod p) ->
  in_order (p <| prod := s |>).
Proof.
  intros H Eh Es He. etransitivity; [exact (H He)|]. unfold pending, chunk_bytes. rewrite Eh.
  change (prod (p <| prod := s |>)) with s. by rewrite Es.
Qed.

Lemma moved_prod p s :
  buffers_ok p /\ in_order p -> holding (p <| prod := s |>) = holding p ->
  prod_bytes s = prod_bytes (prod p) -> buffers_ok (p <| prod := s |>) /\ in_order (p <| prod := s |>).
Proof. intros [H1 H2] Eh Es. split; [by apply (buffers_move p)|by apply in_order_prod]. Qed.

Lemma moved_writer p w :
  buffers_ok p /\ in_order p -> writer_bufs w = writer_bufs (wtr p) ->
  writer_bytes (p <| wtr := w |>) = writer_bytes p ->
  buffers_ok (p <| wtr := w |>) /\ in_order (p <| wtr := w |>).
Proof.
  intros [H1 H2] Eb Es. split; [by apply (buffers_move p)|]. intros He. etransitivity; [exact (H2 He)|].
  unfold pending. by rewrite Es.
Qed.

(** Fields that no buffer depends on. *)
Lemma placed_pushed p n : placed p -> placed (p <| pushed := n |>).
Proof. intros [H1 H2]. split; [by apply (buffers_move p)|exact H2]. Qed.
Lemma placed_stop p b : placed p -> placed (p <| stop := b |>).
Proof. intros [H1 H2]. split; [by apply (buffers_move p)|exact H2]. Qed.

Lemma placed_signal_nonempty p : placed p -> placed (signal_nonempty p).
Proof.
  intros H. unfold signal_nonempty. destruct (wtr p) eqn:E; try done.
  apply moved_writer; [done|by rewrite E|]. unfold writer_bytes. cbn. by rewrite E.
Qed.

Lemma placed_signal_nonfull p : placed p -> placed (signal_nonfull p).
Proof.
  intros H. unfold signal_nonfull. destruct (prod p) eqn:E; try done.
  apply moved_prod; [done|unfold holding; cbn|cbn]; by rewrite E.
Qed.

Lemma placed_signal_freecv p : placed p -> placed (signal_freecv p).
Proof.
  intros H. unfold signal_freecv. destruct (prod p) eqn:E; try done.
  all: apply moved_prod; [done|unfold holding; cbn|cbn]; by rewrite E.
Qed.

Lemma placed_flush_enter k p :
  placed p -> holding p = chunk p -> after_bytes k = prod_bytes (prod p) -> placed (flush_enter k p).
Proof.
  intros H Hh Hk. unfold flush_enter.
  assert (Hr : placed (p <| prod := return_to k |>)).
  { apply moved_prod; [done| |by destruct k]. rewrite Hh. by destruct k. }
  destruct (chunk p) as [b|] eqn:Ec; [|done]. destruct (chunk_len p =? 0)%nat; [done|].
  apply moved_prod; [done|by rewrite Hh|done].
Qed.

(** *** Steps that move bytes *)

(** Writing a buffer that only the producer holds. *)
Lemma wq_content_other p b v it :
  it.1 <> b -> content (p <| bufs := <[b := v]> (bufs p) |>) it = content p it.
Proof. intros Hne. unfold content. cbn. by rewrite list_lookup_total_insert_ne. Qed.

Lemma placed_copy p b d :
  placed p -> prod p = PLoop d -> chunk p = Some b -> (chunk_len p <= size)%nat ->
  let n := Nat.min (length d) (size - chunk_len p) in
  placed (p <| bufs := <[b := write_at (bufs p !!! b) (chunk_len p) (take n d)]> (bufs p) |>
            <| chunk_len := (chunk_len p + n)%nat |> <| prod := PLoop (drop n d) |>).
Proof.
  intros [Hi Hb] Ep Ec Hl n. assert (Hh : holding p = Some b) by (unfold holding; by rewrite Ep).
  assert (Ho : b ∈ owned p) by (unfold owned; rewrite Hh; cbn; set_solver).
  pose proof (buffer_lt p b Hi Ho) as Hlt. pose proof (buffer_size p b Hi Ho) as Hsz.
  assert (Hln : length (take n d) = n) by (rewrite length_take; lia).
  assert (Hnd : NoDup (owned p)) by (rewrite (ok_owned p Hi); apply NoDup_seq).
  unfold owned in Hnd. rewrite Hh in Hnd. cbn [option_list app] in Hnd.
  apply list.NoDup_app in Hnd as (_ & _ & Hnd). apply list.NoDup_app in Hnd as (_ & Hnd & Hnw).
  apply list.NoDup_cons in Hnw as [Hnw _].
  set (v := write_at (bufs p !!! b) (chunk_len p) (take n d)).
  split.
  - fields Hi.
    + by rewrite length_insert.
    + apply Forall_insert; [done|]. unfold v. rewrite length_write_at; lia.
    + unfold owned, holding, items in *. cbn. rewrite Ep in ok_owned0. exact ok_owned0.
  - intros He. specialize (Hb He). etransitivity; [exact Hb|].
    change (file p ++ pending p = file p ++
      (match wtr p with WWrite b' len off => take (len - off) (drop off (<[b := v]> (bufs p) !!! b')) | _ => [] end)
      ++ concat (map (content (p <| bufs := <[b := v]> (bufs p) |>)) (items p))
      ++ (match chunk p with Some b' => take (chunk_len p + n) (<[b := v]> (bufs p) !!! b') | None => [] end)
      ++ drop n d).
    unfold pending, chunk_bytes, writer_bytes. rewrite Hh, Ec, Ep. do 2 f_equal; [|f_equal].
    + destruct (wtr p) as [| |b' len off|b'|]; try done. cbn in Hnw.
      rewrite list_lookup_total_insert_ne; [done|set_solver].
    + f_equal. apply map_ext_in. intros it Hit. symmetry. apply wq_content_other. intros E.
      apply (Hnd b); [|set_solver]. rewrite <- E. apply list_elem_of_In, in_map, Hit.
    + rewrite list_lookup_total_insert_eq by by rewrite (ok_bufs p Hi). unfold v, content. cbn.
      pose proof (window_append (bufs p !!! b) 0 (chunk_len p) (take n d)) as Hw.
      rewrite Hln, !drop_0 in Hw. cbn [Nat.add] in Hw. rewrite Hw by lia.
      by rewrite <- app_assoc, take_drop.
Qed.

Lemma placed_enqueue p b k :
  placed p -> prod p = PFull k -> chunk p = Some b ->
  placed (p <| q := <[q_tail p := (b, chunk_len p)]> (q p) |>
            <| q_tail := ((q_tail p + 1) mod slots)%nat |> <| q_count := (q_count p + 1)%nat |>
            <| prod := PGet (GNext k) |>).
Proof.
  intros [Hi Hb] Ep Ec. pose proof (buffer_counts p Hi) as Hc.
  assert (Hh : holding p = Some b) by (unfold holding; by rewrite Ep).
  rewrite Hh in Hc. cbn in Hc.
  assert (Hq : ring slots (<[q_tail p := (b, chunk_len p)]> (q p)) (q_head p) (q_count p + 1)
               = items p ++ [(b, chunk_len p)]).
  { rewrite (ok_tail p Hi). apply ring_snoc; [apply Hi|lia]. }
  split.
  - fields Hi.
    + by rewrite length_insert.
    + rewrite ok_tail0, Nat.Div0.add_mod_idemp_l. f_equal. lia.
    + unfold owned in *. unfold items, holding. cbn -[ring]. rewrite Hq, map_app.
      rewrite Hh in ok_owned0. cbn -[ring] in *. rewrite <- ok_owned0. solve_Permutation.
  - intros He. etransitivity; [exact (Hb He)|]. unfold pending, chunk_bytes, items. rewrite Hh, Ep.
    change (file p ++ writer_bytes p ++ concat (map (content p) (items p))
              ++ content p (b, chunk_len p) ++ after_bytes k
            = file p ++ writer_bytes p
              ++ concat (map (content p) (ring slots (<[q_tail p := (b, chunk_len p)]> (q p)) (q_head p) (q_count p + 1)))
              ++ [] ++ after_bytes k).
    rewrite Hq, map_app, concat_app. cbn [map concat]. by rewrite app_nil_r, <- app_assoc.
Qed.

(** Taking a free buffer as the next chunk. *)
Lemma placed_take p p' :
  placed p -> holding p = None -> (0 < free_n p)%nat ->
  (q p', q_head p', q_tail p', q_count p', freeq p', bufs p', wtr p', given p', file p', wr_err p')
  = (q p, q_head p, q_tail p, q_count p, freeq p, bufs p, wtr p, given p, file p, wr_err p) ->
  free_n p' = (free_n p - 1)%nat -> holding p' = Some (freeq p !!! (free_n p - 1)%nat) ->
  chunk_len p' = 0%nat -> prod_bytes (prod p') = prod_bytes (prod p) -> placed p'.
Proof.
  intros [Hi Hb] Hh Hf E En Eh El Ed. inversion E as [[E1 E2 E3 E4 E5 E6 E7 E8 E9 E10]].
  assert (Eit : items p' = items p) by (unfold items; by rewrite E1, E2, E4). split.
  - fields Hi; try congruence; try lia.
    unfold owned in *. rewrite En, E5, Eit, Eh, E7, Hh in *. cbn in *. rewrite <- ok_owned0.
    rewrite (take_pop _ (free_n p)) by lia. solve_Permutation.
  - intros He. rewrite E8, E9. rewrite E10 in He. etransitivity; [exact (Hb He)|].
    unfold pending, chunk_bytes, writer_bytes. rewrite Hh, Eh, Ed, E7, E6, Eit. do 3 f_equal.
    + f_equal. apply map_ext. intros it. unfold content. by rewrite E6.
    + unfold content. rewrite El. by destruct (_ !!! _).
Qed.

(** After a failed write only the buffers matter. *)
Lemma placed_failed p p' :
  placed p ->
  (q p', q_head p', q_tail p', q_count p', freeq p', free_n p', bufs p')
  = (q p, q_head p, q_tail p, q_count p, freeq p, free_n p, bufs p) ->
  holding p' = holding p -> writer_bufs (wtr p') = writer_bufs (wtr p) -> wr_err p' = true -> placed p'.
Proof.
  intros [H _] E Eh Ew Ee. split; [by apply (buffers_move p)|]. intros He. congruence.
Qed.

Lemma placed_pop p :
  placed p -> wtr p = WCheck -> (0 < q_count p)%nat ->
  let it := q p !!! q_head p in
  placed (p <| q_head := ((q_head p + 1) mod slots)%nat |> <| q_count := (q_count p - 1)%nat |>
            <| wtr := WWrite it.1 it.2 0 |>).
Proof.
  intros [Hi Hb] Ew Hc it.
  assert (Hq : items p = it :: ring slots (q p) ((q_head p + 1) mod slots) (q_count p - 1))
    by (apply ring_cons; [apply Hi|done]).
  split.
  - fields Hi.
    + apply Nat.mod_upper_bound. lia.
    + rewrite ok_tail0, ring_next. do 2 f_equal. lia.
    + unfold owned, holding in *. rewrite Hq, Ew in ok_owned0. unfold items. cbn -[ring] in *.
      rewrite <- ok_owned0. solve_Permutation.
  - intros He. etransitivity; [exact (Hb He)|]. unfold pending. unfold writer_bytes at 1. rewrite Ew, Hq.
    change (file p ++ concat (map (content p) (it :: ring slots (q p) ((q_head p + 1) mod slots) (q_count p - 1)))
              ++ chunk_bytes p ++ prod_bytes (prod p)
            = file p ++ take (it.2 - 0) (drop 0 (bufs p !!! it.1))
              ++ concat (map (content p) (ring slots (q p) ((q_head p + 1) mod slots) (q_count p - 1)))
              ++ chunk_bytes p ++ prod_bytes (prod p)).
    cbn [map concat]. by rewrite Nat.sub_0_r, drop_0, <- app_assoc.
Qed.

Lemma placed_fwrite p b len off n :
  placed p -> wtr p = WWrite b len off -> (n <= len - off)%nat ->
  placed (p <| file := file p ++ take n (drop off (bufs p !!! b)) |> <| wtr := WWrite b len (off + n) |>).
Proof.
  intros [Hi Hb] Ew Hn. split.
  - apply (buffers_move p); [done..|]. by rewrite Ew.
  - intros He. etransitivity; [exact (Hb He)|]. unfold pending. unfold writer_bytes at 1. rewrite Ew.
    set (rest := concat _ ++ _ ++ _).
    change (file p ++ take (len - off) (drop off (bufs p !!! b)) ++ rest
            = (file p ++ take n (drop off (bufs p !!! b)))
              ++ take (len - (off + n)) (drop (off + n) (bufs p !!! b)) ++ rest).
    rewrite <- app_assoc. f_equal. rewrite app_assoc. f_equal.
    rewrite <- drop_drop, Nat.sub_add_distr, take_take_drop. do 2 f_equal. lia.
Qed.

Lemma placed_return p b :
  placed p -> wtr p = WReturn b ->
  placed (p <| freeq := <[free_n p := b]> (freeq p) |> <| free_n := (free_n p + 1)%nat |>
            <| wtr := WCheck |>).
Proof.
  intros [Hi Hb] Ew. pose proof (buffer_counts p Hi) as Hc. rewrite Ew in Hc. cbn in Hc. split.
  - fields Hi.
    + by rewrite length_insert.
    + lia.
    + unfold owned, items, holding in *. cbn. rewrite Ew in ok_owned0. cbn -[ring] in *. rewrite <- ok_owned0.
      rewrite take_push by lia. solve_Permutation.
  - intros He. etransitivity; [exact (Hb He)|]. unfold pending. unfold writer_bytes at 1. by rewrite Ew.
Qed.

(** *** Every step keeps the invariant *)

Ltac nat_tests :=
  repeat match goal with
         | H : (_ =? _)%nat = true |- _ => apply Nat.eqb_eq in H
         | H : (_ =? _)%nat = false |- _ => apply Nat.eqb_neq in H
         end.
Ltac phases :=
  unfold phase_ok, fill_ok, prod_ok, stop_ok, writer_ok, pushed_ok, signal_nonfull, signal_nonempty,
    signal_freecv, flush_enter, return_to in *;
  cbn in *; repeat (case_match; cbn in *; simplify_eq); nat_tests;
  intuition (discriminate || congruence || lia || eauto).

Lemma flush_enter_prod k s p : flush_enter k (p <| prod := s |>) = flush_enter k p.
Proof. unfold flush_enter. cbn. by destruct (chunk p). Qed.

Lemma loop_step_inv d p : (0 < size)%nat -> inv p -> prod p = PLoop d -> inv (loop_step d p).
Proof.
  intros Hsz [Hp Hph] Ep. unfold loop_step.
  destruct (Nat.eqb_spec (length d) 0) as [E0|E0].
  { split; [|phases]. apply moved_prod; [done|by unfold holding; rewrite Ep|].
    rewrite Ep. by destruct d. }
  destruct (chunk p) as [b|] eqn:Ec.
  2: { split; [|phases]. apply moved_prod; [done|by unfold holding; rewrite Ep|by rewrite Ep]. }
  assert (Hl : (chunk_len p < size)%nat) by (destruct Hph as [Hf _]; unfold fill_ok in Hf; rewrite Ep in Hf; apply Hf).
  pose proof (placed_copy p b d Hp Ep Ec ltac:(lia)) as Hc. cbn zeta in Hc.
  set (n := Nat.min (length d) (size - chunk_len p)) in *.
  set (p1 := p <| bufs := _ |> <| chunk_len := (chunk_len p + n)%nat |>) in *.
  destruct (Nat.eqb_spec (chunk_len p1) size) as [Ef|Ef]; cbn in Ef.
  - split.
    + rewrite <- (flush_enter_prod _ (PLoop (drop n d))).
      apply placed_flush_enter; [done..].
    + phases.
  - split; [done|]. assert (n <= size - chunk_len p)%nat by (unfold n; lia). phases.
Qed.

Lemma tail_step_inv p : (0 < size)%nat -> inv p -> prod p = PTail -> inv (tail_step p).
Proof.
  intros Hsz [Hp Hph] Ep. unfold tail_step.
  assert (Hidle : inv (p <| prod := PIdle |>)).
  { split; [|phases]. apply moved_prod; [done|by unfold holding; rewrite Ep|by rewrite Ep]. }
  destruct (chunk p) as [b|] eqn:Ec; [|done].
  destruct (_ && _); [|done]. split; [|phases].
  apply placed_flush_enter; [done|by unfold holding; rewrite Ep|by rewrite Ep].
Qed.

Lemma full_step_inv k p : (0 < size)%nat -> inv p -> prod p = PFull k -> inv (full_step k p).
Proof.
  intros Hsz [Hp Hph] Ep. unfold full_step. pose proof (buffer_counts p (proj1 Hp)) as Hc.
  destruct (chunk p) as [b|] eqn:Ec.
  2: { destruct Hph as [Hf _]. unfold fill_ok in Hf. rewrite Ep, Ec in Hf. by destruct Hf as [[? ?] _]. }
  unfold holding in Hc. rewrite Ep, Ec in Hc. cbn in Hc.
  destruct (Nat.eqb_spec (q_count p) slots) as [Eq|Eq]; [lia|]. cbn [andb].
  destruct (bool_dec (wr_err p) true) as [Ee|Ee]; [|apply not_true_is_false in Ee]; rewrite Ee.
  - split; [|phases]. apply (placed_failed p); [done|done| |done|done].
    unfold holding. cbn. rewrite Ep. by destruct k.
  - split; [apply placed_signal_nonempty, placed_enqueue; [done|exact Ep|done]|phases].
Qed.

Lemma get_step_inv g p : (0 < size)%nat -> inv p -> prod p = PGet g -> inv (get_step g p).
Proof.
  intros Hsz [Hp Hph] Ep. unfold get_step.
  assert (Hh : holding p = None).
  { destruct Hph as [Hf _]. unfold fill_ok, holding in *. rewrite Ep in *. by destruct g; [apply Hf|]. }
  destruct (Nat.eqb_spec (free_n p) 0) as [Ef|Ef]; cbn [andb].
  - destruct (bool_dec (wr_err p) true) as [Ee|Ee]; [|apply not_true_is_false in Ee]; rewrite Ee; cbn [negb].
    + destruct g as [d|k]; cbn [got]; (split; [|phases]).
      * apply (placed_failed p); [done|done|by rewrite Hh|done|done].
      * apply (placed_failed p); [done|done| |done|done]. rewrite Hh. by destruct k.
    + split; [|phases]. apply moved_prod; [done| |by rewrite Ep].
      rewrite Hh. unfold holding in *. cbn. rewrite Ep in Hh. by destruct g.
  - destruct g as [d|k]; cbn [got]; (split; [|phases]).
    + apply (placed_take p); [done|done|lia|done|done|done| |by rewrite Ep].
      destruct Hph as [Hf _]. unfold fill_ok in Hf. rewrite Ep in Hf. apply Hf.
    + apply (placed_take p); [done|done|lia|done|done| |done|].
      * by destruct k.
      * rewrite Ep. by destruct k.
Qed.

Lemma drain_step_inv c p : (0 < size)%nat -> inv p -> prod p = PDrain c -> inv (drain_step c p).
Proof.
  intros Hsz [Hp Hph] Ep. unfold drain_step. destruct (_ && _) eqn:E.
  - split; [apply moved_prod; [done|by unfold holding; rewrite Ep|by rewrite Ep]|].
    apply andb_true_iff in E as [E _]. apply negb_true_iff in E. phases.
  - split; [|clear E; destruct c; phases].
    change (placed (p <| prod := if c then PStop else PIdle |> <| pushed := length (file p) |>)).
    apply placed_pushed, moved_prod; [done|unfold holding; rewrite Ep; by destruct c|rewrite Ep; by destruct c].
Qed.

Lemma prod_step_inv p p' : (0 < size)%nat -> inv p -> prod_step p = Some p' -> inv p'.
Proof.
  intros Hsz Hi E. unfold prod_step in E. destruct (prod p) as [|d| |k|k|g|g|c|c| | |] eqn:Ep; try done;
    [..|destruct (wtr p) eqn:Ew; try done]; apply (inj Some) in E as <-.
  - by apply loop_step_inv.
  - by apply tail_step_inv.
  - by apply full_step_inv.
  - by apply get_step_inv.
  - by apply drain_step_inv.
  - destruct Hi as [Hp Hph]. split; [|phases]. apply placed_signal_nonempty.
    change (placed (p <| prod := PJoin |> <| stop := true |>)).
    apply placed_stop, moved_prod; [done|by unfold holding; rewrite Ep|by rewrite Ep].
  - destruct Hi as [Hp Hph]. split; [|phases].
    change (placed (p <| prod := PClosed |> <| pushed := length (file p) |>)).
    apply placed_pushed, moved_prod; [done|by unfold holding; rewrite Ep|by rewrite Ep].
Qed.

Lemma writer_step_inv n p p' : inv p -> writer_step n p = Some p' -> inv p'.
Proof.
  intros [Hp Hph] E. unfold writer_step in E. destruct (wtr p) as [| |b len off|b|] eqn:Ew; try done.
  - apply (inj Some) in E as <-. destruct (Nat.eqb_spec (q_count p) 0) as [Ec|Ec]; cbn [andb].
    + assert (Hk : forall w, writer_bufs w = [] -> writer_bytes (p <| wtr := w |>) = [] -> placed (p <| wtr := w |>)).
      { intros w Hb Hw. apply moved_writer; [done|by rewrite Ew|]. rewrite Hw. unfold writer_bytes. by rewrite Ew. }
      destruct (bool_dec (stop p) true) as [Es|Es]; [|apply not_true_is_false in Es];
        rewrite Es; cbn [negb]; (split; [by apply Hk|phases]).
    + split; [apply placed_signal_nonfull, placed_pop; [done|done|lia]|phases].
  - destruct (Nat.ltb_spec off len) as [Ho|Ho].
    + destruct (n =? 0)%nat.
      * injection E as <-. split; [|phases]. apply (placed_failed p); [done|done|done|by rewrite Ew|done].
      * destruct (Nat.leb_spec n (len - off)) as [Hn|Hn]; [|done]. injection E as <-.
        split; [by apply placed_fwrite|phases].
    + injection E as <-. split; [|phases].
      assert (Hw : placed (p <| wtr := WReturn b |>)).
      { apply moved_writer; [done|by rewrite Ew|]. unfold writer_bytes. rewrite Ew. cbn.
        by replace (len - off)%nat with 0%nat by lia. }
      exact (placed_pushed _ _ Hw).
  - injection E as <-. split; [by apply placed_signal_freecv, placed_return|phases].
Qed.

Lemma signal_nonfull_phase p : phase_ok p -> phase_ok (signal_nonfull p).
Proof.
  intros [Hf H]. unfold signal_nonfull. destruct (prod p) eqn:E; try done.
  unfold fill_ok in Hf. by rewrite E in Hf.
Qed.

Lemma signal_freecv_phase p : phase_ok p -> phase_ok (signal_freecv p).
Proof.
  intros H. unfold signal_freecv. destruct (prod p) eqn:E; try done.
  all: unfold phase_ok, fill_ok, prod_ok, stop_ok, writer_ok, pushed_ok in *; cbn; rewrite E in H; intuition.
Qed.

Lemma wake_prod_inv p : inv p -> inv (wake_prod p).
Proof.
  intros [Hp Hph]. split; [by apply placed_signal_nonfull, placed_signal_freecv|].
  by apply signal_nonfull_phase, signal_freecv_phase.
Qed.

Lemma write_call_inv d p : inv p -> prod p = PIdle -> inv (write_call d p).
Proof.
  intros [[Hi Hb] Hph] Ep. unfold write_call. cbn.
  destruct (bool_dec (wr_err p) true) as [Ee|Ee]; [|apply not_true_is_false in Ee]; rewrite Ee;
    (split; [split|phases]).
  - by apply (buffers_move p).
  - intros He. cbn in He. congruence.
  - apply (buffers_move p); [done|done| |done]. unfold holding. cbn. by rewrite Ep.
  - intros _. cbn -[pending]. rewrite (Hb Ee), <- app_assoc. f_equal.
    unfold pending, chunk_bytes, holding. cbn -[ring]. rewrite Ep. cbn. by rewrite app_nil_r, <- !app_assoc.
Qed.

Lemma wq_step_inv p p' : (0 < size)%nat -> inv p -> step p p' -> inv p'.
Proof.
  intros Hsz Hi Hs.
  destruct Hs as [p p' E|n p p' E|p d Ep|p Ep|p Ep|p|p|p d Hd].
  - by eapply prod_step_inv.
  - by eapply writer_step_inv.
  - by apply write_call_inv.
  - destruct Hi as [Hp Hph]. split; [|unfold flush_call; phases].
    apply placed_flush_enter; [done|by unfold holding; rewrite Ep|by rewrite Ep].
  - destruct Hi as [Hp Hph]. split; [|unfold close_call; phases].
    apply placed_flush_enter; [done|by unfold holding; rewrite Ep|by rewrite Ep].
  - by apply wake_prod_inv.
  - destruct Hi as [Hp Hph]. split; [by apply placed_signal_nonempty|phases].
  - destruct Hi as [[Hi Hb] Hph]. split; [split; [by apply (buffers_move p)|exact Hb]|exact Hph].
Qed.

Lemma open_inv now : (0 < slots)%nat -> (0 < size)%nat -> inv (wq_open now).
Proof.
  intros Hs Hsz. split; [split|].
  - constructor; cbn; rewrite ?length_replicate, ?length_seq; try done; try lia.
    + apply Forall_replicate, length_replicate.
    + by rewrite Nat.Div0.mod_0_l.
    + unfold owned. cbn. rewrite take_ge by (rewrite length_seq; lia). by rewrite !app_nil_r.
  - intros _. reflexivity.
  - unfold wq_open. phases.
Qed.

Lemma wq_reachable_inv now p : (0 < slots)%nat -> (0 < size)%nat -> reachable now p -> inv p.
Proof.
  intros Hs Hsz Hr. induction Hr as [|p p' _ IH Hst]; [by apply open_inv|by eapply wq_step_inv].
Qed.

(** ** What the thread promises *)

(** C28: one owner, one order.  Whatever the interleaving and whatever [fwrite] stores, each
    buffer has one owner among the free list, the queue, the chunk being filled
    and the writer; and until a write fails the file, the bytes the writer still
    has, the queued chunks, the open chunk and the rest of the call are the bytes
    [sink_write] was given, in order. *)
Theorem wq_in_order now p :
  (0 < slots)%nat -> (0 < size)%nat -> reachable now p ->
  NoDup (owned p)
  /\ (wr_err p = false ->
      given p = file p ++ writer_bytes p ++ concat (map (content p) (items p)) ++ chunk_bytes p
                  ++ prod_bytes (prod p)).
Proof.
  intros Hs Hsz Hr. destruct (wq_reachable_inv now p Hs Hsz Hr) as [[Hi Hb] _]. split; [|exact Hb].
  rewrite (ok_owned p Hi). apply NoDup_seq.
Qed.

Lemma stuck_rest p :
  (0 < slots)%nat -> inv p -> prod_step p = None -> (forall n, writer_step n p = None) ->
  (prod p = PIdle /\ wtr p = WSleep \/ prod p = PClosed /\ wtr p = WDone)
  /\ (wr_err p = false -> given p = file p ++ chunk_bytes p /\ pushed p = length (file p))
  /\ (wr_err p = false -> prod p = PClosed -> file p = given p).
Proof.
  intros Hs [[Hi Hb] (Hf & Hp & Hst & Hw & Hpu)] E1 E2.
  pose proof (buffer_counts p Hi) as Hc.
  assert (Hwr : wtr p = WSleep \/ wtr p = WDone).
  { specialize (E2 0%nat). unfold writer_step in E2. destruct (wtr p) as [| |b len off|b|]; try done; auto.
    by destruct (off <? len)%nat. }
  assert (Hq : q_count p = 0%nat) by (unfold writer_ok in Hw; destruct Hwr as [E|E]; rewrite E in Hw; apply Hw).
  assert (Hwb : writer_bytes p = []) by (unfold writer_bytes; by destruct Hwr as [-> | ->]).
  assert (Hrest : prod p = PIdle /\ wtr p = WSleep \/ prod p = PClosed /\ wtr p = WDone).
  { unfold prod_step, prod_ok, stop_ok, writer_ok, fill_ok, holding in *.
    destruct (prod p) eqn:Ep; try done; destruct Hwr as [Ew|Ew]; rewrite Ew in *; cbn in *; auto;
      try (destruct Hw; congruence); try done.
    - destruct g as [d|k]; [destruct Hf as [Hf _]; rewrite Hf in Hc|]; cbn in Hc; lia. }
  assert (Hby : wr_err p = false -> given p = file p ++ chunk_bytes p /\ pushed p = length (file p)).
  { intros Ee. split.
    - rewrite (Hb Ee). unfold pending, items. rewrite Hwb, Hq. cbn. f_equal.
      destruct Hrest as [[-> _]|[-> _]]; apply app_nil_r.
    - specialize (Hpu Ee). by destruct Hwr as [Ew|Ew]; rewrite Ew in Hpu. }
  split_and!; [done|done|]. intros Ee Ep. destruct (Hby Ee) as [-> _].
  unfold fill_ok in Hf. rewrite Ep in Hf. unfold chunk_bytes, content. cbn. rewrite Hf.
  destruct (holding p); cbn; by rewrite ?take_0, app_nil_r.
Qed.

(** C29: no lost wake-up.  With one buffer or more the threads never wait for each other:
    when neither can move without a signal, a call or a spurious wake-up, the
    producer is between calls and the writer waits for a chunk, or both are done;
    and without a write error everything given is in the file and pushed out, but
    for the open chunk, which is empty once the file is closed. *)
Theorem wq_no_deadlock now p :
  (0 < slots)%nat -> (0 < size)%nat -> reachable now p ->
  prod_step p = None -> (forall n, writer_step n p = None) ->
  (prod p = PIdle /\ wtr p = WSleep \/ prod p = PClosed /\ wtr p = WDone)
  /\ (wr_err p = false -> given p = file p ++ chunk_bytes p /\ pushed p = length (file p))
  /\ (wr_err p = false -> prod p = PClosed -> file p = given p).
Proof. intros Hs Hsz Hr. by apply stuck_rest, (wq_reachable_inv now). Qed.

(** *** Termination of the calls *)

(** A bound on the steps of both threads between two calls. *)
Definition loop_weight (d : list Z) : nat := (size + 30) * length d + size + 40.
Definition after_weight (k : after) : nat :=
  match k with ALoop d => loop_weight d + 3 | ATail => 0 | AFlush _ => 6 end.
Definition prod_weight (p : wq) : nat :=
  match prod p with
  | PIdle | PClosed => 0
  | PJoin => 1
  | PStop => 4
  | PDrain _ => 6
  | PDrainSleep _ => 5
  | PLoop d => match chunk p with Some _ => loop_weight d | None => loop_weight d + 3 end
  | PTail => size + 30
  | PFull k => after_weight k + size + 20
  | PFullSleep k => after_weight k + size + 19
  | PGet (GLoop d) => loop_weight d + 2
  | PGetSleep (GLoop d) => loop_weight d + 1
  | PGet (GNext k) => after_weight k + 5
  | PGetSleep (GNext k) => after_weight k + 4
  end.
Definition writer_weight (w : writer) : nat :=
  match w with
  | WWrite _ len off => len - off + 5
  | WReturn _ => 4
  | WCheck => 2
  | WSleep => 1
  | WDone => 0
  end.
Definition items_weight (l : list (nat * nat)) : nat := sum_list_with (fun it => it.2 + 8)%nat l.
Definition measure (p : wq) : nat := prod_weight p + writer_weight (wtr p) + items_weight (items p).

Lemma wq_measure_signals p :
  (measure (signal_nonempty p) <= measure p + 1 /\ measure (signal_nonfull p) <= measure p + 1
   /\ measure (signal_freecv p) <= measure p + 1)%nat.
Proof.
  unfold signal_nonempty, signal_nonfull, signal_freecv, measure, prod_weight, items.
  split_and!; [destruct (wtr p) eqn:E|destruct (prod p) eqn:E..];
    cbn -[Nat.mul ring loop_weight]; rewrite ?E; repeat case_match; cbn -[Nat.mul ring loop_weight]; lia.
Qed.

Lemma flush_enter_measure k p :
  (measure (flush_enter k p) <= after_weight k + size + 20 + writer_weight (wtr p) + items_weight (items p))%nat.
Proof.
  unfold flush_enter, measure, prod_weight, items.
  destruct (chunk p) eqn:Ec, (chunk_len p =? 0)%nat, k;
    cbn -[Nat.mul ring loop_weight]; rewrite ?Ec; lia.
Qed.

Lemma loop_step_measure d p :
  (0 < size)%nat -> inv p -> prod p = PLoop d -> (measure (loop_step d p) < measure p)%nat.
Proof.
  intros Hsz [_ [Hf _]] Ep. unfold fill_ok in Hf. rewrite Ep in Hf. unfold loop_step.
  assert (Em : measure p = (match chunk p with Some _ => loop_weight d | None => loop_weight d + 3 end
                 + writer_weight (wtr p) + items_weight (items p))%nat)
    by (unfold measure, prod_weight; by rewrite Ep).
  rewrite Em. destruct (Nat.eqb_spec (length d) 0) as [E0|E0].
  { unfold measure, prod_weight. cbn -[Nat.mul ring]. unfold items, loop_weight. destruct (chunk p); cbn -[Nat.mul ring]; lia. }
  destruct (chunk p) as [b|] eqn:Ec.
  2: { unfold measure, prod_weight. cbn -[Nat.mul ring loop_weight]. unfold items. cbn -[Nat.mul ring loop_weight]. lia. }
  set (n := Nat.min (length d) (size - chunk_len p)).
  set (p1 := p <| bufs := _ |> <| chunk_len := (chunk_len p + n)%nat |>).
  assert (Hn : (0 < n <= length d)%nat) by (unfold n; lia).
  assert (Hw : (loop_weight (drop n d) + size + 23 < loop_weight d)%nat).
  { unfold loop_weight. rewrite length_drop.
    assert ((size + 30) * (length d - n) + (size + 30) * n = (size + 30) * length d)%nat by nia.
    assert (size + 30 <= (size + 30) * n)%nat by nia. lia. }
  destruct (_ =? _)%nat.
  - pose proof (flush_enter_measure (ALoop (drop n d)) p1) as Hm. cbn [after_weight] in Hm.
    change (items p1) with (items p) in Hm. change (wtr p1) with (wtr p) in Hm. lia.
  - unfold measure, prod_weight. change (chunk (p1 <| prod := ?s |>)) with (chunk p). rewrite Ec.
    change (items (p1 <| prod := ?s |>)) with (items p). cbn -[Nat.mul loop_weight]. lia.
Qed.

Lemma full_step_measure k p :
  (0 < size)%nat -> inv p -> prod p = PFull k -> (measure (full_step k p) < measure p)%nat.
Proof.
  intros Hsz [[Hi _] [Hf _]] Ep. unfold fill_ok in Hf. rewrite Ep in Hf. destruct Hf as [[b Ec] Hl].
  pose proof (buffer_counts p Hi) as Hc. unfold holding in Hc. rewrite Ep, Ec in Hc. cbn in Hc.
  unfold full_step. rewrite Ec. destruct (Nat.eqb_spec (q_count p) slots) as [Eq|Eq]; [lia|]. cbn [andb].
  assert (Em : measure p = (after_weight k + size + 20 + writer_weight (wtr p) + items_weight (items p))%nat)
    by (unfold measure, prod_weight; by rewrite Ep).
  destruct (wr_err p).
  - rewrite Em. unfold measure, prod_weight. cbn -[Nat.mul ring loop_weight]. unfold items.
    destruct k; cbn -[Nat.mul ring loop_weight]; rewrite ?Ec; lia.
  - rewrite Em. set (p1 := p <| q := _ |> <| q_tail := _ |> <| q_count := _ |> <| prod := _ |>).
    pose proof (proj1 (wq_measure_signals p1)) as Hm.
    assert (Eit : items p1 = items p ++ [(b, chunk_len p)]).
    { unfold items. cbn -[ring]. rewrite (ok_tail p Hi). apply ring_snoc; [apply Hi|lia]. }
    unfold measure at 2 in Hm. unfold prod_weight in Hm. rewrite Eit in Hm.
    change (wtr p1) with (wtr p) in Hm. change (prod p1) with (PGet (GNext k)) in Hm.
    unfold items_weight in *. rewrite sum_list_with_app in Hm. clearbody p1.
    cbn -[Nat.mul ring loop_weight after_weight] in Hm. lia.
Qed.

Lemma get_step_measure g p :
  inv p -> prod p = PGet g -> (measure (get_step g p) < measure p)%nat.
Proof.
  intros [_ [Hf _]] Ep. unfold get_step, measure, prod_weight. rewrite Ep.
  destruct (_ && _); [|destruct (free_n p =? 0)%nat]; destruct g as [d|k]; try destruct k;
    cbn -[Nat.mul ring loop_weight]; unfold items; cbn -[Nat.mul ring loop_weight]; lia.
Qed.

Lemma prod_step_measure p p' :
  (0 < size)%nat -> inv p -> prod_step p = Some p' -> (measure p' < measure p)%nat.
Proof.
  intros Hsz Hi E. unfold prod_step in E. destruct (prod p) as [|d| |k|k|g|g|c|c| | |] eqn:Ep; try done;
    [..|destruct (wtr p) eqn:Ew; try done]; apply (inj Some) in E as <-.
  - by apply loop_step_measure.
  - unfold tail_step. pose proof (flush_enter_measure ATail p) as Hm. cbn [after_weight] in Hm.
    assert (Em : measure p = (size + 30 + writer_weight (wtr p) + items_weight (items p))%nat)
      by (unfold measure, prod_weight; by rewrite Ep).
    assert (measure (p <| prod := PIdle |>) < measure p)%nat by (rewrite Em; unfold measure, prod_weight, items; cbn -[ring]; lia).
    destruct (chunk p); [destruct (_ && _)|]; lia.
  - by apply full_step_measure.
  - by apply get_step_measure.
  - unfold drain_step, measure, prod_weight. rewrite Ep. destruct (_ && _), c; unfold items; cbn -[ring]; lia.
  - pose proof (proj1 (wq_measure_signals (p <| stop := true |> <| prod := PJoin |>))) as Hm.
    unfold measure, prod_weight in *. rewrite Ep. unfold items in *. cbn -[ring] in *. lia.
  - unfold measure, prod_weight. rewrite Ep. unfold items. cbn -[ring]. lia.
Qed.

Lemma writer_step_measure n p p' :
  inv p -> writer_step n p = Some p' -> (measure p' < measure p)%nat.
Proof.
  intros [[Hi _] _] E. unfold writer_step in E. destruct (wtr p) as [| |b len off|b|] eqn:Ew; try done.
  - apply (inj Some) in E as <-. destruct (Nat.eqb_spec (q_count p) 0) as [Ec|Ec]; cbn [andb].
    + unfold measure, prod_weight, items. rewrite Ew.
      destruct (stop p); cbn -[ring loop_weight Nat.mul]; lia.
    + set (p1 := p <| q_head := _ |> <| q_count := _ |> <| wtr := _ |>).
      pose proof (proj1 (proj2 (wq_measure_signals p1))) as Hm.
      assert (Eit : items p = q p !!! q_head p :: items p1) by (apply ring_cons; [apply Hi|lia]).
      unfold measure in *. change (prod_weight p1) with (prod_weight p) in Hm. rewrite Ew, Eit.
      change (wtr p1) with (WWrite (q p !!! q_head p).1 (q p !!! q_head p).2 0) in Hm.
      change (items_weight (?x :: ?l)) with (x.2 + 8 + items_weight l)%nat.
      clearbody p1. cbn -[ring items items_weight] in *. lia.
  - unfold measure, prod_weight, items.
    destruct (Nat.ltb_spec off len) as [Ho|Ho]; [destruct (Nat.eqb_spec n 0) as [En|En]|].
    + injection E as <-. rewrite Ew. cbn -[ring loop_weight Nat.mul]. lia.
    + destruct (Nat.leb_spec n (len - off)) as [Hn|Hn]; [|done]. injection E as <-. rewrite Ew.
      cbn -[ring loop_weight Nat.mul]. lia.
    + injection E as <-. rewrite Ew. cbn -[ring loop_weight Nat.mul]. lia.
  - apply (inj Some) in E as <-. set (p1 := p <| freeq := _ |> <| free_n := _ |> <| wtr := _ |>).
    pose proof (proj2 (proj2 (wq_measure_signals p1))) as Hm. unfold measure in *.
    change (prod_weight p1) with (prod_weight p) in Hm. change (items p1) with (items p) in Hm.
    change (wtr p1) with WCheck in Hm. rewrite Ew. clearbody p1. cbn -[items] in *. lia.
Qed.

(** [n] steps of the two threads, in any order. *)
Inductive runs : nat -> wq -> wq -> Prop :=
| runs_none p : runs 0 p p
| runs_prod n p p1 p2 : prod_step p = Some p1 -> runs n p1 p2 -> runs (S n) p p2
| runs_writer n k p p1 p2 : writer_step k p = Some p1 -> runs n p1 p2 -> runs (S n) p p2.

(** C30: the calls return.  Between two calls the threads make at most [measure p] steps, however
    they are scheduled and however [fwrite] splits the chunks, and they rest where
    the call has returned; if no write failed, the file is then what was given up
    to the open chunk, and after [pcapng_close] all of it. *)
Theorem wq_calls_return now n p p' :
  (0 < slots)%nat -> (0 < size)%nat -> reachable now p -> runs n p p' ->
  (n <= measure p)%nat
  /\ (prod_step p' = None -> (forall k, writer_step k p' = None) ->
      (prod p' = PIdle \/ prod p' = PClosed)
      /\ (wr_err p' = false -> given p' = file p' ++ chunk_bytes p')
      /\ (wr_err p' = false -> prod p' = PClosed -> file p' = given p')).
Proof.
  intros Hs Hsz Hr Hn. apply wq_reachable_inv in Hr; [|done..].
  induction Hn as [p|n p p1 p2 E Hn IH|n k p p1 p2 E Hn IH].
  - split; [lia|]. intros E1 E2. destruct (stuck_rest p Hs Hr E1 E2) as (H1 & H2 & H3).
    split_and!; [destruct H1 as [[? _]|[? _]]; auto|by intros He; apply H2|done].
  - pose proof (prod_step_measure p p1 Hsz Hr E) as Hm.
    apply prod_step_inv in E; [|done..]. destruct (IH E) as [IH1 IH2]. split; [lia|done].
  - pose proof (writer_step_measure k p p1 Hr E) as Hm.
    apply writer_step_inv in E; [|done]. destruct (IH E) as [IH1 IH2]. split; [lia|done].
Qed.
End WriteQueue.

(** ** Runs of two slots of three bytes *)

(** The steps a scheduler picks: [None] is the producing thread, [Some k] the writer with
    [fwrite] returning [k]. *)
Fixpoint schedule (slots size : nat) (live : Z) (picks : list (option nat)) (p : wq) : option wq :=
  match picks with
  | [] => Some p
  | None :: picks => p ← prod_step slots size live p; schedule slots size live picks p
  | Some k :: picks => p ← writer_step slots k p; schedule slots size live picks p
  end.

Lemma wq_schedule_runs slots size live picks p p' :
  schedule slots size live picks p = Some p' -> runs slots size live (length picks) p p'.
Proof.
  revert p. induction picks as [|[k|] picks IH]; intros p E; cbn in *.
  - simplify_eq. constructor.
  - destruct (writer_step slots k p) eqn:Ek; [|done]. eapply runs_writer; [done|by apply IH].
  - destruct (prod_step slots size live p) eqn:Ep; [|done]. eapply runs_prod; [done|by apply IH].
Qed.

Lemma wq_runs_reachable slots size live now n p p' :
  reachable slots size live now p -> runs slots size live n p p' -> reachable slots size live now p'.
Proof.
  intros Hr Hn. induction Hn as [p|n p p1 p2 E _ IH|n k p p1 p2 E _ IH]; [done| |];
    apply IH; (eapply reachable_step; [done|]); [by apply step_prod|by eapply step_writer].
Qed.

(** Five bytes written, then the file closed; [fwrite] stores at most two at a time. *)
Definition demo_written : wq := write_call [1; 2; 3; 4; 5] (wq_open 2 3 0).
Definition demo_half : wq :=
  default demo_written (schedule 2 3 50 (replicate 7 None ++ [Some 0; Some 2]%nat) demo_written).
Definition demo_idle : wq :=
  default demo_written
    (schedule 2 3 50 (replicate 7 None ++ [Some 0; Some 2; Some 1; Some 0; Some 0; Some 0; None]%nat) demo_written).
Definition demo_closing : wq := close_call demo_idle.
Definition demo_closed : wq :=
  default demo_closing
    (schedule 2 3 50 [None; None; Some 0; None; None; Some 2; Some 0; Some 0; Some 0; None]%nat demo_closing).

Lemma demo_written_reachable : reachable 2 3 50 0 demo_written.
Proof. apply (reachable_step 2 3 50 0 (wq_open 2 3 0)); [constructor|apply step_write; reflexivity]. Qed.

Lemma wq_demo_half_reachable : reachable 2 3 50 0 demo_half.
Proof.
  eapply wq_runs_reachable; [apply demo_written_reachable|].
  apply (wq_schedule_runs 2 3 50 (replicate 7 None ++ [Some 0; Some 2]%nat)). vm_compute. reflexivity.
Qed.

Lemma demo_closing_reachable : reachable 2 3 50 0 demo_closing.
Proof.
  apply (reachable_step 2 3 50 0 demo_idle); [|apply step_close; vm_compute; reflexivity].
  eapply wq_runs_reachable; [apply demo_written_reachable|].
  apply (wq_schedule_runs 2 3 50 (replicate 7 None ++ [Some 0; Some 2; Some 1; Some 0; Some 0; Some 0; None]%nat)).
  vm_compute. reflexivity.
Qed.

Lemma demo_closed_runs : runs 2 3 50 10 demo_closing demo_closed.
Proof.
  apply (wq_schedule_runs 2 3 50 [None; None; Some 0; None; None; Some 2; Some 0; Some 0; Some 0; None]%nat).
  vm_compute. reflexivity.
Qed.

Lemma wq_in_order_witness :
  owned 2 demo_half = [0; 1]%nat /\ NoDup (owned 2 demo_half)
  /\ wr_err demo_half = false
  /\ given demo_half = [1; 2] ++ [3] ++ [] ++ [4; 5] ++ [].
Proof.
  split; [vm_compute; reflexivity|].
  pose proof (wq_in_order 2 3 50 0 demo_half (Nat.lt_0_succ 1) (Nat.lt_0_succ 2) wq_demo_half_reachable) as [H1 H2].
  split; [exact H1|]. split; [vm_compute; reflexivity|].
  etransitivity; [apply H2; vm_compute; reflexivity|]. vm_compute. reflexivity.
Defined.

Lemma wq_no_deadlock_witness :
  given demo_closed = [1; 2; 3; 4; 5] /\ prod demo_closed = PClosed /\ file demo_closed = given demo_closed.
Proof.
  split; [vm_compute; reflexivity|]. split; [vm_compute; reflexivity|].
  refine (proj2 (proj2 (wq_no_deadlock 2 3 50 0 demo_closed (Nat.lt_0_succ 1) (Nat.lt_0_succ 2) _ _ _)) _ _).
  - exact (wq_runs_reachable _ _ _ _ _ _ _ demo_closing_reachable demo_closed_runs).
  - vm_compute. reflexivity.
  - intros n. vm_compute. reflexivity.
  - vm_compute. reflexivity.
  - vm_compute. reflexivity.
Defined.

Lemma wq_calls_return_witness :
  (10 <= measure 2 3 demo_closing)%nat /\ file demo_closed = given demo_closed.
Proof.
  pose proof (wq_calls_return 2 3 50 0 10 demo_closing demo_closed (Nat.lt_0_succ 1) (Nat.lt_0_succ 2)
                demo_closing_reachable demo_closed_runs) as [H1 H2].
  split; [exact H1|]. refine (proj2 (proj2 (H2 _ _)) _ _).
  - vm_compute. reflexivity.
  - intros n. vm_compute. reflexivity.
  - vm_compute. reflexivity.
  - vm_compute. reflexivity.
Defined.

(** [pcapng_flush] waits for an empty queue, not for the writer: it can return while the last
    chunk is still to be written. *)
Definition demo_flushing : wq :=
  flush_call (default demo_written (schedule 2 3 50 (replicate 5 None) (write_call [1; 2] (wq_open 2 3 0)))).

Lemma flush_returns_early :
  exists p, schedule 2 3 50 [None; None; Some 0; None]%nat demo_flushing = Some p
            /\ prod p = PIdle /\ wr_err p = false /\ given p = [1; 2] /\ file p = [].
Proof. eexists. split; [vm_compute; reflexivity|]. vm_compute. auto. Qed.
