(* ===== verification/Transport.v ===== *)
(** * Transport abstraction and the replay backend (src/transport.c,
    src/transport_replay.c)

    A transport is a backend's private state with a table of operations, two of
    which a backend may leave out.  Bytes that arrive are handed to the feed
    callback of a client.  The replay backend reads a recorded upstream byte
    stream from a file: sixteen bytes per pump until the streaming phase, 4096
    afterwards. *)

From S2P Require Import Prelude.
Local Open Scope list_scope.

(** The client of a transport: [transport_callbacks.feed]. *)
Class FeedClient (U : Type) := { feed : list Z -> U -> U }.

(** The client that keeps the chunks it is fed. *)
#[export] Instance chunk_log : FeedClient (list (list Z)) := { feed d l := l ++ [d] }.

(** [struct transport_ops], over private states [T] and clients [U]. *)
Record transport_ops (T U : Type) := mk_ops {
  op_open : T -> T * bool;
  op_discard : T -> T;
  op_stream_mode : T -> T;
  op_events : T -> U -> Z -> T * U * bool;
  op_write : T -> list Z -> T * Z;
  op_alive : T -> bool;
  op_close : T -> T;
  op_probe_upstream : option (T -> Z -> T * Z);
  op_reset_device : option (T -> T * bool);
}.
Arguments mk_ops {T U}. Arguments op_open {T U}. Arguments op_discard {T U}.
Arguments op_stream_mode {T U}. Arguments op_events {T U}. Arguments op_write {T U}.
Arguments op_alive {T U}. Arguments op_close {T U}. Arguments op_probe_upstream {T U}.
Arguments op_reset_device {T U}.

Record transport (T U : Type) := mk_transport { priv : T; ops : transport_ops T U }.
Arguments mk_transport {T U}. Arguments priv {T U}. Arguments ops {T U}.

Section Dispatch.
Context {T U : Type}.
Implicit Types (t : transport T U) (u : U).

Definition transport_open t : transport T U * bool :=
  let '(p, r) := op_open (ops t) (priv t) in (mk_transport p (ops t), r).

Definition transport_discard t : transport T U :=
  mk_transport (op_discard (ops t) (priv t)) (ops t).

Definition transport_stream_mode t : transport T U :=
  mk_transport (op_stream_mode (ops t) (priv t)) (ops t).

Definition transport_events t u (timeout_ms : Z) : transport T U * U * bool :=
  let '(p, u, r) := op_events (ops t) (priv t) u timeout_ms in (mk_transport p (ops t), u, r).

Definition transport_write t (data : list Z) : transport T U * Z :=
  let '(p, r) := op_write (ops t) (priv t) data in (mk_transport p (ops t), r).

Definition transport_alive t : bool := op_alive (ops t) (priv t).

Definition transport_probe_upstream t (window_ms : Z) : transport T U * Z :=
  match op_probe_upstream (ops t) with
  | None => (t, -1)
  | Some probe => let '(p, r) := probe (priv t) window_ms in (mk_transport p (ops t), r)
  end.

Definition transport_reset_device t : transport T U * bool :=
  match op_reset_device (ops t) with
  | None => (t, false)
  | Some reset => let '(p, r) := reset (priv t) in (mk_transport p (ops t), r)
  end.

Definition transport_close t : transport T U :=
  mk_transport (op_close (ops t) (priv t)) (ops t).
End Dispatch.

(** ** The replay backend *)

Definition DATA_CHUNK : nat := Z.to_nat 4096.

(** [fd] is the part of the file not read yet; [None] after [close]. *)
Record replay_priv := mk_replay {
  fd : option (list Z);
  alive : bool;
  stream_mode : bool;
}.
#[export] Instance replay_settable : Settable replay_priv := fun p =>
  mk_replay (fd p) (alive p) (stream_mode p).

(** [read] on a regular file: as many bytes as are left, up to [want]; [None] is
    the error return -1. *)
Definition fd_read (p : replay_priv) (want : nat) : option (replay_priv * list Z) :=
  match fd p with
  | None => None
  | Some l => Some (p <| fd := Some (drop want l) |>, take want l)
  end.

Definition tr_open (p : replay_priv) : replay_priv * bool := (p <| alive := true |>, true).

(** One turn of the loop of [tr_discard]; the flag is [break]. *)
Definition discard_ack (p : replay_priv) : replay_priv * bool :=
  match fd_read p 16 with
  | None => (p <| alive := false |>, true)
  | Some (p, d) => if (length d <? 16)%nat then (p <| alive := false |>, true) else (p, false)
  end.

Definition tr_discard (p : replay_priv) : replay_priv :=
  let '(p, brk) := discard_ack p in if brk then p else fst (discard_ack p).

Definition tr_stream_mode (p : replay_priv) : replay_priv := p <| stream_mode := true |>.

Definition tr_events {U} `{FeedClient U} (p : replay_priv) (u : U) (timeout_ms : Z)
    : replay_priv * U * bool :=
  if negb (alive p) then (p, u, false)
  else
    let want := if stream_mode p then DATA_CHUNK else 16%nat in
    match fd_read p want with
    | None => (p <| alive := false |>, u, false)
    | Some (p, d) =>
        if (length d =? 0)%nat then (p <| alive := false |>, u, false)
        else
          let u := feed d u in
          ((if (length d <? want)%nat then p <| alive := false |> else p), u, true)
    end.

Definition tr_write (p : replay_priv) (data : list Z) : replay_priv * Z := (p, 0).

Definition tr_alive (p : replay_priv) : bool := alive p.

Definition tr_probe_upstream (p : replay_priv) (window_ms : Z) : replay_priv * Z := (p, -1).

Definition tr_close (p : replay_priv) : replay_priv := p <| fd := None |>.

Definition replay_ops {U} `{FeedClient U} : transport_ops replay_priv U := {|
  op_open := tr_open;
  op_discard := tr_discard;
  op_stream_mode := tr_stream_mode;
  op_events := tr_events;
  op_write := tr_write;
  op_alive := tr_alive;
  op_close := tr_close;
  op_probe_upstream := Some tr_probe_upstream;
  op_reset_device := None;
|}.

(** [file] is the content of the file opened at [path]. *)
Definition transport_replay_new {U} `{FeedClient U} (file : list Z) : transport replay_priv U :=
  mk_transport (mk_replay (Some file) false false) replay_ops.

(** ** What a replay delivers *)

(** Pump until the transport reports the end. *)
Fixpoint pump {T U} (fuel : nat) (t : transport T U) (u : U) : option (transport T U * U) :=
  match fuel with
  | O => None
  | S fuel =>
      if transport_alive t then
        let '(t, u, more) := transport_events t u 50 in
        if more then pump fuel t u else Some (t, u)
      else Some (t, u)
  end.

(** Cut a byte string into chunks of [n]. *)
Fixpoint chunks_of (fuel n : nat) (l : list Z) : list (list Z) :=
  match fuel, l with
  | _, [] => []
  | O, _ => []
  | S fuel, l => take n l :: chunks_of fuel n (drop n l)
  end.

Lemma chunks_of_concat fuel n l :
  (0 < n)%nat -> (length l <= fuel)%nat -> concat (chunks_of fuel n l) = l.
Proof.
  intros Hn. revert l. induction fuel as [|fuel IH]; intros l Hl.
  { destruct l; [done|cbn in Hl; lia]. }
  destruct l as [|b l']; [done|]. set (l := b :: l') in *. cbn [chunks_of concat].
  change (match l with [] => [] | _ => take n l :: chunks_of fuel n (drop n l) end)
    with (take n l :: chunks_of fuel n (drop n l)).
  cbn [concat]. rewrite IH by (rewrite length_drop; subst l; cbn [length] in *; lia).
  apply take_drop.
Qed.

Section Replay.
Context {U : Type} `{FeedClient U}.
Implicit Type u : U.

(** A pump in the streaming phase. *)
Lemma tr_events_stream u l tmo :
  tr_events (mk_replay (Some l) true true) u tmo
  = match l with
    | [] => (mk_replay (Some []) false true, u, false)
    | _ => (mk_replay (Some (drop DATA_CHUNK l)) (DATA_CHUNK <=? length l)%nat true,
            feed (take DATA_CHUNK l) u, true)
    end.
Proof.
  unfold tr_events, fd_read. cbn [alive negb stream_mode fd].
  destruct l as [|b l']; [reflexivity|]. set (l := b :: l').
  assert (Hl : (0 < length l)%nat) by (subst l; cbn; lia). clearbody l.
  rewrite length_take. cbv zeta.
  destruct (Nat.eqb_spec (DATA_CHUNK `min` length l) 0); [unfold DATA_CHUNK in *; lia|].
  destruct l as [|x l]; [cbn in Hl; lia|]. set (k := x :: l) in *. clearbody k.
  destruct (Nat.leb_spec DATA_CHUNK (length k)), (Nat.ltb_spec (DATA_CHUNK `min` length k) DATA_CHUNK);
    try lia; reflexivity.
Qed.

Lemma pump_stream k u l fuel :
  (length l <= k)%nat -> (length l / DATA_CHUNK + 2 <= fuel)%nat ->
  pump fuel (mk_transport (mk_replay (Some l) true true) replay_ops) u
  = Some (mk_transport (mk_replay (Some []) false true) replay_ops,
          fold_left (fun u d => feed d u) (chunks_of k DATA_CHUNK l) u).
Proof.
  revert u l fuel. induction k as [|k IH]; intros u l fuel Hk Hf;
    (destruct fuel as [|fuel]; [lia|]); cbn [pump]; unfold transport_alive, transport_events;
    cbn [op_alive op_events ops priv replay_ops tr_alive alive]; rewrite tr_events_stream.
  { by destruct l; [|cbn in Hk; lia]. }
  destruct l as [|b l']; [done|]. set (l := b :: l') in *.
  change (chunks_of (S k) DATA_CHUNK l) with (take DATA_CHUNK l :: chunks_of k DATA_CHUNK (drop DATA_CHUNK l)).
  assert (Hl : (0 < length l)%nat) by (subst l; cbn; lia). clearbody l.
  assert (Hd : (0 < DATA_CHUNK)%nat) by (unfold DATA_CHUNK; lia).
  cbn [fold_left]. destruct (Nat.leb_spec DATA_CHUNK (length l)) as [Hle|Hlt].
  - apply IH; rewrite length_drop; [lia|].
    replace (length l) with ((length l - DATA_CHUNK) + 1 * DATA_CHUNK)%nat in Hf by lia.
    rewrite Nat.div_add in Hf by lia. lia.
  - rewrite drop_ge by lia. destruct fuel as [|fuel]; [lia|]. by destruct k.
Qed.

(** A replay in its streaming phase hands the client exactly the rest of the
    file, in order, in chunks of 4096 bytes of which only the last may be
    shorter, and then reports the end; one pump per 4096 bytes and one more are
    enough. *)
Theorem replay_delivers u l fuel :
  (length l / DATA_CHUNK + 2 <= fuel)%nat ->
  pump fuel (mk_transport (mk_replay (Some l) true true) replay_ops) u
    = Some (mk_transport (mk_replay (Some []) false true) replay_ops,
            fold_left (fun u d => feed d u) (chunks_of (length l) DATA_CHUNK l) u)
  /\ concat (chunks_of (length l) DATA_CHUNK l) = l.
Proof.
  intros Hf. split; [by apply pump_stream|].
  apply chunks_of_concat; unfold DATA_CHUNK; lia.
Qed.
End Replay.

(** Two bytes left in the file, two pumps. *)
Lemma replay_delivers_witness :
  pump 2 (mk_transport (mk_replay (Some [7; 9]) true true) replay_ops) []
  = Some (mk_transport (mk_replay (Some []) false true) replay_ops, [[7; 9]]).
Proof.
  destruct (replay_delivers ([] : list (list Z)) [7; 9] 2) as [E _]; [|exact E].
  rewrite Nat.div_small; unfold DATA_CHUNK; cbn [length]; lia.
Defined.
