(* ===== verification/Cmd.v ===== *)
(** * Command layer (src/cmd.c)

    The serial control plane: a 16-byte command packet is written, and the event
    loop is pumped until the FPGA's ACK arrives or the deadline passes, up to
    three times.  The transport, the clock and the callbacks that run inside the
    event loop are an interface, [CmdEnv]. *)

From S2P Require Import Prelude Uhsif.
Local Open Scope list_scope.

Record cmd := mk_cmd {
  seq : Z;                 (* command sequence counter, 8 bits *)
  waiting : bool;
  ack_seen : bool;
  fatal : bool;
  suppress : bool;
}.
#[export] Instance cmd_settable : Settable cmd := fun c =>
  mk_cmd (seq c) (waiting c) (ack_seen c) (fatal c) (suppress c).

Definition cmd_init : cmd := mk_cmd 0 false false false true.

Definition cmd_input_suppressed (c : cmd) : bool := suppress c.

Definition cmd_ack_event (c : cmd) : cmd :=
  if waiting c then c <| ack_seen := true |> else c.

Definition build_packet (c : cmd) (id param : Z) : list Z :=
  let w1 := Z.lor (Z.shiftl (seq c) 8) id in
  let w3 := 0 in
  let w0 := Z.lor (Z.shiftl (uhsif_hdr_crc16 w1 param w3) 16) UHSIF_CMD_MAGIC16 in
  uhsif_put_le32 w0 ++ uhsif_put_le32 w1 ++ uhsif_put_le32 param ++ uhsif_put_le32 w3.

(** The world the command layer runs in: [transport_write], [transport_events]
    (whose callbacks may run [cmd_ack_event] on the command state and read it),
    [transport_alive] and [os_get_time_ms]. *)
Class CmdEnv (E : Type) := {
  env_write : list Z -> E -> E * Z;
  env_events : Z -> E -> cmd -> E * cmd;
  env_alive : E -> bool;
  env_time : E -> E * Z;
}.

Section Cmd.
Context {E : Type} `{CmdEnv E}.

Definition cmd_tx_quiet (e : E) (c : cmd) (id param : Z) : E :=
  fst (env_write (build_packet c id param) e).

(** How the inner [while] of [cmd_exec] ends: with the ACK, or by the deadline or
    the [break]. *)
Inductive wait_end := Acked | Expired.

Fixpoint cmd_wait (fuel : nat) (deadline : Z) (e : E) (c : cmd) : option (E * cmd * wait_end) :=
  match fuel with
  | O => None
  | S fuel =>
      let '(e, now) := env_time e in
      if now <? deadline then
        let '(e, c) := env_events 20 e c in
        if ack_seen c then
          Some (e, c <| waiting := false |> <| seq := u8 (seq c + 1) |>, Acked)
        else if negb (env_alive e) then Some (e, c, Expired)
        else cmd_wait fuel deadline e c
      else Some (e, c, Expired)
  end.

(** [attempts] counts the attempts left. *)
Fixpoint cmd_attempts (attempts fuel : nat) (e : E) (c : cmd) (id param : Z)
    : option (E * cmd * bool) :=
  match attempts with
  | O => Some (e, c <| fatal := true |>, false)
  | S attempts =>
      let '(e, rc) := env_write (build_packet c id param) e in
      if rc <? 0 then Some (e, c, false)
      else
        let c := c <| suppress := false |> <| waiting := true |> <| ack_seen := false |> in
        let '(e, now) := env_time e in
        match cmd_wait fuel (now + UHSIF_CMD_TIMEOUT_MS) e c with
        | None => None
        | Some (e, c, Acked) => Some (e, c, true)
        | Some (e, c, Expired) =>
            let c := c <| waiting := false |> in
            if ack_seen c then Some (e, c <| seq := u8 (seq c + 1) |>, true)
            else if negb (env_alive e) then Some (e, c <| fatal := true |>, false)
            else cmd_attempts attempts fuel e c id param
        end
  end.

Definition cmd_exec (fuel : nat) (e : E) (c : cmd) (id param : Z) : option (E * cmd * bool) :=
  cmd_attempts UHSIF_CMD_RETRIES fuel e c id param.

End Cmd.

(** ** The command packet *)

(** The FPGA's view of a command packet: magic, checksum, then the fields. *)
Definition read_command (pkt : list Z) : option (Z * Z * Z) :=
  let w0 := uhsif_le32 pkt in
  let w1 := uhsif_le32 (drop 4 pkt) in
  let w2 := uhsif_le32 (drop 8 pkt) in
  let w3 := uhsif_le32 (drop 12 pkt) in
  if (length pkt =? UHSIF_CMD_SIZE)%nat && (u16 w0 =? UHSIF_CMD_MAGIC16)
     && (Z.shiftr w0 16 =? uhsif_hdr_crc16 w1 w2 w3) && (Z.land w3 0xfff =? 0)
  then Some (Z.shiftr w1 8, w1 mod 256, w2) else None.

Lemma build_packet_words c id :
  byte_ok (seq c) -> byte_ok id ->
  Z.lor (Z.shiftl (seq c) 8) id = seq c * 256 + id.
Proof.
  intros Hs Hi. rewrite Z.lor_comm, lor_shiftl_add by (change (2 ^ 8) with 256; lia).
  change (2 ^ 8) with 256. lia.
Qed.

(** The words of a packet, as they stand in its bytes. *)
Lemma packet_layout w1 w2 w3 body :
  0 <= w1 < 4294967296 -> 0 <= w2 < 4294967296 -> 0 <= w3 < 4294967296 ->
  let w0 := Z.lor (Z.shiftl (uhsif_hdr_crc16 w1 w2 w3) 16) UHSIF_CMD_MAGIC16 in
  let pkt := uhsif_put_le32 w0 ++ uhsif_put_le32 w1 ++ uhsif_put_le32 w2 ++ uhsif_put_le32 w3 ++ body in
  u16 (uhsif_le32 pkt) = UHSIF_CMD_MAGIC16 /\ Z.shiftr (uhsif_le32 pkt) 16 = uhsif_hdr_crc16 w1 w2 w3
  /\ uhsif_le32 (drop 4 pkt) = w1 /\ uhsif_le32 (drop 8 pkt) = w2 /\ uhsif_le32 (drop 12 pkt) = w3
  /\ drop 16 pkt = body /\ length pkt = (16 + length body)%nat.
Proof.
  intros H1 H2 H3 w0 pkt. unfold w0 in pkt. pose proof (crc16_word w1 w2 w3) as Hc. set (crc := uhsif_hdr_crc16 w1 w2 w3) in *.
  assert (E0 : Z.lor (Z.shiftl crc 16) UHSIF_CMD_MAGIC16 = crc * 65536 + UHSIF_CMD_MAGIC16).
  { rewrite Z.lor_comm, lor_shiftl_add by (unfold UHSIF_CMD_MAGIC16; change (2 ^ 16) with 65536; lia).
    change (2 ^ 16) with 65536. lia. }
  assert (Hl : uhsif_le32 pkt = crc * 65536 + UHSIF_CMD_MAGIC16).
  { unfold pkt. rewrite E0. apply le32_put_le32. unfold UHSIF_CMD_MAGIC16. lia. }
  rewrite Hl, Z.shiftr_div_pow2 by lia. change (2 ^ 16) with 65536. unfold u16, UHSIF_CMD_MAGIC16. unfold pkt.
  split; [divmod|]. split; [divmod|].
  change (drop 4 ?p) with (uhsif_put_le32 w1 ++ uhsif_put_le32 w2 ++ uhsif_put_le32 w3 ++ body).
  change (drop 8 ?p) with (uhsif_put_le32 w2 ++ uhsif_put_le32 w3 ++ body).
  change (drop 12 ?p) with (uhsif_put_le32 w3 ++ body). change (drop 16 ?p) with body.
  rewrite !le32_put_le32, !length_app by done. split_and!; reflexivity.
Qed.

Lemma read_packet sq id param :
  byte_ok sq -> byte_ok id -> 0 <= param < 4294967296 ->
  let w1 := sq * 256 + id in
  read_command (uhsif_put_le32 (Z.lor (Z.shiftl (uhsif_hdr_crc16 w1 param 0) 16) UHSIF_CMD_MAGIC16)
                ++ uhsif_put_le32 w1 ++ uhsif_put_le32 param ++ uhsif_put_le32 0) = Some (sq, id, param).
Proof.
  intros Hs Hi Hp w1. assert (Hw1 : 0 <= w1 < 4294967296) by (unfold w1; lia).
  destruct (packet_layout w1 param 0 [] Hw1 Hp ltac:(lia)) as (E0 & E0' & E1 & E2 & E3 & _ & El).
  rewrite app_nil_r in *. unfold read_command. rewrite E0, E0', E1, E2, E3, El, !Z.eqb_refl. cbn [andb length Nat.add].
  rewrite Z.shiftr_div_pow2 by lia. change (2 ^ 8) with 256. change (_ =? UHSIF_CMD_SIZE)%nat with true.
  unfold w1. cbn [andb]. do 2 f_equal. f_equal; divmod.
Qed.

(** C13: a command packet is 16 bytes that pass the FPGA's magic and checksum test
    and carry exactly the sequence number, the command id and the parameter. *)
Theorem build_packet_roundtrip c id param :
  byte_ok (seq c) -> byte_ok id -> 0 <= param < 4294967296 ->
  read_command (build_packet c id param) = Some (seq c, id, param).
Proof. intros. unfold build_packet. cbv zeta. rewrite build_packet_words by done. by apply read_packet. Qed.

(** ** Executing a command *)

(** What the command layer relies on: the callbacks touch the command state only
    through [cmd_ack_event], the clock does not run backwards, and a pump that
    delivers no ACK to a living transport uses up time or something finite. *)
Class CmdEnvLaws (E : Type) `{CmdEnv E} := {
  events_acks t e c : exists n, snd (env_events t e c) = Nat.iter n cmd_ack_event c;
  clock : E -> Z;                    (* a lower bound of every later reading *)
  supply : E -> nat;
  time_clock e : clock e <= snd (env_time e) <= clock (fst (env_time e));
  time_supply e : (supply (fst (env_time e)) <= supply e)%nat;
  events_progress t e c :
    clock e <= clock (fst (env_events t e c))
    /\ (supply (fst (env_events t e c)) <= supply e)%nat
    /\ (ack_seen (snd (env_events t e c)) = true \/ env_alive (fst (env_events t e c)) = false
        \/ clock e < clock (fst (env_events t e c))
        \/ (supply (fst (env_events t e c)) < supply e)%nat);
  write_supply p e : (supply (fst (env_write p e)) <= supply e)%nat;
}.

(** An execution observed from outside: packets written, with the result, and
    pumps, with whether the ACK had arrived after them. *)
Inductive act := Send (pkt : list Z) (rc : Z) | Pump (acked : bool).

#[export] Instance traced_env {E} `{CmdEnv E} : CmdEnv (E * list act) := {
  env_write p e := let '(e', rc) := env_write p (fst e) in ((e', snd e ++ [Send p rc]), rc);
  env_events t e c :=
    let '(e', c') := env_events t (fst e) c in ((e', snd e ++ [Pump (ack_seen c')]), c');
  env_alive e := env_alive (fst e);
  env_time e := let '(e', t) := env_time (fst e) in ((e', snd e), t);
}.

(** [n] sends of [pkt] that were accepted and never acknowledged. *)
Inductive unacked (pkt : list Z) : nat -> list act -> Prop :=
| unacked_none : unacked pkt 0 []
| unacked_more n rc k l : 0 <= rc -> unacked pkt n l ->
    unacked pkt (S n) ((Send pkt rc :: repeat (Pump false) k) ++ l).

(** The observations of one command execution, by its result. *)
Inductive exec_trace (pkt : list Z) : bool -> list act -> Prop :=
| exec_acked n l rc k : unacked pkt n l -> (n < UHSIF_CMD_RETRIES)%nat -> 0 <= rc ->
    exec_trace pkt true (l ++ (Send pkt rc :: repeat (Pump false) k) ++ [Pump true])
| exec_write_failed n l rc : unacked pkt n l -> (n < UHSIF_CMD_RETRIES)%nat -> rc < 0 ->
    exec_trace pkt false (l ++ [Send pkt rc])
| exec_gave_up n l : unacked pkt n l -> (0 < n <= UHSIF_CMD_RETRIES)%nat -> exec_trace pkt false l.

Section Exec.
Context {E : Type} `{CmdEnvLaws E}.
Implicit Types (e : E * list act) (c : cmd).

Lemma iter_ack_fields n c :
  let c' := Nat.iter n cmd_ack_event c in
  seq c' = seq c /\ waiting c' = waiting c /\ fatal c' = fatal c /\ suppress c' = suppress c.
Proof.
  induction n as [|n IH]; [done|]. cbv zeta in *. rewrite Nat.iter_succ.
  set (x := Nat.iter n cmd_ack_event c) in *. clearbody x. destruct IH as (I1 & I2 & I3 & I4).
  unfold cmd_ack_event. destruct (waiting x) eqn:Ew; cbn; by rewrite ?Ew.
Qed.

Lemma events_fields t (e : E) c :
  let c' := snd (env_events t e c) in
  seq c' = seq c /\ waiting c' = waiting c /\ fatal c' = fatal c /\ suppress c' = suppress c.
Proof. destruct (events_acks t e c) as [n ->]. apply iter_ack_fields. Qed.

Lemma cmd_wait_trace fuel dl e c e' c' r :
  ack_seen c = false ->
  cmd_wait fuel dl e c = Some (e', c', r) ->
  exists k, match r with
    | Acked => snd e' = snd e ++ repeat (Pump false) k ++ [Pump true]
    | Expired => snd e' = snd e ++ repeat (Pump false) k /\ ack_seen c' = false
                 /\ seq c' = seq c /\ suppress c' = suppress c
    end.
Proof.
  revert e c. induction fuel as [|fuel IH]; intros e c Hc; [done|]. cbn [cmd_wait].
  cbn [env_time traced_env]. destruct (env_time (fst e)) as [e1 now]. destruct (now <? dl).
  2:{ intros [= <- <- <-]. exists 0%nat. cbn. by rewrite app_nil_r. }
  cbn [env_events traced_env fst snd]. pose proof (events_fields 20 e1 c) as Hf.
  destruct (env_events 20 e1 c) as [e2 c2]. cbv zeta in Hf. cbn [snd] in Hf.
  destruct Hf as (F1 & F2 & F3 & F4).
  destruct (ack_seen c2) eqn:Ea.
  { intros [= <- <- <-]. exists 0%nat. done. }
  cbn [env_alive traced_env fst]. destruct (negb (env_alive e2)).
  { intros [= <- <- <-]. exists 1%nat. done. }
  intros Hw. destruct (IH _ _ Ea Hw) as [k Hk]. exists (S k). destruct r; cbn [snd repeat app] in *.
  - rewrite Hk. by rewrite <- app_assoc.
  - destruct Hk as (K1 & K2 & K3 & K4). rewrite K1, K3, K4. by rewrite <- app_assoc.
Qed.

Lemma unacked_snoc pkt n l rc k :
  0 <= rc -> unacked pkt n l -> unacked pkt (S n) (l ++ Send pkt rc :: repeat (Pump false) k).
Proof.
  intros Hrc Hl. induction Hl as [|n rc' k' l Hrc' Hl IH].
  - rewrite <- (app_nil_r ([] ++ _)). apply (unacked_more pkt 0); [done|constructor].
  - rewrite <- app_assoc. by apply unacked_more.
Qed.

Lemma cmd_attempts_trace left fuel e c id param e' c' b n l :
  snd e = l -> unacked (build_packet c id param) n l ->
  (n + left = UHSIF_CMD_RETRIES)%nat ->
  cmd_attempts left fuel e c id param = Some (e', c', b) ->
  exec_trace (build_packet c id param) b (snd e').
Proof.
  revert e c n l. induction left as [|left IH]; intros e c n l Hs Hu Hn; cbn [cmd_attempts].
  { intros [= <- <- <-]. rewrite Hs. eapply exec_gave_up; [done|]. unfold UHSIF_CMD_RETRIES in *. lia. }
  cbn [env_write traced_env]. destruct (env_write _ (fst e)) as [e1 rc].
  destruct (Z.ltb_spec rc 0) as [Hrc|Hrc].
  { intros [= <- <- <-]. cbn [snd]. rewrite Hs. eapply exec_write_failed; [done|lia|done]. }
  cbn [env_time traced_env fst snd]. destruct (env_time e1) as [e2 now].
  set (c1 := c <| suppress := false |> <| waiting := true |> <| ack_seen := false |>).
  destruct (cmd_wait _ _ _ c1) as [[[e3 c3] r]|] eqn:Ew; [|done].
  assert (Ha0 : ack_seen c1 = false) by reflexivity.
  destruct (cmd_wait_trace _ _ _ _ _ _ _ Ha0 Ew) as [k Hk]. cbn [snd] in Hk. rewrite Hs in Hk.
  destruct r.
  { intros [= <- <- <-]. rewrite Hk, <- !app_assoc.
    apply (exec_acked _ n l rc k); [done|lia|done]. }
  destruct Hk as (Hk & Ha & Hq & _). change (ack_seen (c3 <| waiting := false |>)) with (ack_seen c3).
  rewrite Ha. rewrite <- !app_assoc in Hk. cbn [app] in Hk.
  pose proof (unacked_snoc _ _ _ rc k Hrc Hu) as Hu'.
  destruct (negb (env_alive e3)).
  { intros [= <- <- <-]. rewrite Hk. eapply exec_gave_up; [exact Hu'|lia]. }
  assert (Hb : build_packet (c3 <| waiting := false |>) id param = build_packet c id param).
  { unfold build_packet. change (seq (c3 <| waiting := false |>)) with (seq c3). by rewrite Hq. }
  intros Hx. rewrite <- Hb. eapply (IH e3 (c3 <| waiting := false |>) (S n)); [exact Hk| |lia|exact Hx].
  by rewrite Hb.
Qed.

End Exec.

(** *** Invariants of the environment *)

(** An invariant of the world that writing, reading the clock and pumping keep
    holds after the command. *)
Section Invariant.
Context {E : Type} `{CmdEnv E} (J : E -> Prop).
Hypothesis J_write : forall pkt e, J e -> J (fst (env_write pkt e)).
Hypothesis J_time : forall e, J e -> J (fst (env_time e)).
Hypothesis J_events : forall t e c, J e -> J (fst (env_events t e c)).

Lemma cmd_wait_inv fuel dl e c e' c' r :
  J e -> cmd_wait fuel dl e c = Some (e', c', r) -> J e'.
Proof.
  revert e c. induction fuel as [|fuel IH]; intros e c He; [done|]. cbn [cmd_wait].
  pose proof (J_time e He) as H1. destruct (env_time e) as [e1 now]. cbn [fst] in H1.
  destruct (now <? dl); [|by intros [= <- <- <-]].
  pose proof (J_events 20 e1 c H1) as H2. destruct (env_events 20 e1 c) as [e2 c2]. cbn [fst] in H2.
  destruct (ack_seen c2); [by intros [= <- <- <-]|].
  destruct (negb _); [by intros [= <- <- <-]|]. by apply IH.
Qed.

Lemma cmd_exec_inv fuel e c id param e' c' b :
  J e -> cmd_exec fuel e c id param = Some (e', c', b) -> J e'.
Proof.
  unfold cmd_exec. generalize UHSIF_CMD_RETRIES as left. intros left.
  revert e c. induction left as [|left IH]; intros e c He; cbn [cmd_attempts]; [by intros [= <- <- <-]|].
  pose proof (J_write (build_packet c id param) e He) as H1.
  destruct (env_write _ e) as [e1 rc]. cbn [fst] in H1.
  destruct (rc <? 0); [by intros [= <- <- <-]|]. cbv zeta.
  pose proof (J_time e1 H1) as H2. destruct (env_time e1) as [e2 now]. cbn [fst] in H2.
  destruct (cmd_wait _ _ _ _) as [[[e3 c3] r]|] eqn:Ew; [|done].
  apply cmd_wait_inv in Ew; [|done].
  destruct r; [by intros [= <- <- <-]|].
  destruct (ack_seen _); [by intros [= <- <- <-]|].
  destruct (negb _); [by intros [= <- <- <-]|]. by apply IH.
Qed.
End Invariant.

(** *** Termination *)

Section Termination.
Context {E : Type} `{CmdEnvLaws E}.
Implicit Types (e : E) (c : cmd).

Lemma cmd_wait_total fuel dl e c :
  (Z.to_nat (dl - clock e) + supply e < fuel)%nat ->
  exists e' c' r, cmd_wait fuel dl e c = Some (e', c', r) /\ (supply e' <= supply e)%nat.
Proof.
  revert e c. induction fuel as [|fuel IH]; intros e c Hf; [lia|]. cbn [cmd_wait].
  pose proof (time_clock e) as Ht. pose proof (time_supply e) as Hts.
  destruct (env_time e) as [e1 now]. cbn [fst snd] in *.
  destruct (Z.ltb_spec now dl) as [Hn|Hn]; [|by exists e1, c, Expired].
  pose proof (events_progress 20 e1 c) as (P1 & P2 & P3).
  destruct (env_events 20 e1 c) as [e2 c2]. cbn [fst snd] in *.
  destruct (ack_seen c2) eqn:Ea; [by do 3 eexists; split; [done|lia]|].
  destruct (env_alive e2) eqn:El; cbn [negb]; [|by do 3 eexists; split; [done|lia]].
  destruct (IH e2 c2) as (e' & c' & r & Hw & Hs).
  { destruct P3 as [P3|[P3|[P3|P3]]]; [done|done|lia|lia]. }
  exists e', c', r. split; [exact Hw|lia].
Qed.

(** Command execution terminates: once the loop bound covers the 200 ms window
    and what the transport can deliver without using up time, the command
    returns, and a failed execution that got its packet out is recorded as
    fatal. *)
Theorem cmd_exec_total fuel e c id param :
  (200 + supply e < fuel)%nat ->
  exists e' c' b, cmd_exec fuel e c id param = Some (e', c', b)
    /\ (b = false -> fatal c' = true \/ exists e0 rc, env_write (build_packet c' id param) e0 = (e', rc) /\ rc < 0).
Proof.
  intros Hf. unfold cmd_exec. revert e c Hf. generalize UHSIF_CMD_RETRIES as left.
  induction left as [|left IH]; intros e c Hf; cbn [cmd_attempts].
  { do 3 eexists. split; [done|]. by left. }
  pose proof (write_supply (build_packet c id param) e) as Hw.
  destruct (env_write _ e) as [e1 rc] eqn:Ew. cbn [fst] in Hw.
  destruct (Z.ltb_spec rc 0) as [Hrc|Hrc].
  { do 3 eexists. split; [done|]. intros _. right. by exists e, rc. }
  pose proof (time_clock e1) as Ht. pose proof (time_supply e1) as Hts.
  destruct (env_time e1) as [e2 now]. cbn [fst snd] in *.
  set (c1 := c <| suppress := false |> <| waiting := true |> <| ack_seen := false |>).
  destruct (cmd_wait_total fuel (now + UHSIF_CMD_TIMEOUT_MS) e2 c1) as (e3 & c3 & r & -> & Hs);
    [unfold UHSIF_CMD_TIMEOUT_MS; lia|].
  destruct r; [by do 3 eexists|].
  destruct (ack_seen _); [by do 3 eexists|].
  destruct (negb _); [do 3 eexists; split; [done|]; by left|]. apply IH. lia.
Qed.
End Termination.

(** *** A scripted transport

    Each pump takes 20 ms and delivers the next scripted number of ACKs. *)

Record script := mk_script { sc_now : Z; sc_replies : list nat; sc_up : bool }.

#[export] Instance script_env : CmdEnv script := {
  env_write p e := (e, if sc_up e then 0 else -1);
  env_events t e c :=
    match sc_replies e with
    | [] => (mk_script (sc_now e + 20) [] (sc_up e), c)
    | n :: l => (mk_script (sc_now e + 20) l (sc_up e), Nat.iter n cmd_ack_event c)
    end;
  env_alive := sc_up;
  env_time e := (e, sc_now e);
}.

#[export] Instance script_laws : CmdEnvLaws script.
Proof.
  refine {| clock := sc_now; supply e := length (sc_replies e) |}.
  - intros t e c. cbn. destruct (sc_replies e) as [|n l]; [by exists 0%nat|by exists n].
  - intros e. cbn. lia.
  - intros e. cbn. lia.
  - intros t e c. cbn. destruct (sc_replies e) as [|n l]; cbn; lia.
  - intros p e. cbn. lia.
Defined.

Lemma build_packet_roundtrip_witness :
  read_command (build_packet (cmd_init <| seq := 7 |>) UHSIF_CMD_SPEED 2) = Some (7, 3, 2).
Proof. apply build_packet_roundtrip; cbn; lia. Defined.


Lemma cmd_exec_total_witness :
  exists e' c', cmd_exec 300 (mk_script 0 [] true) cmd_init 2 1 = Some (e', c', false) /\ fatal c' = true.
Proof.
  destruct (cmd_exec_total 300 (mk_script 0 [] true) cmd_init 2 1) as (e' & c' & b & Ex & Hf);
    [cbn; lia|].
  assert (Hb : b = false) by (revert Ex; vm_compute; intros [= _ _ <-]; reflexivity).
  exists e', c'. rewrite <- Hb. split; [exact Ex|].
  destruct (Hf Hb) as [H|(e0 & rc & H & _)]; [exact H|].
  revert Ex. vm_compute. intros [= _ <- _]. reflexivity.
Defined.
