(* ===== verification/Packet.v ===== *)
(** * Frame and interpret layer (src/packet.c)

    The byte-driven state machine that slices the capture byte stream into
    frames, synthesizes events and folds empty frames.  Everything it writes goes
    through the [PcapngOut] interface, which the pcapng writer and a plain record
    log implement. *)

From Stdlib Require Import String.
From S2P Require Import Prelude Format Pcapng.
Local Open Scope list_scope.

(** What the frame layer asks of the pcapng writer: [pcapng_write_epb],
    [pcapng_write_info] and [pcapng_flush]. *)
Class PcapngOut (W : Type) := {
  out_epb : W -> Z -> list Z -> Z -> W;
  out_info : W -> Z -> list Z -> Z -> W;
  out_flush : W -> W;
}.

#[export] Instance pcapng_out {S} `{ByteSink S} : PcapngOut (pcapng S) := {
  out_epb := pcapng_write_epb;
  out_info := pcapng_write_info;
  out_flush := pcapng_flush;
}.

(** The log of the records in the order they are written. *)
#[export] Instance log_out : PcapngOut (list record) := {
  out_epb l ts d n := l ++ [Packet ts (take (Z.to_nat n) d)];
  out_info l ts s n := l ++ [Info ts (take (Z.to_nat n) s)];
  out_flush l := l;
}.

Definition CaptureSpeed_LS : Z := 0.
Definition CaptureSpeed_FS : Z := 1.
Definition CaptureSpeed_HS : Z := 2.
Definition CaptureSpeed_Reset : Z := 3.

Definition CaptureTrigger_Disabled : Z := 0.
Definition CaptureTrigger_Low : Z := 1.
Definition CaptureTrigger_High : Z := 2.
Definition CaptureTrigger_Falling : Z := 3.
Definition CaptureTrigger_Rising : Z := 4.

Definition TIME_US : Z := 1000.
Definition TIME_MS : Z := 1000 * TIME_US.
Definition UPDATE_INTERVAL : Z := 2000 * TIME_MS.

Definition DATA_HEADER_SIZE : Z := 7.
Definition STATUS_HEADER_SIZE : Z := 4.
Definition DATA_BUF_SIZE : nat := Z.to_nat 2048.
Definition FOLD_BUF_SIZE : Z := 256.
Definition MAX_DATA_SIZE : Z := 1280.

Definition HEADER_STATUS : Z := 0x80.
Definition HEADER_TOGGLE : Z := 0x40.
Definition HEADER_ZERO : Z := 0x20.
Definition HEADER_TS_OVERFLOW : Z := 0x10.
Definition HEADER_OVERFLOW : Z := 0x08.
Definition HEADER_CRC_ERROR : Z := 0x10.
Definition HEADER_DATA_ERROR : Z := 0x20.
Definition HEADER_LS_MASK : Z := 0x0f.
Definition HEADER_VBUS : Z := 0x10.
Definition HEADER_TRIGGER : Z := 0x20.
Definition HEADER_SPEED_OFFS : Z := 6.
Definition HEADER_SPEED_MASK : Z := 0x03.

Definition PID_SOF : Z := 0xa5.
Definition PID_IN : Z := 0x69.
Definition PID_NAK : Z := 0x5a.

Definition FOLD_LIMIT_LS_FS : Z := 1000.
Definition FOLD_LIMIT_HS : Z := 8000.
Definition MIN_KEEPALIVE_DURATION : Z := 1000.
Definition MAX_KEEPALIVE_DURATION : Z := 2000.
Definition LS_INVALID : Z := -1.
Definition LS_SE0 : Z := 0.
Definition LS_J3 : Z := 12.
Definition LS_DELTA_THRESHOLD : Z := 10 * TIME_MS.

Record packet_opts := mk_opts {
  fold_empty : bool;
  exclude_line_state : bool;
  capture_speed : Z;
  capture_trigger : Z;
  capture_limit : Z;       (* s64, -1 for unlimited *)
}.
#[export] Instance opts_settable : Settable packet_opts := fun o =>
  mk_opts (fold_empty o) (exclude_line_state o) (capture_speed o) (capture_trigger o)
    (capture_limit o).

Record CaptureFrame := mk_frame { f_ts : Z; f_size : Z; f_data : list Z }.
#[export] Instance frame_settable : Settable CaptureFrame := fun f =>
  mk_frame (f_ts f) (f_size f) (f_data f).
#[export] Instance frame_inhabited : Inhabited CaptureFrame := populate (mk_frame 0 0 []).

Record packet (W : Type) := mk_packet {
  opts : packet_opts;
  out : W;
  done : bool;
  capture_data : list Z;
  capture_data_ptr : Z;
  capture_size : Z;
  capture_header : bool;
  capture_status : bool;
  capture_toggle : Z;
  capture_ls : Z;
  capture_vbus : Z;
  capture_trigger_input : Z;
  capture_speed_in : Z;
  capture_enabled : bool;
  capture_ts_int : Z;
  capture_ts : Z;
  capture_last_ts : Z;
  capture_overflow : bool;
  capture_crc_error : bool;
  capture_data_error : bool;
  capture_duration : Z;
  capture_fold_buf : list CaptureFrame;
  capture_fold_buf_ptr : Z;
  capture_fold_count : Z;
  capture_saved_ls : Z;
  capture_saved_ts : Z;
}.
Arguments mk_packet {W}.
Arguments opts {W}. Arguments out {W}. Arguments done {W}. Arguments capture_data {W}.
Arguments capture_data_ptr {W}. Arguments capture_size {W}. Arguments capture_header {W}.
Arguments capture_status {W}. Arguments capture_toggle {W}. Arguments capture_ls {W}.
Arguments capture_vbus {W}. Arguments capture_trigger_input {W}.
Arguments capture_speed_in {W}. Arguments capture_enabled {W}. Arguments capture_ts_int {W}.
Arguments capture_ts {W}. Arguments capture_last_ts {W}. Arguments capture_overflow {W}.
Arguments capture_crc_error {W}. Arguments capture_data_error {W}.
Arguments capture_duration {W}. Arguments capture_fold_buf {W}.
Arguments capture_fold_buf_ptr {W}. Arguments capture_fold_count {W}.
Arguments capture_saved_ls {W}. Arguments capture_saved_ts {W}.
#[export] Instance packet_settable W : Settable (packet W) := fun p =>
  mk_packet
    (opts p) (out p) (done p) (capture_data p) (capture_data_ptr p) (capture_size p)
    (capture_header p) (capture_status p) (capture_toggle p) (capture_ls p) (capture_vbus p)
    (capture_trigger_input p) (capture_speed_in p) (capture_enabled p) (capture_ts_int p)
    (capture_ts p) (capture_last_ts p) (capture_overflow p) (capture_crc_error p)
    (capture_data_error p) (capture_duration p) (capture_fold_buf p) (capture_fold_buf_ptr p)
    (capture_fold_count p) (capture_saved_ls p) (capture_saved_ts p).

(** ** Operations *)

Section Packet.
Context {W : Type} `{PcapngOut W}.
Implicit Type p : packet W.

Definition effective_speed p : Z :=
  if (CaptureSpeed_LS =? capture_speed_in p)
     && negb (CaptureSpeed_Reset =? capture_speed (opts p))
     && negb (CaptureSpeed_LS =? capture_speed (opts p))
  then capture_speed (opts p)
  else capture_speed_in p.

Definition write_packet p (ts : Z) (data : list Z) (size : Z) : packet W :=
  p <| out := out_epb (out p) ts data size |> <| capture_last_ts := ts |>.

(** The elapsed time [sprintf]s of [line_state_event]. *)
Definition delta_text (delta : Z) : list Z :=
  if delta <? TIME_US then cstr " (" ++ fixed 2 (f32 (delta, 1)) ++ cstr " ns)"
  else if delta <? TIME_MS then
    cstr " (" ++ fixed 2 (f32 (rdiv (f32 (delta, 1)) TIME_US)) ++ cstr " us)"
  else cstr " (" ++ fixed 2 (f32 (rdiv (f32 (delta, 1)) TIME_MS)) ++ cstr " ms)".

(** The message [line_state_event] builds. *)
Definition line_state_text p (dp dm delta : Z) : list Z :=
  cstr "Line state: "
  ++ (if (dp =? 0) && (dm =? 0) then cstr "SE0"
      else if dp =? 0 then
        if CaptureSpeed_LS =? effective_speed p then cstr "J" else cstr "K"
      else if dm =? 0 then
        if CaptureSpeed_LS =? effective_speed p then cstr "K" else cstr "J"
      else cstr "Undefined (DP=" ++ dec dp ++ cstr " / DM=" ++ dec dm ++ cstr ")")
  ++ (if delta <? LS_DELTA_THRESHOLD then delta_text delta else []).

(** [line_state_event], given the [capture_info] it calls. *)
Definition line_state_event_with
    (info : packet W -> Z -> list Z -> option (packet W)) p : option (packet W) :=
  let dp := Z.land (Z.shiftr (capture_saved_ls p) 0) 3 in
  let dm := Z.land (Z.shiftr (capture_saved_ls p) 2) 3 in
  let delta := s32 (capture_ts p - capture_saved_ts p) in
  if LS_INVALID =? capture_saved_ls p then Some p
  else
    let p := p <| capture_saved_ls := LS_INVALID |> in
    if exclude_line_state (opts p) then Some p
    else info p (capture_saved_ts p) (line_state_text p dp dm delta).

(** [capture_info] and [line_state_event] call each other; [None] is fuel that ran
    out, which [capture_info_total] excludes. *)
Fixpoint capture_info_n (fuel : nat) p (ts : Z) (str : list Z) : option (packet W) :=
  match fuel with
  | O => None
  | S fuel =>
      let len := Z.of_nat (length str) in
      let len := if 511 <? len then 511 else len in
      match line_state_event_with (capture_info_n fuel) p with
      | None => None
      | Some p =>
          let p := p <| out := out_info (out p) ts str len |> in
          Some (p <| capture_last_ts := ts |>)
      end
  end.

Definition capture_info p (ts : Z) (str : list Z) : packet W :=
  default p (capture_info_n 2 p ts str).
Definition line_state_event p : packet W :=
  default p (line_state_event_with (capture_info_n 1) p).

Definition write_keepalive p (ts : Z) : packet W := capture_info p ts (cstr "Keep-alive").

Definition timeout_event p : packet W :=
  if capture_enabled p then capture_info p (capture_ts p) (cstr "Periodic update") else p.

(** The body of the [for] loop of [stop_folding]. *)
Definition unfold_frame p (i : nat) : packet W :=
  let f := capture_fold_buf p !!! i in
  let ts := if f_ts f <? capture_last_ts p then capture_last_ts p else f_ts f in
  if f_size f <? 0 then write_keepalive p ts else write_packet p ts (f_data f) (f_size f).

Definition stop_folding p : packet W :=
  let count := capture_fold_count p in
  let ptr := capture_fold_buf_ptr p in
  if (0 =? count) && (0 =? ptr) then p
  else
    let p := p <| capture_fold_count := 0 |> <| capture_fold_buf_ptr := 0 |> in
    let p := fold_left unfold_frame (seq 0 (Z.to_nat ptr)) p in
    if count =? 1 then capture_info p (capture_ts p) (cstr "Folded empty frame")
    else if 1 <? count then
      capture_info p (capture_ts p) (cstr "Folded " ++ dec count ++ cstr " empty frames")
    else p.

(** Stores outside [capture_fold_buf] are [None]. *)
Definition fold_packet p (ts : Z) (data : list Z) (size : Z) : option (packet W) :=
  let f := capture_fold_buf p !!! Z.to_nat (capture_fold_buf_ptr p) in
  d ← copy_in (f_data f) data size;
  b ← set_at (capture_fold_buf p) (capture_fold_buf_ptr p) (mk_frame ts size d);
  Some (p <| capture_fold_buf := b |> <| capture_fold_buf_ptr := capture_fold_buf_ptr p + 1 |>).

Definition fold_keepalive p (ts delta : Z) : option (packet W) :=
  let f := capture_fold_buf p !!! Z.to_nat (capture_fold_buf_ptr p) in
  b ← set_at (capture_fold_buf p) (capture_fold_buf_ptr p) (mk_frame ts (- delta) (f_data f));
  Some (p <| capture_fold_buf := b |> <| capture_fold_buf_ptr := capture_fold_buf_ptr p + 1 |>).

Definition check_capture_limit p : packet W :=
  let p := p <| opts := (opts p) <| capture_limit := s64 (capture_limit (opts p) - 1) |> |> in
  if capture_limit (opts p) =? 0 then
    let p := capture_info p (capture_ts p) (cstr "Capture limit reached") in
    p <| done := true |>
  else p.

Definition keepalive_event p (ts delta : Z) : option (packet W) :=
  if negb (capture_enabled p) then Some p
  else
    p ← (if negb (fold_empty (opts p)) then Some (write_keepalive p ts)
         else if negb (capture_fold_buf_ptr p =? 0) then
           let p := p <| capture_fold_count := capture_fold_count p + 1 |>
                      <| capture_fold_buf_ptr := 0 |> in
           let p := if capture_fold_count p =? FOLD_LIMIT_LS_FS then stop_folding p else p in
           fold_keepalive p ts delta
         else fold_keepalive p ts delta);
    Some (check_capture_limit p).

(** [None] is the failed [os_assert] on an unknown trigger mode. *)
Definition trigger_gate p (trigger : Z) : option bool :=
  let t := capture_trigger (opts p) in
  if CaptureTrigger_Disabled =? t then Some true
  else if CaptureTrigger_Low =? t then Some (trigger =? 0)
  else if CaptureTrigger_High =? t then Some (trigger =? 1)
  else if CaptureTrigger_Falling =? t then
    Some (capture_enabled p || (trigger =? 0) && (capture_trigger_input p =? 1))
  else if CaptureTrigger_Rising =? t then
    Some (capture_enabled p || (trigger =? 1) && (capture_trigger_input p =? 0))
  else None.

(** The four parts of [status_event]. *)
Definition status_trigger p (trigger : Z) : option (packet W) :=
  if capture_trigger_input p =? trigger then Some p
  else
    let was_enabled := capture_enabled p in
    match trigger_gate p trigger with
    | None => None
    | Some en =>
        let p := p <| capture_enabled := en |> in
        let p := p <| capture_trigger_input := trigger |> in
        let p := capture_info p (capture_ts p)
                   (cstr "Trigger input = " ++ dec (capture_trigger_input p)) in
        Some (if capture_enabled p && negb was_enabled
              then capture_info p (capture_ts p) (cstr "Starting capture")
              else if was_enabled && negb (capture_enabled p)
              then capture_info p (capture_ts p) (cstr "Waiting for a trigger")
              else p)
    end.

Definition status_vbus p (vbus : Z) : packet W :=
  if capture_vbus p =? vbus then p
  else
    let p := p <| capture_vbus := vbus |> in
    capture_info p (capture_ts p)
      (cstr "VBUS " ++ if capture_vbus p =? 0 then cstr "OFF" else cstr "ON").

Definition speed_name (speed : Z) : list Z :=
  if speed =? 0 then cstr "Low-Speed"
  else if speed =? 1 then cstr "Full-Speed"
  else if speed =? 2 then cstr "High-Speed"
  else [].

Definition status_speed p (speed : Z) : packet W :=
  if capture_speed_in p =? speed then p
  else
    let p := p <| capture_speed_in := speed |> in
    if capture_enabled p then
      if CaptureSpeed_Reset =? speed
      then capture_info p (capture_ts p) (cstr "--- Bus Reset ---")
      else capture_info p (capture_ts p)
             (cstr "Detected speed: " ++ speed_name (capture_speed_in p))
    else p.

Definition status_ls p (ls : Z) : option (packet W) :=
  if capture_ls p =? ls then Some p
  else
    let delta := s32 (u64 (capture_ts p - capture_saved_ts p)) in
    let p := p <| capture_ls := ls |> in
    if (CaptureSpeed_LS =? effective_speed p) && (LS_SE0 =? capture_saved_ls p)
       && (LS_J3 =? ls) && (MIN_KEEPALIVE_DURATION <? delta) && (delta <? MAX_KEEPALIVE_DURATION)
    then
      let p := p <| capture_saved_ls := LS_INVALID |> in
      keepalive_event p (capture_saved_ts p) delta
    else
      let p := line_state_event p in
      let p := p <| capture_saved_ls := ls |> in
      Some (p <| capture_saved_ts := capture_ts p |>).

Definition status_event p (ls vbus trigger speed : Z) : option (packet W) :=
  p ← status_trigger p trigger;
  let p := status_vbus p vbus in
  let p := status_speed p speed in
  status_ls p ls.

(** The middle of [data_event]: how the frame is written or folded. *)
Definition data_fold p (data_error allow_sof : bool) (pid : Z) : option (packet W) :=
  if data_error || negb (fold_empty (opts p)) then
    Some (write_packet p (capture_ts p) (capture_data p) (capture_size p))
  else if negb (capture_fold_buf_ptr p =? 0) then
    if (PID_IN =? pid) || (PID_NAK =? pid) then
      fold_packet p (capture_ts p) (capture_data p) (capture_size p)
    else if (PID_SOF =? pid) && allow_sof then
      let p := p <| capture_fold_count := capture_fold_count p + 1 |>
                 <| capture_fold_buf_ptr := 0 |> in
      let p :=
        if capture_fold_count p
           =? (if CaptureSpeed_HS =? effective_speed p then FOLD_LIMIT_HS else FOLD_LIMIT_LS_FS)
        then stop_folding p else p in
      fold_packet p (capture_ts p) (capture_data p) (capture_size p)
    else
      let p := stop_folding p in
      Some (write_packet p (capture_ts p) (capture_data p) (capture_size p))
  else if (PID_SOF =? pid) && allow_sof then
    fold_packet p (capture_ts p) (capture_data p) (capture_size p)
  else Some (write_packet p (capture_ts p) (capture_data p) (capture_size p)).

Definition data_event p : option (packet W) :=
  let data_error := capture_crc_error p || capture_data_error p in
  let allow_sof := negb (CaptureSpeed_LS =? effective_speed p) in
  let pid := capture_data p !!! 0%nat in
  if negb (capture_enabled p) then Some p
  else
    let p := line_state_event p in
    let p :=
      if capture_overflow p || data_error || (FOLD_BUF_SIZE =? capture_fold_buf_ptr p)
      then stop_folding p else p in
    let p :=
      if capture_overflow p
      then capture_info p (capture_ts p) (cstr "Hardware buffer overflow") else p in
    let p :=
      if capture_data_error p
      then capture_info p (capture_ts p) (cstr "USB PHY error") else p in
    p ← data_fold p data_error allow_sof pid;
    Some (check_capture_limit p).

Definition hex_dump (data : list Z) : list Z := concat (map (fun b => hex2 b ++ cstr " ") data).

Definition desync_error p : packet W :=
  let p := capture_info p (capture_ts p)
             (cstr "Error: frame desynchronization, resynchronizing") in
  let dump := Z.min (capture_size p) 84 in
  let header := hex_dump (take (Z.to_nat dump) (capture_data p)) in
  let p := capture_info p (capture_ts p) (cstr "Packet header: " ++ header) in
  p <| capture_size := 0 |> <| capture_data_ptr := 0 |> <| capture_header := true |>
    <| capture_status := false |>.

Definition check_header p (toggle zero : Z) : packet W :=
  if (toggle =? capture_toggle p) && (0 =? zero) then p
  else
    let p :=
      if negb (toggle =? capture_toggle p)
      then capture_info p (capture_ts p)
             (cstr "Error: received toggle value " ++ dec toggle ++ cstr ", expected "
              ++ dec (capture_toggle p))
      else p in
    let p :=
      if negb (zero =? 0)
      then capture_info p (capture_ts p) (cstr "Error: zero bit in the header is not zero")
      else p in
    desync_error p.

Definition check_data_size p (size : Z) : packet W :=
  if (DATA_HEADER_SIZE <=? size) && (size <=? MAX_DATA_SIZE) then p
  else
    let p := capture_info p (capture_ts p)
               (cstr "Error: invalid data size (" ++ dec size ++ cstr ")") in
    desync_error p.

(** The timestamp part of a complete header: unwrap, convert, periodic update. *)
Definition header_time p (ts toggle : Z) : packet W :=
  let p :=
    if has (capture_data p !!! 0%nat) HEADER_TS_OVERFLOW
    then p <| capture_ts_int := u64 (capture_ts_int p + 0x100000) |> else p in
  let p := p <| capture_ts := u64 (Z.lor (capture_ts_int p) ts * 100) / 6 |> in
  let p := p <| capture_toggle := 1 - toggle |> in
  if UPDATE_INTERVAL <? s64 (u64 (capture_ts p - capture_last_ts p)) then timeout_event p else p.

(** The [else // data] branch of a complete header. *)
Definition header_data p : packet W :=
  let d i := capture_data p !!! i in
  let size := Z.lor (Z.shiftl (Z.land (d 3%nat) 0x7) 8) (d 4%nat) in
  if (size <? DATA_HEADER_SIZE) || (MAX_DATA_SIZE <? size) then check_data_size p size
  else
    let p := p <| capture_size := size - DATA_HEADER_SIZE |> in
    let p := p <| capture_overflow := has (d 3%nat) HEADER_OVERFLOW |> in
    let p := p <| capture_crc_error := has (d 3%nat) HEADER_CRC_ERROR |> in
    let p := p <| capture_data_error := has (d 3%nat) HEADER_DATA_ERROR |> in
    let p := p <| capture_duration := Z.lor (Z.shiftl (d 5%nat) 8) (d 6%nat) |> in
    let p := p <| capture_header := (0 =? capture_size p) |> in
    p <| capture_data_ptr := 0 |>.

Definition header_status p : option (packet W) :=
  let b := capture_data p !!! 3%nat in
  let ls := Z.land b HEADER_LS_MASK in
  let vbus := if has b HEADER_VBUS then 1 else 0 in
  let trigger := if has b HEADER_TRIGGER then 1 else 0 in
  let speed := Z.land (Z.shiftr b HEADER_SPEED_OFFS) HEADER_SPEED_MASK in
  p ← status_event p ls vbus trigger speed;
  Some (p <| capture_data_ptr := 0 |>).

(** The [if (p->capture_header)] branch of [capture_sm]. *)
Definition header_complete p : option (packet W) :=
  let d i := capture_data p !!! i in
  let ts := Z.lor (Z.lor (Z.shiftl (Z.land (d 0%nat) 0xf) 16) (Z.shiftl (d 1%nat) 8)) (d 2%nat) in
  let toggle := if has (d 0%nat) HEADER_TOGGLE then 1 else 0 in
  let zero := if has (d 0%nat) HEADER_ZERO then 1 else 0 in
  let p := check_header p toggle zero in
  let p := header_time p ts toggle in
  if capture_status p then header_status p else Some (header_data p).

Definition capture_sm p (byte : Z) : option (packet W) :=
  let p :=
    if capture_header p && (0 =? capture_data_ptr p) then
      let p := p <| capture_status := (0 =? Z.land byte HEADER_STATUS) |> in
      p <| capture_size := if capture_status p then STATUS_HEADER_SIZE else DATA_HEADER_SIZE |>
    else p in
  d ← set_at (capture_data p) (capture_data_ptr p) byte;
  let p := p <| capture_data := d |> <| capture_data_ptr := capture_data_ptr p + 1 |> in
  if capture_data_ptr p <? capture_size p then Some p
  else if capture_header p then header_complete p
  else
    let p := p <| capture_header := true |> in
    p ← data_event p;
    Some (p <| capture_data_ptr := 0 |>).

Definition packet_start p : packet W := {|
  opts := opts p; out := out p; done := false; capture_data := capture_data p;
  capture_data_ptr := 0; capture_size := 0; capture_header := true; capture_status := false;
  capture_toggle := 0; capture_ls := (-1); capture_vbus := (-1); capture_trigger_input := (-1);
  capture_speed_in := (-1); capture_enabled := false; capture_ts_int := 0; capture_ts := 0;
  capture_last_ts := 0; capture_overflow := false; capture_crc_error := false;
  capture_data_error := false; capture_duration := 0; capture_fold_buf := capture_fold_buf p;
  capture_fold_buf_ptr := 0; capture_fold_count := 0; capture_saved_ls := LS_INVALID;
  capture_saved_ts := 0
|}.

(** [os_alloc] returns zeroed memory. *)
Definition packet_new (o : packet_opts) (w : W) : packet W :=
  packet_start
    (mk_packet o w false (replicate DATA_BUF_SIZE 0) 0 0 false false 0 0 0 0 0 false 0 0 0
       false false false 0
       (replicate (Z.to_nat FOLD_BUF_SIZE) (mk_frame 0 0 (replicate DATA_BUF_SIZE 0))) 0 0 0 0).

Definition packet_announce p : packet W :=
  let p := p <| done := false |> in
  let p :=
    if CaptureTrigger_Disabled =? capture_trigger (opts p) then
      let p := capture_info p 0 (cstr "Starting capture") in
      p <| capture_enabled := true |>
    else capture_info p (capture_ts p) (cstr "Waiting for a trigger") in
  p <| out := out_flush (out p) |>.

Fixpoint packet_feed_loop p (data : list Z) : option (packet W) :=
  match data with
  | [] => Some p
  | b :: data =>
      p ← capture_sm p b;
      if done p then Some p else packet_feed_loop p data
  end.

Definition packet_feed p (data : list Z) : option (packet W) :=
  if done p then Some p else packet_feed_loop p data.

Definition packet_rsync p : packet W :=
  capture_info p (capture_ts p) (cstr "Error: USB link packet loss, resynchronized").

Definition packet_info p (msg : list Z) : packet W := capture_info p (capture_ts p) msg.

Definition packet_stop_info p (reason : list Z) : packet W :=
  capture_info p (capture_ts p) (cstr "Capture stopped: " ++ reason).

Definition packet_finished p : bool := done p.

End Packet.

(** ** The mutual recursion of [capture_info] and [line_state_event] *)

Section Info.
Context {W : Type} `{PcapngOut W}.
Implicit Type p : packet W.

(** The record a pending line state gives, and the sink after it. *)
Definition flushed p : W :=
  if (LS_INVALID =? capture_saved_ls p) || exclude_line_state (opts p) then out p
  else
    let str := line_state_text p (Z.land (Z.shiftr (capture_saved_ls p) 0) 3)
                 (Z.land (Z.shiftr (capture_saved_ls p) 2) 3)
                 (s32 (capture_ts p - capture_saved_ts p)) in
    out_info (out p) (capture_saved_ts p) str (Z.min (Z.of_nat (length str)) 511).

Definition flushed_ts p : Z :=
  if (LS_INVALID =? capture_saved_ls p) || exclude_line_state (opts p) then capture_last_ts p
  else capture_saved_ts p.

(** [p] with a sink and a last timestamp, and no pending line state. *)
Definition noted p (w : W) (ts : Z) : packet W :=
  p <| capture_saved_ls := LS_INVALID |> <| out := w |> <| capture_last_ts := ts |>.

Lemma min_511 n : (if 511 <? n then 511 else n) = Z.min n 511.
Proof. destruct (Z.ltb_spec 511 n); lia. Qed.

Lemma noted_idem p : LS_INVALID = capture_saved_ls p -> noted p (out p) (capture_last_ts p) = p.
Proof. intros E. destruct p. cbn in *. by rewrite <- E. Qed.

Lemma line_state_event_with_n n p :
  line_state_event_with (capture_info_n (S n)) p = Some (noted p (flushed p) (flushed_ts p)).
Proof.
  unfold line_state_event_with, flushed, flushed_ts.
  destruct (Z.eqb_spec LS_INVALID (capture_saved_ls p)) as [E|E]; cbn [orb].
  { by rewrite noted_idem. }
  change (opts (p <| capture_saved_ls := LS_INVALID |>)) with (opts p).
  destruct (exclude_line_state (opts p)); [by destruct p|].
  cbn [capture_info_n]. unfold line_state_event_with at 1.
  change (capture_saved_ls (p <| capture_saved_ls := LS_INVALID |>)) with LS_INVALID.
  cbn [Z.eqb LS_INVALID Pos.eqb]. by rewrite min_511.
Qed.

Lemma capture_info_n_S n p ts str :
  capture_info_n (S n) p ts str
  = match line_state_event_with (capture_info_n n) p with
    | None => None
    | Some p => Some (p <| out := out_info (out p) ts str (Z.min (Z.of_nat (length str)) 511) |>
                        <| capture_last_ts := ts |>)
    end.
Proof. cbn [capture_info_n]. by rewrite min_511. Qed.

Lemma capture_info_n_eq n p ts str :
  capture_info_n (S (S n)) p ts str
  = Some (noted p (out_info (flushed p) ts str (Z.min (Z.of_nat (length str)) 511)) ts).
Proof.
  by rewrite capture_info_n_S, line_state_event_with_n.
Qed.

Lemma capture_info_eq p ts str :
  capture_info p ts str
  = noted p (out_info (flushed p) ts str (Z.min (Z.of_nat (length str)) 511)) ts.
Proof. unfold capture_info. by rewrite capture_info_n_eq. Qed.

Lemma line_state_event_eq p : line_state_event p = noted p (flushed p) (flushed_ts p).
Proof. unfold line_state_event. by rewrite line_state_event_with_n. Qed.

(** Two nested calls are the deepest [capture_info] and [line_state_event] go:
    from any state and for any larger bound the calls return, and with the same
    state. *)
Theorem capture_info_total n p ts str :
  capture_info_n (S (S n)) p ts str = Some (capture_info p ts str)
  /\ line_state_event_with (capture_info_n (S n)) p = Some (line_state_event p).
Proof.
  by rewrite capture_info_n_eq, capture_info_eq, line_state_event_with_n, line_state_event_eq.
Qed.

Lemma flushed_noted p w ts : flushed (noted p w ts) = w.
Proof. reflexivity. Qed.
Lemma flushed_ts_noted p w ts : flushed_ts (noted p w ts) = ts.
Proof. reflexivity. Qed.
Lemma noted_noted p w ts w' ts' : noted (noted p w ts) w' ts' = noted p w' ts'.
Proof. reflexivity. Qed.
End Info.

#[global] Arguments capture_info : simpl never.
#[global] Arguments line_state_event : simpl never.
#[global] Arguments noted : simpl never.
#[export] Hint Rewrite @capture_info_eq @line_state_event_eq @flushed_noted @flushed_ts_noted
  @noted_noted : sniffer.

(** ** What writing a record changes *)

Definition touched {W} (p : packet W) (w : W) (ts ls : Z) : packet W :=
  p <| out := w |> <| capture_last_ts := ts |> <| capture_saved_ls := ls |>.

#[global] Arguments touched : simpl never.

Section Touched.
Context {W : Type} `{PcapngOut W}.
Implicit Type p : packet W.

Lemma touched_id p : touched p (out p) (capture_last_ts p) (capture_saved_ls p) = p.
Proof. by destruct p. Qed.

Lemma touched_touched p w ts ls w' ts' ls' :
  touched (touched p w ts ls) w' ts' ls' = touched p w' ts' ls'.
Proof. reflexivity. Qed.

Lemma capture_info_touched p ts str : exists w, capture_info p ts str = touched p w ts LS_INVALID.
Proof. rewrite capture_info_eq. by eexists. Qed.

Lemma line_state_touched p :
  exists w ts, line_state_event p = touched p w ts LS_INVALID.
Proof. rewrite line_state_event_eq. by do 2 eexists. Qed.

Lemma unfold_frame_touched p i : exists w ts ls, unfold_frame p i = touched p w ts ls.
Proof.
  unfold unfold_frame.
  set (ts := if f_ts (capture_fold_buf p !!! i) <? capture_last_ts p then _ else _). clearbody ts.
  case_match.
  - unfold write_keepalive. destruct (capture_info_touched p ts (cstr "Keep-alive")) as [w ->]. eauto.
  - destruct p. unfold write_packet, touched. cbn. do 3 eexists. reflexivity.
Qed.

Lemma unfold_frames_touched l p : exists w ts ls, fold_left unfold_frame l p = touched p w ts ls.
Proof.
  revert p. induction l as [|i l IH]; intros p; cbn [fold_left].
  - do 3 eexists. symmetry. apply touched_id.
  - destruct (unfold_frame_touched p i) as (w & ts & ls & ->).
    destruct (IH (touched p w ts ls)) as (w' & ts' & ls' & ->). by do 3 eexists.
Qed.

Lemma stop_folding_touched p :
  exists w ts ls, stop_folding p
    = touched (p <| capture_fold_count := 0 |> <| capture_fold_buf_ptr := 0 |>) w ts ls.
Proof.
  unfold stop_folding.
  destruct (Z.eqb_spec 0 (capture_fold_count p)) as [E|E];
    [destruct (Z.eqb_spec 0 (capture_fold_buf_ptr p)) as [E'|E']|].
  { exists (out p), (capture_last_ts p), (capture_saved_ls p). destruct p. cbn in *. by subst. }
  all: cbn [andb].
  all: set (q := p <| capture_fold_count := 0 |> <| capture_fold_buf_ptr := 0 |>).
  all: destruct (unfold_frames_touched (seq 0 (Z.to_nat (capture_fold_buf_ptr p))) q)
      as (w & ts & ls & ->).
  all: clearbody q.
  all: assert (Hi : forall a b, exists w' ts' ls',
                 capture_info (touched q w ts ls) a b = touched q w' ts' ls')
    by (intros a b; destruct (capture_info_touched (touched q w ts ls) a b) as [w' ->];
        rewrite touched_touched; eauto).
  all: destruct (_ =? 1); [apply Hi|]; destruct (1 <? _); [apply Hi|eauto].
Qed.
End Touched.

(** ** The invariant of the frame walk *)

Abbreviation u64_ok z := (0 <= z < 18446744073709551616).

Definition frame_ok (f : CaptureFrame) : Prop :=
  u64_ok (f_ts f) /\ f_size f <= 1273 /\ length (f_data f) = DATA_BUF_SIZE /\ bytes_ok (f_data f).

(** The fields an event leaves alone. *)
Definition walk {W} (p : packet W) :=
  (capture_data p, capture_data_ptr p, capture_size p, capture_header p, capture_status p,
   capture_toggle p, capture_ts p, capture_ts_int p).

(** A record the frame layer may hand to the writer. *)
Definition epb_ok (ts : Z) (d : list Z) (n : Z) : Prop :=
  u64_ok ts /\ bytes_ok d /\ 0 <= n <= 1273 /\ n <= Z.of_nat (length d).
Definition info_ok (ts : Z) (s : list Z) (n : Z) : Prop :=
  u64_ok ts /\ bytes_ok s /\ n = Z.min (Z.of_nat (length s)) 511.

(** A property of the sink that every admissible record preserves. *)
Class SinkInv {W} `{PcapngOut W} (I : W -> Prop) := {
  inv_epb w ts d n : I w -> epb_ok ts d n -> I (out_epb w ts d n);
  inv_info w ts s n : I w -> info_ok ts s n -> I (out_info w ts s n);
  inv_flush w : I w -> I (out_flush w);
}.

Section Invariant.
Context {W : Type} `{PcapngOut W} (I : W -> Prop) `{!SinkInv I}.
Implicit Types p q : packet W.

Record core p : Prop := {
  core_out : I (out p);
  core_data_len : length (capture_data p) = DATA_BUF_SIZE;
  core_data : bytes_ok (capture_data p);
  core_ts : u64_ok (capture_ts p);
  core_saved_ts : u64_ok (capture_saved_ts p);
  core_last_ts : u64_ok (capture_last_ts p);
  core_fold_len : Z.of_nat (length (capture_fold_buf p)) = FOLD_BUF_SIZE;
  core_fold : Forall frame_ok (capture_fold_buf p);
  core_fold_ptr : 0 <= capture_fold_buf_ptr p <= FOLD_BUF_SIZE;
  core_trigger : 0 <= capture_trigger (opts p) <= 4;
}.

Ltac core_set := match goal with Hc : core ?p |- core _ => destruct Hc; constructor; cbn; auto; try lia end.

Lemma bytes_ok_line_state_text p dp dm delta : bytes_ok (line_state_text p dp dm delta).
Proof.
  unfold line_state_text, delta_text.
  repeat apply bytes_ok_app_2; repeat case_match; auto 10 with sniffer.
Qed.

Lemma flushed_ok p : core p -> I (flushed p) /\ u64_ok (flushed_ts p).
Proof.
  intros Hc. unfold flushed, flushed_ts. destruct (_ || _); [split; apply Hc|].
  split; [|apply Hc]. apply inv_info; [apply Hc|].
  split; [apply Hc|]. split; [apply bytes_ok_line_state_text|done].
Qed.

Lemma core_noted p w ts : core p -> I w -> u64_ok ts -> core (noted p w ts).
Proof. intros Hc Hw Ht. core_set. Qed.

Lemma core_line_state p : core p -> core (line_state_event p).
Proof.
  intros Hc. rewrite line_state_event_eq. destruct (flushed_ok p Hc). by apply core_noted.
Qed.

Lemma core_info p ts str : core p -> u64_ok ts -> bytes_ok str -> core (capture_info p ts str).
Proof.
  intros Hc Ht Hs. rewrite capture_info_eq. destruct (flushed_ok p Hc).
  apply core_noted; [done| |done]. by apply inv_info.
Qed.

Lemma core_info_now p str : core p -> bytes_ok str -> core (capture_info p (capture_ts p) str).
Proof. intros Hc. apply core_info; [done|apply Hc]. Qed.

Lemma walk_info p ts str : walk (capture_info p ts str) = walk p.
Proof. by rewrite capture_info_eq. Qed.
Lemma walk_line_state p : walk (line_state_event p) = walk p.
Proof. by rewrite line_state_event_eq. Qed.

Lemma core_write_packet p ts d n :
  core p -> epb_ok ts d n -> core (write_packet p ts d n).
Proof. intros Hc He. pose proof (inv_epb _ _ _ _ (core_out _ Hc) He). destruct He. core_set. Qed.

Lemma unfold_frame_ok p i :
  core p -> (i < length (capture_fold_buf p))%nat ->
  core (unfold_frame p i) /\ walk (unfold_frame p i) = walk p
  /\ capture_fold_buf (unfold_frame p i) = capture_fold_buf p.
Proof.
  intros Hc Hi. unfold unfold_frame.
  assert (Hf : frame_ok (capture_fold_buf p !!! i)).
  { destruct (lookup_lt_is_Some_2 _ _ Hi) as [f Ef]. rewrite (list_lookup_total_correct _ _ _ Ef).
    by apply (Forall_lookup_1 _ _ _ _ (core_fold _ Hc) Ef). }
  set (f := capture_fold_buf p !!! i) in *. clearbody f. destruct Hf as (Ht & Hn & Hl & Hb).
  assert (Ht' : u64_ok (if f_ts f <? capture_last_ts p then capture_last_ts p else f_ts f)).
  { case_match; [apply Hc|done]. }
  destruct (Z.ltb_spec (f_size f) 0).
  - unfold write_keepalive. rewrite walk_info. split; [|by rewrite capture_info_eq].
    apply core_info; auto with sniffer.
  - split; [|done]. apply core_write_packet; [done|]. unfold DATA_BUF_SIZE in Hl.
    split_and!; try done; lia.
Qed.

Lemma unfold_frames_ok n p :
  core p -> (n <= length (capture_fold_buf p))%nat ->
  let p' := fold_left unfold_frame (seq 0 n) p in
  core p' /\ walk p' = walk p /\ capture_fold_buf p' = capture_fold_buf p.
Proof.
  intros Hc. induction n as [|n IH]; intros Hn; [done|]. cbv zeta.
  rewrite seq_S, Nat.add_0_l, fold_left_app. cbn [fold_left].
  destruct (IH ltac:(lia)) as (C & E & F). cbv zeta in *.
  destruct (unfold_frame_ok _ n C) as (C' & E' & F'); [by rewrite F|].
  split; [done|]. by rewrite E', E, F', F.
Qed.

Lemma stop_folding_ok p : core p -> core (stop_folding p) /\ walk (stop_folding p) = walk p.
Proof.
  intros Hc. unfold stop_folding. destruct (_ && _); [done|].
  assert (C : core (p <| capture_fold_count := 0 |> <| capture_fold_buf_ptr := 0 |>)) by core_set.
  destruct (unfold_frames_ok (Z.to_nat (capture_fold_buf_ptr p)) _ C) as (C' & E & _).
  { cbn. destruct Hc. lia. }
  cbv zeta in *. set (q := fold_left _ _ _) in *. clearbody q.
  repeat case_match; rewrite ?walk_info; split; auto; apply core_info_now; auto 10 with sniffer.
Qed.

Lemma set_fold_ptr_ok p : core p ->
  core (p <| capture_fold_count := capture_fold_count p + 1 |> <| capture_fold_buf_ptr := 0 |>).
Proof. intros Hc. core_set. Qed.

Lemma stop_folding_ptr p : capture_fold_buf_ptr (stop_folding p) = 0.
Proof. by destruct (stop_folding_touched p) as (w & ts & ls & ->). Qed.

(** The outcome of an event that may store: it succeeds, keeps the invariant and
    the walk. *)
Definition sound p (r : option (packet W)) : Prop :=
  exists p', r = Some p' /\ core p' /\ walk p' = walk p.

Lemma sound_Some p p' : core p' -> walk p' = walk p -> sound p (Some p').
Proof. intros. by exists p'. Qed.

Lemma sound_walk p q r : walk q = walk p -> sound q r -> sound p r.
Proof. intros E (p' & ? & ? & ?). exists p'. split_and!; congruence. Qed.

Lemma fold_store_ok p i f :
  core p -> frame_ok f -> i = capture_fold_buf_ptr p -> i < FOLD_BUF_SIZE ->
  core (p <| capture_fold_buf := <[Z.to_nat i := f]> (capture_fold_buf p) |>
          <| capture_fold_buf_ptr := i + 1 |>).
Proof.
  intros Hc Hf -> Hi. destruct Hc. constructor; cbn; auto; [|by apply Forall_insert|lia].
  by rewrite length_insert.
Qed.

Lemma fold_frame_ok p :
  core p -> capture_fold_buf_ptr p < FOLD_BUF_SIZE ->
  frame_ok (capture_fold_buf p !!! Z.to_nat (capture_fold_buf_ptr p)).
Proof.
  intros Hc Hp. destruct Hc.
  destruct (lookup_lt_is_Some_2 (capture_fold_buf p) (Z.to_nat (capture_fold_buf_ptr p))) as [f Ef]; [lia|].
  rewrite (list_lookup_total_correct _ _ _ Ef). by apply (Forall_lookup_1 _ _ _ _ core_fold0 Ef).
Qed.

Lemma fold_packet_ok p d n :
  core p -> capture_fold_buf_ptr p < FOLD_BUF_SIZE ->
  bytes_ok d -> length d = DATA_BUF_SIZE -> 0 <= n <= 1273 ->
  sound p (fold_packet p (capture_ts p) d n).
Proof.
  intros Hc Hp Hd Hl Hn. destruct (fold_frame_ok p Hc Hp) as (_ & _ & Hfl & Hfb).
  unfold fold_packet. unfold DATA_BUF_SIZE in *. rewrite copy_in_Some by lia. cbn [mbind option_bind].
  rewrite set_at_Some by (destruct Hc; lia). cbn [mbind option_bind].
  apply sound_Some; [|done]. apply fold_store_ok; try done.
  unfold frame_ok. cbn. unfold DATA_BUF_SIZE. rewrite length_write_at by (rewrite length_take; lia).
  split_and!; try apply Hc; [lia|lia|]. apply bytes_ok_write_at; auto with sniffer.
Qed.

Lemma fold_keepalive_ok p ts delta :
  core p -> capture_fold_buf_ptr p < FOLD_BUF_SIZE -> u64_ok ts -> 0 <= delta ->
  sound p (fold_keepalive p ts delta).
Proof.
  intros Hc Hp Ht Hd. destruct (fold_frame_ok p Hc Hp) as (_ & _ & Hfl & Hfb).
  unfold fold_keepalive. rewrite set_at_Some by (destruct Hc; lia). cbn [mbind option_bind].
  apply sound_Some; [|done]. apply fold_store_ok; try done. unfold frame_ok. cbn.
  split_and!; done || lia.
Qed.

Lemma check_capture_limit_ok p : core p -> core (check_capture_limit p) /\ walk (check_capture_limit p) = walk p.
Proof.
  intros Hc. unfold check_capture_limit.
  set (q := p <| opts := _ |>). assert (C : core q) by (subst q; core_set).
  assert (E : walk q = walk p) by done. clearbody q.
  case_match; [|done]. split.
  - assert (C' : core (capture_info q (capture_ts q) (cstr "Capture limit reached")))
      by (apply core_info_now; auto with sniffer).
    set (r := capture_info _ _ _) in *. clearbody r. core_set.
  - rewrite <- E. etransitivity; [|apply (walk_info q (capture_ts q) (cstr "Capture limit reached"))].
    done.
Qed.

Lemma sound_limit p r :
  sound p r -> sound p (p ← r; Some (check_capture_limit p)).
Proof.
  intros (q & -> & C & E). cbn [mbind option_bind].
  destruct (check_capture_limit_ok q C). apply sound_Some; congruence.
Qed.

Lemma keepalive_event_ok p ts delta :
  core p -> u64_ok ts -> 0 <= delta -> sound p (keepalive_event p ts delta).
Proof.
  intros Hc Ht Hd. unfold keepalive_event. destruct (negb (capture_enabled p)); [by apply sound_Some|].
  apply sound_limit. destruct (negb (fold_empty (opts p))).
  { unfold write_keepalive. apply sound_Some; [|apply walk_info]. apply core_info; auto with sniffer. }
  destruct (Z.eqb_spec (capture_fold_buf_ptr p) 0) as [E|E]; cbn [negb].
  { apply fold_keepalive_ok; try done. rewrite E. done. }
  pose proof (set_fold_ptr_ok p Hc) as C. 
  set (q := p <| capture_fold_count := capture_fold_count p + 1 |> <| capture_fold_buf_ptr := 0 |>) in *.
  assert (Ew : walk q = walk p) by done. assert (Ep : capture_fold_buf_ptr q = 0) by done. clearbody q.
  apply (sound_walk p q); [done|]. destruct (stop_folding_ok q C) as [C' E'].
  destruct (_ =? _).
  - eapply sound_walk; [exact E'|]. apply fold_keepalive_ok; try done. by rewrite stop_folding_ptr.
  - apply fold_keepalive_ok; try done. by rewrite Ep.
Qed.

Lemma trigger_gate_total p trigger : core p -> exists en, trigger_gate p trigger = Some en.
Proof.
  intros Hc. pose proof (core_trigger _ Hc). unfold trigger_gate,
    CaptureTrigger_Disabled, CaptureTrigger_Low, CaptureTrigger_High, CaptureTrigger_Falling,
    CaptureTrigger_Rising.
  repeat case_match; eauto. bool_split. lia.
Qed.

Lemma info_ok_walk p (q : packet W) str :
  core p -> walk p = walk q -> bytes_ok str ->
  core (capture_info p (capture_ts p) str) /\ walk (capture_info p (capture_ts p) str) = walk q.
Proof. intros. rewrite walk_info. split; [by apply core_info_now|done]. Qed.

Lemma status_trigger_ok p trigger : core p -> sound p (status_trigger p trigger).
Proof.
  intros Hc. unfold status_trigger. destruct (_ =? _); [by apply sound_Some|].
  destruct (trigger_gate_total p trigger Hc) as [en ->]. cbv zeta.
  set (q := p <| capture_enabled := en |> <| capture_trigger_input := trigger |>).
  assert (C : core q) by (subst q; core_set). assert (E : walk q = walk p) by done. clearbody q.
  destruct (info_ok_walk q p (cstr "Trigger input = " ++ dec (capture_trigger_input q)))
    as [C' E']; [done|done|auto with sniffer|].
  set (r := capture_info q _ _) in *. clearbody r.
  repeat case_match; [| |by apply sound_Some];
    (apply sound_Some; [apply core_info_now|rewrite walk_info]; auto with sniffer).
Qed.

Lemma status_vbus_ok p vbus : core p -> core (status_vbus p vbus) /\ walk (status_vbus p vbus) = walk p.
Proof.
  intros Hc. unfold status_vbus. destruct (_ =? _); [done|].
  set (q := p <| capture_vbus := vbus |>). assert (C : core q) by (subst q; core_set).
  apply info_ok_walk; [done|done|]. case_match; auto with sniffer.
Qed.

Lemma bytes_ok_speed_name s : bytes_ok (speed_name s).
Proof. unfold speed_name. repeat case_match; auto with sniffer. Qed.

Lemma status_speed_ok p speed : core p -> core (status_speed p speed) /\ walk (status_speed p speed) = walk p.
Proof.
  intros Hc. unfold status_speed. destruct (_ =? _); [done|].
  set (q := p <| capture_speed_in := speed |>). assert (C : core q) by (subst q; core_set).
  cbv zeta. change (capture_enabled p) with (capture_enabled q).
  repeat case_match; try done; (apply info_ok_walk; [done|done|]);
    auto using bytes_ok_speed_name with sniffer.
Qed.

Lemma status_ls_ok p ls : core p -> sound p (status_ls p ls).
Proof.
  intros Hc. unfold status_ls. destruct (_ =? _); [by apply sound_Some|]. cbv zeta.
  set (q := p <| capture_ls := ls |>). assert (C : core q) by (subst q; core_set).
  assert (E : walk q = walk p) by done. set (delta := s32 _). clearbody q delta.
  case_match eqn:Ek.
  - assert (C' : core (q <| capture_saved_ls := LS_INVALID |>)) by core_set.
    eapply sound_walk; [exact E|]. clear E. bool_split. unfold MIN_KEEPALIVE_DURATION in *.
    apply (sound_walk q (q <| capture_saved_ls := LS_INVALID |>)); [done|].
    apply keepalive_event_ok; [done|apply C'|lia].
  - pose proof (core_line_state q C) as C'. pose proof (walk_line_state q) as E'.
    set (r := line_state_event q) in *. clearbody r.
    apply sound_Some; [core_set|]. by rewrite <- E, <- E'.
Qed.

Lemma status_event_ok p ls vbus trigger speed :
  core p -> sound p (status_event p ls vbus trigger speed).
Proof.
  intros Hc. unfold status_event. destruct (status_trigger_ok p trigger Hc) as (q & -> & C & E).
  cbn [mbind option_bind]. destruct (status_vbus_ok q vbus C) as [C1 E1].
  destruct (status_speed_ok _ speed C1) as [C2 E2].
  eapply sound_walk; [|by apply status_ls_ok]. congruence.
Qed.
Lemma epb_ok_now p : core p -> 0 <= capture_size p <= 1273 ->
  epb_ok (capture_ts p) (capture_data p) (capture_size p).
Proof.
  intros Hc Hs. pose proof (core_data_len _ Hc). unfold DATA_BUF_SIZE in *.
  split_and!; try apply Hc; lia.
Qed.

Lemma write_now_ok p :
  core p -> 0 <= capture_size p <= 1273 ->
  sound p (Some (write_packet p (capture_ts p) (capture_data p) (capture_size p))).
Proof. intros. apply sound_Some; [|done]. by apply core_write_packet, epb_ok_now. Qed.

Lemma fold_now_ok p :
  core p -> 0 <= capture_size p <= 1273 -> capture_fold_buf_ptr p < FOLD_BUF_SIZE ->
  sound p (fold_packet p (capture_ts p) (capture_data p) (capture_size p)).
Proof. intros Hc ? ?. by apply fold_packet_ok; try apply Hc. Qed.

Lemma walk_size p q : walk p = walk q -> capture_size p = capture_size q.
Proof. by intros [=]. Qed.

Lemma data_fold_ok p de sof pid :
  core p -> 0 <= capture_size p <= 1273 -> capture_fold_buf_ptr p < FOLD_BUF_SIZE ->
  sound p (data_fold p de sof pid).
Proof.
  intros Hc Hs Hp. unfold data_fold.
  destruct (de || _); [by apply write_now_ok|].
  destruct (stop_folding_ok p Hc) as [C1 E1]. pose proof (walk_size _ _ E1) as S1.
  destruct (negb _); [|destruct (_ && _); [by apply fold_now_ok|by apply write_now_ok]].
  destruct (_ || _); [by apply fold_now_ok|]. destruct (_ && _).
  2:{ cbv zeta. eapply sound_walk; [exact E1|]. apply write_now_ok; [done|]. by rewrite S1. }
  pose proof (set_fold_ptr_ok p Hc) as C. cbv zeta.
  set (q := p <| capture_fold_count := capture_fold_count p + 1 |> <| capture_fold_buf_ptr := 0 |>) in *.
  assert (Ew : walk q = walk p) by done. assert (Ep : capture_fold_buf_ptr q = 0) by done. clearbody q.
  pose proof (walk_size _ _ Ew) as Sw. eapply sound_walk; [exact Ew|]. rewrite <- Sw in Hs.
  destruct (stop_folding_ok q C) as [C' E']. pose proof (walk_size _ _ E') as S'.
  destruct (_ =? _).
  - eapply sound_walk; [exact E'|]. apply fold_now_ok; rewrite ?stop_folding_ptr, ?S'; done.
  - apply fold_now_ok; rewrite ?Ep; done.
Qed.

(** A conditional step of an event. *)
Lemma cond_ok p (b : bool) f :
  core p -> (core (f p) /\ walk (f p) = walk p) ->
  core (if b then f p else p) /\ walk (if b then f p else p) = walk p.
Proof. intros. by destruct b. Qed.

Lemma fold_ptr_info p ts str : capture_fold_buf_ptr (capture_info p ts str) = capture_fold_buf_ptr p.
Proof. by rewrite capture_info_eq. Qed.

Lemma data_event_ok p :
  core p -> 0 <= capture_size p <= 1273 -> sound p (data_event p).
Proof.
  intros Hc Hs. unfold data_event. destruct (negb _); [by apply sound_Some|]. cbv zeta.
  set (de := capture_crc_error p || capture_data_error p).
  set (sof := negb (CaptureSpeed_LS =? _)). set (pid := _ !!! _). clearbody de sof pid.
  pose proof (core_line_state p Hc) as C1. pose proof (walk_line_state p) as E1.
  set (p1 := line_state_event p) in *. clearbody p1.
  set (b := _ || _).
  assert (Hb : b = false -> capture_fold_buf_ptr p1 < FOLD_BUF_SIZE).
  { subst b. intros Hb. apply orb_false_iff in Hb as [_ Hb]. apply Z.eqb_neq in Hb.
    pose proof (core_fold_ptr _ C1). lia. }
  clearbody b.
  destruct (cond_ok p1 b stop_folding C1 (stop_folding_ok p1 C1)) as [C2 E2].
  set (p2 := if b then stop_folding p1 else p1) in *.
  assert (Hp2 : capture_fold_buf_ptr p2 < FOLD_BUF_SIZE).
  { subst p2. destruct b; [|by apply Hb]. by rewrite stop_folding_ptr. }
  clearbody p2.
  set (p3 := if capture_overflow p2 then _ else p2).
  destruct (cond_ok p2 (capture_overflow p2)
              (fun p => capture_info p (capture_ts p) (cstr "Hardware buffer overflow")) C2)
    as [C3 E3]; [apply info_ok_walk; auto with sniffer|].
  assert (Hp3 : capture_fold_buf_ptr p3 < FOLD_BUF_SIZE).
  { subst p3. destruct (capture_overflow p2); [by rewrite fold_ptr_info|done]. }
  fold p3 in C3, E3. clearbody p3.
  set (p4 := if capture_data_error p3 then _ else p3).
  destruct (cond_ok p3 (capture_data_error p3)
              (fun p => capture_info p (capture_ts p) (cstr "USB PHY error")) C3)
    as [C4 E4]; [apply info_ok_walk; auto with sniffer|].
  assert (Hp4 : capture_fold_buf_ptr p4 < FOLD_BUF_SIZE).
  { subst p4. destruct (capture_data_error p3); [by rewrite fold_ptr_info|done]. }
  fold p4 in C4, E4. clearbody p4.
  assert (E : walk p4 = walk p) by congruence.
  eapply sound_walk; [exact E|]. apply sound_limit.
  apply data_fold_ok; [done| |done]. by rewrite (walk_size _ _ E).
Qed.

(** *** Headers *)

(** Between two bytes: where the walk stands. *)
Definition walk_ok p : Prop :=
  if capture_header p then
    0 <= capture_data_ptr p < 7
    /\ (0 < capture_data_ptr p ->
        capture_data_ptr p < capture_size p
        /\ capture_size p = if capture_status p then STATUS_HEADER_SIZE else DATA_HEADER_SIZE)
  else 0 <= capture_data_ptr p < capture_size p /\ capture_size p <= 1273.

(** At the start of a header or of a payload. *)
Definition boundary p : Prop :=
  capture_data_ptr p = 0 /\ (capture_header p = true \/ 0 < capture_size p <= 1273).

Lemma boundary_walk_ok p : boundary p -> walk_ok p.
Proof.
  intros [Hp Hs]. unfold walk_ok. destruct (capture_header p); [lia|].
  destruct Hs; [done|lia].
Qed.

Lemma bytes_ok_hex_dump d : bytes_ok d -> bytes_ok (hex_dump d).
Proof.
  induction 1 as [|b d Hb Hd IH]; [constructor|]. unfold hex_dump. cbn [map concat].
  apply bytes_ok_app_2; [|done]. apply bytes_ok_app_2; auto with sniffer.
Qed.

(** What [desync_error] leaves behind. *)
Lemma desync_error_touched p :
  exists w, desync_error p
    = (touched p w (capture_ts p) LS_INVALID)
      <| capture_size := 0 |> <| capture_data_ptr := 0 |> <| capture_header := true |>
      <| capture_status := false |>.
Proof.
  unfold desync_error. cbv zeta.
  destruct (capture_info_touched p (capture_ts p)
              (cstr "Error: frame desynchronization, resynchronizing")) as [w ->].
  set (q := touched p w (capture_ts p) LS_INVALID). set (str := cstr "Packet header: " ++ _).
  destruct (capture_info_touched q (capture_ts q) str) as [w' ->]. by exists w'.
Qed.

Lemma desync_error_ok p : core p -> core (desync_error p) /\ boundary (desync_error p)
  /\ capture_header (desync_error p) = true /\ capture_data (desync_error p) = capture_data p.
Proof.
  intros Hc.
  assert (core (desync_error p)).
  { unfold desync_error. cbv zeta.
    set (q := capture_info p _ _). assert (C : core q) by (apply core_info_now; auto with sniffer).
    set (str := cstr "Packet header: " ++ _).
    assert (C' : core (capture_info q (capture_ts q) str)).
    { apply core_info_now; [done|]. apply bytes_ok_app_2; [auto with sniffer|].
      apply bytes_ok_hex_dump, bytes_ok_take, C. }
    set (r := capture_info q _ _) in *. clearbody r. core_set. }
  destruct (desync_error_touched p) as [w E].
  split; [done|]. rewrite E. split; [|done]. split; [done|by left].
Qed.

Lemma check_header_ok p toggle zero :
  core p -> capture_header p = true ->
  core (check_header p toggle zero) /\ capture_header (check_header p toggle zero) = true
  /\ capture_data (check_header p toggle zero) = capture_data p.
Proof.
  intros Hc Hh. unfold check_header. destruct (_ && _); [done|]. cbv zeta.
  set (str := cstr "Error: received toggle value " ++ _).
  assert (Hs : bytes_ok str) by (subst str; auto 10 with sniffer).
  destruct (cond_ok p (negb (toggle =? capture_toggle p))
              (fun p => capture_info p (capture_ts p) str) Hc) as [C1 E1];
    [apply info_ok_walk; auto 10 with sniffer|].
  set (p1 := if negb (toggle =? _) then _ else p) in *. clearbody p1.
  destruct (cond_ok p1 (negb (zero =? 0))
              (fun p => capture_info p (capture_ts p)
                          (cstr "Error: zero bit in the header is not zero")) C1) as [C2 E2];
    [apply info_ok_walk; auto 10 with sniffer|].
  set (p2 := if negb (zero =? 0) then _ else p1) in *. clearbody p2.
  destruct (desync_error_ok p2 C2) as (C3 & _ & H3 & D3).
  split_and!; [done|done|]. rewrite D3. rewrite E1 in E2. by injection E2.
Qed.

Lemma check_data_size_ok p size :
  core p -> (size < DATA_HEADER_SIZE \/ MAX_DATA_SIZE < size) ->
  core (check_data_size p size) /\ boundary (check_data_size p size).
Proof.
  intros Hc Hs. unfold check_data_size.
  destruct (Z.leb_spec DATA_HEADER_SIZE size), (Z.leb_spec size MAX_DATA_SIZE); [lia|..].
  all: cbn [andb]; cbv zeta.
  all: set (q := capture_info p _ _); assert (C : core q) by (apply core_info_now; auto 10 with sniffer).
  all: destruct (desync_error_ok q C) as (? & ? & _); done.
Qed.

Lemma header_time_ok p ts toggle :
  core p -> capture_header p = true ->
  core (header_time p ts toggle) /\ capture_header (header_time p ts toggle) = true
  /\ capture_data (header_time p ts toggle) = capture_data p
  /\ capture_status (header_time p ts toggle) = capture_status p.
Proof.
  intros Hc Hh. unfold header_time. cbv zeta.
  set (p1 := if has _ _ then _ else p).
  assert (C1 : core p1 /\ capture_header p1 = true /\ capture_data p1 = capture_data p
               /\ capture_status p1 = capture_status p).
  { subst p1. destruct (has _ _); [|done]. split; [core_set|done]. }
  clearbody p1. destruct C1 as (C1 & H1 & D1 & S1).
  set (p2 := p1 <| capture_ts := u64 (Z.lor (capture_ts_int p1) ts * 100) / 6 |>
                <| capture_toggle := 1 - toggle |>).
  assert (C2 : core p2).
  { pose proof (u64_range (Z.lor (capture_ts_int p1) ts * 100)). destruct C1.
    constructor; try done. cbn. divmod. }
  assert (E2 : capture_header p2 = true /\ capture_data p2 = capture_data p
               /\ capture_status p2 = capture_status p) by done.
  clearbody p2. clear - Hc C2 E2 SinkInv0. destruct (_ <? _); [|done].
  unfold timeout_event. destruct (capture_enabled p2); [|done].
  destruct (info_ok_walk p2 p2 (cstr "Periodic update")) as [C3 E3]; [done|done|auto with sniffer|].
  set (q := capture_info _ _ _) in *. clearbody q. injection E3. intros.
  destruct E2 as (? & ? & ?). split_and!; congruence.
Qed.

Lemma header_data_ok p : core p -> core (header_data p) /\ boundary (header_data p).
Proof.
  intros Hc. unfold header_data. cbv zeta. set (size := Z.lor _ _).
  destruct ((size <? DATA_HEADER_SIZE) || (MAX_DATA_SIZE <? size)) eqn:Es.
  - apply check_data_size_ok; [done|]. apply orb_true_iff in Es.
    destruct Es as [Es|Es]; apply Z.ltb_lt in Es; tauto.
  - apply orb_false_iff in Es as [E1 E2]. apply Z.ltb_ge in E1, E2.
    unfold DATA_HEADER_SIZE, MAX_DATA_SIZE in *. split; [core_set|].
    split; [done|]. cbn -[Z.eqb].
    destruct (Z.eqb_spec 0 (size - 7)); [by left|right; lia].
Qed.

Lemma header_status_ok p :
  core p -> capture_header p = true ->
  exists p', header_status p = Some p' /\ core p' /\ boundary p'.
Proof.
  intros Hc Hh. unfold header_status. cbv zeta.
  match goal with |- context [status_event p ?a ?b ?c ?d] =>
    destruct (status_event_ok p a b c d Hc) as (q & -> & C & E) end.
  cbn [mbind option_bind]. eexists. split; [done|]. injection E. intros.
  split; [core_set|]. split; [done|]. left. cbn. congruence.
Qed.

Lemma header_complete_ok p :
  core p -> capture_header p = true ->
  exists p', header_complete p = Some p' /\ core p' /\ boundary p'.
Proof.
  intros Hc Hh. unfold header_complete. cbv zeta.
  set (ts := Z.lor (Z.lor _ _) _). set (toggle := if has _ HEADER_TOGGLE then 1 else 0).
  set (zero := if has _ HEADER_ZERO then 1 else 0).
  destruct (check_header_ok p toggle zero Hc Hh) as (C1 & H1 & _).
  destruct (header_time_ok _ ts toggle C1 H1) as (C2 & H2 & _).
  set (q := header_time _ _ _) in *. clearbody q.
  destruct (capture_status q); [by apply header_status_ok|].
  destruct (header_data_ok q C2). by eexists.
Qed.

Definition wf p : Prop := core p /\ walk_ok p.

Lemma capture_sm_ok p b :
  wf p -> byte_ok b -> exists p', capture_sm p b = Some p' /\ wf p'.
Proof.
  intros [Hc Hw] Hb. unfold capture_sm.
  set (p1 := if _ && _ then _ else p). cbv zeta in p1.
  assert (H1 : core p1 /\ 0 <= capture_data_ptr p1 < 1280
    /\ if capture_header p1
       then capture_data_ptr p1 < capture_size p1
            /\ capture_size p1 = (if capture_status p1 then STATUS_HEADER_SIZE else DATA_HEADER_SIZE)
       else capture_data_ptr p1 < capture_size p1 <= 1273).
  { subst p1. unfold walk_ok in Hw. destruct (capture_header p) eqn:Eh; cbn [andb];
      [|rewrite Eh; split_and!; [done|lia..]].
    destruct (Z.eqb_spec 0 (capture_data_ptr p)) as [E|E].
    - split; [core_set|]. cbn -[Z.eqb]. rewrite Eh, <- E. split; [lia|].
      unfold STATUS_HEADER_SIZE, DATA_HEADER_SIZE.
      split; [destruct (_ =? _); lia|done].
    - rewrite Eh. destruct Hw as [Hp Hw]. specialize (Hw ltac:(lia)). split; [done|]. split; [lia|done]. }
  clearbody p1. destruct H1 as (C1 & Hp & H1).
  pose proof (core_data_len _ C1) as Hl. unfold DATA_BUF_SIZE in Hl.
  rewrite set_at_Some by lia. cbn [mbind option_bind]. cbv zeta.
  set (p2 := p1 <| capture_data := _ |> <| capture_data_ptr := capture_data_ptr p1 + 1 |>).
  assert (C2 : core p2).
  { subst p2. destruct C1. constructor; cbn; auto; [by rewrite length_insert|by apply Forall_insert]. }
  assert (E2 : capture_data_ptr p2 = capture_data_ptr p1 + 1 /\ capture_size p2 = capture_size p1
    /\ capture_header p2 = capture_header p1 /\ capture_status p2 = capture_status p1) by done.
  clearbody p2. destruct E2 as (Ep & Es & Eh & Et). rewrite <- Eh, <- Et, <- Es in H1.
  destruct (Z.ltb_spec (capture_data_ptr p2) (capture_size p2)).
  { exists p2. split; [done|]. split; [done|]. unfold walk_ok. destruct (capture_header p2); [|lia].
    destruct H1 as [H1 H1']. rewrite <- H1' in *. unfold STATUS_HEADER_SIZE, DATA_HEADER_SIZE in *.
    split; [destruct (capture_status p2); lia|]. intros _. by split. }
  destruct (capture_header p2) eqn:Eh2.
  { destruct (header_complete_ok p2 C2 Eh2) as (p' & -> & C' & B'). exists p'.
    split; [done|]. split; [done|by apply boundary_walk_ok]. }
  assert (C3 : core (p2 <| capture_header := true |>)) by core_set.
  destruct (data_event_ok _ C3) as (q & -> & C4 & E4); [cbn; lia|].
  cbn [mbind option_bind]. eexists. split; [done|]. injection E4. intros.
  split; [core_set|]. unfold walk_ok. cbn. cbn in *.
  replace (capture_header q) with true by congruence. lia.
Qed.

Lemma packet_feed_loop_ok p data :
  wf p -> bytes_ok data -> exists p', packet_feed_loop p data = Some p' /\ wf p'.
Proof.
  intros Hw Hd. revert p Hw. induction Hd as [|b data Hb Hd IH]; intros p Hw; [by exists p|].
  cbn [packet_feed_loop]. destruct (capture_sm_ok p b Hw Hb) as (q & -> & Hq).
  cbn [mbind option_bind]. destruct (done q); [by exists q|by apply IH].
Qed.

(** A session starts well formed. *)
Lemma core_new o w : 0 <= capture_trigger o <= 4 -> I w -> core (packet_new o w).
Proof.
  intros Ho Hw.
  constructor; cbn -[DATA_BUF_SIZE FOLD_BUF_SIZE replicate]; try exact Hw; try lia;
    rewrite ?length_replicate; try reflexivity; repeat apply Forall_replicate; try lia.
  2: { unfold FOLD_BUF_SIZE. lia. }
  split_and!; cbn -[DATA_BUF_SIZE replicate]; try lia; [apply length_replicate|].
  apply Forall_replicate. lia.
Qed.

Lemma core_data_set p d :
  core p -> length d = DATA_BUF_SIZE -> bytes_ok d -> core (p <| capture_data := d |>).
Proof. intros Hc Hl Hd. core_set. Qed.

Lemma core_fold_set p buf n :
  core p -> Z.of_nat (length buf) = FOLD_BUF_SIZE -> Forall frame_ok buf ->
  0 <= n <= FOLD_BUF_SIZE -> core (p <| capture_fold_buf := buf |> <| capture_fold_buf_ptr := n |>).
Proof. intros Hc Hl Hd Hn. core_set. Qed.

Lemma announce_ok p : core p -> core (packet_announce p) /\ walk (packet_announce p) = walk p.
Proof.
  intros Hc. unfold packet_announce. cbv zeta.
  set (p1 := p <| done := false |>).
  assert (H1 : core p1 /\ walk p1 = walk p) by (split; [core_set|done]). clearbody p1.
  destruct H1 as [C1 <-].
  set (p2 := if _ =? _ then _ else _).
  assert (H2 : core p2 /\ walk p2 = walk p1).
  { subst p2. destruct (_ =? _).
    - rewrite <- (walk_info p1 0 (cstr "Starting capture")).
      pose proof (core_info p1 0 (cstr "Starting capture") C1) as C2.
      set (q := capture_info _ _ _) in *. clearbody q. split; [|done].
      assert (Cq : core q) by (apply C2; [lia|auto with sniffer]). core_set.
    - rewrite <- (walk_info p1 (capture_ts p1) (cstr "Waiting for a trigger")). split; [|done].
      apply core_info_now; [done|auto with sniffer]. }
  clearbody p2. destruct H2 as [C2 <-]. split; [|done].
  pose proof (inv_flush _ (core_out _ C2)). core_set.
Qed.

Lemma session_wf o w : 0 <= capture_trigger o <= 4 -> I w -> wf (packet_announce (packet_new o w)).
Proof.
  intros Ho Hw. destruct (announce_ok (packet_new o w)) as [Ha E]; [by apply core_new|].
  split; [done|]. apply boundary_walk_ok. unfold boundary.
  set (q := packet_announce _) in *. clearbody q. injection E. intros. split; [done|by left].
Qed.

Lemma packet_feed_ok p data :
  wf p -> bytes_ok data -> exists p', packet_feed p data = Some p' /\ wf p'.
Proof.
  intros Hw Hd. unfold packet_feed. destruct (done p); [by exists p|by apply packet_feed_loop_ok].
Qed.

(** C7: from a well-formed state every byte string is consumed without an assertion
    failure and without a store outside the frame buffer, the folding buffer or a
    folded frame, and the state stays well formed; every record handed to the
    writer is admissible, so whatever invariant of the writer such records
    preserve holds afterwards. *)
Theorem packet_feed_safe p data :
  wf p -> bytes_ok data -> exists p', packet_feed p data = Some p' /\ wf p'.
Proof. apply packet_feed_ok. Qed.
End Invariant.

(** The sink keeps the packets it was given; a session start fed a few bytes. *)
Lemma packet_feed_safe_witness :
  exists p', packet_feed (packet_announce (packet_new (mk_opts true false 1 4 (-1)) []))
               [0x80; 0; 1; 0; 9; 0; 0; 0xa5; 0x11] = Some p' /\ wf (fun _ : list record => True) p'.
Proof.
  apply packet_feed_safe; [by split| |].
  - apply session_wf; [by split|cbn; lia|done].
  - forall_concrete.
Defined.
