(* ===== verification/PacketFrames.v ===== *)
(** * The frame machine behind the byte walk (src/packet.c)

    Frames as data, their encoding, and the proof that feeding encoded bytes to
    [packet_feed] runs the frame machine [frame_step] frame by frame. *)

From Stdlib Require Import String.
From S2P Require Import Prelude Format Pcapng Packet.
Local Open Scope list_scope.

(** ** Frames

    The frame level the byte walk implements: a frame is decoded at once and its
    event is run on the state. *)

Inductive frame :=
| FStatus (tov : bool) (ts : Z) (ls : Z) (vbus trigger : bool) (speed : Z)
| FData (tov : bool) (ts : Z) (overflow crc_error data_error : bool) (duration : Z)
    (payload : list Z).

Definition b2z (b : bool) (v : Z) : Z := if b then v else 0.

Definition frame_first (status : bool) (toggle : Z) (tov : bool) (ts : Z) : list Z :=
  [b2z (negb status) 0x80 + toggle * 0x40 + b2z tov 0x10 + ts / 65536;
   ts / 256 mod 256; ts mod 256].

Definition frame_header (toggle : Z) (f : frame) : list Z :=
  match f with
  | FStatus tov ts ls vbus trigger speed =>
      frame_first true toggle tov ts ++ [speed * 64 + b2z trigger 0x20 + b2z vbus 0x10 + ls]
  | FData tov ts ov crc de dur payload =>
      let size := Z.of_nat (length payload) + 7 in
      frame_first false toggle tov ts
      ++ [b2z de 0x20 + b2z crc 0x10 + b2z ov 0x08 + size / 256; size mod 256;
          dur / 256; dur mod 256]
  end.

Definition frame_payload (f : frame) : list Z :=
  match f with FStatus _ _ _ _ _ _ => [] | FData _ _ _ _ _ _ d => d end.

Definition encode_frame (toggle : Z) (f : frame) : list Z := frame_header toggle f ++ frame_payload f.

(** The FPGA alternates the toggle bit. *)
Fixpoint encode_frames (toggle : Z) (fs : list frame) : list Z :=
  match fs with
  | [] => []
  | f :: fs => encode_frame toggle f ++ encode_frames (1 - toggle) fs
  end.

Definition frame_wf (f : frame) : Prop :=
  match f with
  | FStatus _ ts ls _ _ speed => 0 <= ts < 1048576 /\ 0 <= ls < 16 /\ 0 <= speed < 4
  | FData _ ts _ _ _ dur d =>
      0 <= ts < 1048576 /\ 0 <= dur < 65536 /\ Z.of_nat (length d) <= 1273 /\ bytes_ok d
  end.

Definition trivial_inv {W} (_ : W) : Prop := True.
#[export] Instance trivial_sink {W} `{PcapngOut W} : SinkInv (trivial_inv (W:=W)).
Proof. by split. Qed.

Section Frames.
Context {W : Type} `{PcapngOut W}.
Implicit Types p q : packet W.

(** A complete header of [f] was stored. *)
Definition stored_header p (f : frame) : packet W :=
  let h := frame_header (capture_toggle p) f in
  let st := match f with FStatus _ _ _ _ _ _ => true | _ => false end in
  p <| capture_status := st |> <| capture_size := Z.of_nat (length h) |>
    <| capture_data := write_at (capture_data p) 0 h |>
    <| capture_data_ptr := Z.of_nat (length h) |>.

(** The timestamp is the 60 MHz tick count in nanoseconds. *)
Definition frame_time p (tov : bool) (ts : Z) : packet W :=
  let p := if tov then p <| capture_ts_int := u64 (capture_ts_int p + 1048576) |> else p in
  let p := p <| capture_ts := u64 ((capture_ts_int p + ts) * 100) / 6 |>
             <| capture_toggle := 1 - capture_toggle p |> in
  if UPDATE_INTERVAL <? s64 (u64 (capture_ts p - capture_last_ts p)) then timeout_event p else p.

(** The fields of the state [frame_step] runs the event on. *)
Definition data_fields p (n : Z) (ov crc de : bool) (dur : Z) : packet W :=
  p <| capture_size := n |> <| capture_overflow := ov |>
    <| capture_crc_error := crc |> <| capture_data_error := de |>
    <| capture_duration := dur |> <| capture_header := (n =? 0) |>
    <| capture_data_ptr := 0 |>.

(** A complete payload was stored. *)
Definition payload_stored p (d : list Z) (ov crc de : bool) (dur : Z) : packet W :=
  let n := Z.of_nat (length d) in
  let p := data_fields p n ov crc de dur in
  p <| capture_data := write_at (capture_data p) 0 d |> <| capture_data_ptr := n |>
    <| capture_header := true |>.

Definition frame_step p (f : frame) : option (packet W) :=
  let p := stored_header p f in
  match f with
  | FStatus tov ts ls vbus trigger speed =>
      p ← status_event (frame_time p tov ts) ls (b2z vbus 1) (b2z trigger 1) speed;
      Some (p <| capture_data_ptr := 0 |>)
  | FData tov ts ov crc de dur payload =>
      let n := Z.of_nat (length payload) in
      let p := frame_time p tov ts in
      if n =? 0 then Some (data_fields p n ov crc de dur)
      else
        p ← data_event (payload_stored p payload ov crc de dur);
        Some (p <| capture_data_ptr := 0 |>)
  end.

Fixpoint run_frames p (fs : list frame) : option (packet W) :=
  match fs with
  | [] => Some p
  | f :: fs => p ← frame_step p f; if done p then Some p else run_frames p fs
  end.

(** Between frames. *)
Definition at_frame p : Prop :=
  capture_header p = true /\ capture_data_ptr p = 0
  /\ core trivial_inv p
  /\ capture_ts_int p mod 1048576 = 0 /\ u64_ok (capture_ts_int p)
  /\ (capture_toggle p = 0 \/ capture_toggle p = 1).

(** *** Filling the buffer *)

Lemma write_at_cons {A} (d : list A) i b l :
  (i + S (length l) <= length d)%nat ->
  write_at (<[i := b]> d) (S i) l = write_at d i (b :: l).
Proof.
  intros Hl. unfold write_at. cbn [length].
  replace (S i + length l)%nat with (i + S (length l))%nat by lia.
  rewrite drop_insert_lt by lia. rewrite insert_take_drop by lia.
  rewrite take_app_ge by (rewrite length_take; lia). rewrite length_take, Nat.min_l by lia.
  replace (S i - i)%nat with 1%nat by lia. cbn [take]. rewrite firstn_O.
  by rewrite <- app_assoc.
Qed.

(** A state past the first byte of its header, or inside a payload. *)
Definition filling p : Prop :=
  done p = false /\ 0 <= capture_data_ptr p
  /\ (capture_header p = true -> 0 < capture_data_ptr p).

Lemma capture_sm_store p b :
  filling p -> capture_data_ptr p < Z.of_nat (length (capture_data p)) ->
  let q := p <| capture_data := <[Z.to_nat (capture_data_ptr p) := b]> (capture_data p) |>
             <| capture_data_ptr := capture_data_ptr p + 1 |> in
  capture_sm p b
  = if capture_data_ptr q <? capture_size q then Some q
    else if capture_header q then header_complete q
    else p ← data_event (q <| capture_header := true |>); Some (p <| capture_data_ptr := 0 |>).
Proof.
  intros (Hd & Hp & Hh) Hl q. unfold capture_sm.
  replace (capture_header p && (0 =? capture_data_ptr p)) with false.
  2:{ destruct (capture_header p); [|done]. destruct (Z.eqb_spec 0 (capture_data_ptr p)); [|done].
      specialize (Hh eq_refl). lia. }
  rewrite set_at_Some by lia. reflexivity.
Qed.

Lemma feed_fill l p r :
  filling p ->
  capture_data_ptr p + Z.of_nat (length l) < capture_size p ->
  capture_data_ptr p + Z.of_nat (length l) <= Z.of_nat (length (capture_data p)) ->
  packet_feed_loop p (l ++ r)
  = packet_feed_loop
      (p <| capture_data := write_at (capture_data p) (Z.to_nat (capture_data_ptr p)) l |>
         <| capture_data_ptr := capture_data_ptr p + Z.of_nat (length l) |>) r.
Proof.
  revert p. induction l as [|b l IH]; intros p Hf Hs Hl.
  - cbn [app length]. rewrite Z.add_0_r. unfold write_at. cbn [length app].
    rewrite Nat.add_0_r, take_drop. by destruct p.
  - cbn [app packet_feed_loop]. cbn [length] in *.
    rewrite capture_sm_store by (done || lia). cbv zeta.
    set (q := p <| capture_data := <[_ := b]> _ |> <| capture_data_ptr := _ |>).
    assert (Eq : capture_data_ptr q = capture_data_ptr p + 1 /\ capture_size q = capture_size p
                 /\ done q = done p /\ capture_header q = capture_header p
                 /\ length (capture_data q) = length (capture_data p)).
    { split_and!; try done. apply length_insert. }
    destruct Eq as (E1 & E2 & E3 & E4 & E5). destruct Hf as (Hd & Hp & Hh).
    rewrite (proj2 (Z.ltb_lt _ _)) by lia. cbn [mbind option_bind]. rewrite E3, Hd.
    rewrite IH; [|split_and!; [congruence|lia|lia]|lia|lia].
    change (capture_data q) with (<[Z.to_nat (capture_data_ptr p) := b]> (capture_data p)).
    rewrite E1.
    replace (Z.to_nat (capture_data_ptr p + 1)) with (S (Z.to_nat (capture_data_ptr p))) by lia.
    rewrite write_at_cons by (cbn [length]; lia).
    replace (capture_data_ptr p + 1 + Z.of_nat (length l))
      with (capture_data_ptr p + Z.of_nat (S (length l))) by lia.
    reflexivity.
Qed.
Lemma write_at_snoc {A} (d l : list A) i b :
  (i + length l < length d)%nat ->
  <[(i + length l)%nat := b]> (write_at d i l) = write_at d i (l ++ [b]).
Proof.
  intros Hl. unfold write_at.
  destruct (lookup_lt_is_Some_2 d (i + length l)) as [x Ex]; [lia|].
  rewrite (drop_S _ _ _ Ex).
  rewrite insert_app_r_alt by (rewrite length_take; lia).
  rewrite length_take, Nat.min_l by lia. f_equal.
  rewrite insert_app_r_alt by lia.
  replace (i + length l - i - length l)%nat with 0%nat by lia. cbn [insert list_insert].
  rewrite <- app_assoc, length_app. cbn [app length]. do 4 f_equal. lia.
Qed.

(** Storing the last byte runs the header or the payload event. *)
Definition complete p : option (packet W) :=
  if capture_header p then header_complete p
  else p ← data_event (p <| capture_header := true |>); Some (p <| capture_data_ptr := 0 |>).

Lemma feed_rest p l r :
  filling p -> l <> [] ->
  capture_data_ptr p + Z.of_nat (length l) = capture_size p ->
  capture_size p <= Z.of_nat (length (capture_data p)) ->
  packet_feed_loop p (l ++ r)
  = (q ← complete (p <| capture_data := write_at (capture_data p) (Z.to_nat (capture_data_ptr p)) l |>
                    <| capture_data_ptr := capture_size p |>);
     if done q then Some q else packet_feed_loop q r).
Proof.
  intros Hf Hne Hs Hl. destruct (exists_last Hne) as (l' & b & ->).
  rewrite length_app in Hs. cbn [length] in Hs.
  rewrite <- app_assoc. rewrite feed_fill by (done || lia).
  set (q := p <| capture_data := _ |> <| capture_data_ptr := _ |>).
  destruct Hf as (Hd & Hp & Hh).
  assert (Eq : capture_data_ptr q = capture_data_ptr p + Z.of_nat (length l')
               /\ capture_data q = write_at (capture_data p) (Z.to_nat (capture_data_ptr p)) l'
               /\ capture_size q = capture_size p) by done.
  destruct Eq as (E1 & E2 & E3).
  assert (Lq : length (capture_data q) = length (capture_data p)).
  { rewrite E2. apply length_write_at. lia. }
  cbn [app packet_feed_loop].
  assert (Hfq : filling q).
  { split; [exact Hd|]. rewrite E1. split; [lia|]. intros Ha. specialize (Hh Ha). lia. }
  rewrite (capture_sm_store q b Hfq) by lia. cbv zeta.
  set (q' := q <| capture_data := <[_ := b]> _ |> <| capture_data_ptr := _ |>).
  assert (E1' : capture_data_ptr q' = capture_size p /\ capture_size q' = capture_size p).
  { split; [|done]. change (capture_data_ptr q') with (capture_data_ptr q + 1). lia. }
  destruct E1' as [E1' E3']. rewrite E1', E3', Z.ltb_irrefl.
  replace q' with (p <| capture_data := write_at (capture_data p) (Z.to_nat (capture_data_ptr p)) (l' ++ [b]) |>
                    <| capture_data_ptr := capture_size p |>); [done|].
  subst q'. rewrite E1, E2.
  replace (capture_data_ptr p + Z.of_nat (length l') + 1) with (capture_size p) by lia.
  replace (Z.to_nat (capture_data_ptr p + Z.of_nat (length l')))
    with (Z.to_nat (capture_data_ptr p) + length l')%nat by lia.
  rewrite write_at_snoc by lia. reflexivity.
Qed.

(** A whole header, from its first byte. *)
Lemma feed_header p h r st :
  at_frame p -> done p = false ->
  Z.of_nat (length h) = (if st : bool then STATUS_HEADER_SIZE else DATA_HEADER_SIZE) ->
  (0 =? Z.land (h !!! 0%nat) HEADER_STATUS) = st ->
  packet_feed_loop p (h ++ r)
  = (q ← header_complete
           (p <| capture_status := st |> <| capture_size := Z.of_nat (length h) |>
              <| capture_data := write_at (capture_data p) 0 h |>
              <| capture_data_ptr := Z.of_nat (length h) |>);
     if done q then Some q else packet_feed_loop q r).
Proof.
  intros (Hh & Hp & Hc & _) Hd Hlen Hst. pose proof (core_data_len _ _ Hc) as Hl.
  clear Hc. unfold DATA_BUF_SIZE in Hl.
  destruct h as [|b h]; [by destruct st|]. cbn [length] in *. cbn [lookup_total list_lookup_total] in Hst.
  assert (7 <= Z.of_nat (length (capture_data p))) by lia.
  assert (Hn : 3 <= Z.of_nat (length h) <= 6).
  { unfold STATUS_HEADER_SIZE, DATA_HEADER_SIZE in *. destruct st; lia. }
  cbn [app packet_feed_loop]. unfold capture_sm at 1. rewrite Hh, Hp.
  change (true && (0 =? 0)) with true. rewrite Hst.
  set (p1 := p <| capture_status := st |> <| capture_size := _ |>).
  change (capture_data_ptr p1) with (capture_data_ptr p). rewrite Hp.
  rewrite set_at_Some by (change (capture_data p1) with (capture_data p); lia).
  cbn [mbind option_bind]. cbv zeta.
  set (p2 := p1 <| capture_data := _ |> <| capture_data_ptr := _ |>).
  assert (E2 : capture_data_ptr p2 = 1 /\ capture_size p2 = Z.of_nat (S (length h))
    /\ capture_data p2 = <[0%nat := b]> (capture_data p) /\ done p2 = false
    /\ capture_header p2 = true) by (split_and!; done).
  destruct E2 as (E1 & E2 & E3 & E4 & E5).
  rewrite E1, E2. rewrite (proj2 (Z.ltb_lt _ _)) by lia. cbn [mbind option_bind]. rewrite E4.
  rewrite feed_rest.
  - rewrite E1, E2, E3. unfold complete.
    change (capture_header (p2 <| capture_data := ?x |> <| capture_data_ptr := ?y |>)) with (capture_header p2).
    rewrite E5. rewrite (write_at_cons _ 0) by (cbn; lia).
    subst p2 p1. cbn -[write_at packet_feed_loop header_complete]. by rewrite Hlen.
  - split_and!; [done|lia|lia].
  - destruct h; [cbn in Hn; lia|discriminate].
  - rewrite E1, E2. lia.
  - rewrite E2, E3, length_insert. lia.
Qed.
(** *** Decoding a header *)

Lemma byte_fields b7 b6 b5 b4 hi :
  0 <= hi < 16 -> 0 <= b6 < 2 ->
  let b := b2z b7 0x80 + b6 * 0x40 + b2z b5 0x20 + b2z b4 0x10 + hi in
  has b 0x80 = b7 /\ has b 0x40 = (b6 =? 1) /\ has b 0x20 = b5 /\ has b 0x10 = b4
  /\ Z.land b 0xf = hi.
Proof.
  intros Hh H6 b.
  change 0x80 with (2 ^ 7). change 0x40 with (2 ^ 6). change 0x20 with (2 ^ 5).
  change 0x10 with (2 ^ 4). change 0xf with (2 ^ 4 - 1).
  rewrite !has_div, land_low by lia. subst b.
  change (2 ^ 7) with 128. change (2 ^ 6) with 64. change (2 ^ 5) with 32. change (2 ^ 4) with 16.
  assert (b6 = 0 \/ b6 = 1) as [-> | ->] by lia;
    destruct b7, b5, b4; unfold b2z; (split_and!; [..|divmod]);
    match goal with |- negb (?x =? 0) = _ =>
      (replace x with 0 by divmod; reflexivity) || (replace x with 1 by divmod; reflexivity) end.
Qed.

Lemma ts_lor ts_int ts :
  ts_int mod 1048576 = 0 -> 0 <= ts < 1048576 -> Z.lor ts_int ts = ts_int + ts.
Proof.
  intros Hm Ht. rewrite Z.lor_comm.
  replace ts_int with (Z.shiftl (ts_int / 2 ^ 20) 20)
    by (rewrite Z.shiftl_mul_pow2 by lia; change (2 ^ 20) with 1048576; divmod).
  rewrite lor_shiftl_add by (change (2 ^ 20) with 1048576; lia).
  rewrite Z.shiftl_mul_pow2 by lia. lia.
Qed.

Lemma lor3 a b c :
  0 <= b < 256 -> 0 <= c < 256 ->
  Z.lor (Z.lor (Z.shiftl a 16) (Z.shiftl b 8)) c = a * 65536 + b * 256 + c.
Proof.
  intros Hb Hc.
  rewrite (Z.lor_comm (Z.shiftl a 16)), Z.lor_comm, Z.lor_assoc.
  rewrite (lor_shiftl_add c b 8) by (change (2 ^ 8) with 256; lia).
  rewrite lor_shiftl_add by (change (2 ^ 8) with 256; change (2 ^ 16) with 65536; lia).
  change (2 ^ 8) with 256. change (2 ^ 16) with 65536. lia.
Qed.

Lemma lor2 a b : 0 <= b < 256 -> Z.lor (Z.shiftl a 8) b = a * 256 + b.
Proof.
  intros Hb. rewrite Z.lor_comm, lor_shiftl_add by (change (2 ^ 8) with 256; lia).
  change (2 ^ 8) with 256. lia.
Qed.

Lemma frame_time_touched p tov ts :
  exists w lt ls,
    frame_time p tov ts
    = touched (p <| capture_ts_int := if tov then u64 (capture_ts_int p + 1048576) else capture_ts_int p |>
                 <| capture_ts := u64 (((if tov then u64 (capture_ts_int p + 1048576)
                                         else capture_ts_int p) + ts) * 100) / 6 |>
                 <| capture_toggle := 1 - capture_toggle p |>) w lt ls.
Proof.
  unfold frame_time. cbv zeta.
  assert (E : (if tov then p <| capture_ts_int := u64 (capture_ts_int p + 1048576) |> else p)
          = p <| capture_ts_int := if tov then u64 (capture_ts_int p + 1048576) else capture_ts_int p |>)
    by (destruct tov, p; reflexivity).
  rewrite E. clear E. set (i := if tov then _ else _). clearbody i.
  set (q := p <| capture_ts_int := i |>).
  change (capture_toggle q) with (capture_toggle p). change (capture_ts_int q) with i.
  set (q' := q <| capture_ts := _ |> <| capture_toggle := _ |>).
  assert (Hid : exists w lt ls, q' = touched q' w lt ls).
  { do 3 eexists. symmetry. apply touched_id. }
  destruct (_ <? _); [|exact Hid]. unfold timeout_event. destruct (capture_enabled q'); [|exact Hid].
  destruct (capture_info_touched q' (capture_ts q') (cstr "Periodic update")) as [w ->]. eauto.
Qed.
Lemma data_byte3 de crc ov hi :
  0 <= hi < 8 ->
  let b := b2z de 0x20 + b2z crc 0x10 + b2z ov 0x08 + hi in
  has b 0x20 = de /\ has b 0x10 = crc /\ has b 0x08 = ov /\ Z.land b 0x7 = hi.
Proof.
  intros Hh b. change 0x20 with (2 ^ 5). change 0x10 with (2 ^ 4). change 0x08 with (2 ^ 3).
  change 0x7 with (2 ^ 3 - 1). rewrite !has_div, land_low by lia. subst b.
  change (2 ^ 5) with 32. change (2 ^ 4) with 16. change (2 ^ 3) with 8.
  destruct de, crc, ov; unfold b2z; (split_and!; [..|divmod]);
    match goal with |- negb (?x =? 0) = _ =>
      (replace x with 0 by divmod; reflexivity) || (replace x with 1 by divmod; reflexivity) end.
Qed.

Lemma status_byte3 speed trigger vbus ls :
  0 <= ls < 16 -> 0 <= speed < 4 ->
  let b := speed * 64 + b2z trigger 0x20 + b2z vbus 0x10 + ls in
  has b 0x20 = trigger /\ has b 0x10 = vbus /\ Z.land b 0xf = ls
  /\ Z.land (Z.shiftr b 6) 0x3 = speed.
Proof.
  intros Hl Hs b. rewrite Z.shiftr_div_pow2 by lia.
  change 0x20 with (2 ^ 5). change 0x10 with (2 ^ 4). change 0xf with (2 ^ 4 - 1).
  change 0x3 with (2 ^ 2 - 1). rewrite !has_div, !land_low by lia. subst b.
  change (2 ^ 6) with 64. change (2 ^ 5) with 32. change (2 ^ 4) with 16. change (2 ^ 2) with 4.
  destruct trigger, vbus; unfold b2z; (split_and!; [..|divmod|divmod]);
    match goal with |- negb (?x =? 0) = _ =>
      (replace x with 0 by divmod; reflexivity) || (replace x with 1 by divmod; reflexivity) end.
Qed.

Lemma length_header t f :
  Z.of_nat (length (frame_header t f))
  = match f with FStatus _ _ _ _ _ _ => STATUS_HEADER_SIZE | FData _ _ _ _ _ _ _ => DATA_HEADER_SIZE end.
Proof. by destruct f. Qed.

Lemma frame_first_decode st t tov ts tl d :
  0 <= ts < 1048576 -> t = 0 \/ t = 1 -> d = frame_first st t tov ts ++ tl ->
  has (d !!! 0%nat) HEADER_STATUS = negb st
  /\ has (d !!! 0%nat) HEADER_TOGGLE = (t =? 1)
  /\ has (d !!! 0%nat) HEADER_ZERO = false
  /\ has (d !!! 0%nat) HEADER_TS_OVERFLOW = tov
  /\ Z.lor (Z.lor (Z.shiftl (Z.land (d !!! 0%nat) 0xf) 16) (Z.shiftl (d !!! 1%nat) 8)) (d !!! 2%nat) = ts.
Proof.
  intros Ht Htog ->. unfold frame_first. cbn [app lookup_total list_lookup_total].
  destruct (byte_fields (negb st) t false tov (ts / 65536)) as (B7 & B6 & B5 & B4 & B0);
    [divmod|lia|].
  rewrite Z.add_0_r in B7, B6, B5, B4, B0.
  unfold HEADER_STATUS, HEADER_TOGGLE, HEADER_ZERO, HEADER_TS_OVERFLOW.
  rewrite B7, B6, B5, B4, B0, lor3 by divmod. split_and!; try done. divmod.
Qed.

(** What the walk does on the stored header of a well-formed frame. *)
Lemma check_header_stored p f zero :
  zero = 0 -> check_header (stored_header p f) (capture_toggle p) zero = stored_header p f.
Proof.
  intros ->. unfold check_header.
  change (capture_toggle (stored_header p f)) with (capture_toggle p). by rewrite Z.eqb_refl.
Qed.

Lemma stored_lookup p f i :
  (i < length (frame_header (capture_toggle p) f))%nat ->
  capture_data (stored_header p f) !!! i = frame_header (capture_toggle p) f !!! i.
Proof. apply write_at_front. Qed.

Lemma header_time_stored p f tov ts :
  (3 < length (frame_header (capture_toggle p) f))%nat ->
  has (frame_header (capture_toggle p) f !!! 0%nat) HEADER_TS_OVERFLOW = tov ->
  0 <= ts < 1048576 -> capture_ts_int p mod 1048576 = 0 -> 0 <= capture_ts_int p ->
  header_time (stored_header p f) ts (capture_toggle p) = frame_time (stored_header p f) tov ts.
Proof.
  intros Hn Ht Hts Hi Hi'. unfold header_time, frame_time. rewrite stored_lookup by lia. rewrite Ht.
  cbv zeta. set (q := stored_header p f).
  assert (Hq : capture_ts_int q mod 1048576 = 0 /\ capture_toggle q = capture_toggle p) by done.
  clearbody q. destruct Hq as [Hq Eq].
  set (q1 := if tov then _ else q).
  assert (H1 : capture_ts_int q1 mod 1048576 = 0 /\ capture_toggle q1 = capture_toggle p).
  { subst q1. destruct tov; [|done]. split; [|done]. cbn. unfold u64. divmod. }
  clearbody q1. destruct H1 as [H1 E1]. by rewrite ts_lor, E1.
Qed.

Lemma has_status b : has b HEADER_STATUS = negb (0 =? Z.land b HEADER_STATUS).
Proof. unfold has. by rewrite Z.eqb_sym. Qed.

Lemma frame_header_decode t f :
  frame_wf f -> t = 0 \/ t = 1 ->
  let d := frame_header t f in
  let st := match f with FStatus _ _ _ _ _ _ => true | _ => false end in
  let tov := match f with FStatus tov _ _ _ _ _ => tov | FData tov _ _ _ _ _ _ => tov end in
  let ts := match f with FStatus _ ts _ _ _ _ => ts | FData _ ts _ _ _ _ _ => ts end in
  0 <= ts < 1048576
  /\ (0 =? Z.land (d !!! 0%nat) HEADER_STATUS) = st
  /\ (if has (d !!! 0%nat) HEADER_TOGGLE then 1 else 0) = t
  /\ has (d !!! 0%nat) HEADER_ZERO = false
  /\ has (d !!! 0%nat) HEADER_TS_OVERFLOW = tov
  /\ Z.lor (Z.lor (Z.shiftl (Z.land (d !!! 0%nat) 0xf) 16) (Z.shiftl (d !!! 1%nat) 8)) (d !!! 2%nat) = ts.
Proof.
  intros Hf Ht d st tov ts.
  assert (Hts : 0 <= ts < 1048576) by (subst ts; destruct f; apply Hf).
  assert (exists tl, d = frame_first st t tov ts ++ tl) as [tl Hd]
    by (subst d st tov ts; destruct f; eexists; reflexivity).
  destruct (frame_first_decode st t tov ts tl d Hts Ht Hd) as (A & B & C & D & E).
  rewrite has_status in A. apply (f_equal negb) in A. rewrite !negb_involutive in A.
  split; [done|]. split; [done|]. split; [|done]. rewrite B. by destruct Ht as [-> | ->].
Qed.
Lemma data_fields_keep q n ov crc de dur :
  capture_header (data_fields q n ov crc de dur) = (n =? 0)
  /\ capture_toggle (data_fields q n ov crc de dur) = capture_toggle q
  /\ capture_ts_int (data_fields q n ov crc de dur) = capture_ts_int q
  /\ capture_data_ptr (data_fields q n ov crc de dur) = 0
  /\ done (data_fields q n ov crc de dur) = done q.
Proof. split_and!; reflexivity. Qed.

Lemma payload_stored_ok q d ov crc de dur :
  core trivial_inv q -> capture_header q = true ->
  Z.of_nat (length d) <= 1273 /\ bytes_ok d ->
  let r := payload_stored q d ov crc de dur in
  core trivial_inv r /\ capture_header r = true /\ capture_toggle r = capture_toggle q
  /\ capture_ts_int r = capture_ts_int q /\ capture_size r = Z.of_nat (length d).
Proof.
  intros Hc Hh [Hn Hd] r. split; [|by split_and!].
  pose proof (core_data_len _ _ Hc) as Hl. unfold DATA_BUF_SIZE in Hl.
  assert (Er : capture_data r = write_at (capture_data q) 0 d) by reflexivity.
  destruct Hc. constructor; try done; rewrite Er.
  - unfold DATA_BUF_SIZE. rewrite length_write_at; lia.
  - by apply bytes_ok_write_at.
Qed.

Lemma header_complete_stored p f :
  at_frame p -> frame_wf f ->
  header_complete (stored_header p f)
  = match f with
    | FStatus tov ts ls vbus trigger speed =>
        q ← status_event (frame_time (stored_header p f) tov ts) ls (b2z vbus 1) (b2z trigger 1) speed;
        Some (q <| capture_data_ptr := 0 |>)
    | FData tov ts ov crc de dur payload =>
        Some (data_fields (frame_time (stored_header p f) tov ts) (Z.of_nat (length payload)) ov crc de dur)
    end.
Proof.
  intros (Hh & Hp & Hc & Hi & Hi' & Htg) Hf.
  destruct (frame_header_decode (capture_toggle p) f Hf Htg) as (Hts & D0 & D1 & D2 & D3 & D4).
  pose proof (length_header (capture_toggle p) f) as Hlen. unfold STATUS_HEADER_SIZE, DATA_HEADER_SIZE in Hlen.
  assert (H4 : (3 < length (frame_header (capture_toggle p) f))%nat) by (destruct f; lia).
  unfold header_complete. rewrite !stored_lookup by lia. rewrite D1, D2, D4. cbv zeta.
  rewrite check_header_stored by done. erewrite header_time_stored; [|done|exact D3|done|done|lia].
  destruct (frame_time_touched (stored_header p f)
    match f with FStatus tov _ _ _ _ _ => tov | FData tov _ _ _ _ _ _ => tov end
    match f with FStatus _ ts _ _ _ _ => ts | FData _ ts _ _ _ _ _ => ts end) as (w & lt & ls' & E).
  set (q := frame_time _ _ _) in *.
  assert (Eq : capture_status q = capture_status (stored_header p f)
               /\ capture_data q = capture_data (stored_header p f)) by by rewrite E.
  clear E. destruct Eq as [E1 E2]. rewrite E1. destruct f as [tov ts ls vbus trigger speed|].
  - change (capture_status (stored_header _ _)) with true. cbn match.
    unfold header_status, HEADER_TRIGGER, HEADER_VBUS, HEADER_LS_MASK, HEADER_SPEED_OFFS, HEADER_SPEED_MASK.
    rewrite E2, stored_lookup by done.
    cbn [frame_header frame_first app lookup_total list_lookup_total].
    destruct Hf as (_ & Hls & Hsp). destruct (status_byte3 speed trigger vbus ls Hls Hsp) as (-> & -> & -> & ->).
    subst q. reflexivity.
  - change (capture_status (stored_header _ _)) with false. cbn match.
    destruct Hf as (_ & Hdur & Hn & Hb).
    unfold header_data, HEADER_OVERFLOW, HEADER_CRC_ERROR, HEADER_DATA_ERROR.
    rewrite E2, !stored_lookup by (rewrite <- Nat2Z.id, Hlen; lia).
    cbn [frame_header frame_first app lookup_total list_lookup_total].
    set (n := Z.of_nat (length payload)) in *.
    destruct (data_byte3 data_error crc_error overflow ((n + 7) / 256)) as (-> & -> & -> & ->); [divmod|].
    rewrite !lor2 by divmod.
    replace ((n + 7) / 256 * 256 + (n + 7) mod 256) with (n + 7) by divmod.
    replace (duration / 256 * 256 + duration mod 256) with duration by divmod.
    unfold DATA_HEADER_SIZE, MAX_DATA_SIZE.
    rewrite !(proj2 (Z.ltb_ge _ _)) by lia. cbn [orb]. cbv zeta.
    replace (n + 7 - 7) with n by lia. unfold data_fields. do 2 f_equal.
Qed.
Lemma bytes_ok_header t f : t = 0 \/ t = 1 -> frame_wf f -> bytes_ok (frame_header t f).
Proof.
  intros Ht Hf.
  assert (H1 : forall st tov ts, 0 <= ts < 1048576 -> bytes_ok (frame_first st t tov ts)).
  { intros st tov ts Hts. unfold frame_first, b2z.
    repeat apply Forall_cons_2; [destruct st, tov; cbn [negb]; divmod|divmod..|constructor]. }
  destruct f as [tov ts ls vbus trigger speed|tov ts ov crc de dur d]; cbn [frame_header];
    apply bytes_ok_app_2; try (apply H1, Hf); unfold b2z; repeat apply Forall_cons_2; try apply Forall_nil.
  - destruct Hf as (_ & ? & ?). destruct vbus, trigger; lia.
  - destruct Hf as (_ & ? & ? & _). destruct ov, crc, de; divmod.
  - divmod.
  - destruct Hf as (_ & ? & _). divmod.
  - divmod.
Qed.

Lemma stored_header_core p f :
  at_frame p -> frame_wf f -> core trivial_inv (stored_header p f).
Proof.
  intros (Hh & Hp & Hc & Hi & Hi' & Htg) Hf. pose proof (core_data_len _ _ Hc) as Hl.
  pose proof (length_header (capture_toggle p) f) as Hlen.
  unfold DATA_BUF_SIZE, STATUS_HEADER_SIZE, DATA_HEADER_SIZE in *.
  destruct Hc. constructor; try done; cbn.
  - rewrite length_write_at; [done|]. destruct f; lia.
  - apply bytes_ok_write_at; [done|]. by apply bytes_ok_header.
Qed.

Lemma frame_time_core p f tov ts :
  at_frame p -> frame_wf f ->
  tov = match f with FStatus tov _ _ _ _ _ => tov | FData tov _ _ _ _ _ _ => tov end ->
  ts = match f with FStatus _ ts _ _ _ _ => ts | FData _ ts _ _ _ _ _ => ts end ->
  core trivial_inv (frame_time (stored_header p f) tov ts).
Proof.
  intros Hp Hf -> ->. pose proof (stored_header_core p f Hp Hf) as Hc.
  destruct Hp as (Hh & Hp & _ & Hi & Hi' & Htg).
  destruct (frame_header_decode (capture_toggle p) f Hf Htg) as (Hts & _ & _ & _ & D3 & _).
  pose proof (length_header (capture_toggle p) f) as Hlen. unfold STATUS_HEADER_SIZE, DATA_HEADER_SIZE in Hlen.
  erewrite <- header_time_stored; [|destruct f; lia|exact D3|done|done|lia].
  by apply header_time_ok.
Qed.

Lemma frame_time_fields p f tov ts :
  at_frame p ->
  let q := frame_time (stored_header p f) tov ts in
  capture_header q = true /\ done q = done p
  /\ capture_data q = capture_data (stored_header p f)
  /\ capture_toggle q = 1 - capture_toggle p
  /\ capture_ts_int q mod 1048576 = 0 /\ u64_ok (capture_ts_int q).
Proof.
  intros (Hh & Hp & _ & Hi & Hi' & Htg) q. subst q.
  destruct (frame_time_touched (stored_header p f) tov ts) as (w & lt & ls & ->).
  do 4 (split; [done|]).
  change (capture_ts_int (touched _ _ _ _))
    with (if tov then u64 (capture_ts_int p + 1048576) else capture_ts_int p).
  destruct tov; [|done]. split; [|apply u64_range]. unfold u64. divmod.
Qed.

Lemma at_frame_after p q t :
  capture_header q = true -> core trivial_inv q ->
  capture_toggle q = 1 - t -> t = 0 \/ t = 1 ->
  capture_ts_int q mod 1048576 = 0 -> u64_ok (capture_ts_int q) ->
  p = q <| capture_data_ptr := 0 |> -> at_frame p /\ capture_toggle p = 1 - t.
Proof.
  intros Hh Hc Ht Ht' Hi Hi' ->. split; [|done]. split_and!; try done; try apply Hi'.
  - destruct Hc. by constructor.
  - cbn. lia.
Qed.

Lemma frame_step_ok p f :
  at_frame p -> frame_wf f ->
  exists q, frame_step p f = Some q /\ at_frame q /\ capture_toggle q = 1 - capture_toggle p.
Proof.
  intros Hp Hf. pose proof (frame_time_core p f _ _ Hp Hf eq_refl eq_refl) as Hc.
  pose proof Hp as (_ & _ & _ & _ & _ & Htg).
  destruct f as [tov ts ls vbus trigger speed|tov ts ov crc de dur d] eqn:Ef; cbn [frame_step];
    destruct (frame_time_fields p f tov ts Hp) as (F1 & _ & F3 & F4 & F5 & F6); rewrite Ef in *;
    cbv zeta in *; set (q := frame_time _ _ _) in *; clearbody q.
  - destruct (status_event_ok _ q ls (b2z vbus 1) (b2z trigger 1) speed Hc) as (r & -> & C & E).
    cbn [mbind option_bind]. eexists. split; [done|]. injection E as E1 E2 E3 E4 E5 E6 E7 E8.
    eapply (at_frame_after _ r); try done; congruence.
  - set (n := Z.of_nat (length d)). assert (Hn : 0 <= n <= 1273) by (destruct Hf as (_ & _ & ? & _); lia).
    assert (C1 : core trivial_inv (data_fields q n ov crc de dur)) by (destruct Hc; by constructor).
    destruct (Z.eqb_spec n 0) as [E0|E0].
    { eexists. split; [reflexivity|].
      destruct (data_fields_keep q n ov crc de dur) as (K1 & K2 & K3 & K4 & _).
      set (r := data_fields _ _ _ _ _ _) in *. clearbody r.
      apply (at_frame_after r r); try congruence; [by rewrite K1, E0|].
      by destruct r; cbn in *; subst. }
    destruct (payload_stored_ok q d ov crc de dur Hc F1 (proj2 (proj2 Hf))) as (C2 & K1 & K2 & K3 & K4).
    fold n. set (r := payload_stored q d ov crc de dur) in *. clearbody r.
    destruct (data_event_ok _ r C2) as (x & -> & C & E); [by rewrite K4|]. cbn [mbind option_bind].
    eexists. split; [reflexivity|]. injection E as E1 E2 E3 E4 E5 E6 E7 E8.
    apply (at_frame_after _ x); try done; congruence.
Qed.

Lemma feed_payload_bytes p d r :
  done p = false -> capture_header p = false -> capture_data_ptr p = 0 ->
  capture_size p = Z.of_nat (length d) ->
  0 < Z.of_nat (length d) <= Z.of_nat (length (capture_data p)) ->
  packet_feed_loop p (d ++ r)
  = (x ← (p ← data_event (p <| capture_data := write_at (capture_data p) 0 d |>
                            <| capture_data_ptr := Z.of_nat (length d) |>
                            <| capture_header := true |>);
          Some (p <| capture_data_ptr := 0 |>));
     if done x then Some x else packet_feed_loop x r).
Proof.
  intros Hd Hh Hp Hs Hn. rewrite feed_rest.
  - unfold complete. change (capture_header (_ <| capture_data := ?x |> <| capture_data_ptr := ?y |>))
      with (capture_header p).
    rewrite Hh, Hp, Hs. reflexivity.
  - split_and!; [done|lia|congruence].
  - destruct d; [cbn in Hn; lia|done].
  - lia.
  - lia.
Qed.

Lemma feed_payload q d r ov crc de dur :
  core trivial_inv q -> done q = false -> 0 < Z.of_nat (length d) <= 1273 ->
  packet_feed_loop (data_fields q (Z.of_nat (length d)) ov crc de dur) (d ++ r)
  = (x ← (p ← data_event (payload_stored q d ov crc de dur); Some (p <| capture_data_ptr := 0 |>));
     if done x then Some x else packet_feed_loop x r).
Proof.
  intros Hc Hd Hn. pose proof (core_data_len _ _ Hc) as Hl. unfold DATA_BUF_SIZE in Hl.
  destruct (data_fields_keep q (Z.of_nat (length d)) ov crc de dur) as (K1 & _ & _ & K4 & K5).
  unfold payload_stored. cbv zeta. apply feed_payload_bytes.
  - congruence.
  - rewrite K1. apply Z.eqb_neq. lia.
  - done.
  - done.
  - change (capture_data (data_fields _ _ _ _ _ _)) with (capture_data q). lia.
Qed.

Lemma feed_frame p f r :
  at_frame p -> frame_wf f -> done p = false ->
  packet_feed_loop p (encode_frame (capture_toggle p) f ++ r)
  = (q ← frame_step p f; if done q then Some q else packet_feed_loop q r).
Proof.
  intros Hp Hf Hd. unfold encode_frame. rewrite <- app_assoc.
  pose proof Hp as (_ & _ & _ & _ & _ & Htg).
  destruct (frame_header_decode (capture_toggle p) f Hf Htg) as (_ & D0 & _).
  rewrite (feed_header p _ _ match f with FStatus _ _ _ _ _ _ => true | _ => false end Hp Hd);
    [|rewrite length_header; by destruct f|done].
  match goal with |- (q ← header_complete ?s; _) = _ => change s with (stored_header p f) end.
  rewrite header_complete_stored by done.
  pose proof (frame_time_core p f _ _ Hp Hf eq_refl eq_refl) as Hc.
  destruct f as [tov ts ls vbus trigger speed|tov ts ov crc de dur d] eqn:Ef;
    cbn [frame_step frame_payload app].
  { by destruct (status_event _ _ _ _ _). }
  destruct (frame_time_fields p f tov ts Hp) as (F1 & F2 & F3 & F4 & F5 & F6); rewrite Ef in *.
  cbv zeta in *.
  set (q := frame_time _ _ _) in *. clearbody q.
  cbn [mbind option_bind].
  destruct (data_fields_keep q (Z.of_nat (length d)) ov crc de dur) as (_ & _ & _ & _ & K5).
  rewrite K5, F2, Hd.
  destruct (Z.eqb_spec (Z.of_nat (length d)) 0) as [E0|E0]; cbn [mbind option_bind].
  { destruct d; [|cbn in E0; lia]. cbn [app]. by rewrite K5, F2, Hd. }
  destruct Hf as (_ & _ & Hn & _).
  apply (feed_payload q d); [done|congruence|lia].
Qed.

Lemma feed_frames fs p :
  at_frame p -> Forall frame_wf fs -> done p = false ->
  packet_feed_loop p (encode_frames (capture_toggle p) fs) = run_frames p fs
  /\ exists q, run_frames p fs = Some q.
Proof.
  intros Hp Hfs. revert p Hp. induction Hfs as [|f fs Hf Hfs IH]; intros p Hp Hd; [split; eauto|].
  cbn [encode_frames run_frames]. rewrite feed_frame by done.
  destruct (frame_step_ok p f Hp Hf) as (q & -> & Hq & Et). cbn [mbind option_bind].
  destruct (done q) eqn:Ed; [split; eauto|]. rewrite <- Et. by apply IH.
Qed.

(** A session starts between frames. *)
Lemma session_at_frame o (w : W) :
  0 <= capture_trigger o <= 4 -> at_frame (packet_announce (packet_new o w)).
Proof.
  intros Ho. destruct (announce_ok trivial_inv (packet_new o w)) as [Ha E]; [by apply core_new|].
  set (q := packet_announce _) in *. clearbody q. injection E. intros.
  unfold at_frame. split_and!; try done; try congruence; try (replace (capture_ts_int q) with 0; done || lia).
Qed.

(** C8: the byte walk implements the frame machine: fed the encoding of any
    well-formed frames with alternating toggle bits, from a state between frames,
    it ends in exactly the state of decoding each frame at once and running its
    event, stopping where the capture is done. *)
Theorem packet_feed_frames p fs :
  at_frame p -> Forall frame_wf fs ->
  exists q, packet_feed p (encode_frames (capture_toggle p) fs) = Some q
    /\ (if done p then q = p else run_frames p fs = Some q).
Proof.
  intros Hp Hfs. unfold packet_feed. destruct (done p) eqn:Ed; [by exists p|].
  destruct (feed_frames fs p Hp Hfs Ed) as (E & q & Eq). exists q. by rewrite E.
Qed.
End Frames.

(** A session over the record log, a status frame and a three-byte packet. *)
Lemma packet_feed_frames_witness :
  let p := packet_announce (packet_new (mk_opts true false 1 0 (-1)) ([] : list record)) in
  let fs := [FStatus false 5 0 true false 1; FData false 9 false false false 0 [0xa5; 1; 2]] in
  exists q, packet_feed p (encode_frames (capture_toggle p) fs) = Some q
    /\ (if done p then q = p else run_frames p fs = Some q).
Proof.
  intros p fs. apply packet_feed_frames.
  - apply session_at_frame. cbn. lia.
  - unfold fs. forall_concrete; cbn [frame_wf length]; forall_concrete.
Defined.
