(* ===== verification/PacketLog.v ===== *)
(** * What the frame layer writes (src/packet.c)

    Run over the record log, the events of [packet.c] are described by the records
    they append: unfolding, losslessness, the capture limit, the trigger gate, and
    what a desynchronized status frame does. *)

From Stdlib Require Import String Sorted.
From S2P Require Import Prelude Format Pcapng Packet PacketFrames.
Local Open Scope list_scope.

(** ** What the log shows *)

Section Log.
Implicit Types p q : packet (list record).

Definition is_info (r : record) : Prop := match r with Info _ _ => True | Packet _ _ => False end.

(** The packets of a log, and the packets it can still grow by unfolding. *)
Definition packets (l : list record) : list record :=
  List.filter (fun r => match r with Packet _ _ => true | Info _ _ => false end) l.

Arguments packets : simpl never.

Lemma packets_app l k : packets (l ++ k) = packets l ++ packets k.
Proof. apply List.filter_app. Qed.

Lemma packets_one l ts d : packets (l ++ [Packet ts d]) = packets l ++ [Packet ts d].
Proof. by rewrite packets_app. Qed.

Lemma flushed_log p : exists l, flushed p = out p ++ l /\ Forall is_info l.
Proof.
  unfold flushed. destruct (_ || _).
  - exists []. by rewrite app_nil_r.
  - eexists [_]. split; [reflexivity|]. by constructor.
Qed.

Lemma packets_info l : Forall is_info l -> packets l = [].
Proof. induction 1 as [|[ts d|ts d] l Hr Hl IH]; [done|done|apply IH]. Qed.

Lemma capture_info_log p ts str :
  exists l, capture_info p ts str = touched p (out p ++ l) ts LS_INVALID /\ Forall is_info l.
Proof.
  rewrite capture_info_eq. destruct (flushed_log p) as (l & -> & Hl). cbn [out_info log_out].
  rewrite <- app_assoc. eexists. split; [reflexivity|]. apply Forall_app. split; [done|by constructor].
Qed.

Lemma line_state_log p :
  exists l ts, line_state_event p = touched p (out p ++ l) ts LS_INVALID /\ Forall is_info l.
Proof.
  rewrite line_state_event_eq. destruct (flushed_log p) as (l & -> & Hl). by do 2 eexists.
Qed.

(** *** Folding *)

(** The record of an unfolded frame, written no earlier than [last]. *)
Definition frame_record (ts : Z) (f : CaptureFrame) : record :=
  if f_size f <? 0 then Info ts (cstr "Keep-alive")
  else Packet ts (take (Z.to_nat (f_size f)) (f_data f)).

Fixpoint unfold_records (last : Z) (fs : list CaptureFrame) : list record :=
  match fs with
  | [] => []
  | f :: fs =>
      let ts := Z.max last (f_ts f) in
      frame_record ts f :: unfold_records ts fs
  end.

Definition fold_summary (ts count : Z) : list record :=
  if count =? 1 then [Info ts (cstr "Folded empty frame")]
  else if 1 <? count then [Info ts (cstr "Folded " ++ dec count ++ cstr " empty frames")]
  else [].

Definition record_ts (r : record) : Z := match r with Packet ts _ => ts | Info ts _ => ts end.

Lemma quiet_info p ts str :
  capture_saved_ls p = LS_INVALID -> Z.of_nat (length str) <= 511 ->
  capture_info p ts str = touched p (out p ++ [Info ts str]) ts LS_INVALID.
Proof.
  intros Hq Hl. rewrite capture_info_eq. unfold flushed. rewrite Hq. cbn [Z.eqb LS_INVALID Pos.eqb orb].
  cbn [out_info log_out]. rewrite Z.min_l by lia. rewrite Nat2Z.id, firstn_all. reflexivity.
Qed.

Lemma unfold_frame_log p i :
  capture_saved_ls p = LS_INVALID ->
  let f := capture_fold_buf p !!! i in
  let ts := Z.max (capture_last_ts p) (f_ts f) in
  unfold_frame p i = touched p (out p ++ [frame_record ts f]) ts LS_INVALID.
Proof.
  intros Hq f ts. unfold unfold_frame, frame_record. fold f.
  assert ((if f_ts f <? capture_last_ts p then capture_last_ts p else f_ts f) = ts) as ->.
  { subst ts. destruct (Z.ltb_spec (f_ts f) (capture_last_ts p)); lia. }
  destruct (f_size f <? 0).
  - apply quiet_info; [done|]. cbn. lia.
  - unfold write_packet, touched. cbn [out_epb log_out]. rewrite <- Hq. by destruct p.
Qed.

Lemma unfold_frames_log l p :
  capture_saved_ls p = LS_INVALID ->
  exists ts, fold_left unfold_frame l p
    = touched p (out p ++ unfold_records (capture_last_ts p)
                            (map (fun i => capture_fold_buf p !!! i) l)) ts LS_INVALID.
Proof.
  revert p. induction l as [|i l IH]; intros p Hq; cbn [fold_left map unfold_records].
  - exists (capture_last_ts p). rewrite app_nil_r, <- Hq. symmetry. apply touched_id.
  - rewrite unfold_frame_log by done.
    set (ts := Z.max _ _). set (q := touched p _ ts _).
    destruct (IH q eq_refl) as [ts' ->]. exists ts'. subst q.
    change (capture_fold_buf (touched p ?w ?t ?s)) with (capture_fold_buf p).
    change (capture_last_ts (touched p ?w ?t ?s)) with t.
    change (out (touched p ?w ?t ?s)) with w.
    rewrite touched_touched. by rewrite <- app_assoc.
Qed.

Lemma map_lookup_seq {A} `{Inhabited A} (l : list A) n :
  (n <= length l)%nat -> map (fun i => l !!! i) (seq 0 n) = take n l.
Proof.
  intros Hn. apply list_eq_same_length with (n := n).
  - by rewrite length_take, Nat.min_l.
  - by rewrite length_map, length_seq.
  - intros i x y Hi Hx Hy. rewrite list_lookup_fmap in Hx.
    rewrite lookup_seq_lt in Hx by done. cbn in Hx. injection Hx as <-.
    rewrite lookup_take_lt in Hy by done. by apply list_lookup_total_correct.
Qed.

Lemma unfold_records_sorted last fs :
  Sorted Z.le (last :: map record_ts (unfold_records last fs)).
Proof.
  revert last. induction fs as [|f fs IH]; intros last; cbn [unfold_records map].
  - repeat constructor.
  - assert (E : record_ts (frame_record (Z.max last (f_ts f)) f) = Z.max last (f_ts f))
      by (unfold frame_record; by destruct (_ <? _)).
    rewrite E. constructor; [apply IH|]. constructor. lia.
Qed.

(** Unfolding.  With no pending line state, [stop_folding] empties the folding
    buffer and appends to the log exactly the buffered frames in order, each at
    its own timestamp raised to the last one written, so that timestamps never
    step back, and then the summary of the frames folded away. *)
Theorem stop_folding_log p :
  core trivial_inv p -> capture_saved_ls p = LS_INVALID ->
  let frames := take (Z.to_nat (capture_fold_buf_ptr p)) (capture_fold_buf p) in
  let q := stop_folding p in
  out q = out p ++ unfold_records (capture_last_ts p) frames
                ++ fold_summary (capture_ts p) (capture_fold_count p)
  /\ Sorted Z.le (capture_last_ts p :: map record_ts (unfold_records (capture_last_ts p) frames))
  /\ capture_fold_buf_ptr q = 0 /\ capture_fold_count q = 0.
Proof.
  intros Hc Hq frames q.
  split; [|split; [apply unfold_records_sorted|]].
  2:{ subst q. by destruct (stop_folding_touched p) as (w & ts & ls & ->). }
  subst q. unfold stop_folding.
  destruct (Z.eqb_spec 0 (capture_fold_count p)) as [E|E];
    [destruct (Z.eqb_spec 0 (capture_fold_buf_ptr p)) as [E'|E']|]; cbn [andb].
  { subst frames. rewrite <- E', <- E. cbn. by rewrite app_nil_r. }
  all: cbv zeta; set (p0 := p <| capture_fold_count := 0 |> <| capture_fold_buf_ptr := 0 |>).
  all: destruct (unfold_frames_log (seq 0 (Z.to_nat (capture_fold_buf_ptr p))) p0 Hq) as [ts ->].
  all: change (capture_fold_buf p0) with (capture_fold_buf p).
  all: change (out p0) with (out p); change (capture_last_ts p0) with (capture_last_ts p).
  all: rewrite map_lookup_seq by (destruct Hc; unfold FOLD_BUF_SIZE in *; lia); fold frames.
  all: set (q := touched p0 _ ts LS_INVALID).
  all: assert (Hq' : capture_saved_ls q = LS_INVALID /\ capture_ts q = capture_ts p
        /\ out q = out p ++ unfold_records (capture_last_ts p) frames) by done.
  all: clearbody q; destruct Hq' as (Q1 & Q2 & Q3); unfold fold_summary; rewrite Q2.
  all: pose proof (length_dec (capture_fold_count p)).
  all: assert (Hd : Z.of_nat (length (cstr "Folded " ++ dec (capture_fold_count p)
                        ++ cstr " empty frames")) <= 511)
      by (rewrite !length_app; cbn [length cstr]; lia).
  all: repeat case_match; rewrite ?quiet_info by (done || (cbn; lia)); cbn [out touched];
    rewrite ?app_nil_r, Q3, ?app_assoc; done.
Qed.
(** *** Lossless capture *)

(** The fields the message-writing steps leave alone, with the packets written. *)
Definition ses p :=
  (packets (out p), opts p, capture_enabled p, capture_fold_buf_ptr p, capture_fold_count p, done p).

Lemma ses_touched p l ts ls : Forall is_info l -> ses (touched p (out p ++ l) ts ls) = ses p.
Proof.
  intros Hl. unfold ses. change (out (touched p ?w ?t ?s)) with w.
  by rewrite packets_app, (packets_info l Hl), app_nil_r.
Qed.

Lemma ses_info p ts str : ses (capture_info p ts str) = ses p.
Proof. destruct (capture_info_log p ts str) as (l & -> & Hl). by apply ses_touched. Qed.

Lemma ses_line_state p : ses (line_state_event p) = ses p.
Proof. destruct (line_state_log p) as (l & ts & -> & Hl). by apply ses_touched. Qed.

(** Untriggered, unfolded capture with room for [n] more counted events. *)
Record lossless (n : Z) p : Prop := {
  ll_fold : fold_empty (opts p) = false;
  ll_trigger : capture_trigger (opts p) = CaptureTrigger_Disabled;
  ll_enabled : capture_enabled p = true;
  ll_ptr : capture_fold_buf_ptr p = 0;
  ll_count : capture_fold_count p = 0;
  ll_done : done p = false;
  ll_room : (n < capture_limit (opts p) < 9223372036854775808)
            \/ (capture_limit (opts p) < 0 /\ n - 9223372036854775808 <= capture_limit (opts p));
}.

Lemma lossless_ses n p q : ses q = ses p -> lossless n p -> lossless n q.
Proof.
  intros E [? ? ? ? ? ? ?]. unfold ses in E. injection E as E1 E2 E3 E4 E5 E6.
  constructor; rewrite ?E2; congruence || (by rewrite E2 in *).
Qed.

Lemma ses_packets p q : ses q = ses p -> packets (out q) = packets (out p).
Proof. by intros [= ? _]. Qed.

Lemma lossless_weaken n m p : m <= n -> 0 <= m -> lossless n p -> lossless m p.
Proof. intros Hm Hm' [? ? ? ? ? ? ?]. constructor; try done. lia. Qed.

Lemma check_limit_lossless n p :
  0 <= n -> lossless (n + 1) p ->
  lossless n (check_capture_limit p) /\ packets (out (check_capture_limit p)) = packets (out p).
Proof.
  intros Hn [? ? ? ? ? ? Hr]. unfold check_capture_limit. cbv zeta.
  set (q := p <| opts := _ |>).
  assert (El : capture_limit (opts q) = capture_limit (opts p) - 1).
  { change (s64 (capture_limit (opts p) - 1) = capture_limit (opts p) - 1).
    apply s64_small. lia. }
  rewrite El. destruct (Z.eqb_spec (capture_limit (opts p) - 1) 0); [lia|].
  split; [|done]. constructor; try done. rewrite El. lia.
Qed.

Lemma keepalive_lossless n p ts delta q :
  0 <= n -> lossless (n + 1) p -> keepalive_event p ts delta = Some q ->
  lossless n q /\ packets (out q) = packets (out p).
Proof.
  intros Hn Hl. unfold keepalive_event. rewrite (ll_enabled _ _ Hl), (ll_fold _ _ Hl).
  cbn [negb mbind option_bind]. intros [= <-]. unfold write_keepalive.
  set (r := capture_info p ts _).
  assert (E : ses r = ses p) by apply ses_info.
  rewrite <- (ses_packets _ _ E). apply check_limit_lossless; [done|]. by eapply lossless_ses.
Qed.

Lemma status_trigger_lossless n p t q :
  lossless n p -> status_trigger p t = Some q -> lossless n q /\ packets (out q) = packets (out p).
Proof.
  intros Hl. unfold status_trigger. destruct (_ =? _); [by intros [= <-]|].
  unfold trigger_gate. rewrite (ll_trigger _ _ Hl). cbn [Z.eqb CaptureTrigger_Disabled]. cbv zeta.
  set (p1 := p <| capture_enabled := true |> <| capture_trigger_input := t |>).
  assert (E1 : ses p1 = ses p).
  { unfold ses. change (capture_enabled p1) with true. by rewrite <- (ll_enabled _ _ Hl). }
  set (p2 := capture_info p1 _ _). assert (E2 : ses p2 = ses p) by (unfold p2; by rewrite ses_info).
  intros [= <-].
  match goal with |- lossless n ?x /\ _ => assert (E : ses x = ses p) end.
  { repeat case_match; rewrite ?ses_info; done. }
  split; [by eapply lossless_ses|]. by apply ses_packets.
Qed.

Lemma status_vbus_ses p v : ses (status_vbus p v) = ses p.
Proof. unfold status_vbus. destruct (_ =? _); [done|]. cbv zeta. by rewrite ses_info. Qed.

Lemma status_speed_ses p v : ses (status_speed p v) = ses p.
Proof.
  unfold status_speed. destruct (_ =? _); [done|]. cbv zeta.
  repeat case_match; rewrite ?ses_info; done.
Qed.

Lemma status_ls_lossless n p ls q :
  0 <= n -> lossless (n + 1) p -> status_ls p ls = Some q ->
  lossless n q /\ packets (out q) = packets (out p).
Proof.
  intros Hn Hl. unfold status_ls. destruct (_ =? _).
  { intros [= <-]. split; [eapply lossless_weaken; [| |exact Hl]; lia|done]. }
  cbv zeta. set (p1 := p <| capture_ls := ls |>).
  assert (E1 : ses p1 = ses p) by done.
  assert (L1 : lossless (n + 1) p1) by by eapply lossless_ses.
  rewrite <- (ses_packets _ _ E1). clearbody p1. destruct (_ && _).
  - set (p2 := p1 <| capture_saved_ls := _ |>). assert (E2 : ses p2 = ses p1) by done.
    intros E. rewrite <- (ses_packets _ _ E2). eapply keepalive_lossless; [done| |exact E].
    by eapply lossless_ses.
  - intros [= <-]. set (r := line_state_event p1). assert (E2 : ses r = ses p1) by apply ses_line_state.
    clearbody r. match goal with |- lossless n ?x /\ _ => assert (E3 : ses x = ses p1) by exact E2 end.
    split; [|by apply ses_packets]. eapply lossless_weaken; [| |eapply lossless_ses; [exact E3|exact L1]]; lia.
Qed.

Lemma status_event_lossless n p ls vbus t speed q :
  0 <= n -> lossless (n + 1) p -> status_event p ls vbus t speed = Some q ->
  lossless n q /\ packets (out q) = packets (out p).
Proof.
  intros Hn Hl. unfold status_event. destruct (status_trigger p t) as [r|] eqn:Er; [|done].
  cbn [mbind option_bind]. cbv zeta. destruct (status_trigger_lossless _ _ _ _ Hl Er) as [L1 E1].
  intros E. pose proof (status_vbus_ses r vbus) as Ev.
  pose proof (status_speed_ses (status_vbus r vbus) speed) as Es. rewrite Ev in Es.
  rewrite <- E1, <- (ses_packets _ _ Es). eapply status_ls_lossless; [done| |exact E].
  by eapply lossless_ses.
Qed.

Lemma stop_folding_idle p :
  capture_fold_buf_ptr p = 0 -> capture_fold_count p = 0 -> stop_folding p = p.
Proof. intros E1 E2. unfold stop_folding. by rewrite E1, E2. Qed.

Lemma data_event_lossless n p q :
  0 <= n -> lossless (n + 1) p -> data_event p = Some q ->
  lossless n q
  /\ packets (out q)
     = packets (out p) ++ [Packet (capture_ts p) (take (Z.to_nat (capture_size p)) (capture_data p))].
Proof.
  intros Hn Hl. unfold data_event. rewrite (ll_enabled _ _ Hl). cbn [negb]. cbv zeta.
  set (de := capture_crc_error p || capture_data_error p).
  set (sof := negb (CaptureSpeed_LS =? _)). set (pid := _ !!! _). clearbody de sof pid.
  assert (Hk : forall (x y : packet (list record)) (b : bool) f,
             ses x = ses p /\ walk x = walk p ->
             (ses (f x) = ses x /\ walk (f x) = walk x) ->
             y = (if b then f x else x) -> ses y = ses p /\ walk y = walk p).
  { intros x y b f [? ?] [? ?] ->. destruct b; split; congruence. }
  set (p1 := line_state_event p).
  assert (K1 : ses p1 = ses p /\ walk p1 = walk p)
    by (split; [apply ses_line_state|apply walk_line_state]).
  clearbody p1.
  assert (Ef : stop_folding p1 = p1).
  { destruct K1 as [E1 _]. pose proof (lossless_ses _ _ _ E1 Hl) as L1.
    apply stop_folding_idle; apply L1. }
  rewrite Ef.
  match goal with |- context [if ?b then p1 else p1] => replace (if b then p1 else p1) with p1 by by destruct b end.
  set (p2 := if capture_overflow p1 then _ else p1).
  assert (K2 : ses p2 = ses p /\ walk p2 = walk p).
  { eapply (Hk p1 p2 (capture_overflow p1)
              (fun p => capture_info p (capture_ts p) (cstr "Hardware buffer overflow"))); [done| |done].
    split; [apply ses_info|apply walk_info]. }
  clearbody p2. set (p3 := if capture_data_error p2 then _ else p2).
  assert (K3 : ses p3 = ses p /\ walk p3 = walk p).
  { eapply (Hk p2 p3 (capture_data_error p2)
              (fun p => capture_info p (capture_ts p) (cstr "USB PHY error"))); [done| |done].
    split; [apply ses_info|apply walk_info]. }
  clearbody p3. clear Hk K1 K2 Ef p1 p2. destruct K3 as [E3 W3].
  pose proof (lossless_ses _ _ _ E3 Hl) as L3.
  unfold data_fold. rewrite (ll_fold _ _ L3). rewrite orb_true_r. cbn [mbind option_bind].
  intros [= <-]. injection W3 as W1 W2 W3 W4 W5 W6 W7 W8. rewrite W1, W3, W7.
  set (r := write_packet p3 _ _ _).
  assert (Lr : lossless (n + 1) r) by (destruct L3; by constructor).
  destruct (check_limit_lossless n r Hn Lr) as [Lc Ec]. split; [done|]. rewrite Ec.
  change (out r) with (out p3 ++ [Packet (capture_ts p) (take (Z.to_nat (capture_size p)) (capture_data p))]).
  rewrite packets_one. by rewrite (ses_packets _ _ E3).
Qed.
Definition frame_ov (f : frame) : bool :=
  match f with FStatus tov _ _ _ _ _ => tov | FData tov _ _ _ _ _ _ => tov end.
Definition frame_ts (f : frame) : Z :=
  match f with FStatus _ ts _ _ _ _ => ts | FData _ ts _ _ _ _ _ => ts end.

(** The packets of a frame sequence: the non-empty data frames at the nanosecond
    value of the unwrapped 60 MHz tick count. *)
Fixpoint frame_packets (ticks : Z) (fs : list frame) : list record :=
  match fs with
  | [] => []
  | f :: fs =>
      let ticks := if frame_ov f then u64 (ticks + 1048576) else ticks in
      match frame_payload f with
      | [] => []
      | d => [Packet (u64 ((ticks + frame_ts f) * 100) / 6) d]
      end ++ frame_packets ticks fs
  end.

Lemma frame_time_ses p tov ts : ses (frame_time p tov ts) = ses p.
Proof.
  unfold frame_time. cbv zeta.
  set (p1 := if tov then _ else p). assert (E1 : ses p1 = ses p) by (subst p1; by destruct tov).
  clearbody p1. set (p2 := p1 <| capture_ts := _ |> <| capture_toggle := 1 - capture_toggle p1 |>).
  assert (E2 : ses p2 = ses p) by exact E1. clearbody p2.
  destruct (_ <? _); [|done]. unfold timeout_event. destruct (capture_enabled p2); [|done].
  by rewrite ses_info.
Qed.

Lemma frame_time_ticks p tov ts :
  capture_ts_int (frame_time p tov ts) = (if tov then u64 (capture_ts_int p + 1048576) else capture_ts_int p)
  /\ capture_ts (frame_time p tov ts)
     = u64 (((if tov then u64 (capture_ts_int p + 1048576) else capture_ts_int p) + ts) * 100) / 6.
Proof. by destruct (frame_time_touched p tov ts) as (w & lt & ls & ->). Qed.

Lemma ses_at_ptr p n : ses (p <| capture_data_ptr := n |>) = ses p.
Proof. reflexivity. Qed.

Lemma payload_stored_log q d ov crc de dur :
  ses (payload_stored q d ov crc de dur) = ses q
  /\ capture_ts (payload_stored q d ov crc de dur) = capture_ts q
  /\ capture_size (payload_stored q d ov crc de dur) = Z.of_nat (length d)
  /\ capture_data (payload_stored q d ov crc de dur) = write_at (capture_data q) 0 d.
Proof. split_and!; reflexivity. Qed.

(** One frame appends its packet, if it has one. *)
Lemma frame_step_lossless n p f :
  0 <= n -> at_frame p -> frame_wf f -> lossless (n + 1) p ->
  exists q, frame_step p f = Some q /\ at_frame q /\ capture_toggle q = 1 - capture_toggle p
    /\ lossless n q
    /\ capture_ts_int q = (if frame_ov f then u64 (capture_ts_int p + 1048576) else capture_ts_int p)
    /\ packets (out q) = packets (out p) ++
         match frame_payload f with
         | [] => []
         | d => [Packet (u64 (((if frame_ov f then u64 (capture_ts_int p + 1048576)
                                else capture_ts_int p) + frame_ts f) * 100) / 6) d]
         end.
Proof.
  intros Hn Hp Hf Hl. destruct (frame_step_ok p f Hp Hf) as (q & Eq & Aq & Tq).
  exists q. split; [done|]. split; [done|]. split; [done|]. clear Aq Tq.
  pose proof (frame_time_core p f _ _ Hp Hf eq_refl eq_refl) as Hc.
  pose proof (frame_time_ses (stored_header p f) (frame_ov f) (frame_ts f)) as Er.
  destruct (frame_time_ticks (stored_header p f) (frame_ov f) (frame_ts f)) as [Ei Et].
  change (ses (stored_header p f)) with (ses p) in Er.
  change (capture_ts_int (stored_header p f)) with (capture_ts_int p) in Ei, Et.
  rewrite <- Ei in Et |- *. rewrite <- Et. rewrite <- (ses_packets _ _ Er). unfold frame_step in Eq.
  destruct f as [tov ts ls vbus trigger speed|tov ts ov crc de dur d]; cbn [frame_payload frame_ov frame_ts] in *;
    set (r := frame_time _ tov ts) in *; clearbody r; rewrite ?app_nil_r;
    pose proof (lossless_ses _ _ _ Er Hl) as Lr.
  - destruct (status_event_ok _ r ls (b2z vbus 1) (b2z trigger 1) speed Hc) as (x & Ex & _ & Wx).
    rewrite Ex in Eq. cbn [mbind option_bind] in Eq. injection Eq as <-.
    destruct (status_event_lossless n _ _ _ _ _ _ Hn Lr Ex) as [Lx Px].
    split; [by eapply lossless_ses; [apply ses_at_ptr|]|]. split; [by injection Wx|done].
  - destruct (Z.eqb_spec (Z.of_nat (length d)) 0) as [E0|E0].
    + destruct d; [|cbn in E0; lia]. injection Eq as <-. rewrite app_nil_r.
      split; [|done]. eapply lossless_weaken; [| |eapply lossless_ses; [|exact Lr]]; [lia..|done].
    + pose proof (frame_time_fields p (FData tov ts ov crc de dur d) tov ts Hp) as _.
      destruct (payload_stored_log r d ov crc de dur) as (Es & Ets & Esz & Ed).
      assert (Hn' : 0 <= capture_size (payload_stored r d ov crc de dur) <= 1273).
      { rewrite Esz. destruct Hf as (_ & _ & ? & _). lia. }
      assert (Cs : core trivial_inv (payload_stored r d ov crc de dur)).
      { pose proof (core_data_len _ _ Hc) as Hlen. unfold DATA_BUF_SIZE in Hlen. rewrite Esz in Hn'.
        destruct Hc. constructor; try done; rewrite Ed.
        - unfold DATA_BUF_SIZE. rewrite length_write_at; lia.
        - apply bytes_ok_write_at; [done|]. apply Hf. }
      destruct (data_event_ok _ _ Cs Hn') as (x & Ex & _ & Wx).
      rewrite Ex in Eq. cbn [mbind option_bind] in Eq. injection Eq as <-.
      pose proof (lossless_ses _ _ _ Es Lr) as Ls.
      destruct (data_event_lossless n _ _ Hn Ls Ex) as [Lx Px].
      split; [by eapply lossless_ses; [apply ses_at_ptr|]|].
      split; [by injection Wx|]. cbn [out]. change (out (x <| capture_data_ptr := 0 |>)) with (out x).
      rewrite Px, (ses_packets _ _ Es), Ets, Esz, Ed, Nat2Z.id.
      pose proof (core_data_len _ _ Hc) as Hlen. unfold DATA_BUF_SIZE in Hlen. rewrite Esz in Hn'.
      rewrite <- (drop_0 (write_at _ _ _)), take_drop_write_at by (done || lia).
      destruct d; [done|done].
Qed.

Lemma run_frames_lossless fs p :
  at_frame p -> Forall frame_wf fs -> lossless (Z.of_nat (length fs)) p ->
  exists q, run_frames p fs = Some q /\ done q = false
    /\ packets (out q) = packets (out p) ++ frame_packets (capture_ts_int p) fs.
Proof.
  intros Hp Hfs. revert p Hp. induction Hfs as [|f fs Hf Hfs IH]; intros p Hp Hl; cbn [run_frames].
  - exists p. cbn [frame_packets]. rewrite app_nil_r. split_and!; [done|apply Hl|done].
  - destruct (frame_step_lossless (Z.of_nat (length fs)) p f) as (q & -> & Aq & _ & Lq & Ei & Pq);
      [lia|done|done|cbn [length] in Hl; by replace (Z.of_nat (length fs) + 1) with (Z.of_nat (S (length fs))) by lia|].
    cbn [mbind option_bind]. rewrite (ll_done _ _ Lq).
    destruct (IH q Aq Lq) as (x & -> & Dx & Px). exists x. split; [done|]. split; [done|].
    rewrite Px, Pq, Ei. cbn [frame_packets]. by rewrite <- app_assoc.
Qed.

(** C9: lossless capture.  With folding off, no trigger and the capture limit not
    reached, every non-empty data frame of a well-formed frame stream becomes
    exactly one packet record, in order, with its own bytes and the nanosecond
    value of its unwrapped 60 MHz timestamp; status frames and the error flags
    write messages only. *)
Theorem lossless_capture p fs :
  at_frame p -> Forall frame_wf fs -> lossless (Z.of_nat (length fs)) p ->
  exists q, packet_feed p (encode_frames (capture_toggle p) fs) = Some q /\ done q = false
    /\ packets (out q) = packets (out p) ++ frame_packets (capture_ts_int p) fs.
Proof.
  intros Hp Hfs Hl. destruct (run_frames_lossless fs p Hp Hfs Hl) as (q & Eq & Dq & Pq).
  exists q. split; [|done]. unfold packet_feed. rewrite (ll_done _ _ Hl).
  destruct (feed_frames fs p Hp Hfs (ll_done _ _ Hl)) as (-> & _). done.
Qed.
(** *** The capture limit *)

(** The fields the limit depends on. *)
Definition acct p := (packets (out p), opts p, capture_fold_buf_ptr p, done p).

Lemma acct_ses p q : ses q = ses p -> acct q = acct p.
Proof. unfold ses, acct. intros [= -> -> _ -> _ ->]. done. Qed.

Lemma acct_fields p q :
  acct q = acct p ->
  packets (out q) = packets (out p) /\ opts q = opts p
  /\ capture_fold_buf_ptr q = capture_fold_buf_ptr p /\ done q = done p.
Proof. unfold acct. by intros [= -> -> -> ->]. Qed.

Lemma acct_info p ts str : acct (capture_info p ts str) = acct p.
Proof. apply acct_ses, ses_info. Qed.
Lemma acct_line_state p : acct (line_state_event p) = acct p.
Proof. apply acct_ses, ses_line_state. Qed.

(** At most [n] packets in all: written, waiting in the folding buffer, or still
    allowed by the limit. *)
Definition limited (n : Z) p : Prop :=
  0 <= capture_fold_buf_ptr p /\ 0 <= capture_limit (opts p) < 9223372036854775808
  /\ Z.of_nat (length (packets (out p))) + capture_fold_buf_ptr p + capture_limit (opts p) <= n
  /\ (done p = true <-> capture_limit (opts p) = 0).

Lemma limited_acct n p q : acct q = acct p -> limited n p -> limited n q.
Proof. unfold acct, limited. by intros [= -> -> -> ->]. Qed.

Lemma limited_S n p :
  limited (n - 1) p -> done p = false -> limited n p.
Proof. unfold limited. intuition lia. Qed.

(** [q] may hold one more packet than [p]; the accounts agree otherwise. *)
Definition one_more p q : Prop :=
  0 <= capture_fold_buf_ptr q /\ opts q = opts p /\ done q = done p
  /\ Z.of_nat (length (packets (out q))) + capture_fold_buf_ptr q
     <= Z.of_nat (length (packets (out p))) + capture_fold_buf_ptr p + 1.

Lemma unfold_frames_count l p :
  let q := fold_left unfold_frame l p in
  (length (packets (out q)) <= length (packets (out p)) + length l)%nat.
Proof.
  revert p. induction l as [|i l IH]; intros p; cbn [fold_left length]; [lia|].
  etransitivity; [apply IH|].
  assert (length (packets (out (unfold_frame p i))) <= length (packets (out p)) + 1)%nat; [|lia].
  unfold unfold_frame. case_match.
  - unfold write_keepalive. rewrite (proj1 (acct_fields _ _ (acct_info _ _ _))). lia.
  - unfold write_packet. cbn [out_epb log_out].
    change (out (p <| out := ?w |> <| capture_last_ts := ?t |>)) with w.
    rewrite packets_one, length_app. cbn. lia.
Qed.

Lemma stop_folding_count p :
  0 <= capture_fold_buf_ptr p ->
  let q := stop_folding p in
  opts q = opts p /\ done q = done p /\ capture_fold_buf_ptr q = 0
  /\ Z.of_nat (length (packets (out q)))
     <= Z.of_nat (length (packets (out p))) + capture_fold_buf_ptr p.
Proof.
  intros Hp q. split; [|split; [|split; [apply stop_folding_ptr|]]].
  1, 2: unfold q; by destruct (stop_folding_touched p) as (w & ts & ls & ->).
  unfold q, stop_folding. destruct (_ && _); [lia|]. cbv zeta.
  set (p0 := p <| capture_fold_count := 0 |> <| capture_fold_buf_ptr := 0 |>).
  pose proof (unfold_frames_count (seq 0 (Z.to_nat (capture_fold_buf_ptr p))) p0) as Hu.
  cbv zeta in Hu. rewrite length_seq in Hu. change (out p0) with (out p) in Hu.
  set (r := fold_left _ _ _) in *. clearbody r.
  assert (Hi : forall ts s, packets (out (capture_info r ts s)) = packets (out r)).
  { intros ts s. apply acct_fields, acct_info. }
  repeat case_match; rewrite ?Hi; lia.
Qed.

Lemma fold_packet_count p ts d n q :
  0 <= capture_fold_buf_ptr p -> fold_packet p ts d n = Some q -> one_more p q.
Proof.
  intros Hp. unfold fold_packet. destruct (copy_in _ _ _); [|done]. cbn [mbind option_bind].
  destruct (set_at _ _ _); [|done]. cbn [mbind option_bind]. intros [= <-].
  unfold one_more.  split_and!; try done; cbn; lia.
Qed.

Lemma fold_keepalive_count p ts d q :
  0 <= capture_fold_buf_ptr p -> fold_keepalive p ts d = Some q -> one_more p q.
Proof.
  intros Hp. unfold fold_keepalive. destruct (set_at _ _ _); [|done].
  cbn [mbind option_bind]. intros [= <-]. unfold one_more.
  split_and!; try done; cbn; lia.
Qed.

Lemma write_packet_count p ts d n : 0 <= capture_fold_buf_ptr p -> one_more p (write_packet p ts d n).
Proof.
  intros Hp. unfold write_packet, one_more. cbn [out_epb log_out].
  change (out (p <| out := ?w |> <| capture_last_ts := ?t |>)) with w.
  rewrite packets_one, length_app. split_and!; try done; cbn; lia.
Qed.

(** Dropping the folded frames and unfolding the rest only frees room. *)
Lemma one_more_drop p p' q :
  opts p' = opts p -> done p' = done p -> 0 <= capture_fold_buf_ptr p' ->
  Z.of_nat (length (packets (out p'))) + capture_fold_buf_ptr p'
  <= Z.of_nat (length (packets (out p))) + capture_fold_buf_ptr p ->
  one_more p' q -> one_more p q.
Proof. unfold one_more. intuition (congruence || lia). Qed.

Lemma one_more_restart p (b : bool) q :
  0 <= capture_fold_buf_ptr p ->
  let p1 := p <| capture_fold_count := capture_fold_count p + 1 |> <| capture_fold_buf_ptr := 0 |> in
  one_more (if b then stop_folding p1 else p1) q -> one_more p q.
Proof.
  intros Hp p1. assert (H1 : capture_fold_buf_ptr p1 = 0 /\ opts p1 = opts p /\ done p1 = done p
    /\ out p1 = out p) by done. clearbody p1. destruct H1 as (E1 & E2 & E3 & E4).
  destruct b; apply one_more_drop; rewrite ?E1, ?E2, ?E3, ?E4; try (done || lia).
  all: destruct (stop_folding_count p1) as (S1 & S2 & S3 & S4); [lia|]; cbv zeta in *.
  all: rewrite ?S3; try congruence; try lia. rewrite E1, E4 in S4. lia.
Qed.

Lemma check_limit_limited n p q :
  one_more p q -> limited n p -> done p = false -> limited n (check_capture_limit q).
Proof.
  unfold one_more, limited. intros (Hp & Eo & Ed & Hc) (H1 & H2 & H3 & H4) Hd.
  assert (capture_limit (opts p) <> 0) by (intros E; apply H4 in E; congruence).
  unfold check_capture_limit. cbv zeta. set (r := q <| opts := _ |>).
  assert (El : capture_limit (opts r) = capture_limit (opts p) - 1).
  { change (s64 (capture_limit (opts q) - 1) = capture_limit (opts p) - 1).
    rewrite Eo. apply s64_small. lia. }
  assert (Er : out r = out q /\ capture_fold_buf_ptr r = capture_fold_buf_ptr q /\ done r = done q) by done.
  clearbody r. destruct Er as (R1 & R2 & R3). rewrite El.
  destruct (Z.eqb_spec (capture_limit (opts p) - 1) 0) as [E|E].
  - pose proof (acct_info r (capture_ts r) (cstr "Capture limit reached")) as Ha.
    set (x := capture_info _ _ _) in *. clearbody x. apply acct_fields in Ha as (A1 & A2 & A3 & A4).
    change (out (x <| done := true |>)) with (out x).
    change (opts (x <| done := true |>)) with (opts x).
    change (capture_fold_buf_ptr (x <| done := true |>)) with (capture_fold_buf_ptr x).
    change (done (x <| done := true |>)) with true.
    rewrite A1, A2, A3, El, R1, R2. split_and!; try lia; split; done || lia.
  - rewrite El, R1, R2, R3, Ed, Hd. split_and!; try lia; split; done || lia.
Qed.

Lemma keepalive_limited n p ts delta q :
  limited n p -> done p = false -> keepalive_event p ts delta = Some q -> limited n q.
Proof.
  intros Hl Hd. unfold keepalive_event. destruct (negb (capture_enabled p)); [by intros [= <-]|].
  pose proof Hl as (Hp & _).
  assert (Hk : forall r x, r = Some x -> one_more p x ->
             (p ← r; Some (check_capture_limit p)) = Some q -> limited n q).
  { intros r x -> Ho. cbn [mbind option_bind]. intros [= <-]. by eapply check_limit_limited. }
  destruct (negb (fold_empty _)).
  { eapply Hk; [done|]. unfold write_keepalive.
    destruct (acct_fields _ _ (acct_info p ts (cstr "Keep-alive"))) as (A1 & A2 & A3 & A4).
    unfold one_more. rewrite A1, A3. split_and!; try done; lia. }
  destruct (negb _).
  - cbv zeta. destruct (fold_keepalive _ ts delta) as [x|] eqn:E; [|done].
    eapply Hk; [done|]. eapply one_more_restart; [done|]. eapply fold_keepalive_count; [|exact E].
    match goal with |- 0 <= capture_fold_buf_ptr (if ?b then stop_folding ?y else ?y) =>
      destruct b; [by rewrite stop_folding_ptr|done] end.
  - destruct (fold_keepalive _ ts delta) as [x|] eqn:E; [|done].
    eapply Hk; [done|]. by eapply fold_keepalive_count.
Qed.

Lemma data_fold_count p de sof pid q :
  0 <= capture_fold_buf_ptr p -> data_fold p de sof pid = Some q -> one_more p q.
Proof.
  intros Hp. unfold data_fold.
  destruct (de || _); [intros [= <-]; by apply write_packet_count|].
  destruct (negb _); [|destruct (_ && _); [by apply fold_packet_count|intros [= <-]; by apply write_packet_count]].
  destruct (_ || _); [by apply fold_packet_count|]. destruct (_ && _).
  - cbv zeta. intros E. eapply one_more_restart; [done|]. eapply fold_packet_count; [|exact E].
    match goal with |- 0 <= capture_fold_buf_ptr (if ?b then stop_folding ?y else ?y) =>
      destruct b; [by rewrite stop_folding_ptr|done] end.
  - cbv zeta. intros [= <-]. destruct (stop_folding_count p Hp) as (S1 & S2 & S3 & S4).
    cbv zeta in *. eapply (one_more_drop p (stop_folding p)); [done|done|lia|lia|].
    apply write_packet_count. lia.
Qed.
(** No packet more, with the same options. *)
Definition no_more p q : Prop :=
  0 <= capture_fold_buf_ptr q /\ opts q = opts p /\ done q = done p
  /\ Z.of_nat (length (packets (out q))) + capture_fold_buf_ptr q
     <= Z.of_nat (length (packets (out p))) + capture_fold_buf_ptr p.

Lemma no_more_acct p q : 0 <= capture_fold_buf_ptr p -> acct q = acct p -> no_more p q.
Proof.
  intros Hp E. apply acct_fields in E as (E1 & E2 & E3 & E4). unfold no_more.
  rewrite E1, E2, E3, E4. split_and!; done || lia.
Qed.

Lemma no_more_trans p q r : no_more p q -> no_more q r -> no_more p r.
Proof. unfold no_more. intuition (congruence || lia). Qed.

Lemma no_more_stop p : 0 <= capture_fold_buf_ptr p -> no_more p (stop_folding p).
Proof.
  intros Hp. destruct (stop_folding_count p Hp) as (S1 & S2 & S3 & S4). cbv zeta in *.
  unfold no_more. split_and!; try done; lia.
Qed.

Lemma no_more_if p q (b : bool) f :
  no_more p q -> (0 <= capture_fold_buf_ptr q -> no_more q (f q)) -> no_more p (if b then f q else q).
Proof. intros Hq Hf. destruct b; [|done]. eapply no_more_trans; [exact Hq|]. apply Hf, Hq. Qed.

Lemma data_event_limited n p q :
  limited n p -> done p = false -> data_event p = Some q -> limited n q.
Proof.
  intros Hl Hd. unfold data_event. destruct (negb _); [by intros [= <-]|]. cbv zeta.
  pose proof (proj1 Hl) as Hp.
  set (de := capture_crc_error p || capture_data_error p).
  set (sof := negb (CaptureSpeed_LS =? _)). set (pid := _ !!! _). clearbody de sof pid.
  set (p1 := line_state_event p).
  assert (K1 : no_more p p1) by (apply no_more_acct; [exact Hp|apply acct_line_state]).
  clearbody p1. set (b := _ || (FOLD_BUF_SIZE =? _)). clearbody b.
  pose proof (no_more_if p p1 b stop_folding K1 (no_more_stop p1)) as K2.
  set (p2 := if b then _ else p1) in *. clearbody p2.
  pose proof (no_more_if p p2 (capture_overflow p2)
    (fun p => capture_info p (capture_ts p) (cstr "Hardware buffer overflow")) K2
    (fun H => no_more_acct _ _ H (acct_info _ _ _))) as K3.
  set (p3 := if capture_overflow p2 then _ else p2) in *. clearbody p3.
  pose proof (no_more_if p p3 (capture_data_error p3)
    (fun p => capture_info p (capture_ts p) (cstr "USB PHY error")) K3
    (fun H => no_more_acct _ _ H (acct_info _ _ _))) as K4.
  set (p4 := if capture_data_error p3 then _ else p3) in *. clearbody p4.
  clear - Hl Hd K4. destruct K4 as (N1 & N2 & N3 & N4).
  destruct (data_fold p4 de sof pid) as [x|] eqn:Ex; [|done]. cbn [mbind option_bind]. intros [= <-].
  eapply check_limit_limited; [|exact Hl|exact Hd].
  eapply one_more_drop; [exact N2|exact N3|exact N1|exact N4|]. by eapply data_fold_count.
Qed.

Lemma status_trigger_acct p t q : status_trigger p t = Some q -> acct q = acct p.
Proof.
  unfold status_trigger. destruct (_ =? _); [by intros [= <-]|].
  destruct (trigger_gate p t) as [en|]; [|done]. cbv zeta.
  set (p1 := p <| capture_enabled := en |> <| capture_trigger_input := t |>).
  assert (E1 : acct p1 = acct p) by done. clearbody p1.
  intros [= <-]. rewrite <- E1. repeat case_match; by rewrite ?acct_info.
Qed.

Lemma status_event_limited n p ls vbus t speed q :
  limited n p -> done p = false -> status_event p ls vbus t speed = Some q -> limited n q.
Proof.
  intros Hl Hd. unfold status_event. destruct (status_trigger p t) as [r|] eqn:Er; [|done].
  cbn [mbind option_bind]. cbv zeta.
  set (x := status_speed (status_vbus r vbus) speed).
  assert (Ex : acct x = acct p).
  { rewrite <- (status_trigger_acct _ _ _ Er). unfold x. apply acct_ses.
    by rewrite status_speed_ses, status_vbus_ses. }
  assert (Lx : limited n x) by by eapply limited_acct.
  assert (Dx : done x = false) by (apply acct_fields in Ex as (_ & _ & _ & ->); done).
  clearbody x. clear Er Ex Hl Hd. unfold status_ls. destruct (_ =? _); [by intros [= <-]|].
  cbv zeta. set (x1 := x <| capture_ls := ls |>).
  assert (L1 : limited n x1) by exact Lx. assert (D1 : done x1 = false) by exact Dx.
  clearbody x1. destruct (_ && _).
  - apply keepalive_limited; [exact L1|exact D1].
  - intros [= <-]. pose proof (acct_line_state x1) as El.
    set (y := line_state_event x1) in *. clearbody y.
    eapply limited_acct; [|exact L1]. exact El.
Qed.

Lemma desync_error_acct p : acct (desync_error p) = acct p.
Proof.
  unfold desync_error. cbv zeta.
  match goal with |- acct (?q <| capture_size := 0 |> <| _ := _ |> <| _ := _ |> <| _ := _ |>) = _ =>
    change (acct q = acct p) end.
  by rewrite !acct_info.
Qed.

Lemma check_header_acct p t z : acct (check_header p t z) = acct p.
Proof.
  unfold check_header. destruct (_ && _); [done|]. cbv zeta.
  set (p1 := if negb (t =? _) then _ else p).
  assert (E1 : acct p1 = acct p) by (subst p1; destruct (negb _); by rewrite ?acct_info).
  clearbody p1. set (p2 := if negb (z =? 0) then _ else p1).
  assert (E2 : acct p2 = acct p) by (subst p2; destruct (negb _); by rewrite ?acct_info).
  clearbody p2. rewrite <- E2. apply desync_error_acct.
Qed.

Lemma header_time_acct p ts t : acct (header_time p ts t) = acct p.
Proof.
  unfold header_time. cbv zeta. set (p1 := if has _ _ then _ else p).
  assert (E1 : acct p1 = acct p) by (subst p1; by destruct (has _ _)). clearbody p1.
  set (p2 := p1 <| capture_ts := _ |> <| capture_toggle := 1 - t |>).
  assert (E2 : acct p2 = acct p) by exact E1. clearbody p2.
  destruct (_ <? _); [|done]. unfold timeout_event. destruct (capture_enabled p2); [|done].
  by rewrite acct_info.
Qed.

Lemma header_data_acct p : acct (header_data p) = acct p.
Proof.
  unfold header_data. cbv zeta. destruct (_ || _); [|done].
  unfold check_data_size. destruct (_ && _); [done|]. cbv zeta.
  by rewrite desync_error_acct, acct_info.
Qed.

Lemma capture_sm_limited n p b q :
  limited n p -> done p = false -> capture_sm p b = Some q -> limited n q.
Proof.
  intros Hl Hd. unfold capture_sm. cbv zeta.
  set (p1 := if _ && _ then _ else p).
  assert (L1 : limited n p1 /\ done p1 = false) by (subst p1; by destruct (_ && _)).
  clearbody p1. clear Hl Hd. destruct L1 as [L1 D1].
  destruct (set_at _ _ _) as [d|]; [|done]. cbn [mbind option_bind].
  set (p2 := p1 <| capture_data := d |> <| capture_data_ptr := capture_data_ptr p1 + 1 |>).
  assert (L2 : limited n p2) by exact L1. assert (D2 : done p2 = false) by exact D1.
  clearbody p2. destruct (_ <? _); [by intros [= <-]|]. destruct (capture_header p2).
  - unfold header_complete. cbv zeta. set (x := header_time _ _ _).
    assert (Ex : acct x = acct p2) by (unfold x; by rewrite header_time_acct, check_header_acct).
    clearbody x. assert (Lx : limited n x) by by eapply limited_acct.
    assert (Dx : done x = false) by (apply acct_fields in Ex as (_ & _ & _ & ->); done).
    destruct (capture_status x).
    + unfold header_status. cbv zeta.
      match goal with |- context [status_event x ?a ?b ?c ?d] =>
        destruct (status_event x a b c d) as [y|] eqn:Ey; [|done] end.
      cbn [mbind option_bind]. intros [= <-]. exact (status_event_limited _ _ _ _ _ _ _ Lx Dx Ey).
    + intros [= <-]. eapply limited_acct; [apply header_data_acct|exact Lx].
  - set (x := p2 <| capture_header := true |>).
    destruct (data_event x) as [y|] eqn:Ey; [|done]. cbn [mbind option_bind]. intros [= <-].
    exact (data_event_limited n x y L2 D2 Ey).
Qed.

Lemma packet_feed_limited n p data q :
  limited n p -> packet_feed p data = Some q -> limited n q.
Proof.
  intros Hl. unfold packet_feed. destruct (done p) eqn:Hd; [by intros [= <-]|].
  revert p Hl Hd. induction data as [|b data IH]; intros p Hl Hd; cbn [packet_feed_loop]; [by intros [= <-]|].
  destruct (capture_sm p b) as [x|] eqn:Ex; [|done]. cbn [mbind option_bind].
  pose proof (capture_sm_limited _ _ _ _ Hl Hd Ex) as Lx.
  destruct (done x) eqn:Dx; [by intros [= <-]|by apply IH].
Qed.

Lemma announce_limited p o :
  out p = [] -> opts p = o -> capture_fold_buf_ptr p = 0 ->
  0 < capture_limit o < 9223372036854775808 ->
  limited (capture_limit o) (packet_announce p).
Proof.
  intros E1 E2 E3 Ho. unfold packet_announce. cbv zeta. set (p0 := p <| done := false |>).
  assert (L0 : limited (capture_limit o) p0).
  { unfold limited. change (out p0) with (out p). change (opts p0) with (opts p).
    change (capture_fold_buf_ptr p0) with (capture_fold_buf_ptr p). change (done p0) with false.
    rewrite E1, E2, E3. change (packets []) with (@nil record). cbn [length]. split_and!; try lia; split; done || lia. }
  destruct (_ =? _); (eapply limited_acct; [|exact L0]); apply (acct_info p0).
Qed.

End Log.

(** ** The trigger gate *)

Section Gate.
Context {W : Type} `{PcapngOut W}.
Implicit Types p q : packet W.

(** The samples of a run of status frames. *)
Record status := mk_status { s_ls : Z; s_vbus : Z; s_trigger : Z; s_speed : Z }.

Fixpoint run_status p (l : list status) : option (packet W) :=
  match l with
  | [] => Some p
  | s :: l => p ← status_event p (s_ls s) (s_vbus s) (s_trigger s) (s_speed s); run_status p l
  end.

(** Some consecutive samples of the trigger input are [a] then [b]. *)
Fixpoint has_edge (a b : Z) (l : list Z) : bool :=
  match l with
  | x :: (y :: _) as l' => (x =? a) && (y =? b) || has_edge a b l'
  | _ => false
  end.

(** What the trigger mode promises about the gate after some samples. *)
Definition gate_open (mode : Z) (l : list Z) : bool :=
  if mode =? CaptureTrigger_Disabled then true
  else if mode =? CaptureTrigger_Low then List.last l 1 =? 0
  else if mode =? CaptureTrigger_High then List.last l 0 =? 1
  else if mode =? CaptureTrigger_Falling then has_edge 1 0 l
  else has_edge 0 1 l.

Definition gate p := (capture_enabled p, capture_trigger_input p, capture_trigger (opts p)).

Lemma gate_touched p w ts ls : gate (touched p w ts ls) = gate p.
Proof. reflexivity. Qed.

Lemma gate_info p ts str : gate (capture_info p ts str) = gate p.
Proof. by destruct (capture_info_touched p ts str) as [w ->]. Qed.

Lemma gate_line_state p : gate (line_state_event p) = gate p.
Proof. by destruct (line_state_touched p) as (w & ts & ->). Qed.

Lemma gate_stop p : gate (stop_folding p) = gate p.
Proof. by destruct (stop_folding_touched p) as (w & ts & ls & ->). Qed.

Lemma gate_limit p : gate (check_capture_limit p) = gate p.
Proof.
  unfold check_capture_limit. cbv zeta. set (q := p <| opts := _ |>).
  assert (E : gate q = gate p) by reflexivity. clearbody q. destruct (_ =? _); [|done].
  rewrite <- E, <- (gate_info q (capture_ts q) (cstr "Capture limit reached")). reflexivity.
Qed.

Lemma gate_fold_keepalive p ts d q : fold_keepalive p ts d = Some q -> gate q = gate p.
Proof.
  unfold fold_keepalive. destruct (set_at _ _ _); [|done]. cbn [mbind option_bind]. by intros [= <-].
Qed.

Lemma gate_keepalive p ts d q : keepalive_event p ts d = Some q -> gate q = gate p.
Proof.
  unfold keepalive_event. destruct (negb (capture_enabled p)); [by intros [= <-]|].
  assert (Hk : forall r, (forall x, r = Some x -> gate x = gate p) ->
             (p ← r; Some (check_capture_limit p)) = Some q -> gate q = gate p).
  { intros [x|] Hr; [|done]. cbn [mbind option_bind]. intros [= <-]. rewrite gate_limit. by apply Hr. }
  destruct (negb _); [|destruct (negb _)]; apply Hk; intros x.
  - intros [= <-]. apply gate_info.
  - cbv zeta. intros Ex. rewrite (gate_fold_keepalive _ _ _ _ Ex).
    match goal with |- gate (if ?b then stop_folding ?y else ?y) = _ =>
      destruct b; [rewrite gate_stop|]; reflexivity end.
  - apply gate_fold_keepalive.
Qed.

Lemma gate_status_ls p ls q : status_ls p ls = Some q -> gate q = gate p.
Proof.
  unfold status_ls. destruct (_ =? _); [by intros [= <-]|]. cbv zeta.
  set (p1 := p <| capture_ls := ls |>). assert (E1 : gate p1 = gate p) by reflexivity. clearbody p1.
  destruct (_ && _).
  - intros E. rewrite <- E1. exact (gate_keepalive _ _ _ _ E).
  - intros [= <-]. pose proof (gate_line_state p1) as El. set (x := line_state_event p1) in *.
    clearbody x. rewrite <- E1, <- El. reflexivity.
Qed.

Lemma gate_vbus_speed p v s : gate (status_speed (status_vbus p v) s) = gate p.
Proof.
  assert (E : gate (status_vbus p v) = gate p).
  { unfold status_vbus. destruct (_ =? _); [done|]. cbv zeta. by rewrite gate_info. }
  rewrite <- E. generalize (status_vbus p v). intros r. unfold status_speed. destruct (_ =? _); [done|].
  cbv zeta. repeat case_match; by rewrite ?gate_info.
Qed.

(** One status frame moves the gate as the trigger mode says. *)
Lemma gate_status p s q :
  status_event p (s_ls s) (s_vbus s) (s_trigger s) (s_speed s) = Some q ->
  capture_trigger_input q = s_trigger s /\ capture_trigger (opts q) = capture_trigger (opts p)
  /\ (if capture_trigger_input p =? s_trigger s then capture_enabled q = capture_enabled p
      else trigger_gate p (s_trigger s) = Some (capture_enabled q)).
Proof.
  unfold status_event. destruct (status_trigger p (s_trigger s)) as [r|] eqn:Er; [|done].
  cbn [mbind option_bind]. cbv zeta. intros E.
  assert (Eg : gate q = gate r) by (rewrite (gate_status_ls _ _ _ E); apply gate_vbus_speed).
  unfold gate in Eg. injection Eg as -> -> ->. clear E. revert Er. unfold status_trigger.
  destruct (Z.eqb_spec (capture_trigger_input p) (s_trigger s)) as [E|E]; [by intros [= <-]|].
  destruct (trigger_gate p (s_trigger s)) as [en|]; [|done]. cbv zeta.
  set (p1 := p <| capture_enabled := en |> <| capture_trigger_input := s_trigger s |>).
  assert (E1 : gate p1 = (en, s_trigger s, capture_trigger (opts p))) by reflexivity. clearbody p1.
  intros [= <-].
  match goal with |- capture_trigger_input ?x = _ /\ _ => assert (Ex : gate x = gate p1) end.
  { repeat case_match; by rewrite ?gate_info. }
  rewrite E1 in Ex. unfold gate in Ex. by injection Ex as -> -> ->.
Qed.

Lemma has_edge_snoc a b l x y : has_edge a b (l ++ [x; y]) = has_edge a b (l ++ [x]) || (x =? a) && (y =? b).
Proof.
  induction l as [|z l IH]; cbn [app has_edge]; [by rewrite orb_false_r|].
  destruct l as [|z' l]; cbn [app] in *; cbn [has_edge] in *.
  - by rewrite !orb_false_r.
  - rewrite IH. by rewrite orb_assoc.
Qed.

Lemma last_two (l : list Z) x y d : List.last (l ++ [x; y]) d = y.
Proof. replace (l ++ [x; y]) with ((l ++ [x]) ++ [y]) by by rewrite <- app_assoc. apply List.last_last. Qed.

Lemma run_status_snoc p l s :
  run_status p (l ++ [s])
  = (q ← run_status p l; status_event q (s_ls s) (s_vbus s) (s_trigger s) (s_speed s)).
Proof.
  revert p. induction l as [|x l IH]; intros p; cbn [app run_status].
  - cbn [mbind option_bind]. by destruct (status_event _ _ _ _ _).
  - destruct (status_event p _ _ _ _); [|done]. cbn [mbind option_bind]. apply IH.
Qed.

(** The trigger gate.  From a session start, after any non-empty run of status
    frames, capturing is enabled exactly when the selected mode says so: always
    when disabled, by the last sample for the level modes, and once an edge of
    the right direction has been seen for the edge modes. *)
Theorem trigger_gate_opens p l q :
  capture_trigger_input p = -1 -> capture_enabled p = false ->
  0 <= capture_trigger (opts p) <= 4 ->
  l <> [] -> Forall (fun s => s_trigger s = 0 \/ s_trigger s = 1) l ->
  run_status p l = Some q ->
  capture_enabled q = gate_open (capture_trigger (opts p)) (map s_trigger l).
Proof.
  intros Hin Hen Hm Hne Hl E.
  cut (capture_enabled q = gate_open (capture_trigger (opts p)) (map s_trigger l)
       /\ capture_trigger_input q = List.last (map s_trigger l) (-1)
       /\ capture_trigger (opts q) = capture_trigger (opts p)); [by intros [? _]|].
  revert q E Hne. induction l as [|s l IH] using rev_ind; intros q E Hne; [done|].
  apply Forall_app in Hl as [Hl Hs]. apply Forall_inv in Hs.
  rewrite run_status_snoc in E. destruct (run_status p l) as [r|] eqn:Er; [|done].
  cbn [mbind option_bind] in E. destruct (gate_status _ _ _ E) as (Ei & Em & Eg).
  rewrite map_app, Ei, Em. cbn [map]. rewrite List.last_last. unfold gate_open, trigger_gate in *.
  destruct l as [|s0 l].
  - injection Er as <-. cbn [map app List.last has_edge]. rewrite Hin in Eg.
    destruct (Z.eqb_spec (-1) (s_trigger s)); [lia|]. rewrite Hen in Eg. split; [|done].
    assert (capture_trigger (opts p) = 0 \/ capture_trigger (opts p) = 1 \/ capture_trigger (opts p) = 2
            \/ capture_trigger (opts p) = 3 \/ capture_trigger (opts p) = 4) as Hc by lia.
    destruct Hc as [Hc|[Hc|[Hc|[Hc|Hc]]]]; rewrite Hc in *; injection Eg as <-; try done;
      destruct Hs as [-> | ->]; done.
  - destruct (IH Hl r eq_refl) as (E1 & E2 & E3); [done|]. split; [|split; [done|congruence]].
    rewrite E3 in Eg. set (m := map s_trigger (s0 :: l)) in *.
    destruct (exists_last (l := m)) as (m' & x & Em'); [by subst m|]. rewrite Em' in *. clear m Em'.
    rewrite List.last_last in E1, E2. rewrite <- app_assoc. cbn [app]. rewrite !has_edge_snoc.
    rewrite E2, E1 in Eg. clear E1 E2.
    assert (capture_trigger (opts p) = 0 \/ capture_trigger (opts p) = 1 \/ capture_trigger (opts p) = 2
            \/ capture_trigger (opts p) = 3 \/ capture_trigger (opts p) = 4) as Hc by lia.
    destruct (Z.eqb_spec x (s_trigger s)) as [Ex|Ex].
    + rewrite Eg, Ex. destruct Hc as [Hc|[Hc|[Hc|[Hc|Hc]]]]; rewrite Hc;
        cbn -[List.last has_edge]; rewrite ?last_two, ?List.last_last; try done;
        destruct Hs as [-> | ->]; by rewrite ?orb_false_r.
    + destruct Hc as [Hc|[Hc|[Hc|[Hc|Hc]]]]; rewrite Hc in *; cbn -[List.last has_edge] in *;
        injection Eg as <-; rewrite ?last_two; try done.
      all: destruct Hs as [-> | ->]; cbn -[has_edge]; by rewrite ?andb_false_r, ?andb_true_r, ?orb_false_r.
Qed.
End Gate.

(** ** A desynchronized status frame *)

Section Desync.
Context {W : Type} `{PcapngOut W}.
Implicit Types p q : packet W.

Lemma header_time_fields p ts t :
  let q := header_time p ts t in
  capture_data q = capture_data p /\ capture_status q = capture_status p
  /\ capture_toggle q = 1 - t.
Proof.
  unfold header_time. cbv zeta. set (p1 := if has _ _ then _ else p).
  assert (E1 : capture_data p1 = capture_data p /\ capture_status p1 = capture_status p)
    by (subst p1; by destruct (has _ _)).
  clearbody p1. destruct E1 as [E1 E2].
  set (p2 := p1 <| capture_ts := _ |> <| capture_toggle := 1 - t |>).
  assert (E3 : capture_data p2 = capture_data p /\ capture_status p2 = capture_status p
               /\ capture_toggle p2 = 1 - t) by done.
  clearbody p2. destruct (_ <? _); [|done]. unfold timeout_event. destruct (capture_enabled p2); [|done].
  by destruct (capture_info_touched p2 (capture_ts p2) (cstr "Periodic update")) as [w ->].
Qed.

(** A wrong toggle bit resets the walk, whatever kind of frame it is. *)
Lemma check_header_wrong p t z :
  t <> capture_toggle p ->
  capture_status (check_header p t z) = false
  /\ capture_data (check_header p t z) = capture_data p.
Proof.
  intros Ht. unfold check_header. apply Z.eqb_neq in Ht. rewrite Ht. cbn [andb negb]. cbv zeta.
  destruct (capture_info_touched p (capture_ts p)
    (cstr "Error: received toggle value " ++ dec t ++ cstr ", expected " ++ dec (capture_toggle p)))
    as [w ->].
  set (p1 := touched p w (capture_ts p) LS_INVALID).
  assert (E1 : capture_data p1 = capture_data p) by done. clearbody p1.
  set (p2 := if negb (z =? 0) then _ else p1).
  assert (E2 : capture_data p2 = capture_data p).
  { subst p2. destruct (negb _); [|done].
    by destruct (capture_info_touched p1 (capture_ts p1)
                   (cstr "Error: zero bit in the header is not zero")) as [w' ->]. }
  clearbody p2. by destruct (desync_error_touched p2) as [w' ->].
Qed.

(** C11: a status frame whose toggle bit is wrong is not dropped: after the error is
    reported the walk goes on with it as a data header, taking the low length
    byte from whatever an earlier frame left in the buffer; when that size is
    plausible the next bytes of the stream are swallowed as its payload. *)
Theorem desync_status_misread p tov ts ls vbus trigger speed :
  let f := FStatus tov ts ls vbus trigger speed in
  let size := Z.lor (Z.shiftl (Z.land ls 0x7) 8) (capture_data p !!! 4%nat) in
  at_frame p -> done p = false -> frame_wf f -> 7 < size <= 1280 ->
  exists q, packet_feed p (encode_frame (1 - capture_toggle p) f) = Some q
    /\ capture_header q = false /\ capture_size q = size - 7 /\ capture_data_ptr q = 0
    /\ capture_status q = false.
Proof.
  intros f size Hp Hd Hf Hsz. pose proof Hp as (_ & _ & _ & _ & _ & Htg).
  set (t := 1 - capture_toggle p).
  assert (Ht : t = 0 \/ t = 1) by lia. assert (Hne : t <> capture_toggle p) by lia.
  destruct (frame_header_decode t f Hf Ht) as (Hts & D0 & D1 & D2 & D3 & D4). cbn [f] in Hts, D3, D4.
  unfold packet_feed. rewrite Hd. unfold encode_frame. cbn [frame_payload f].
  rewrite (feed_header p (frame_header t f) [] true Hp Hd); [|done|exact D0].
  set (s := p <| capture_status := true |> <| capture_size := _ |> <| capture_data := _ |>
              <| capture_data_ptr := _ |>).
  assert (Sl : forall i, (i < 4)%nat -> capture_data s !!! i = frame_header t f !!! i)
    by (intros i Hi; by apply write_at_front).
  assert (S4 : capture_data s !!! 4%nat = capture_data p !!! 4%nat).
  { change (capture_data s) with (write_at (capture_data p) 0 (frame_header t f)).
    unfold write_at. rewrite take_0. cbn [app]. rewrite !list_lookup_total_alt.
    rewrite lookup_app_r by (cbn; lia). by rewrite lookup_drop. }
  assert (St : capture_toggle s = capture_toggle p) by done. clearbody s.
  assert (Eq : exists q, header_complete s = Some q /\ capture_header q = false
    /\ capture_size q = size - 7 /\ capture_data_ptr q = 0 /\ capture_status q = false).
  2:{ destruct Eq as (q & -> & E). exists q. cbn [mbind option_bind packet_feed_loop].
      split; [by destruct (done q)|exact E]. }
  unfold header_complete. rewrite !Sl by lia. rewrite D1. cbv zeta.
  destruct (check_header_wrong s t (if has (frame_header t f !!! 0%nat) HEADER_ZERO then 1 else 0))
    as [C1 C2]; [by rewrite St|].
  set (c := check_header _ _ _) in *. clearbody c.
  match goal with |- context [header_time c ?x t] => destruct (header_time_fields c x t) as (T1 & T2 & T3);
    set (q := header_time c x t) in * end.
  clearbody q. rewrite C1 in T2. rewrite C2 in T1. rewrite T2. eexists. split; [reflexivity|].
  unfold header_data. rewrite T1, S4, (Sl 3%nat) by lia. cbv zeta.
  assert (Hb3 : Z.land (frame_header t f !!! 3%nat) 7 = Z.land ls 7).
  { cbn [f frame_header frame_first app lookup_total list_lookup_total].
    change 7 with (2 ^ 3 - 1). rewrite !land_low by lia. change (2 ^ 3) with 8.
    destruct vbus, trigger; unfold b2z; divmod. }
  rewrite Hb3. fold size. unfold DATA_HEADER_SIZE, MAX_DATA_SIZE.
  rewrite !(proj2 (Z.ltb_ge _ _)) by lia. cbn [orb].
  split_and!; try done. cbn -[Z.eqb]. apply Z.eqb_neq. lia.
Qed.
End Desync.

(** ** Concrete sessions over the record log *)

Definition demo_opts : packet_opts := mk_opts true false 1 0 3.
Definition demo : packet (list record) := packet_announce (packet_new demo_opts []).

Lemma demo_at_frame : at_frame demo.
Proof. apply session_at_frame. cbn. lia. Qed.

(** A buffered frame of the given time holding one SOF byte. *)
Definition demo_frame (ts : Z) : CaptureFrame :=
  mk_frame ts 1 (PID_SOF :: replicate (pred DATA_BUF_SIZE) 0).

Lemma demo_frame_ok ts : u64_ok ts -> frame_ok (demo_frame ts).
Proof.
  intros Ht. split_and!; cbn -[replicate pred DATA_BUF_SIZE]; try lia.
  - rewrite length_replicate. reflexivity.
  - apply Forall_cons_2; [unfold PID_SOF; lia|]. apply Forall_replicate. lia.
Qed.

(** Two frames waiting, the second stamped before the first. *)
Lemma stop_folding_log_witness :
  let p := (packet_new demo_opts ([] : list record))
             <| capture_fold_buf := demo_frame 50 :: demo_frame 40 :: replicate 254 (demo_frame 0) |>
             <| capture_fold_buf_ptr := 2 |> in
  out (stop_folding p) = [Packet 50 [0xa5]; Packet 50 [0xa5]].
Proof.
  intros p. destruct (stop_folding_log p) as (E & _); [|reflexivity|].
  - apply core_fold_set; [apply core_new; [cbn; lia|done]|reflexivity| |unfold FOLD_BUF_SIZE; lia].
    do 2 (apply Forall_cons_2; [apply demo_frame_ok; lia|]).
    apply Forall_replicate, demo_frame_ok. lia.
  - rewrite E. reflexivity.
Defined.

Lemma lossless_capture_witness :
  let p := packet_announce (packet_new (mk_opts false false 1 0 (-1)) []) in
  let fs := [FStatus false 5 0 true false 1; FData true 9 false false false 0 [0x69; 1; 2]] in
  exists q, packet_feed p (encode_frames (capture_toggle p) fs) = Some q /\ done q = false
    /\ packets (out q) = packets (out p) ++ [Packet (1048585 * 100 / 6) [0x69; 1; 2]].
Proof.
  intros p fs. apply (lossless_capture p fs).
  - apply session_at_frame. cbn. lia.
  - unfold fs. forall_concrete; cbn [frame_wf length]; forall_concrete.
  - constructor; try reflexivity. right. vm_compute. split; [reflexivity|discriminate].
Defined.


Lemma trigger_gate_opens_witness :
  let p := packet_announce (packet_new (mk_opts false false 1 CaptureTrigger_Rising (-1)) []) in
  let l := [mk_status 0 0 1 1; mk_status 0 0 0 1; mk_status 0 0 1 1] in
  exists q, run_status p l = Some q /\ capture_enabled q = true.
Proof.
  intros p l. destruct (run_status p l) as [q|] eqn:Eq; [|exfalso; revert Eq; vm_compute; discriminate].
  exists q. split; [reflexivity|].
  apply (trigger_gate_opens p l q); try reflexivity; [vm_compute; split; discriminate|discriminate|unfold l; forall_concrete; cbn; lia|exact Eq].
Defined.

(** A data frame of nine bytes, then a status frame whose toggle bit is stuck. *)
Lemma desync_status_misread_witness :
  exists q, packet_feed (demo <| capture_data := write_at (capture_data demo) 4 [9] |>)
              (encode_frame 1 (FStatus false 5 0 true false 1)) = Some q
    /\ capture_header q = false /\ capture_size q = 2.
Proof.
  destruct (desync_status_misread (demo <| capture_data := write_at (capture_data demo) 4 [9] |>)
              false 5 0 true false 1) as (q & Eq & E1 & E2 & _).
  - destruct demo_at_frame as (A1 & A2 & A3 & A4 & A5 & A6). refine (conj A1 (conj A2 (conj _ (conj A4 (conj A5 A6))))).
    apply core_data_set; [exact A3|reflexivity|].
    apply bytes_ok_write_at; [apply core_data with (I := trivial_inv), A3|forall_concrete].
  - reflexivity.
  - cbn. lia.
  - vm_compute. split; [reflexivity|discriminate].
  - exists q. split; [exact Eq|]. split; [exact E1|]. rewrite E2. reflexivity.
Defined.
