(* ===== verification/Session.v ===== *)
(** * The capture session of the gen2 engine (src/main.c)

    The callbacks that join transport, stream layer, command layer and frame
    layer, and [run_capture_gen2]: clean-up, link probe, acknowledged start-up
    with one recovery, the main loop with its raw-byte queue, and the shut-down
    in its order.  A schedule says how many queue items the worker thread handles
    and whether a stop signal arrives before each turn of the main loop. *)

From Stdlib Require Import String.
From S2P Require Import Prelude Uhsif Stream Pcapng Format Transport Cmd Packet.
Local Open Scope list_scope.

(** What the session asks of the output beyond the record writers:
    [pcapng_begin] ([None] is its failed assertion), [pcapng_write_failed] and
    [pcapng_close]. *)
Class SessionOut (W : Type) := {
  session_records :: PcapngOut W;
  out_begin : W -> Z -> option W;
  out_write_failed : W -> bool;
  out_close : W -> W;
}.

(** The rest of the output file's interface. *)
Class OutFile (S : Type) `{ByteSink S} := {
  sink_failed : S -> bool;
  sink_close : S -> S;
  sunk_close s : sunk (sink_close s) = sunk s;
}.

#[export] Instance pcapng_session {S} `{OutFile S} : SessionOut (pcapng S) := {
  out_begin p link := pcapng_begin p link;
  out_write_failed p := sink_failed (Pcapng.out p);
  out_close p :=
    let p := pcapng_flush p in p <| Pcapng.out := sink_close (Pcapng.out p) |>;
}.

Definition dlt_for_speed (speed : Z) : Z :=
  if speed =? CaptureSpeed_LS then LINKTYPE_USB_2_0_LOW_SPEED
  else if speed =? CaptureSpeed_FS then LINKTYPE_USB_2_0_FULL_SPEED
  else if speed =? CaptureSpeed_HS then LINKTYPE_USB_2_0_HIGH_SPEED
  else LINKTYPE_USB_2_0.

Definition RAWQ_CHUNK : nat := Z.to_nat (256 * 1024).

(** [context] with the [g_stop] flag its callbacks raise.  [aborted] records a
    failed assertion, which ends the process. *)
Record context (W : Type) := mk_context {
  cx_cmd : cmd;
  cx_packet : packet W;
  g_stop : bool;
  aborted : bool;
}.
Arguments mk_context {W}. Arguments cx_cmd {W}. Arguments cx_packet {W}. Arguments g_stop {W}.
Arguments aborted {W}.
#[export] Instance context_settable W : Settable (context W) := fun c =>
  mk_context (cx_cmd c) (cx_packet c) (g_stop c) (aborted c).

(** The other half of [context]: the stream layer, the raw-byte queue (oldest
    item first) and [async_feed]. *)
Record pipe (W : Type) := mk_pipe {
  cx_stream : stream;
  cx_client : context W;
  rq : list (list Z);
  async_feed : bool;
}.
Arguments mk_pipe {W}. Arguments cx_stream {W}. Arguments cx_client {W}. Arguments rq {W}.
Arguments async_feed {W}.
#[export] Instance pipe_settable W : Settable (pipe W) := fun p =>
  mk_pipe (cx_stream p) (cx_client p) (rq p) (async_feed p).

(** A run of the session: ended by [os_error] or a failed assertion, or short of
    fuel, or a result. *)
Inductive res (A : Type) := Ok (a : A) | Os_error (msg : list Z) | No_fuel.
Arguments Ok {A}. Arguments Os_error {A}. Arguments No_fuel {A}.

Definition res_bind {A B} (m : res A) (f : A -> res B) : res B :=
  match m with Ok a => f a | Os_error msg => Os_error msg | No_fuel => No_fuel end.
Notation "'let*' x := m 'in' f" := (res_bind m (fun x => f))
  (at level 10, x pattern at level 0, m at level 200, f at level 200).

Definition of_fuel {A} (o : option A) : res A := match o with Some a => Ok a | None => No_fuel end.

Section Pipe.
Context {W : Type} `{PcapngOut W}.
Implicit Types (cx : context W) (p : pipe W).

Definition data_event_cb (data : list Z) cx : context W :=
  let cx :=
    if cmd_input_suppressed (cx_cmd cx) then cx
    else
      match packet_feed (cx_packet cx) data with
      | Some q => cx <| cx_packet := q |>
      | None => cx <| aborted := true |>
      end in
  if packet_finished (cx_packet cx) then cx <| g_stop := true |> else cx.

Definition ack_event_cb cx : context W := cx <| cx_cmd := cmd_ack_event (cx_cmd cx) |>.

Definition rsync_event_cb cx : context W := cx <| cx_packet := packet_rsync (cx_packet cx) |>.

#[export] Instance context_client : StreamClient (context W) := {
  data_cb := data_event_cb;
  ack_cb := ack_event_cb;
  rsync_cb := rsync_event_cb;
}.

(** [stream_feed] on the pipe. *)
Definition feed_stream (data : list Z) p : pipe W :=
  match stream_feed (cx_stream p) (cx_client p) data with
  | Some (s, cx) => p <| cx_stream := s |> <| cx_client := cx |>
  | None => p <| cx_client := (cx_client p) <| aborted := true |> |>
  end.

(** [rawq_push]: at most [RAWQ_CHUNK] bytes per item. *)
Definition rawq_push p (data : list Z) : pipe W :=
  p <| rq := rq p ++ chunks_of (length data) RAWQ_CHUNK data |>.

Definition feed_cb (data : list Z) p : pipe W :=
  if (length data =? 0)%nat then p
  else if async_feed p then rawq_push p data else feed_stream data p.

#[export] Instance pipe_client : FeedClient (pipe W) := { feed := feed_cb }.

(** One turn of the worker's loop. *)
Definition rawq_work p : pipe W :=
  match rq p with
  | [] => p
  | it :: q => feed_stream it (p <| rq := q |>)
  end.

Definition rawq_stop p : pipe W := Nat.iter (length (rq p)) rawq_work p.
End Pipe.

Section Session.
Context {W T : Type} `{SessionOut W}.

(** The clock of the host: the successive readings of [os_get_time_ms]. *)
Context (reading : nat -> Z).

Record world := mk_world {
  w_tr : transport T (pipe W);
  w_pipe : pipe W;
  w_clock : nat;
}.
Implicit Type w : world.

Definition set_tr w t := mk_world t (w_pipe w) (w_clock w).
Definition set_pipe w p := mk_world (w_tr w) p (w_clock w).
Definition on_cx (f : context W -> context W) w :=
  set_pipe w ((w_pipe w) <| cx_client := f (cx_client (w_pipe w)) |>).
Definition on_packet (f : packet W -> packet W) w :=
  on_cx (fun cx => cx <| cx_packet := f (cx_packet cx) |>) w.
Definition on_out (f : W -> W) w :=
  on_packet (fun q => q <| Packet.out := f (Packet.out q) |>) w.

Definition w_cx w : context W := cx_client (w_pipe w).
Definition w_out w : W := Packet.out (cx_packet (w_cx w)).
Definition set_cmd (c : cmd) w := on_cx (fun cx => cx <| cx_cmd := c |>) w.

(** [transport_events] with the session's callbacks. *)
Definition session_events w (timeout_ms : Z) : world * bool :=
  let '(t, p, more) := transport_events (w_tr w) (w_pipe w) timeout_ms in
  (mk_world t p (w_clock w), more).

#[export] Instance world_env : CmdEnv world := {
  env_write d w := let '(t, rc) := transport_write (w_tr w) d in (set_tr w t, rc);
  env_events tmo w c :=
    let '(w, _) := session_events (set_cmd c w) tmo in (w, cx_cmd (w_cx w));
  env_alive w := transport_alive (w_tr w);
  env_time w := (mk_world (w_tr w) (w_pipe w) (S (w_clock w)), reading (w_clock w));
}.

Definition quiet w (id param : Z) : world := cmd_tx_quiet w (cx_cmd (w_cx w)) id param.

Definition exec (fuel : nat) w (id param : Z) : res (world * bool) :=
  let* (w, c, ok) := of_fuel (cmd_exec fuel w (cx_cmd (w_cx w)) id param) in
  Ok (set_cmd c w, ok).

Definition discard w : world := set_tr w (transport_discard (w_tr w)).

Definition capture_stop_and_flush w : world :=
  let w := quiet w UHSIF_CMD_ENABLE 0 in
  let w := quiet w UHSIF_CMD_RESET 1 in
  discard w.

Definition init_cmds (speed : Z) : list (Z * Z) :=
  [(UHSIF_CMD_UPLOAD_PARAMS, 4092); (UHSIF_CMD_SPEED, u32 speed); (UHSIF_CMD_RESET, 0);
   (UHSIF_CMD_ENABLE, 1)].

Fixpoint exec_all (fuel : nat) w (cmds : list (Z * Z)) : res (world * bool) :=
  match cmds with
  | [] => Ok (w, true)
  | (id, param) :: cmds =>
      let* (w, ok) := exec fuel w id param in
      if ok then exec_all fuel w cmds else Ok (w, false)
  end.

Definition capture_init_cmds (fuel : nat) w (speed : Z) : res (world * bool) :=
  exec_all fuel w (init_cmds speed).

Definition LINK_PROBE_MS : Z := 400.

(** The rate in the arithmetic of [double]; [None] is the negative value. *)
Definition link_rate (bytes : Z) : option rat :=
  if bytes <=? 0 then None
  else Some (f64 (rdiv (f64 (rdiv (f64 (rmul (f64 (bytes, 1)) (1000, 1))) LINK_PROBE_MS)) 1000000)).

Definition capture_speed_probe w : world * option rat :=
  let w := quiet w UHSIF_CMD_UPLOAD_PARAMS 4092 in
  let w := quiet w UHSIF_CMD_TEST 1 in
  let '(t, bytes) := transport_probe_upstream (w_tr w) LINK_PROBE_MS in
  let w := set_tr w t in
  let w := quiet w UHSIF_CMD_TEST 0 in
  let w := discard w in
  (w, link_rate bytes).

(** One turn of the start-up loop. *)
Definition startup_attempt (fuel : nat) (replay : bool) (speed : Z) w
    : res (world * option rat * bool) :=
  let w := capture_stop_and_flush w in
  let '(w, link) := if replay then (w, None) else capture_speed_probe w in
  let* (w, inited) := capture_init_cmds fuel w speed in
  Ok (w, link, inited).

Definition startup (fuel : nat) (replay : bool) (speed : Z) w : res (world * option rat) :=
  let* (w, link, inited) := startup_attempt fuel replay speed w in
  if inited then Ok (w, link)
  else
    let '(t, ok) := transport_reset_device (w_tr w) in
    if negb ok then Os_error (cstr "FPGA not responding and device reset is unavailable")
    else
      let w := set_cmd cmd_init (set_tr w t) in
      let* (w, link, inited) := startup_attempt fuel replay speed w in
      if inited then Ok (w, link)
      else Os_error (cstr "FPGA did not acknowledge the init sequence after device reset").

(** A message of the session itself, written when it fits its buffer. *)
Definition link_info (buffer : Z) (line : list Z) w : world :=
  let len := Z.of_nat (length line) in
  if (0 <? len) && (len <? buffer) then
    on_out out_flush (on_out (fun o => out_info o 0 line len) w)
  else w.

Definition announce_link (link : option rat) w : world :=
  match link with
  | None => w
  | Some r =>
      let w := link_info 128 (cstr "Link bandwidth (uplink): " ++ fixed 1 r ++ cstr " MB/s") w in
      if rlt r (150, 1) then
        link_info 192
          (cstr "WARNING: uplink degraded (" ++ fixed 1 r
           ++ cstr " MB/s < 150); expected ~420 MB/s with 16 KiB blocks on SuperSpeed -- host stalls may drop packets") w
      else w
  end.

(** The main loop.  Before each test of its condition the schedule lets the
    worker handle some items and may deliver a stop signal; when the schedule is
    used up neither happens. *)
Fixpoint main_loop (fuel : nat) (sched : list (nat * bool)) w : option world :=
  match fuel with
  | O => None
  | S fuel =>
      let '(n, signal) := List.hd (0%nat, false) sched in
      let w := set_pipe w (Nat.iter n rawq_work (w_pipe w)) in
      let w := if signal then on_cx (fun cx => cx <| g_stop := true |>) w else w in
      if negb (g_stop (w_cx w)) && transport_alive (w_tr w)
         && negb (packet_finished (cx_packet (w_cx w))) && negb (out_write_failed (w_out w))
      then
        let '(w, more) := session_events w 50 in
        if more then main_loop fuel (List.tl sched) w else Some w
      else Some w
  end.

(** Why the capture ended. *)
Definition stop_reason w : list Z :=
  if packet_finished (cx_packet (w_cx w)) then cstr "capture limit reached"
  else if g_stop (w_cx w) then cstr "host stop (Wireshark Stop / stop condition / signal)"
  else if out_write_failed (w_out w) then cstr "output pipe closed (consumer stopped reading)"
  else if negb (transport_alive (w_tr w)) then cstr "uplink/device lost"
  else cstr "stream ended".

(** The end of a session on the FPGA's side. *)
Definition disable_capture (fuel : nat) w : res world :=
  if transport_alive (w_tr w) then
    let* (w, ok) := exec fuel w UHSIF_CMD_ENABLE 0 in
    let w := if ok then w else quiet w UHSIF_CMD_ENABLE 0 in
    Ok (fst (session_events w 20))
  else Ok w.

(** [run_capture_gen2] after the transport was created.  [build] is the text of
    the build date. *)
Definition run_capture_gen2 (fuel : nat) (sched : list (nat * bool)) (replay : bool)
    (build : list Z) (popts : packet_opts) (o : W) (tr : transport T (pipe W)) : res (world * Z) :=
  let cx := mk_context cmd_init (packet_new popts o) false false in
  let w := mk_world tr (mk_pipe stream_new cx [] false) 0 in
  let '(t, ok) := transport_open (w_tr w) in
  let w := set_tr w t in
  if negb ok then Os_error (cstr "could not open the capture transport")
  else
    let* (w, link) := startup fuel replay (capture_speed popts) w in
    match out_begin (w_out w) (dlt_for_speed (capture_speed popts)) with
    | None => Os_error (cstr "assertion '!p->begun' failed")
    | Some o =>
        let w := on_out (fun _ => o) w in
        let w := announce_link link w in
        let w := on_packet packet_announce w in
        let w := on_packet (fun q => packet_info q (cstr "Plugin build: " ++ build)) w in
        let w := set_tr w (transport_stream_mode (w_tr w)) in
        let w := set_pipe w ((w_pipe w) <| async_feed := true |>) in
        let* w := of_fuel (main_loop fuel sched w) in
        let w := set_pipe w ((rawq_stop (w_pipe w)) <| async_feed := false |>) in
        let w := on_packet (fun q => packet_stop_info q (stop_reason w)) w in
        let* w := disable_capture fuel w in
        let w := on_out out_close w in
        let w := set_tr w (transport_close (w_tr w)) in
        Ok (w, 0)
    end.
End Session.
