(* ===== verification/SessionSafe.v ===== *)
(** * What a session guarantees whatever the device sends

    An invariant of the whole pipeline, kept by every step of
    [run_capture_gen2] over any transport that touches the client only by feeding
    it bytes. *)

From Stdlib Require Import String.
From S2P Require Import Prelude Uhsif Stream Pcapng Format Transport Cmd Packet Session.
Local Open Scope list_scope.

(** What a backend owes the session: a set of private states its operations stay
    in, and events that reach the client as fed byte strings only. *)
Record feeds_bytes {T U} `{FeedClient U} (P : T -> Prop) (o : transport_ops T U) : Prop := {
  fb_open p : P p -> P (op_open o p).1;
  fb_discard p : P p -> P (op_discard o p);
  fb_stream_mode p : P p -> P (op_stream_mode o p);
  fb_write p d : P p -> P (op_write o p d).1;
  fb_probe : match op_probe_upstream o with
             | Some probe => forall p ms, P p -> P (probe p ms).1 | None => True end;
  fb_reset : match op_reset_device o with
             | Some reset => forall p, P p -> P (reset p).1 | None => True end;
  fb_events p u tmo : P p ->
    P (op_events o p u tmo).1.1
    /\ exists ds, Forall (fun d => bytes_ok d) ds
       /\ (op_events o p u tmo).1.2 = fold_left (fun u d => feed d u) ds u;
}.

(** The replay backend keeps the contract on a file of bytes. *)
Lemma bytes_ok_chunks fuel n l : bytes_ok l -> Forall (fun d => bytes_ok d) (chunks_of fuel n l).
Proof.
  revert l. induction fuel as [|fuel IH]; intros l Hl; destruct l as [|b l]; try by constructor.
  cbn [chunks_of]. constructor; [|apply IH]; auto with sniffer.
Qed.

Definition replay_bytes (p : replay_priv) : Prop :=
  match fd p with Some l => bytes_ok l | None => True end.

Lemma fd_read_bytes p n p' d :
  replay_bytes p -> fd_read p n = Some (p', d) ->
  replay_bytes p' /\ bytes_ok d /\ alive p' = alive p /\ stream_mode p' = stream_mode p.
Proof.
  unfold replay_bytes, fd_read. destruct (fd p) as [l|]; [|done]. intros Hl [= <- <-].
  cbn. split_and!; auto with sniffer.
Qed.

Lemma replay_feeds_bytes {U} `{FeedClient U} : feeds_bytes replay_bytes (replay_ops (U:=U)).
Proof.
  assert (Hd : forall p, replay_bytes p -> replay_bytes (discard_ack p).1).
  { intros p Hp. unfold discard_ack. destruct (fd_read p 16) as [[p' d]|] eqn:E; [|exact Hp].
    apply fd_read_bytes in E as (Hp' & _); [|done]. by destruct (_ <? _)%nat. }
  constructor; cbn; try done.
  - intros p Hp. unfold tr_discard. pose proof (Hd p Hp) as H1.
    destruct (discard_ack p) as [p1 brk]. destruct brk; [done|]. by apply Hd.
  - intros p u tmo Hp. unfold tr_events. destruct (alive p); cbn [negb]; [|split; [done|by exists []]].
    cbv zeta. destruct (fd_read p _) as [[p' d]|] eqn:E; [|split; [done|by exists []]].
    apply fd_read_bytes in E as (Hp' & Hb & _); [|done].
    destruct (_ =? 0)%nat; [split; [done|by exists []]|]. cbn [fst snd].
    split; [by destruct (_ <? _)%nat|]. exists [d]. split; [by constructor|done].
Qed.

(** What the output owes the session, before and after [pcapng_begin]. *)
Class SessionInv {W} `{SessionOut W} (I0 I1 : W -> Prop) (link : Z) := {
  inv_before :: SinkInv I0;
  inv_after :: SinkInv I1;
  inv_begin w : I0 w -> exists w', out_begin w link = Some w' /\ I1 w';
  inv_close w : I1 w -> I1 (out_close w);
}.

(** ** The packet layer between its own operations *)

Section PacketOps.
Context {W : Type} `{PcapngOut W} (I : W -> Prop) `{!SinkInv I}.
Implicit Types p q : packet W.

Lemma wf_walk p q : wf I p -> core I q -> walk q = walk p -> wf I q.
Proof.
  intros [_ Hw] Hc E. split; [done|]. unfold walk in E. injection E as E1 E2 E3 E4 E5 E6 E7 E8.
  unfold walk_ok in *. by rewrite E2, E3, E4, E5.
Qed.

Lemma wf_message p ts str : wf I p -> u64_ok ts -> bytes_ok str -> wf I (capture_info p ts str).
Proof. intros Hp Ht Hs. eapply wf_walk; [exact Hp| |apply walk_info]. by apply (core_info I); [apply Hp|done..]. Qed.

Lemma wf_message_now p str : wf I p -> bytes_ok str -> wf I (capture_info p (capture_ts p) str).
Proof. intros Hp. apply wf_message; [done|]. apply Hp. Qed.

Lemma wf_announce p : wf I p -> wf I (packet_announce p).
Proof.
  intros Hp. destruct (announce_ok I p (proj1 Hp)) as [Hc E]. by eapply wf_walk.
Qed.

Lemma wf_out (J : W -> Prop) p o : wf I p -> J o -> wf J (p <| Packet.out := o |>).
Proof. intros [Hc Hw] Ho. split; [|exact Hw]. destruct Hc. by constructor. Qed.

Lemma packet_feed_wf p d q : wf I p -> bytes_ok d -> packet_feed p d = Some q -> wf I q.
Proof.
  intros Hp Hd Eq. destruct (packet_feed_ok I p d Hp Hd) as (q' & Eq' & Hq). congruence.
Qed.
End PacketOps.

(** ** The pipeline *)

Section Pipe.
Context {W : Type} `{PcapngOut W} (I : W -> Prop) `{!SinkInv I}.
Implicit Types (cx : context W) (p : pipe W).

Definition client_ok cx : Prop := wf I (cx_packet cx) /\ aborted cx = false.

Record pipe_ok p : Prop := {
  pipe_stream : ready (cx_stream p);
  pipe_buf : bytes_ok (buf (cx_stream p));
  pipe_client_ok : client_ok (cx_client p);
  pipe_rq : Forall (fun d => bytes_ok d) (rq p);
}.

Lemma client_event e cx : event_ok e -> client_ok cx -> client_ok (apply_event cx e).
Proof.
  intros He [Hp Ha]. destruct e as [d| |]; cbn [apply_event data_cb ack_cb rsync_cb context_client].
  - unfold data_event_cb. cbv zeta.
    set (cx1 := if cmd_input_suppressed _ then _ else _).
    assert (H1 : client_ok cx1).
    { subst cx1. destruct (cmd_input_suppressed _); [done|].
      destruct (packet_feed_ok I (cx_packet cx) d Hp He) as (q & -> & Hq). by split. }
    clearbody cx1. destruct (packet_finished _); [|done]. by destruct H1.
  - by split.
  - split; [|done]. apply (wf_message_now I); [done|auto with sniffer].
Qed.

Lemma client_events es cx : Forall event_ok es -> client_ok cx -> client_ok (apply_events es cx).
Proof.
  intros Hes. revert cx. induction Hes as [|e es He Hes IH]; intros cx Hc; [done|].
  apply IH. by apply client_event.
Qed.

(** Feeding the stream layer, with the events it reports. *)
Lemma feed_stream_spec p d :
  pipe_ok p -> bytes_ok d ->
  exists s, feed_stream d p
    = p <| cx_stream := s |>
        <| cx_client := apply_events (denote (cx_stream p) d) (cx_client p) |>
    /\ ready s /\ bytes_ok (buf s)
    /\ forall y, denote (cx_stream p) (d ++ y) = denote (cx_stream p) d ++ denote s y.
Proof.
  intros [Hr Hb Hc Hq] Hd.
  destruct (stream_feed_denote (cx_stream p) (cx_client p) d Hr) as (s & E & R & D).
  exists s. unfold feed_stream. rewrite E. split; [done|]. split; [done|]. split; [|done].
  exact (stream_feed_bytes _ _ _ _ _ Hb Hd E).
Qed.

Lemma feed_stream_ok p d : pipe_ok p -> bytes_ok d -> pipe_ok (feed_stream d p).
Proof.
  intros Hp Hd. destruct (feed_stream_spec p d Hp Hd) as (s & -> & R & B & _).
  destruct Hp as [Hr Hb Hc Hq]. constructor; cbn; try done.
  apply client_events; [by apply denote_ok|done].
Qed.

Lemma feed_cb_ok p d : pipe_ok p -> bytes_ok d -> pipe_ok (feed_cb d p).
Proof.
  intros Hp Hd. unfold feed_cb. destruct (_ =? 0)%nat; [done|].
  destruct (async_feed p); [|by apply feed_stream_ok].
  destruct Hp as [Hr Hb Hc Hq]. constructor; cbn; try done.
  apply Forall_app_2; [done|]. by apply bytes_ok_chunks.
Qed.

Lemma feeds_ok ds p :
  Forall (fun d => bytes_ok d) ds -> pipe_ok p -> pipe_ok (fold_left (fun u d => feed d u) ds p).
Proof.
  intros Hds. revert p. induction Hds as [|d ds Hd Hds IH]; intros p Hp; [done|].
  apply IH. by apply feed_cb_ok.
Qed.

Lemma rawq_work_ok p : pipe_ok p -> pipe_ok (rawq_work p).
Proof.
  intros Hp. unfold rawq_work. destruct (rq p) as [|it q] eqn:Eq; [done|].
  destruct Hp as [Hr Hb Hc Hq]. rewrite Eq in Hq. apply Forall_cons_1 in Hq as [Hi Hq].
  apply feed_stream_ok; [|done]. by constructor.
Qed.

Lemma rawq_works_ok n p : pipe_ok p -> pipe_ok (Nat.iter n rawq_work p).
Proof. intros Hp. induction n as [|n IH]; [done|]. by apply rawq_work_ok. Qed.

Lemma rawq_stop_empty p : pipe_ok p -> rq (rawq_stop p) = [].
Proof.
  unfold rawq_stop. remember (length (rq p)) as n eqn:En. revert p En.
  induction n as [|n IH]; intros p En Hp; [cbn; by destruct (rq p)|].
  rewrite Nat.iter_succ_r. pose proof (rawq_work_ok p Hp) as Hw. apply IH; [|done].
  unfold rawq_work in *. destruct (rq p) as [|it q] eqn:Eq; [done|]. injection En as En.
  destruct Hp as [Hr Hb Hc Hq]. rewrite Eq in Hq. apply Forall_cons_1 in Hq as [Hi Hq].
  set (p0 := p <| rq := q |>). assert (Hp0 : pipe_ok p0) by by constructor.
  destruct (feed_stream_spec p0 it Hp0 Hi) as (s & -> & _). exact En.
Qed.
End Pipe.

(** ** The session *)

Section Session.
Context {W T : Type} `{SessionOut W} (reading : nat -> Z).
Context (I0 I1 : W -> Prop) (link : Z) `{!SessionInv I0 I1 link} (P : T -> Prop).
Implicit Type w : world (W:=W) (T:=T).
#[local] Existing Instance world_env.

Section Ops.
Context (I : W -> Prop) `{!SinkInv I}.

Definition tr_ok (t : transport T (pipe W)) : Prop := feeds_bytes P (ops t) /\ P (priv t).
Definition world_ok w : Prop := pipe_ok I (w_pipe w) /\ tr_ok (w_tr w).

Lemma ok_set_tr w t : world_ok w -> tr_ok t -> world_ok (set_tr w t).
Proof. by intros [Hp Hf] Ht. Qed.

Lemma ok_discard w : world_ok w -> world_ok (discard w).
Proof. intros Hw. apply ok_set_tr; [done|]. destruct Hw as [_ [Hf Hp]]. split; [done|]. exact (fb_discard P _ Hf _ Hp). Qed.

Lemma ok_on_cx f w : (forall cx, client_ok I cx -> client_ok I (f cx)) ->
  world_ok w -> world_ok (on_cx f w).
Proof. intros Hc [[Hr Hb Hx Hq] Hf]. split; [|done]. constructor; cbn; auto. Qed.

Lemma ok_set_cmd c w : world_ok w -> world_ok (set_cmd c w).
Proof. apply ok_on_cx. intros cx [? ?]. by split. Qed.

Lemma ok_on_packet f w : (forall q, wf I q -> wf I (f q)) -> world_ok w -> world_ok (on_packet f w).
Proof. intros Hc. apply ok_on_cx. intros cx [? ?]. split; [by apply Hc|done]. Qed.

Lemma ok_on_out f w : (forall o, I o -> I (f o)) -> world_ok w -> world_ok (on_out f w).
Proof.
  intros Hc. apply ok_on_packet. intros q Hq. apply (wf_out I); [done|]. apply Hc, Hq.
Qed.

Lemma ok_events w tmo : world_ok w -> world_ok (fst (session_events w tmo)).
Proof.
  intros [Hp [Hf Ht]]. unfold session_events, transport_events.
  destruct (fb_events P _ Hf (priv (w_tr w)) (w_pipe w) tmo Ht) as (Ht' & ds & Hds & E).
  destruct (op_events _ _ _ _) as [[p u] r]. cbn [fst snd] in *. subst u.
  split; [|by split]. by apply feeds_ok.
Qed.

Lemma ok_write w d : world_ok w -> world_ok (fst (env_write (CmdEnv:=world_env reading) d w)).
Proof.
  intros Hw. cbn [env_write world_env]. unfold transport_write.
  destruct Hw as [Hp [Hf Ht]]. pose proof (fb_write P _ Hf _ d Ht) as Ht'.
  destruct (op_write _ _ _) as [p rc]. by split.
Qed.

Lemma ok_quiet w id param : world_ok w -> world_ok (quiet reading w id param).
Proof. apply ok_write. Qed.

Lemma ok_exec fuel w id param w' b :
  world_ok w -> exec reading fuel w id param = Ok (w', b) -> world_ok w'.
Proof.
  intros Hw. unfold exec. destruct (cmd_exec _ _ _ _ _) as [[[w1 c] ok]|] eqn:E; [|done].
  cbn [of_fuel res_bind]. intros [= <- <-]. apply ok_set_cmd.
  eapply (cmd_exec_inv (H:=world_env reading) world_ok); [..|exact Hw|exact E].
  - intros pkt e. apply ok_write.
  - intros e He. exact He.
  - intros t e c' He. cbn [env_events world_env].
    pose proof (ok_events _ t (ok_set_cmd c' _ He)) as H1.
    by destruct (session_events _ _).
Qed.

Lemma ok_exec_all fuel cmds w w' b :
  world_ok w -> exec_all reading fuel w cmds = Ok (w', b) -> world_ok w'.
Proof.
  revert w. induction cmds as [|[id param] cmds IH]; intros w Hw; cbn [exec_all]; [by intros [= <- <-]|].
  destruct (exec _ _ _ _ _) as [[w1 ok]| |] eqn:E; [|done..]. cbn [res_bind].
  apply ok_exec in E; [|done]. destruct ok; [by apply IH|by intros [= <- <-]].
Qed.

Lemma ok_startup_attempt fuel replay speed w w' l b :
  world_ok w -> startup_attempt reading fuel replay speed w = Ok (w', l, b) -> world_ok w'.
Proof.
  intros Hw. unfold startup_attempt, capture_init_cmds.
  assert (H1 : world_ok (capture_stop_and_flush reading w))
    by by apply ok_discard, ok_quiet, ok_quiet.
  set (w1 := capture_stop_and_flush reading w) in *. clearbody w1. cbv zeta.
  assert (H2 : world_ok (fst (if replay then (w1, None) else capture_speed_probe reading w1))).
  { destruct replay; [done|]. unfold capture_speed_probe, transport_probe_upstream.
    set (w2 := quiet reading (quiet reading w1 _ _) _ _).
    assert (Hw2 : world_ok w2) by by do 2 apply ok_quiet. clearbody w2.
    pose proof (fb_probe P _ (proj1 (proj2 Hw2))) as Hpr.
    destruct (op_probe_upstream _) as [probe|]; cbn [fst];
      [|by apply ok_discard, ok_quiet, ok_set_tr; [|apply Hw2]].
    specialize (Hpr (priv (w_tr w2)) LINK_PROBE_MS (proj2 (proj2 Hw2))).
    destruct (probe _ _) as [p r]. apply ok_discard, ok_quiet, ok_set_tr; [done|].
    split; [apply Hw2|done]. }
  destruct (if replay then _ else _) as [w3 l3]. cbn [fst] in H2.
  destruct (exec_all _ _ _ _) as [[w4 b4]| |] eqn:E; [|done..].
  cbn [res_bind]. intros [= <- <- <-]. by eapply ok_exec_all.
Qed.

Lemma ok_startup fuel replay speed w w' l :
  world_ok w -> startup reading fuel replay speed w = Ok (w', l) -> world_ok w'.
Proof.
  intros Hw. unfold startup.
  destruct (startup_attempt _ _ _ _ _) as [[[w1 l1] b1]| |] eqn:E1; [|done..]. cbn [res_bind].
  apply ok_startup_attempt in E1; [|done]. destruct b1; [by intros [= <- <-]|].
  unfold transport_reset_device. pose proof (fb_reset P _ (proj1 (proj2 E1))) as Hre.
  destruct (op_reset_device _) as [reset|]; [|done].
  specialize (Hre (priv (w_tr w1)) (proj2 (proj2 E1))).
  destruct (reset _) as [p ok]. destruct ok; [|done]. cbn [negb].
  destruct (startup_attempt _ _ _ _ _) as [[[w2 l2] b2]| |] eqn:E2; [|done..]. cbn [res_bind].
  apply ok_startup_attempt in E2; [|apply ok_set_cmd, ok_set_tr; [done|]; split; [apply E1|done]].
  destruct b2; [by intros [= <- <-]|done].
Qed.

Lemma ok_main_loop fuel sched w w' :
  world_ok w -> main_loop fuel sched w = Some w' -> world_ok w'.
Proof.
  revert sched w. induction fuel as [|fuel IH]; intros sched w Hw; cbn [main_loop]; [done|].
  destruct (List.hd _ sched) as [n signal]. cbv zeta.
  set (w1 := set_pipe w _).
  assert (H1 : world_ok w1) by (split; [apply rawq_works_ok; [done|apply Hw]|apply Hw]). clearbody w1.
  set (w2 := if signal then _ else w1).
  assert (H2 : world_ok w2).
  { subst w2. destruct signal; [|done]. apply ok_on_cx; [|done]. intros cx [? ?]. by split. }
  clearbody w2. destruct (_ && _); [|by intros [= <-]].
  pose proof (ok_events w2 50 H2) as H3. destruct (session_events _ _) as [w3 more]. cbn [fst] in H3.
  destruct more; [by apply IH|by intros [= <-]].
Qed.

Lemma ok_disable fuel w w' :
  world_ok w -> disable_capture reading fuel w = Ok w' -> world_ok w'.
Proof.
  intros Hw. unfold disable_capture. destruct (transport_alive _); [|by intros [= <-]].
  destruct (exec _ _ _ _ _) as [[w1 ok]| |] eqn:E; [|done..]. cbn [res_bind]. intros [= <-].
  apply ok_exec in E; [|done]. apply ok_events. destruct ok; [done|by apply ok_quiet].
Qed.

Lemma ok_link_info n line w : bytes_ok line -> n <= 512 -> world_ok w -> world_ok (link_info n line w).
Proof.
  intros Hl Hn Hw. unfold link_info. cbv zeta.
  destruct ((0 <? Z.of_nat (length line)) && _) eqn:E; [|done].
  apply andb_true_iff in E as [_ E]. apply Z.ltb_lt in E.
  apply ok_on_out; [apply inv_flush|]. apply ok_on_out; [|done].
  intros o Ho. apply inv_info; [done|]. split; [lia|]. split; [done|lia].
Qed.

Lemma ok_announce_link l w : world_ok w -> world_ok (announce_link l w).
Proof.
  intros Hw. unfold announce_link. destruct l as [r|]; [|done]. cbv zeta.
  assert (H1 : world_ok (link_info 128 (cstr "Link bandwidth (uplink): " ++ fixed 1 r ++ cstr " MB/s") w)).
  { apply ok_link_info; [|lia|done]. bytes_pieces. }
  destruct (rlt _ _); [|done]. apply ok_link_info; [|lia|done].
  bytes_pieces.
Qed.
End Ops.

(** Crossing [pcapng_begin]. *)
Lemma ok_begin w :
  world_ok I0 w -> exists o, out_begin (w_out w) link = Some o /\ world_ok I1 (on_out (fun _ => o) w).
Proof.
  intros [[Hr Hb [Hx Ha] Hq] Hf].
  destruct (inv_begin (w_out w) (core_out _ _ (proj1 Hx))) as (o & E & Ho).
  exists o. split; [done|]. split; [|done]. constructor; cbn; try done.
  split; [|done]. by apply (wf_out I0).
Qed.

(** How a session can end. *)
Definition session_ends (r : res (world (W:=W) (T:=T) * Z)) : Prop :=
  match r with
  | Ok (w, code) =>
      code = 0 /\ aborted (w_cx w) = false /\ I1 (w_out w)
  | Os_error msg =>
      msg = cstr "could not open the capture transport"
      \/ msg = cstr "FPGA not responding and device reset is unavailable"
      \/ msg = cstr "FPGA did not acknowledge the init sequence after device reset"
  | No_fuel => True
  end.

Lemma Os_error_inj {A} m m' : Os_error (A:=A) m = Os_error m' -> m = m'.
Proof. by intros [= ->]. Qed.

Lemma res_bind_error {A B} (m : res A) (f : A -> res B) msg :
  res_bind m f = Os_error msg -> m = Os_error msg \/ exists a, m = Ok a /\ f a = Os_error msg.
Proof. destruct m as [a|m|]; cbn; [by right; exists a|intros [= ->]; by left|done]. Qed.

Lemma startup_error fuel replay speed w msg :
  startup (W:=W) (T:=T) reading fuel replay speed w = Os_error msg ->
  msg = cstr "FPGA not responding and device reset is unavailable"
  \/ msg = cstr "FPGA did not acknowledge the init sequence after device reset".
Proof.
  assert (Hx : forall f w0 id param m, exec (W:=W) (T:=T) reading f w0 id param <> Os_error m)
    by (intros; unfold exec; by destruct (cmd_exec _ _ _ _ _) as [[[? ?] ?]|]).
  assert (Ha : forall f cmds w0 m, exec_all (W:=W) (T:=T) reading f w0 cmds <> Os_error m).
  { intros f cmds. induction cmds as [|[id param] cmds IH]; intros w0 m; [done|]. cbn [exec_all].
    destruct (exec _ _ _ _ _) as [[w1 ok]|m'|] eqn:E; cbn [res_bind]; [|by apply Hx in E|done].
    by destruct ok. }
  assert (Ht : forall w0 m, startup_attempt (W:=W) (T:=T) reading fuel replay speed w0 <> Os_error m).
  { intros w0 m. unfold startup_attempt. cbv zeta. destruct (if replay then _ else _) as [w1 l].
    unfold capture_init_cmds. destruct (exec_all _ _ _ _) as [[w2 ok]|m'|] eqn:E; [done|by apply Ha in E|done]. }
  unfold startup. intros E. apply res_bind_error in E as [E|([[w1 l1] b1] & _ & E)]; [by apply Ht in E|].
  destruct b1; [done|]. destruct (transport_reset_device _) as [t ok].
  destruct ok; cbn [negb] in E; [|left; symmetry; exact (Os_error_inj _ _ E)].
  apply res_bind_error in E as [E|([[w2 l2] b2] & _ & E)]; [by apply Ht in E|].
  destruct b2; [done|right; symmetry; exact (Os_error_inj _ _ E)].
Qed.

Lemma session_ends_ok fuel sched replay build popts o tr :
  I0 o -> feeds_bytes P (ops tr) -> P (priv tr) -> bytes_ok build ->
  0 <= capture_trigger popts <= 4 -> link = dlt_for_speed (capture_speed popts) ->
  session_ends (run_capture_gen2 reading fuel sched replay build popts o tr).
Proof.
  intros Ho Hf HP Hb Ht Hl. unfold run_capture_gen2. cbv zeta. cbn [w_tr].
  set (w0 := mk_world tr _ 0).
  assert (H0 : world_ok I0 w0).
  { split; [|done]. pose proof stream_new_ready. constructor; cbn -[stream_new packet_new]; try done.
    - apply Forall_replicate. lia.
    - split; [|done]. split; [by apply core_new|]. apply boundary_walk_ok. split; [done|by left]. }
  unfold transport_open. pose proof (fb_open P _ Hf (priv tr) HP) as Hop.
  destruct (op_open _ _) as [pr ok]. cbv zeta.
  assert (H1 : world_ok I0 (set_tr w0 (mk_transport pr (ops tr)))) by by apply ok_set_tr.
  destruct ok; cbn [negb]; [|by left].
  destruct (startup _ _ _ _ _) as [[w1 l]|msg|] eqn:E1; cbn [res_bind]; [|by apply startup_error in E1; right|done].
  apply (ok_startup I0) in E1; [|done]. rewrite <- Hl.
  destruct (ok_begin w1 E1) as (o1 & -> & H2).
  set (w2 := on_out (fun _ => o1) w1) in *. clearbody w2.
  pose proof (ok_announce_link I1 l w2 H2) as H3. set (w3 := announce_link l w2) in *. clearbody w3.
  assert (H4 : world_ok I1 (on_packet packet_announce w3))
    by (apply ok_on_packet; [apply wf_announce; apply _|done]).
  set (w4 := on_packet packet_announce w3) in *. clearbody w4.
  set (w5 := on_packet _ w4).
  assert (H5 : world_ok I1 w5).
  { apply ok_on_packet; [|done]. intros q Hq. apply (wf_message_now I1); [done|bytes_pieces]. }
  clearbody w5. set (w6 := set_pipe (set_tr w5 _) _).
  assert (H6 : world_ok I1 w6) by (destruct H5 as [[Hr Hbf Hx Hq] [Hfo Hpr]]; split; [by constructor|split; [done|exact (fb_stream_mode P _ Hfo _ Hpr)]]).
  clearbody w6.
  destruct (main_loop _ _ _) as [w7|] eqn:E7; cbn [of_fuel res_bind]; [|done].
  apply (ok_main_loop I1) in E7; [|done].
  set (w8 := on_packet _ _).
  assert (H8 : world_ok I1 w8).
  { apply ok_on_packet.
    - intros q Hq. apply (wf_message_now I1); [done|]. bytes_pieces. unfold stop_reason.
      repeat case_match; auto with sniffer.
    - destruct E7 as [Hp Hfo]. split; [|done].
      apply (rawq_works_ok I1 (length (rq (w_pipe w7)))) in Hp. destruct Hp as [Hr Hbf Hx Hq].
      by constructor. }
  clearbody w8.
  destruct (disable_capture _ _ _) as [w9|msg|] eqn:E9; cbn [res_bind]; [| |done].
  - apply (ok_disable I1) in E9; [|done].
    assert (H9 : world_ok I1 (on_out out_close w9)) by (apply ok_on_out; [apply inv_close|done]).
    cbn [session_ends]. destruct H9 as [[_ _ [Hx Ha] _] _].
    split; [done|]. split; [exact Ha|]. exact (core_out _ _ (proj1 Hx)).
  - exfalso. revert E9. unfold disable_capture, exec. destruct (transport_alive _); [|done].
    by destruct (cmd_exec _ _ _ _ _) as [[[? ?] ?]|].
Qed.

(** Whatever bytes the device sends, however the worker is scheduled and
    whenever the user stops, a session that ends normally returns 0, has tripped
    no assertion of the frame layer or of the writer, and has kept whatever
    invariant of the output the record writers, [pcapng_begin] and [pcapng_close]
    keep; and the only other ends are the three errors of the start-up. *)
Theorem session_safe fuel sched replay build popts o tr :
  I0 o -> feeds_bytes P (ops tr) -> P (priv tr) -> bytes_ok build ->
  0 <= capture_trigger popts <= 4 -> link = dlt_for_speed (capture_speed popts) ->
  session_ends (run_capture_gen2 reading fuel sched replay build popts o tr).
Proof. apply session_ends_ok. Qed.
End Session.
