(* ===== verification/ReplaySession.v ===== *)
(** * Sessions over a recorded stream

    What [run_capture_gen2] does to a replay file: the clean-up drops two ACK
    blocks, each start-up command consumes one, and the frame layer is fed the
    payloads of all the blocks behind them, whatever the schedule of the worker
    thread. *)

From Stdlib Require Import String.
From S2P Require Import Prelude Uhsif Stream Pcapng Format Transport Cmd Packet PacketFrames.
From S2P Require Import PacketLog Session SessionSafe.
Local Open Scope list_scope.

(** ** The stream layer between blocks *)

(** Between blocks, ready for one that carries [seq]. *)
Definition aligned_at (s : stream) (seq : Z) : Prop :=
  ready s /\ exists m sq,
    (sq = None \/ exists q, sq = Some q /\ u8 (q + 1) = seq)
    /\ forall y, denote s y = parse m sq y.

Lemma aligned_new seq : aligned_at stream_new seq.
Proof. split; [apply stream_new_ready|]. exists STREAM_SCAN, None. split; [by left|done]. Qed.

Lemma aligned_denote s seq bs :
  aligned_at s seq -> byte_ok seq -> Forall block_ok bs ->
  denote s (encode_stream seq bs) = map block_event bs.
Proof.
  intros (_ & m & sq & Hsq & D) Hs Hb. rewrite D.
  destruct (parse_encode_stream bs m seq sq [] Hs Hb Hsq) as (m' & sq' & E).
  rewrite app_nil_r in E. by rewrite E, parse_nil, app_nil_r.
Qed.

Lemma aligned_step {U} `{StreamClient U} s (u : U) seq b :
  aligned_at s seq -> byte_ok seq -> block_ok b ->
  exists s', stream_feed s u (encode_block seq b) = Some (s', apply_event u (block_event b))
    /\ aligned_at s' (u8 (seq + 1)).
Proof.
  intros (Hr & m & sq & Hsq & D) Hs Hb.
  destruct (stream_feed_denote s u (encode_block seq b) Hr) as (s' & E & R & D').
  assert (Hd : forall y, denote s (encode_block seq b ++ y)
                         = block_event b :: parse STREAM_BLOCK (Some seq) y).
  { intros y. rewrite D, parse_block by done.
    destruct Hsq as [->|(q & -> & <-)]; [done|]. by rewrite Z.eqb_refl. }
  assert (H0 : denote s (encode_block seq b) = [block_event b]).
  { rewrite <- (app_nil_r (encode_block seq b)), Hd. by rewrite parse_nil. }
  exists s'. rewrite E, H0. split; [done|]. split; [done|]. exists STREAM_BLOCK, (Some seq).
  split; [right; by exists seq|]. intros y. specialize (D' y). rewrite Hd, H0 in D'.
  by injection D' as ->.
Qed.

(** ** The frame layer fed in pieces *)

Section Pieces.
Context {W : Type} `{PcapngOut W}.
Implicit Types (p q : packet W) (cx : context W).

Lemma packet_feed_done p d : done p = true -> packet_feed p d = Some p.
Proof. intros Hd. unfold packet_feed. by rewrite Hd. Qed.

Lemma packet_feed_app p a b :
  packet_feed p (a ++ b) = (q ← packet_feed p a; packet_feed q b).
Proof.
  unfold packet_feed. destruct (done p) eqn:Hd; cbn [mbind option_bind]; [by rewrite Hd|].
  revert p Hd. induction a as [|x a IH]; intros p Hd; cbn [app packet_feed_loop mbind option_bind].
  { by rewrite Hd. }
  destruct (capture_sm p x) as [q|]; [|done]. cbn [mbind option_bind].
  destruct (done q) eqn:Hq; cbn [mbind option_bind]; [by rewrite Hq|by apply IH].
Qed.

(** The callbacks of a run of blocks feed the concatenation of their payloads. *)
Lemma apply_blocks bs cx q :
  suppress (cx_cmd cx) = false -> waiting (cx_cmd cx) = false -> g_stop cx = false ->
  done (cx_packet cx) = false ->
  packet_feed (cx_packet cx) (concat (map b_payload bs)) = Some q -> done q = false ->
  apply_events (map block_event bs) cx = cx <| cx_packet := q |>.
Proof.
  intros Hs Hw. revert cx Hs Hw. induction bs as [|b bs IH]; intros cx Hs Hw Hg Hd0 Eq Hd; cbn [map concat] in *.
  { unfold packet_feed in Eq. rewrite Hd0 in Eq. injection Eq as <-. by destruct cx. }
  rewrite packet_feed_app in Eq.
  destruct (packet_feed (cx_packet cx) (b_payload b)) as [r|] eqn:Er; [|done].
  cbn [mbind option_bind] in Eq.
  assert (Hr : done r = false).
  { destruct (done r) eqn:Hr; [|done]. rewrite packet_feed_done in Eq by done. congruence. }
  change (apply_events ?es cx) with (apply_events (map block_event bs) (apply_event cx (block_event b))).
  assert (Ex : apply_event cx (block_event b) = cx <| cx_packet := r |>).
  { unfold block_event. destruct (b_payload b) as [|x l] eqn:Eb.
    - unfold packet_feed in Er. rewrite Hd0 in Er. injection Er as <-.
      cbn [apply_event ack_cb context_client]. unfold ack_event_cb, cmd_ack_event. rewrite Hw.
      by destruct cx.
    - cbn [apply_event data_cb context_client]. unfold data_event_cb, cmd_input_suppressed.
      rewrite Hs, Er. cbv zeta. unfold packet_finished. cbn. by rewrite Hr. }
  rewrite Ex. rewrite (IH (cx <| cx_packet := r |>)); try done.
Qed.

(** The callbacks never take back a stop. *)
Lemma stop_event cx e : g_stop cx = true -> g_stop (apply_event cx e) = true.
Proof.
  intros Hg. destruct e; cbn [apply_event data_cb ack_cb rsync_cb context_client]; try done.
  unfold data_event_cb. cbv zeta. set (cx1 := if cmd_input_suppressed _ then _ else _).
  assert (g_stop cx1 = true) by (subst cx1; by repeat case_match). clearbody cx1.
  by destruct (packet_finished _).
Qed.

Lemma stop_events es cx : g_stop cx = true -> g_stop (apply_events es cx) = true.
Proof.
  revert cx. induction es as [|e es IH]; intros cx Hg; [done|]. apply IH. by apply stop_event.
Qed.

Lemma done_rsync p : done (packet_rsync p) = done p.
Proof. unfold packet_rsync. by rewrite capture_info_eq. Qed.

Lemma done_events es cx :
  done (cx_packet cx) = true -> done (cx_packet (apply_events es cx)) = true.
Proof.
  revert cx. induction es as [|e es IH]; intros cx Hd; [done|]. apply IH. clear IH es.
  destruct e as [d| |]; cbn [apply_event data_cb ack_cb rsync_cb context_client].
  - unfold data_event_cb. rewrite packet_feed_done by done. cbv zeta.
    assert (Hx : forall c : context W, done (cx_packet (if packet_finished (cx_packet c) then c <| g_stop := true |> else c))
                 = done (cx_packet c)) by (intros c; by destruct (packet_finished _)).
    rewrite Hx. by destruct (cmd_input_suppressed _).
  - done.
  - unfold rsync_event_cb. cbn. by rewrite done_rsync.
Qed.
End Pieces.

#[local] Opaque stream_new.

(** ** The start-up *)

Section Replay.
Context {W : Type} `{SessionOut W} (reading : nat -> Z).

(** The host's clock does not jump by a command window between two readings. *)
Hypothesis clock_steps : forall n, reading (S n) < reading n + UHSIF_CMD_TIMEOUT_MS.

Abbreviation world := (Session.world (W:=W) (T:=replay_priv)).
Implicit Type w : world.

Definition replay_tr (l : list Z) (sm : bool) : transport replay_priv (pipe W) :=
  mk_transport (mk_replay (Some l) true sm) replay_ops.

(** A command-phase state: the file has [l] left, the stream expects [seq]. *)
Record command_phase (l : list Z) (seq : Z) (p : packet W) w : Prop := {
  ph_tr : w_tr w = replay_tr l false;
  ph_stream : aligned_at (cx_stream (w_pipe w)) seq;
  ph_packet : cx_packet (w_cx w) = p;
  ph_stop : g_stop (w_cx w) = false;
  ph_aborted : aborted (w_cx w) = false;
  ph_rq : rq (w_pipe w) = [];
  ph_async : async_feed (w_pipe w) = false;
}.

Lemma encode_ack_length seq b : byte_ok seq -> block_ok b -> b_payload b = [] -> length (encode_block seq b) = 16%nat.
Proof. intros Hs Hb Hp. rewrite encode_block_length by done. unfold block_words. rewrite Hp. reflexivity. Qed.

(** One pump in the command phase delivers one ACK block. *)
Lemma pump_ack l seq p w b :
  command_phase (encode_block seq b ++ l) seq p w ->
  byte_ok seq -> block_ok b -> b_payload b = [] ->
  exists w', session_events w 20 = (w', true) /\ command_phase l (u8 (seq + 1)) p w'
    /\ cx_cmd (w_cx w') = cmd_ack_event (cx_cmd (w_cx w)) /\ w_clock w' = w_clock w.
Proof.
  intros [E1 E2 E3 E4 E5 E6 E7] Hs Hb Hp. pose proof (encode_ack_length seq b Hs Hb Hp) as Hl.
  destruct (aligned_step (cx_stream (w_pipe w)) (cx_client (w_pipe w)) seq b E2 Hs Hb) as (s' & Es & As).
  set (p' := (w_pipe w) <| cx_stream := s' |> <| cx_client := ack_event_cb (cx_client (w_pipe w)) |>).
  exists (mk_world (replay_tr l false) p' (w_clock w)).
  assert (Ef : feed_cb (encode_block seq b) (w_pipe w) = p').
  { unfold feed_cb. rewrite Hl, E7. cbn [Nat.eqb]. unfold feed_stream. rewrite Es.
    unfold block_event. by rewrite Hp. }
  split.
  - unfold session_events, transport_events. rewrite E1. cbn [replay_tr ops priv op_events replay_ops].
    unfold tr_events, fd_read. cbn [alive negb stream_mode fd]. rewrite drop_app_length', take_app_length' by done.
    rewrite Hl. cbn [Nat.eqb Nat.ltb Nat.leb]. cbv zeta. cbn [feed pipe_client]. by rewrite Ef.
  - split; [|done]. constructor; done.
Qed.

Lemma exec_ack fuel l seq p w b id param :
  command_phase (encode_block seq b ++ l) seq p w ->
  byte_ok seq -> block_ok b -> b_payload b = [] ->
  exists w', exec reading (S fuel) w id param = Ok (w', true)
    /\ command_phase l (u8 (seq + 1)) p w'
    /\ suppress (cx_cmd (w_cx w')) = false /\ waiting (cx_cmd (w_cx w')) = false.
Proof.
  intros Hw Hs Hb Hp. unfold exec, cmd_exec.
  set (c0 := cx_cmd (w_cx w)).
  change UHSIF_CMD_RETRIES with 3%nat. cbn [cmd_attempts env_write world_env].
  unfold transport_write. rewrite (ph_tr _ _ _ _ Hw).
  cbn [replay_tr ops priv op_write replay_ops tr_write]. cbv zeta.
  change (0 <? 0) with false. cbv iota. cbn [env_time world_env w_clock set_tr cmd_wait w_tr w_pipe].
  pose proof (clock_steps (w_clock w)) as Hc. apply Z.ltb_lt in Hc. rewrite Hc.
  cbn [env_events world_env]. set (c1 := c0 <| suppress := false |> <| waiting := true |> <| ack_seen := false |>).
  set (w1 := set_cmd c1 _).
  assert (H1 : command_phase (encode_block seq b ++ l) seq p w1) by (destruct Hw; by constructor).
  destruct (pump_ack _ _ _ _ _ H1 Hs Hb Hp) as (w2 & -> & H2 & Ec & _).
  assert (Ea : cx_cmd (w_cx w2) = c1 <| ack_seen := true |>) by by rewrite Ec.
  rewrite Ea. cbn [ack_seen]. cbv iota. cbn [of_fuel res_bind].
  eexists. split; [reflexivity|]. split; [|done]. destruct H2; by constructor.
Qed.

Lemma exec_all_acks fuel cmds bs l seq p w :
  command_phase (encode_stream seq bs ++ l) seq p w -> byte_ok seq ->
  length bs = length cmds -> cmds <> [] ->
  Forall block_ok bs -> Forall (fun b => b_payload b = []) bs ->
  exists w', exec_all reading (S fuel) w cmds = Ok (w', true)
    /\ command_phase l (u8 (seq + Z.of_nat (length bs))) p w'
    /\ suppress (cx_cmd (w_cx w')) = false /\ waiting (cx_cmd (w_cx w')) = false.
Proof.
  revert bs seq w. induction cmds as [|[id param] cmds IH]; intros bs seq w Hw Hs Hl Hne Hb Hp; [done|].
  destruct bs as [|b bs]; [done|]. apply Forall_cons_1 in Hb as [Hb Hbs].
  apply Forall_cons_1 in Hp as [Hp Hps]. cbn [encode_stream] in Hw. rewrite <- app_assoc in Hw.
  destruct (exec_ack fuel _ _ _ _ _ id param Hw Hs Hb Hp) as (w1 & E & H1 & S1 & S2).
  cbn [exec_all]. rewrite E. cbn [res_bind].
  assert (Hu : u8 (u8 (seq + 1) + Z.of_nat (length bs)) = u8 (seq + Z.of_nat (length (b :: bs)))).
  { unfold u8. cbn [length]. rewrite Zplus_mod_idemp_l. f_equal. lia. }
  destruct cmds as [|c cmds].
  - destruct bs; [|done]. exists w1. cbn [exec_all encode_stream app] in *. split_and!; try done.
  - destruct (IH bs (u8 (seq + 1)) w1) as (w2 & E2 & H2 & S3 & S4); try done.
    + apply u8_range.
    + by injection Hl.
    + exists w2. rewrite E2, <- Hu. split_and!; done.
Qed.

(** ** The main loop *)

(** What the client becomes once every byte still on its way is parsed: those in
    the queue, then those of the file. *)
Definition final (p : pipe W) (l : list Z) : context W :=
  apply_events (denote (cx_stream p) (concat (rq p) ++ l)) (cx_client p).

Lemma final_stop p l : g_stop (final p l) = false -> g_stop (cx_client p) = false.
Proof.
  intros Hf. destruct (g_stop (cx_client p)) eqn:E; [|done].
  unfold final in Hf. by rewrite stop_events in Hf.
Qed.

Lemma final_done p l :
  done (cx_packet (final p l)) = false -> done (cx_packet (cx_client p)) = false.
Proof.
  intros Hf. destruct (done (cx_packet (cx_client p))) eqn:E; [|done].
  unfold final in Hf. by rewrite done_events in Hf.
Qed.

Lemma feed_stream_final p d l :
  ready (cx_stream p) ->
  ready (cx_stream (feed_stream d p)) /\ rq (feed_stream d p) = rq p
  /\ async_feed (feed_stream d p) = async_feed p
  /\ final ((feed_stream d p) <| rq := [] |>) l
     = apply_events (denote (cx_stream p) (d ++ l)) (cx_client p).
Proof.
  intros Hr. destruct (stream_feed_denote (cx_stream p) (cx_client p) d Hr) as (s & E & R & D).
  unfold feed_stream. rewrite E. split_and!; try done.
  unfold final. cbn. by rewrite D, apply_events_app.
Qed.

Lemma rawq_work_final p l :
  ready (cx_stream p) ->
  ready (cx_stream (rawq_work p)) /\ async_feed (rawq_work p) = async_feed p
  /\ final (rawq_work p) l = final p l.
Proof.
  intros Hr. unfold rawq_work. destruct (rq p) as [|it q] eqn:Eq; [done|].
  pose (p0 := p <| rq := q |>).
  destruct (feed_stream_final p0 it (concat q ++ l) Hr) as (F1 & F2 & F3 & F4).
  split; [exact F1|]. split; [exact F3|]. unfold final in *. fold p0. rewrite F2, Eq. cbn [concat].
  rewrite <- app_assoc. exact F4.
Qed.

Lemma rawq_works_final n p l :
  ready (cx_stream p) ->
  let q := Nat.iter n rawq_work p in
  ready (cx_stream q) /\ async_feed q = async_feed p /\ final q l = final p l.
Proof.
  intros Hr. induction n as [|n IH]; [done|]. cbv zeta in *. rewrite Nat.iter_succ.
  destruct IH as (R & A & F). destruct (rawq_work_final _ l R) as (R' & A' & F').
  split; [done|]. split; congruence.
Qed.

(** The worker's last turns: the queue is empty and everything in it was parsed. *)
Lemma rawq_stop_final p : ready (cx_stream p) -> cx_client (rawq_stop p) = final p [].
Proof.
  intros Hr. destruct (rawq_works_final (length (rq p)) p [] Hr) as (R & _ & F). cbv zeta in *.
  fold (rawq_stop p) in R, F. rewrite <- F. unfold final.
  assert (E : rq (rawq_stop p) = []).
  { clear R F. unfold rawq_stop. remember (length (rq p)) as n eqn:En. revert p En Hr.
    induction n as [|n IH]; intros p En Hr; [cbn; by destruct (rq p)|].
    rewrite Nat.iter_succ_r. apply IH; [|by apply (rawq_work_final p [])].
    unfold rawq_work. destruct (rq p) as [|it q] eqn:Eq; [done|]. injection En as ->.
    pose (p0 := p <| rq := q |>). fold p0. by destruct (feed_stream_final p0 it [] Hr) as (_ & -> & _). }
  rewrite E. cbn [concat app]. by rewrite ready_denote.
Qed.

(** One pump in the streaming phase moves bytes from the file to the queue. *)
Lemma pump_stream_phase w l :
  w_tr w = replay_tr l true -> async_feed (w_pipe w) = true ->
  exists w' more, session_events w 50 = (w', more)
    /\ cx_stream (w_pipe w') = cx_stream (w_pipe w)
    /\ async_feed (w_pipe w') = true
    /\ if (DATA_CHUNK <=? length l)%nat
       then more = true /\ w_tr w' = replay_tr (drop DATA_CHUNK l) true
            /\ final (w_pipe w') (drop DATA_CHUNK l) = final (w_pipe w) l
       else transport_alive (w_tr w') = false /\ final (w_pipe w') [] = final (w_pipe w) l.
Proof.
  intros Et Ea. unfold session_events, transport_events. rewrite Et.
  cbn [replay_tr ops priv op_events replay_ops]. rewrite tr_events_stream.
  destruct l as [|x l0]; [do 2 eexists; split; [done|]; by split_and!|]. set (l := x :: l0) in *.
  assert (Hl : (0 < length l)%nat) by (subst l; cbn; lia). clearbody l.
  assert (Hf : forall r, final (feed (take DATA_CHUNK l) (w_pipe w)) r
                         = final (w_pipe w) (take DATA_CHUNK l ++ r)).
  { intros r. cbn [feed pipe_client]. unfold feed_cb.
    destruct (Nat.eqb_spec (length (take DATA_CHUNK l)) 0) as [E|E].
    - rewrite length_take in E. unfold DATA_CHUNK in E. lia.
    - rewrite Ea. unfold rawq_push, final. cbn. rewrite concat_app, chunks_of_concat, <- app_assoc;
        [done|unfold RAWQ_CHUNK; lia|done]. }
  assert (Hc : cx_stream (feed (take DATA_CHUNK l) (w_pipe w)) = cx_stream (w_pipe w)
               /\ async_feed (feed (take DATA_CHUNK l) (w_pipe w)) = true).
  { cbn [feed pipe_client]. unfold feed_cb. destruct (_ =? 0)%nat; [done|]. by rewrite Ea. }
  set (p' := feed (take DATA_CHUNK l) (w_pipe w)) in *. clearbody p'. destruct Hc as [C1 C2].
  do 2 eexists. split; [reflexivity|]. cbn [w_pipe w_tr]. split; [done|]. split; [done|].
  destruct (Nat.leb_spec DATA_CHUNK (length l)) as [Hle|Hlt].
  - split; [done|]. split; [done|]. by rewrite Hf, take_drop.
  - split; [done|]. by rewrite Hf, app_nil_r, take_ge by lia.
Qed.

Hypothesis never_failed : forall o : W, out_write_failed o = false.

(** With the transport gone the loop ends at its next turn. *)
Lemma main_loop_dead fuel sched w :
  transport_alive (w_tr w) = false -> ready (cx_stream (w_pipe w)) ->
  exists w', main_loop (S fuel) sched w = Some w' /\ transport_alive (w_tr w') = false
    /\ ready (cx_stream (w_pipe w'))
    /\ (Forall (fun s => s.2 = false) sched -> final (w_pipe w') [] = final (w_pipe w) []).
Proof.
  intros Ht Hr. cbn [main_loop]. destruct (List.hd _ sched) as [n signal] eqn:Eh. cbv zeta.
  destruct (rawq_works_final n (w_pipe w) [] Hr) as (R1 & A1 & F1). cbv zeta in *.
  set (w1 := set_pipe w _).
  change (Nat.iter n rawq_work (w_pipe w)) with (w_pipe w1) in R1, A1, F1.
  assert (T1 : transport_alive (w_tr w1) = false) by done. clearbody w1.
  set (w2 := if signal then _ else w1).
  assert (H2 : w_tr w2 = w_tr w1 /\ cx_stream (w_pipe w2) = cx_stream (w_pipe w1)
               /\ (signal = false -> w2 = w1)) by (subst w2; by destruct signal).
  clearbody w2. destruct H2 as (T2 & C2 & S2). rewrite T2, T1, andb_false_r. cbn [andb].
  exists w2. rewrite T2, C2. split_and!; try done. intros Hs. rewrite S2, F1; [done|].
  destruct Hs as [|[m b] sched Hb Hs]; cbn in Eh; injection Eh as <- <-; done.
Qed.

Lemma main_loop_replay fuel sched w l :
  w_tr w = replay_tr l true -> async_feed (w_pipe w) = true -> ready (cx_stream (w_pipe w)) ->
  Forall (fun s => s.2 = false) sched ->
  g_stop (final (w_pipe w) l) = false -> done (cx_packet (final (w_pipe w) l)) = false ->
  (length l / DATA_CHUNK + 2 <= fuel)%nat ->
  exists w', main_loop fuel sched w = Some w' /\ transport_alive (w_tr w') = false
    /\ ready (cx_stream (w_pipe w')) /\ final (w_pipe w') [] = final (w_pipe w) l.
Proof.
  revert sched w l. induction fuel as [|fuel IH]; intros sched w l Et Ea Hr Hs Hg Hd Hf; [lia|].
  cbn [main_loop].
  assert (Hsg : exists n, List.hd (0%nat, false) sched = (n, false)).
  { destruct Hs as [|[n b] sched Hb Hs]; [by eexists|]. exists n. cbn in *. by subst. }
  destruct Hsg as [n ->]. cbv zeta iota.
  destruct (rawq_works_final n (w_pipe w) l Hr) as (R1 & A1 & F1). cbv zeta in *.
  set (w1 := set_pipe w _).
  change (Nat.iter n rawq_work (w_pipe w)) with (w_pipe w1) in R1, A1, F1.
  assert (T1 : w_tr w1 = replay_tr l true) by done. clearbody w1.
  rewrite <- F1 in Hg, Hd |- *. rewrite Ea in A1.
  pose proof (final_stop _ _ Hg) as G1. pose proof (final_done _ _ Hd) as D1.
  change (g_stop (w_cx w1)) with (g_stop (cx_client (w_pipe w1))).
  change (cx_packet (w_cx w1)) with (cx_packet (cx_client (w_pipe w1))).
  unfold packet_finished. rewrite G1, D1, never_failed, T1. cbn [negb andb transport_alive].
  change (transport_alive (replay_tr l true)) with true. cbn [andb].
  destruct (pump_stream_phase w1 l T1 A1) as (w2 & more & -> & C2 & A2 & H2).
  destruct (Nat.leb_spec DATA_CHUNK (length l)) as [Hle|Hlt].
  - destruct H2 as (-> & T2 & F2). rewrite <- F2 in Hg, Hd |- *.
    apply IH; try done; [by rewrite C2|by destruct Hs|].
    rewrite length_drop. assert (0 < DATA_CHUNK)%nat by (unfold DATA_CHUNK; lia).
    replace (length l) with ((length l - DATA_CHUNK) + 1 * DATA_CHUNK)%nat in Hf by lia.
    rewrite Nat.div_add in Hf by lia. lia.
  - destruct H2 as (L2 & F2). rewrite <- F2. destruct more; [|exists w2; split_and!; try done; by rewrite C2].
    destruct fuel as [|fuel]; [lia|].
    destruct (main_loop_dead fuel (List.tl sched) w2 L2) as (w3 & E3 & L3 & R3 & F3); [by rewrite C2|].
    exists w3. split_and!; try done. apply F3. by destruct Hs.
Qed.

(** ** The whole session *)

(** The clean-up drops two ACK blocks. *)
Lemma flush_replay w a1 a2 l :
  length a1 = 16%nat -> length a2 = 16%nat -> w_tr w = replay_tr (a1 ++ a2 ++ l) false ->
  capture_stop_and_flush reading w = set_tr w (replay_tr l false).
Proof.
  intros L1 L2 Et. unfold capture_stop_and_flush, quiet, cmd_tx_quiet. cbv zeta.
  cbn [env_write world_env]. unfold transport_write. rewrite Et.
  cbn [fst set_tr w_tr replay_tr ops priv op_write replay_ops tr_write w_pipe w_clock].
  unfold discard, transport_discard, set_tr.
  cbn [w_tr ops priv op_discard replay_ops w_pipe w_clock].
  unfold tr_discard, discard_ack, fd_read. cbn [fd].
  rewrite drop_app_length', take_app_length' by done. rewrite L1. cbn [Nat.ltb Nat.leb].
  change (fd (mk_replay (Some ?x) ?a ?b)) with (Some x). cbn.
  rewrite drop_app_length', take_app_length' by done. by rewrite L2.
Qed.

(** The start-up on a file that begins with the ACKs it needs. *)
Lemma startup_replay fuel speed seq a1 a2 acks l w :
  w_tr w = replay_tr (a1 ++ a2 ++ encode_stream seq acks ++ l) false ->
  length a1 = 16%nat -> length a2 = 16%nat ->
  w_pipe w = mk_pipe stream_new (w_cx w) [] false ->
  g_stop (w_cx w) = false -> aborted (w_cx w) = false ->
  byte_ok seq -> length acks = 4%nat -> Forall block_ok acks ->
  Forall (fun b => b_payload b = []) acks ->
  exists w', startup reading (S fuel) true speed w = Ok (w', None)
    /\ command_phase l (u8 (seq + 4)) (cx_packet (w_cx w)) w'
    /\ suppress (cx_cmd (w_cx w')) = false /\ waiting (cx_cmd (w_cx w')) = false.
Proof.
  intros Et L1 L2 Ep Hg Ha Hs Hl Hb Hp.
  assert (H1 : command_phase (encode_stream seq acks ++ l) seq (cx_packet (w_cx w))
                 (set_tr w (replay_tr (encode_stream seq acks ++ l) false))).
  { constructor; cbn [set_tr w_tr w_pipe]; [done|rewrite Ep; apply aligned_new|done..| |]; by rewrite Ep. }
  destruct (exec_all_acks fuel (init_cmds speed) acks _ _ _ _ H1 Hs) as (w' & E & H2 & S1 & S2); try done.
  rewrite Hl in H2. exists w'. split; [|done].
  unfold startup, startup_attempt, capture_init_cmds.
  rewrite (flush_replay w a1 a2 (encode_stream seq acks ++ l)) by done. cbv zeta. by rewrite E.
Qed.

Lemma packet_new_out popts (o o' : W) :
  (packet_new popts o) <| Packet.out := o' |> = packet_new popts o'.
Proof. reflexivity. Qed.

(** The announcements on the records. *)
Definition announced (build : list Z) (q : packet W) : packet W :=
  packet_info (packet_announce q) (cstr "Plugin build: " ++ build).

Lemma replay_run fuel sched build popts (o o' : W) seq a1 a2 acks bs q :
  length a1 = 16%nat -> length a2 = 16%nat ->
  byte_ok seq -> length acks = 4%nat -> Forall (fun b => b_payload b = []) acks ->
  Forall block_ok acks -> Forall block_ok bs ->
  out_begin o (dlt_for_speed (capture_speed popts)) = Some o' ->
  packet_feed (announced build (packet_new popts o')) (concat (map b_payload bs)) = Some q ->
  done q = false -> Forall (fun s => s.2 = false) sched ->
  (length (encode_stream (u8 (seq + 4)) bs) / DATA_CHUNK + 2 <= fuel)%nat ->
  exists w,
    run_capture_gen2 reading fuel sched true build popts o
      (transport_replay_new (a1 ++ a2 ++ encode_stream seq acks ++ encode_stream (u8 (seq + 4)) bs))
    = Ok (w, 0)
    /\ w_out w = out_close (Packet.out (packet_stop_info q (cstr "uplink/device lost"))).
Proof.
  intros L1 L2 Hs Hl Hp Hb Hbs Eo Eq Hd Hsch Hf.
  destruct fuel as [|fuel]; [lia|]. unfold run_capture_gen2. cbv zeta.
  set (rest := encode_stream (u8 (seq + 4)) bs) in *.
  set (cx := mk_context _ _ false false).
  change (transport_open _) with (replay_tr (a1 ++ a2 ++ encode_stream seq acks ++ rest) false, true).
  cbv iota. cbn [negb].
  match goal with |- context [startup _ _ _ _ ?w] => set (w0 := w) end.
  destruct (startup_replay fuel (capture_speed popts) seq a1 a2 acks rest w0) as (w1 & -> & H1 & S1 & S2);
    try done.
  cbn [res_bind]. destruct H1 as [T1 A1 P1 G1 B1 R1 N1]. change (cx_packet (w_cx w0)) with (packet_new popts o) in P1.
  assert (Ho : w_out w1 = o) by (unfold w_out; by rewrite P1). rewrite Ho, Eo. cbn [announce_link].
  match goal with |- context [main_loop _ _ ?w] => set (w2 := w) end.
  assert (H2 : w_tr w2 = replay_tr rest true /\ cx_stream (w_pipe w2) = cx_stream (w_pipe w1)
    /\ async_feed (w_pipe w2) = true /\ rq (w_pipe w2) = []
    /\ cx_client (w_pipe w2) = (w_cx w1) <| cx_packet := announced build (packet_new popts o') |>).
  { unfold w2. split_and!; try done.
    - cbn. unfold transport_stream_mode. by rewrite T1.
    - unfold announced. rewrite <- (packet_new_out popts o o'), <- P1. reflexivity. }
  clearbody w2. destruct H2 as (T2 & C2 & N2 & R2 & X2).
  assert (Hfin : final (w_pipe w2) rest = (w_cx w1) <| cx_packet := q |>).
  { unfold final. rewrite R2, C2, X2. cbn [concat app]. unfold rest.
    rewrite (aligned_denote _ _ bs A1) by (done || apply u8_range).
    rewrite (apply_blocks bs _ q); try done.
    destruct (done (announced build (packet_new popts o'))) eqn:E; [|done].
    rewrite packet_feed_done in Eq by done. congruence. }
  destruct (main_loop_replay (S fuel) sched w2 rest) as (w3 & -> & D3 & R3 & F3); try done;
    [rewrite C2; apply A1|by rewrite Hfin|by rewrite Hfin|].
  cbn [of_fuel res_bind].
  assert (X3 : cx_client (rawq_stop (w_pipe w3)) = (w_cx w1) <| cx_packet := q |>).
  { rewrite (rawq_stop_final (w_pipe w3)) by done. by rewrite F3. }
  match goal with |- context [stop_reason ?w] => set (w4 := w) end.
  assert (X4 : w_cx w4 = (w_cx w1) <| cx_packet := q |>) by exact X3.
  assert (D4 : transport_alive (w_tr w4) = false) by exact D3. clearbody w4.
  assert (Er : stop_reason w4 = cstr "uplink/device lost").
  { unfold stop_reason, packet_finished. rewrite X4, never_failed, D4. cbn [cx_packet g_stop over].
    by rewrite Hd, G1. }
  rewrite Er. unfold disable_capture.
  change (transport_alive (w_tr (on_packet ?f w4))) with (transport_alive (w_tr w4)). rewrite D4.
  cbn [res_bind]. eexists. split; [reflexivity|].
  change (out_close (Packet.out (packet_stop_info (cx_packet (w_cx w4)) (cstr "uplink/device lost")))
          = out_close (Packet.out (packet_stop_info q (cstr "uplink/device lost")))).
  by rewrite X4.
Qed.

End Replay.

(** ** Lossless replay *)

(** The log of the records as a session output that never fails. *)
#[export] Instance log_session : SessionOut (list record) := {
  out_begin l _ := Some l;
  out_write_failed _ := false;
  out_close l := l;
}.

Section Lossless.
Implicit Types p q : packet (list record).

Lemma announced_ses build p :
  capture_trigger (opts p) = CaptureTrigger_Disabled ->
  ses (announced build p) = ses (p <| done := false |> <| capture_enabled := true |>)
  /\ walk (announced build p) = walk p.
Proof.
  intros Ht. unfold announced, packet_info, packet_announce. cbv zeta.
  rewrite walk_info, ses_info. pose (p0 := p <| done := false |>). fold p0.
  change (opts p0) with (opts p). rewrite Ht. cbn [Z.eqb CaptureTrigger_Disabled].
  pose proof (ses_info p0 0 (cstr "Starting capture")) as E.
  pose proof (walk_info p0 0 (cstr "Starting capture")) as E'.
  set (p1 := capture_info p0 0 _) in *. clearbody p1. unfold ses in *. injection E. intros.
  unfold walk in *. cbn -[packets] in *. split; [congruence|exact E'].
Qed.

Lemma at_frame_announced build p :
  bytes_ok build -> at_frame p -> capture_trigger (opts p) = CaptureTrigger_Disabled ->
  at_frame (announced build p).
Proof.
  intros Hb (A1 & A2 & A3 & A4 & A5 & A6) Ht. destruct (announced_ses build p Ht) as [_ E].
  assert (Hc : core trivial_inv (announced build p)).
  { unfold announced, packet_info. apply (core_info_now trivial_inv); [apply announce_ok; [apply _|done]|bytes_pieces]. }
  set (q := announced build p) in *. clearbody q. unfold walk in E.
  injection E as E1 E2 E3 E4 E5 E6 E7 E8. unfold at_frame. rewrite E4, E2, E8, E6.
  exact (conj A1 (conj A2 (conj Hc (conj A4 (conj A5 A6))))).
Qed.

Lemma new_at_frame o (w : list record) : 0 <= capture_trigger o <= 4 -> at_frame (packet_new o w).
Proof.
  intros Ho. split_and!; try done; [by apply core_new|by left].
Qed.

End Lossless.

(** ** Concrete files *)

(** An ACK, and a block of one word that carries a status frame. *)
Definition demo_ack : Stream.block := mk_block 0 0 [].
Definition demo_block : Stream.block := mk_block 0 0 (encode_frame 0 (FStatus false 5 0 true false 1)).

Lemma demo_ack_ok : block_ok demo_ack.
Proof. split_and!; cbn; try lia. exists 0%nat. cbn. split; [done|lia]. Qed.
Lemma demo_block_ok : block_ok demo_block.
Proof. split_and!; cbn; try lia. exists 1%nat. cbn. split; [done|lia]. Qed.


Lemma demo_feed {W} `{SessionOut W} (o : W) :
  done <$> packet_feed (announced [] (packet_new (mk_opts false false 1 0 (-1)) o)) (b_payload demo_block)
  = Some false.
Proof. vm_compute. reflexivity. Qed.

(** The same file over any output that never fails: one block is fed. *)
Lemma demo_session {W} `{SessionOut W} (o o' : W) :
  (forall x : W, out_write_failed x = false) ->
  let popts := mk_opts false false 1 0 (-1) in
  out_begin o 294 = Some o' ->
  exists w : world,
    run_capture_gen2 (fun n => Z.of_nat n) 3 [(1%nat, false)] true [] popts o
      (transport_replay_new (encode_block 1 demo_ack ++ encode_block 2 demo_ack
         ++ encode_stream 3 (replicate 4 demo_ack) ++ encode_stream (u8 (3 + 4)) [demo_block]))
    = Ok (w, 0).
Proof.
  intros Hn popts Ho. pose proof (demo_feed o') as Hf. fold popts in Hf.
  destruct (packet_feed _ (b_payload demo_block)) as [q|] eqn:Eq; [|done]. injection Hf as Hd.
  destruct (replay_run (fun n => Z.of_nat n) ltac:(intros n; unfold UHSIF_CMD_TIMEOUT_MS; lia) Hn
              3 [(1%nat, false)] [] popts o o' 3 (encode_block 1 demo_ack) (encode_block 2 demo_ack)
              (replicate 4 demo_ack) [demo_block] q) as (w & E & _).
  - apply encode_ack_length; [lia|apply demo_ack_ok|done].
  - apply encode_ack_length; [lia|apply demo_ack_ok|done].
  - lia.
  - done.
  - repeat apply Forall_cons_2; done || apply Forall_nil_2.
  - repeat apply Forall_cons_2; apply demo_ack_ok || apply Forall_nil_2.
  - apply Forall_cons_2; [apply demo_block_ok|apply Forall_nil_2].
  - exact Ho.
  - cbn [map concat]. by rewrite app_nil_r.
  - exact Hd.
  - by apply Forall_cons_2; [|apply Forall_nil_2].
  - cbn [encode_stream]. rewrite app_nil_r, encode_block_length by (apply demo_block_ok || apply u8_range).
    vm_compute. lia.
  - by exists w.
Qed.

