(* ===== verification/SessionFile.v ===== *)
(** * The file a session leaves behind

    The pcapng writer run next to a log of the records it is asked to write: the
    invariant that ties them is kept by every writer, by [pcapng_begin] and by
    [pcapng_close], so the file of any session parses back to the log. *)

From Stdlib Require Import String.
From S2P Require Import Prelude Uhsif Stream Pcapng Format Transport Cmd Packet Session SessionSafe.
From S2P Require Import PacketFrames ReplaySession.
Local Open Scope list_scope.

#[export] Instance list_file : OutFile (list Z) := {
  sink_failed _ := false;
  sink_close s := s;
  sunk_close s := eq_refl;
}.

Section Logged.
Context {S : Type} `{OutFile S}.
Implicit Types (l : list record) (pc : pcapng S).

(** The writer with the log of its records. *)
Definition logged_records : PcapngOut (list record * pcapng S) := {|
  out_epb w ts d n := (out_epb w.1 ts d n, out_epb w.2 ts d n);
  out_info w ts s n := (out_info w.1 ts s n, out_info w.2 ts s n);
  out_flush w := (w.1, out_flush w.2);
|}.

#[export] Instance logged_out : SessionOut (list record * pcapng S) := {
  session_records := logged_records;
  out_begin w link := match out_begin w.2 link with Some pc => Some (w.1, pc) | None => None end;
  out_write_failed w := out_write_failed w.2;
  out_close w := (w.1, out_close w.2);
}.

(** The records staged before [pcapng_begin] are those of the log. *)
Definition staged (w : list record * pcapng S) : Prop :=
  idle w.2 /\ Forall record_fits w.1 /\ begun w.2 = false
  /\ pend w.2 = records_bytes w.1 /\ sunk (Pcapng.out w.2) = [].

(** The file is the headers and the records of the log. *)
Definition recorded (link : Z) (w : list record * pcapng S) : Prop :=
  idle w.2 /\ Forall record_fits w.1 /\ begun w.2 = true
  /\ sunk (Pcapng.out w.2) = header_bytes link ++ records_bytes w.1.

Lemma records_bytes_snoc l r : records_bytes (l ++ [r]) = records_bytes l ++ record_bytes r.
Proof. unfold records_bytes. rewrite map_app, concat_app. cbn. by rewrite app_nil_r. Qed.

Lemma emits_staged l pc pc' r :
  staged (l, pc) -> record_fits r -> emits pc pc' (record_bytes r) -> staged (l ++ [r], pc').
Proof.
  intros (Hi & Hf & Hb & Hp & Hs) Hr (Hi' & Hb' & He). cbn [fst snd] in *. rewrite Hb in *.
  destruct He as [Ep Es]. split_and!; cbn [fst snd]; [done| |congruence| |congruence].
  - apply Forall_app_2; [done|]. by constructor.
  - by rewrite records_bytes_snoc, Ep, Hp.
Qed.

Lemma emits_recorded link l pc pc' r :
  recorded link (l, pc) -> record_fits r -> emits pc pc' (record_bytes r) ->
  recorded link (l ++ [r], pc').
Proof.
  intros (Hi & Hf & Hb & Hs) Hr (Hi' & Hb' & He). cbn [fst snd] in *. rewrite Hb in *.
  destruct He as [Ep Es]. split_and!; cbn [fst snd]; [done| |congruence|].
  - apply Forall_app_2; [done|]. by constructor.
  - by rewrite records_bytes_snoc, Es, Hs, app_assoc.
Qed.

(** A record the frame layer hands over is emitted whole. *)
Lemma epb_emits pc ts d n :
  idle pc -> epb_ok ts d n ->
  record_fits (Packet ts (take (Z.to_nat n) d))
  /\ emits pc (pcapng_write_epb pc ts d n) (record_bytes (Packet ts (take (Z.to_nat n) d))).
Proof.
  intros Hi (Ht & Hd & Hn & Hl).
  assert (Hlen : Z.of_nat (length (take (Z.to_nat n) d)) = n) by (rewrite length_take; lia).
  assert (Hf : record_fits (Packet ts (take (Z.to_nat n) d)))
    by (split_and!; [lia|lia|auto with sniffer|lia]).
  split; [done|]. pose proof (pcapng_write_epb_emits pc ts _ Hi Hf) as E. rewrite Hlen in E.
  unfold pcapng_write_epb, put_data in *. by rewrite take_take, Nat.min_id in E.
Qed.

Lemma info_emits pc ts s n :
  idle pc -> info_ok ts s n ->
  record_fits (Info ts (take (Z.to_nat n) s))
  /\ emits pc (pcapng_write_info pc ts s n) (record_bytes (Info ts (take (Z.to_nat n) s))).
Proof.
  intros Hi (Ht & Hd & Hn).
  assert (Hlen : Z.of_nat (length (take (Z.to_nat n) s)) = n) by (rewrite length_take; lia).
  assert (Hf : record_fits (Info ts (take (Z.to_nat n) s)))
    by (split_and!; [lia|lia|auto with sniffer|lia]).
  split; [done|]. pose proof (pcapng_write_info_emits pc ts _ Hi Hf) as E. rewrite Hlen in E.
  unfold pcapng_write_info, put_data in *. by rewrite (take_take s), Nat.min_id in E.
Qed.

#[export] Instance staged_inv : SinkInv staged.
Proof.
  split.
  - intros [l pc] ts d n Hs He. pose proof (proj1 Hs) as Hi.
    destruct (epb_emits pc ts d n Hi He). by eapply emits_staged.
  - intros [l pc] ts d n Hs He. pose proof (proj1 Hs) as Hi.
    destruct (info_emits pc ts d n Hi He). by eapply emits_staged.
  - intros [l pc] Hs. pose proof Hs as (_ & _ & Hb & _). cbn [fst snd] in Hb.
    change (staged (l, pcapng_flush pc)). unfold pcapng_flush. by rewrite Hb.
Qed.

Lemma recorded_out link l pc o :
  recorded link (l, pc) -> sunk o = sunk (Pcapng.out pc) -> recorded link (l, pc <| Pcapng.out := o |>).
Proof. intros (Hi & Hf & Hb & Hs) Ho. split_and!; try done. cbn. by rewrite Ho. Qed.

Lemma recorded_flush link l pc : recorded link (l, pc) -> recorded link (l, pcapng_flush pc).
Proof.
  intros Hr. pose proof Hr as (_ & _ & Hb & _). cbn [fst snd] in Hb. unfold pcapng_flush.
  rewrite Hb. apply recorded_out; [done|]. by rewrite sunk_drain, sunk_chunk_flush.
Qed.

#[export] Instance recorded_inv link : SinkInv (recorded link).
Proof.
  split.
  - intros [l pc] ts d n Hs He. pose proof (proj1 Hs) as Hi.
    destruct (epb_emits pc ts d n Hi He). by eapply emits_recorded.
  - intros [l pc] ts d n Hs He. pose proof (proj1 Hs) as Hi.
    destruct (info_emits pc ts d n Hi He). by eapply emits_recorded.
  - intros [l pc]. apply recorded_flush.
Qed.

Lemma logged_session_inv link : 0 <= link < 65536 -> SessionInv staged (recorded link) link.
Proof.
  intros Hl. split; [apply _|apply _| |].
  - intros [l pc] (Hi & Hf & Hb & Hp & Hs). cbn [fst snd] in *.
    destruct (pcapng_begin_spec pc link Hi Hb Hl) as (pc' & E & I' & B' & O').
    exists (l, pc'). cbn [out_begin logged_out pcapng_session fst snd]. rewrite E. split; [done|].
    split_and!; try done. cbn [fst snd]. by rewrite O', Hs, Hp.
  - intros [l pc] Hr. apply (recorded_flush link) in Hr.
    change (recorded link (l, (pcapng_flush pc) <| Pcapng.out := sink_close (Pcapng.out (pcapng_flush pc)) |>)).
    apply recorded_out; [done|]. apply sunk_close.
Qed.

Lemma dlt_range speed : 0 <= dlt_for_speed speed < 65536.
Proof.
  unfold dlt_for_speed, LINKTYPE_USB_2_0_LOW_SPEED, LINKTYPE_USB_2_0_FULL_SPEED,
    LINKTYPE_USB_2_0_HIGH_SPEED, LINKTYPE_USB_2_0. repeat case_match; lia.
Qed.

Lemma recorded_reads link l pc :
  recorded link (l, pc) ->
  read_blocks (length l + 3) (sunk (Pcapng.out pc)) = Some (session_blocks link l)
  /\ map (fun r => read_record (6, record_body r)) l = map Some l.
Proof.
  intros (_ & Hf & _ & Hs). cbn [fst snd] in *. rewrite Hs. split.
  - by apply read_session_blocks.
  - by apply read_session_records.
Qed.

End Logged.

Lemma demo_bytes_ok seq b : block_ok b -> bytes_ok (b_payload b) -> bytes_ok (encode_block seq b).
Proof. intros Hb Hp. unfold encode_block. bytes_pieces. Qed.

Lemma demo_stream_bytes_ok seq bs :
  Forall block_ok bs -> Forall (fun b => bytes_ok (b_payload b)) bs -> bytes_ok (encode_stream seq bs).
Proof.
  intros Hb. revert seq. induction Hb as [|b bs Hb Hbs IH]; intros seq Hp; [constructor|].
  apply Forall_cons_1 in Hp as [Hp Hps]. cbn [encode_stream].
  apply bytes_ok_app_2; [by apply demo_bytes_ok|by apply IH].
Qed.

(** A replay file of six ACKs and one block, as bytes. *)
Definition demo_file : list Z :=
  encode_block 1 demo_ack ++ encode_block 2 demo_ack
  ++ encode_stream 3 (replicate 4 demo_ack) ++ encode_stream (u8 (3 + 4)) [demo_block].

Lemma demo_file_bytes_ok : bytes_ok demo_file.
Proof.
  assert (Ha : bytes_ok (b_payload demo_ack)) by apply Forall_nil_2.
  assert (Hb : bytes_ok (b_payload demo_block)) by (vm_compute; repeat apply Forall_cons_2; try apply Forall_nil_2; split; discriminate || reflexivity).
  pose proof demo_ack_ok. pose proof demo_block_ok. unfold demo_file.
  apply bytes_ok_app_2; [by apply demo_bytes_ok|]. apply bytes_ok_app_2; [by apply demo_bytes_ok|].
  apply bytes_ok_app_2; apply demo_stream_bytes_ok; (try by apply Forall_replicate);
    by apply Forall_cons_2; [|apply Forall_nil_2].
Qed.

(** A session over the writer and its log, on a list of bytes as the file. *)
Lemma session_safe_witness :
  session_ends (recorded 294)
    (run_capture_gen2 (fun n => Z.of_nat n) 3 [] true [] (mk_opts true false 1 0 (-1))
       ([] : list record, pcapng_open ([] : list Z)) (transport_replay_new demo_file)).
Proof.
  apply (session_safe (fun n => Z.of_nat n) staged (recorded 294) 294
           (SessionInv0 := logged_session_inv 294 ltac:(lia)) replay_bytes).
  - split_and!; try reflexivity; try (apply pcapng_open_idle); apply Forall_nil_2.
  - apply replay_feeds_bytes.
  - apply demo_file_bytes_ok.
  - apply Forall_nil_2.
  - cbn. lia.
  - reflexivity.
Defined.

