(* ===== verification/SessionReturns.v ===== *)
(** * Sessions return

    What the fuel of a session is for: where the host's clock passes every deadline and the
    user ends the capture, enough fuel gives a result, and more fuel gives the same one.  The
    transport is any. *)

From S2P Require Import Prelude Uhsif Stream Pcapng Format Transport Cmd Packet Session SessionSafe.
From S2P Require Import PacketFrames ReplaySession SessionFile.
Local Open Scope list_scope.

(** A computation with fuel that comes to a result. *)
Definition comes_to {A} (f : nat -> A) (a : A) : Prop := exists n, forall m, (n <= m)%nat -> f m = a.

Lemma comes_now {A} (a : A) : comes_to (fun _ => a) a.
Proof. by exists 0%nat. Qed.

(** One step that has its result, and then the next one. *)
Lemma comes_bind {A B} (f : nat -> A) (g : nat -> A -> B) a b :
  comes_to f a -> comes_to (fun n => g n a) b -> comes_to (fun n => g n (f n)) b.
Proof.
  intros [n Hn] [k Hk]. exists (n `max` k)%nat. intros m Hm. rewrite Hn, Hk by lia. done.
Qed.

(** A step that takes one unit of fuel. *)
Lemma comes_step {A} (f : nat -> A) a : comes_to (fun n => f (S n)) a -> comes_to f a.
Proof.
  intros [n Hn]. exists (S n). intros [|m] Hm; [lia|]. apply Hn. lia.
Qed.

Lemma comes_more {A} (f : nat -> option A) :
  (exists a, comes_to (fun n => f (S n)) (Some a)) -> exists a, comes_to f (Some a).
Proof. intros [a Ha]. exists a. by apply comes_step. Qed.

(** It comes to a result other than running out. *)
Definition res_ok {A} (r : res A) : Prop := match r with No_fuel => False | _ => True end.
Definition returns {A} (f : nat -> res A) : Prop := exists r, res_ok r /\ comes_to f r.

Lemma returns_now {A} (r : res A) : res_ok r -> returns (fun _ => r).
Proof. intros Hr. exists r. split; [done|apply comes_now]. Qed.

Lemma returns_bind {A B} (f : nat -> res A) (g : nat -> A -> res B) :
  returns f -> (forall a, returns (fun n => g n a)) -> returns (fun n => res_bind (f n) (g n)).
Proof.
  intros (r & Hr & Hf) Hg. destruct r as [a|msg|]; [|exists (Os_error msg)|done].
  - destruct (Hg a) as (b & Hb & Hga). exists b. split; [done|].
    by apply (comes_bind f (fun n r => res_bind r (g n)) (Ok a)).
  - split; [done|]. apply (comes_bind f (fun n r => res_bind r (g n)) (Os_error msg)); [done|by exists 0%nat].
Qed.

(** Some result, where running out is [None]. *)
Lemma comes_some {A B} (f : nat -> option A) (g : nat -> A -> option B) :
  (exists a, comes_to f (Some a)) -> (forall a, exists b, comes_to (fun n => g n a) (Some b)) ->
  exists b, comes_to (fun n => match f n with Some a => g n a | None => None end) (Some b).
Proof.
  intros [a Ha] Hg. destruct (Hg a) as [b Hb]. exists b.
  by apply (comes_bind f (fun n o => match o with Some a => g n a | None => None end) (Some a)).
Qed.

Ltac returns_step :=
  match goal with |- returns (fun n => res_bind (@?F n) (@?G n)) => apply (returns_bind F G) end.

(** ** Commands *)

Section Commands.
Context {W T : Type} `{SessionOut W} (reading : nat -> Z).
Existing Instance world_env.
Notation world := (@world W T).
Implicit Type w : world.

(** The clock passes every deadline. *)
Context (clock_goes_on : forall t, exists n, forall m, (n <= m)%nat -> t <= reading m).
Notation E_env := (world_env reading).

Lemma wait_comes dl w c : exists r, comes_to (fun n => cmd_wait (H := E_env) n dl w c) (Some r).
Proof.
  destruct (clock_goes_on dl) as [n Hn].
  assert (Hi : forall k w c, (n <= w_clock w + k)%nat ->
    exists r, comes_to (fun n => cmd_wait (H := E_env) n dl w c) (Some r)); [|by apply (Hi n); lia].
  clear w c. induction k as [|k IH]; intros w c Hk.
  - apply comes_more. cbn [cmd_wait env_time world_env].
    rewrite (proj2 (Z.ltb_ge _ _)) by (apply Hn; lia). eexists. apply comes_now.
  - apply comes_more. cbn [cmd_wait env_time world_env]. destruct (reading (w_clock w) <? dl); [|eexists; apply comes_now].
    destruct (env_events _ _ _) as [w1 c1] eqn:Ev.
    assert (Ec : w_clock w1 = S (w_clock w)).
    { cbn [env_events world_env] in Ev. unfold session_events in Ev. repeat case_match; by simplify_eq/=. }
    destruct (ack_seen c1); [eexists; apply comes_now|].
    destruct (negb _); [eexists; apply comes_now|]. apply IH. lia.
Qed.

Lemma attempts_comes k : forall w c id param,
  exists r, comes_to (fun n => cmd_attempts (H := E_env) k n w c id param) (Some r).
Proof.
  induction k as [|k IH]; intros w c id param; cbn [cmd_attempts]; [eexists; apply comes_now|].
  destruct (env_write _ w) as [w1 rc]. destruct (rc <? 0); [eexists; apply comes_now|]. cbv zeta.
  destruct (env_time w1) as [w2 now].
  match goal with |- exists x, comes_to (fun n => match _ with Some y => @?G n y | None => None end) _ =>
    apply (comes_some _ G); [apply wait_comes|] end.
  intros [[w3 c3] r]. cbv beta iota. destruct r; [eexists; apply comes_now|]. cbv zeta.
  destruct (ack_seen _); [eexists; apply comes_now|].
  destruct (negb _); [eexists; apply comes_now|apply IH].
Qed.

Lemma exec_returns w id param : returns (fun n => exec reading n w id param).
Proof.
  destruct (attempts_comes UHSIF_CMD_RETRIES w (cx_cmd (w_cx w)) id param) as [[[w1 c1] ok] Hr].
  exists (Ok (set_cmd c1 w1, ok)). split; [done|]. unfold exec, cmd_exec.
  apply (comes_bind _ (fun _ o => let* (w, c, ok) := of_fuel o in Ok (set_cmd c w, ok)) _ _ Hr), comes_now.
Qed.

Lemma exec_all_returns cmds : forall w, returns (fun n => exec_all reading n w cmds).
Proof.
  induction cmds as [|[id param] cmds IH]; intros w; cbn [exec_all]; [by apply returns_now|].
  returns_step; [apply exec_returns|]. intros [w1 ok]. destruct ok; [apply IH|by apply returns_now].
Qed.

Lemma attempt_returns replay speed w : returns (fun n => startup_attempt reading n replay speed w).
Proof.
  unfold startup_attempt. cbv zeta.
  destruct (if replay then _ else _) as [w1 link].
  returns_step; [apply exec_all_returns|].
  intros [w2 inited]. by apply returns_now.
Qed.

Lemma startup_returns replay speed w : returns (fun n => startup reading n replay speed w).
Proof.
  unfold startup. returns_step; [apply attempt_returns|].
  intros [[w1 link] inited]. destruct inited; [by apply returns_now|].
  destruct (transport_reset_device _) as [t ok]. destruct ok; cbn [negb]; [|by apply returns_now].
  cbv zeta. returns_step; [apply attempt_returns|]. intros [[w2 link2] inited]. destruct inited; by apply returns_now.
Qed.

Lemma disable_returns w : returns (fun n => disable_capture reading n w).
Proof.
  unfold disable_capture. destruct (transport_alive _); [|by apply returns_now].
  returns_step; [apply exec_returns|].
  intros [w1 ok]. by apply returns_now.
Qed.

(** The user ends the capture at some turn of the main loop. *)
Lemma loop_comes sched : Exists (fun s : nat * bool => s.2 = true) sched -> forall w,
  exists r, comes_to (fun n => main_loop n sched w) (Some r).
Proof.
  induction sched as [|[n signal] sched IH]; intros Hs w; [by apply Exists_nil in Hs|].
  apply comes_more. cbn [main_loop List.hd List.tl]. cbv zeta. destruct signal.
  - assert (Hg : forall w, g_stop (w_cx (on_cx (fun cx => cx <| g_stop := true |>) w)) = true) by done.
    rewrite Hg. cbn [negb andb]. eexists. apply comes_now.
  - destruct (_ && _); [|eexists; apply comes_now]. destruct (session_events _ 50) as [w1 more].
    destruct more; [|eexists; apply comes_now]. apply IH. by apply Exists_cons in Hs as [[=]|Hs].
Qed.

(** A session comes to its end. *)
Lemma session_returns sched replay build popts o (tr : transport T (pipe W)) :
  Exists (fun s : nat * bool => s.2 = true) sched ->
  returns (fun n => run_capture_gen2 reading n sched replay build popts o tr).
Proof.
  intros Hs. unfold run_capture_gen2. cbv zeta. destruct (transport_open _) as [t ok].
  destruct ok; cbn [negb]; [|by apply returns_now].
  returns_step; [apply startup_returns|]. intros [w link]. destruct (out_begin _ _); [|by apply returns_now].
  returns_step.
  - match goal with |- returns (fun n => of_fuel (main_loop n sched ?w0)) =>
      destruct (loop_comes sched Hs w0) as [r Hr] end.
    exists (Ok r). split; [done|]. by apply (comes_bind _ (fun _ => of_fuel) _ _ Hr), comes_now.
  - intros w1. returns_step; [apply disable_returns|]. intros w2. by apply returns_now.
Qed.
End Commands.

Lemma session_ends_total {W T} `{SessionOut W} (I0 I1 : W -> Prop) link `{!SessionInv I0 I1 link} (P : T -> Prop)
    reading sched replay build popts o (tr : transport T (pipe W)) :
  (forall t, exists n, forall m, (n <= m)%nat -> t <= reading m) ->
  Exists (fun s : nat * bool => s.2 = true) sched ->
  I0 o -> feeds_bytes P (ops tr) -> P (priv tr) -> bytes_ok build ->
  0 <= capture_trigger popts <= 4 -> link = dlt_for_speed (capture_speed popts) ->
  exists r, comes_to (fun fuel => run_capture_gen2 reading fuel sched replay build popts o tr) r
  /\ res_ok r /\ session_ends I1 r.
Proof.
  intros Hc Hs Ho Hf HP Hb Ht Hl.
  destruct (session_returns reading Hc sched replay build popts o tr Hs) as (r & Hr & Hcomes).
  exists r. split; [exact Hcomes|]. split; [exact Hr|]. destruct Hcomes as [n Hn]. rewrite <- (Hn n) by lia.
  by apply (session_ends_ok reading I0 I1 link P).
Qed.

(** C14: a session ends, and how.  On any transport that touches its client only by feeding it
    bytes, whatever it feeds and however the worker is scheduled: where the host's clock passes
    every deadline and the user ends the capture, enough fuel gives a result and more fuel the
    same one.  It is the exit status 0 with no assertion failed and the invariant of the output
    kept, or one of the three errors of the start-up. *)
Theorem session_ends_always {W T} `{SessionOut W} (I0 I1 : W -> Prop) link `{!SessionInv I0 I1 link} (P : T -> Prop)
    reading sched replay build popts o (tr : transport T (pipe W)) :
  (forall t, exists n, forall m, (n <= m)%nat -> t <= reading m) ->
  Exists (fun s : nat * bool => s.2 = true) sched ->
  I0 o -> feeds_bytes P (ops tr) -> P (priv tr) -> bytes_ok build ->
  0 <= capture_trigger popts <= 4 -> link = dlt_for_speed (capture_speed popts) ->
  exists r, comes_to (fun fuel => run_capture_gen2 reading fuel sched replay build popts o tr) r
  /\ res_ok r /\ session_ends I1 r.
Proof. by apply (session_ends_total I0 I1 link P). Qed.

(** A replay that never ends a stream, stopped by the user at the second turn. *)
Lemma session_ends_always_witness :
  exists r, comes_to (fun fuel => run_capture_gen2 (fun n => Z.of_nat n) fuel [(1%nat, false); (0%nat, true)] true []
                (mk_opts true false 1 0 (-1)) ([] : list record, pcapng_open ([] : list Z)) (transport_replay_new demo_file)) r
    /\ res_ok r /\ session_ends (recorded 294) r.
Proof.
  apply (session_ends_always staged (recorded 294) 294 (SessionInv0 := logged_session_inv 294 ltac:(lia)) replay_bytes).
  - intros t. exists (Z.to_nat t). intros m Hm. lia.
  - apply Exists_cons_tl. by apply Exists_cons_hd.
  - split_and!; try reflexivity; try (apply pcapng_open_idle); apply Forall_nil_2.
  - apply replay_feeds_bytes.
  - apply demo_file_bytes_ok.
  - apply Forall_nil_2.
  - cbn. lia.
  - reflexivity.
Defined.
