(* ===== verification/Extcap.v ===== *)
(** * Command line and extcap queries (src/extcap.c)

    The option parser over its table, the two value parsers, and the answers to
    the queries of Wireshark.  A pointer into [g_opt] is a slot; storing through
    a slot of the other type, or through a null pointer, is [Crash]. *)

From Stdlib Require Import String Ascii.
From stdpp Require Import strings sets.
From S2P Require Import Prelude Format Pcapng Packet.
Local Open Scope string_scope.
Local Open Scope list_scope.
Local Open Scope Z_scope.

(** ** Options *)

Definition INTERFACE_NAME : string := "usb_sniffer".
Definition VENDOR_NAME : string := "Vllogic".
Definition EXTCAP_VERSION : string := "2.0".
Definition EXTCAP_URL : string := "https://github.com/vllogic/usb_sniffer.extcap".

(** The [bool] and the [char *] members of [Options]. *)
Inductive flag := help | fold_empty | exclude_line_state | test | extcap_version | extcap_dlts
  | extcap_interfaces | extcap_config | extcap_capture | fpga_erase.
Inductive text := speed | limit | trigger | extcap_interface | extcap_fifo | replay | mcu_sram
  | mcu_eeprom | fpga_sram | fpga_flash.
#[export] Instance flag_eq_dec : EqDecision flag.
Proof. solve_decision. Defined.
#[export] Instance text_eq_dec : EqDecision text.
Proof. solve_decision. Defined.

Record Options := mk_options {
  flags : flag -> bool;
  texts : text -> option string;
  capture_speed : Z;
  capture_trigger : Z;
  capture_limit : Z;
}.

(** [g_opt] at program start. *)
Definition g_opt0 : Options := mk_options (fun _ => false) (fun _ => None) 0 0 0.

Definition set_flag (f : flag) (g : Options) : Options :=
  mk_options (fun x => if decide (x = f) then true else flags g x) (texts g)
    (capture_speed g) (capture_trigger g) (capture_limit g).
Definition set_text (t : text) (v : string) (g : Options) : Options :=
  mk_options (flags g) (fun x => if decide (x = t) then Some v else texts g x)
    (capture_speed g) (capture_trigger g) (capture_limit g).

(** How a piece of the program ends: it goes on, leaves with an exit code and a
    text (on stderr unless the code is 0), or corrupts memory. *)
Inductive outcome (A : Type) := Done (a : A) | Exit (code : Z) (msg : string) | Crash.
Arguments Done {A}. Arguments Exit {A}. Arguments Crash {A}.

Definition bind {A B} (m : outcome A) (f : A -> outcome B) : outcome B :=
  match m with Done a => f a | Exit c s => Exit c s | Crash => Crash end.
Notation "'let!' x := m 'in' f" := (bind m (fun x => f))
  (at level 10, x pattern at level 0, m at level 200, f at level 200).

Definition os_error {A} (msg : string) : outcome A := Exit 1 ("Error: " +:+ msg).

(** ** The option table *)

Inductive slot := Flag (f : flag) | Text (t : text).

(** [struct OsOption]; the short name is an [int]. *)
Record OsOption := mk_opt {
  short_name : Z;
  long_name : option string;
  arg_name : option string;
  value : option slot;
  description : string;
}.

(** The value of a [char] as an [int]. *)
Definition char_int (c : ascii) : Z :=
  let n := Z.of_nat (nat_of_ascii c) in if n <? 128 then n else n - 256.

(** The condition of the loops over the table. *)
Definition opt_live (opt : OsOption) : bool :=
  bool_decide (is_Some (value opt)) || negb (short_name opt =? 0).

(** [opt->arg_name] used as a condition. *)
Definition has_arg (opt : OsOption) : bool := bool_decide (is_Some (arg_name opt)).

Fixpoint find_long_option (options : list OsOption) (txt : string) : option OsOption :=
  match options with
  | [] => None
  | opt :: options =>
      if negb (opt_live opt) then None
      else if decide (long_name opt = Some txt) then Some opt
      else find_long_option options txt
  end.

Fixpoint find_short_option (options : list OsOption) (chr : ascii) : option OsOption :=
  match options with
  | [] => None
  | opt :: options =>
      if negb (opt_live opt) then None
      else if short_name opt =? char_int chr then Some opt
      else find_short_option options chr
  end.

(** [*(bool * )opt->value = true] and [*(char ** )opt->value = arg]. *)
Definition store_flag (opt : OsOption) (g : Options) : outcome Options :=
  match value opt with Some (Flag f) => Done (set_flag f g) | _ => Crash end.
Definition store_text (opt : OsOption) (arg : string) (g : Options) : outcome Options :=
  match value opt with Some (Text t) => Done (set_text t arg g) | _ => Crash end.

(** ** The parser *)

(** [strchr(arg, '=')] and the cut it leads to: the part before, and what follows. *)
Fixpoint cut_eq (arg : string) : string * option string :=
  match arg with
  | EmptyString => (EmptyString, None)
  | String c s =>
      if Ascii.eqb c "=" then (EmptyString, Some s)
      else let '(a, v) := cut_eq s in (String c a, v)
  end.

Definition missing_short (opt : OsOption) : string :=
  "option -" +:+ String (ascii_of_nat (Z.to_nat (short_name opt mod 256))) "" +:+ " requires an argument".

(** The characters of a group of short options. *)
Fixpoint short_options (options : list OsOption) (chars : string) (arg_opt : option OsOption)
    (g : Options) : outcome (option OsOption * Options) :=
  match chars with
  | EmptyString => Done (arg_opt, g)
  | String c chars =>
      match arg_opt with
      | Some o => os_error (missing_short o)
      | None =>
          match find_short_option options c with
          | None => os_error ("unrecognized option: -" +:+ String c "")
          | Some opt =>
              if has_arg opt then short_options options chars (Some opt) g
              else let! g := store_flag opt g in short_options options chars None g
          end
      end
  end.

(** A long option, [arg] without its dashes. *)
Definition long_option (options : list OsOption) (arg : string) (g : Options)
    : outcome (option OsOption * Options) :=
  let '(name, val) := cut_eq arg in
  match find_long_option options name with
  | None => os_error ("unrecognized option: --" +:+ name)
  | Some opt =>
      match val with
      | Some v =>
          let! g := if has_arg opt then store_text opt v g else store_flag opt g in Done (None, g)
      | None =>
          if has_arg opt then Done (Some opt, g)
          else let! g := store_flag opt g in Done (None, g)
      end
  end.

(** After the loop. *)
Definition opt_end (argc : Z) (arg_opt : option OsOption) (short_opt : bool) (g : Options)
    : outcome (Z * Options) :=
  match arg_opt with
  | None => Done (argc, g)
  | Some o =>
      if short_opt then os_error (missing_short o)
      else os_error ("option --" +:+ default "(null)" (long_name o) +:+ " requires an argument")
  end.

(** The loop of [os_opt_parse], from the argument with index [i]. *)
Fixpoint opt_loop (options : list OsOption) (argc i : Z) (args : list string)
    (arg_opt : option OsOption) (short_opt : bool) (g : Options) : outcome (Z * Options) :=
  match args with
  | [] => opt_end argc arg_opt short_opt g
  | arg :: args =>
      match arg_opt with
      | Some o =>
          match arg with
          | String "-" _ => opt_end argc arg_opt short_opt g
          | _ =>
              let! g := store_text o arg g in
              opt_loop options argc (i + 1) args None short_opt g
          end
      | None =>
          match arg with
          | String "-" (String "-" name) =>
              let! (arg_opt, g) := long_option options name g in
              opt_loop options argc (i + 1) args arg_opt false g
          | String "-" EmptyString => os_error "expected option name"
          | String "-" chars =>
              let! (arg_opt, g) := short_options options chars None g in
              opt_loop options argc (i + 1) args arg_opt true g
          | _ => Done (i, g)
          end
      end
  end.

(** The index of the first argument that is no option, or [argc]; [argv] starts
    with the program's name. *)
Definition os_opt_parse (options : list OsOption) (argv : list string) (g : Options)
    : outcome (Z * Options) :=
  opt_loop options (Z.of_nat (length argv)) 1 (tl argv) None false g.

(** The entries of the table: a section heading, an option without and with an
    argument. *)
Definition heading (name : string) : OsOption := mk_opt 1 (Some name) None None "".
Definition switch (c : Z) (name : string) (f : flag) (d : string) : OsOption :=
  mk_opt c (Some name) None (Some (Flag f)) d.
Definition setting (c : Z) (name arg : string) (t : text) (d : string) : OsOption :=
  mk_opt c (Some name) (Some arg) (Some (Text t)) d.

Definition options : list OsOption := [
  heading "General:";
  switch 104 "help" help "print this help message and exit";
  heading "Capture:";
  setting 115 "speed" "speed" speed "select USB speed: 'auto' (default), 'ls', 'fs' or 'hs'";
  switch 108 "fold" fold_empty "fold empty frames";
  switch 101 "exclude" exclude_line_state "exclude line state";
  setting 110 "limit" "number" limit "limit the number of captured packets";
  setting 116 "trigger" "type" trigger
    "capture trigger: 'disabled' (default), 'low', 'high', 'falling' or 'rising'";
  switch 0 "test" test "perform a transfer rate test (gen1)";
  heading "Wireshark extcap:";
  switch 0 "extcap-version" extcap_version "show the version of this utility";
  switch 0 "extcap-dlts" extcap_dlts "provide a list of dlts for the given interface";
  switch 0 "extcap-interfaces" extcap_interfaces "provide a list of interfaces to capture from";
  setting 0 "extcap-interface" "name" extcap_interface "provide the interface to capture from";
  switch 0 "extcap-config" extcap_config
    "provide a list of configurations for the given interface";
  switch 99 "capture" extcap_capture "start capture";
  setting 102 "fifo" "name" extcap_fifo "output fifo or file name";
  heading "Development:";
  setting 0 "replay" "file" replay
    "replay a pre-recorded gen2 upstream stream for offline testing";
  heading "Firmware update (gen1):";
  setting 0 "mcu-sram" "name" mcu_sram "upload FX2LP firmware into the SRAM and run it";
  setting 0 "mcu-eeprom" "name" mcu_eeprom "program FX2LP firmware into the EEPROM";
  setting 0 "fpga-sram" "name" fpga_sram "upload BIT file into the FPGA SRAM";
  setting 0 "fpga-flash" "name" fpga_flash "program JED file into the FPGA flash";
  switch 0 "fpga-erase" fpga_erase "erase FPGA flash";
  mk_opt 0 None None None "" ].

(** ** Values *)

(** [strtoll] in base 10: white space, a sign, digits, clamped to 64 bits. *)
Definition digit (c : ascii) : option Z :=
  let n := Z.of_nat (nat_of_ascii c) in
  if (48 <=? n) && (n <=? 57) then Some (n - 48) else None.

Fixpoint digits_value (s : string) (acc : Z) : Z :=
  match s with
  | EmptyString => acc
  | String c s => match digit c with Some d => digits_value s (acc * 10 + d) | None => acc end
  end.

Fixpoint skip_space (s : string) : string :=
  match s with
  | String c s' => if Ascii.is_space c then skip_space s' else s
  | EmptyString => EmptyString
  end.

Definition LLONG_MIN : Z := -9223372036854775808.
Definition LLONG_MAX : Z := 9223372036854775807.

Definition strtoll (s : string) : Z :=
  Z.max LLONG_MIN (Z.min LLONG_MAX
    match skip_space s with
    | String "-" s => - digits_value s 0
    | String "+" s => digits_value s 0
    | s => digits_value s 0
    end).

Definition get_capture_speed (g : Options) : outcome Z :=
  match texts g speed with
  | None => Done CaptureSpeed_Reset
  | Some s =>
      if decide (s = "ls") then Done CaptureSpeed_LS
      else if decide (s = "fs") then Done CaptureSpeed_FS
      else if decide (s = "hs") then Done CaptureSpeed_HS
      else if decide (s = "auto") then Done CaptureSpeed_Reset
      else os_error ("unrecognized capture speed setting: '" +:+ s +:+ "'")
  end.

Definition get_capture_trigger (g : Options) : outcome Z :=
  match texts g trigger with
  | None => Done CaptureTrigger_Disabled
  | Some s =>
      if decide (s = "disabled") then Done CaptureTrigger_Disabled
      else if decide (s = "low") then Done CaptureTrigger_Low
      else if decide (s = "high") then Done CaptureTrigger_High
      else if decide (s = "falling") then Done CaptureTrigger_Falling
      else if decide (s = "rising") then Done CaptureTrigger_Rising
      else os_error ("unrecognized capture trigger setting: '" +:+ s +:+ "'")
  end.

(** The text of [print_help]; [build] is the build date. *)
Definition nl : string := String (ascii_of_nat 10) "".

Fixpoint help_lines (options : list OsOption) : string :=
  match options with
  | [] => ""
  | opt :: options =>
      if negb (opt_live opt) then ""
      else
        (if short_name opt =? 1 then nl +:+ default "(null)" (long_name opt) +:+ nl
         else
           "  "
           +:+ (if short_name opt =? 0 then ""
                else "-" +:+ String (ascii_of_nat (Z.to_nat (short_name opt mod 256))) ", ")
           +:+ match long_name opt with Some n => "--" +:+ n | None => "" end
           +:+ match arg_name opt with Some n => " <" +:+ n +:+ ">" | None => "" end
           +:+ nl +:+ "          " +:+ description opt +:+ nl)
        +:+ help_lines options
  end.

Definition print_help {A} (build name : string) (options : list OsOption) : outcome A :=
  Exit 0
    ("USB Sniffer, built " +:+ build +:+ nl +:+ nl
     +:+ "Usage: " +:+ name +:+ " [options]" +:+ nl +:+ help_lines options +:+ nl).

(** One of the queries of the extcap protocol is asked for. *)
Definition query_mode (g : Options) : bool :=
  flags g extcap_version || flags g extcap_interfaces || flags g extcap_dlts
  || flags g extcap_config || bool_decide (is_Some (texts g extcap_interface)).

Definition parse_command_line (build : string) (argv : list string) (g : Options) : outcome Options :=
  let! (last, g) := os_opt_parse options argv g in
  let argc := Z.of_nat (length argv) in
  if flags g help then print_help build (hd "" argv) options
  else if negb (last =? argc) && negb (query_mode g) && negb ((1 <? argc) && (last =? argc)) then
    os_error "malformed command line, use '-h' for more information"
  else
    let! sp := get_capture_speed g in
    let! tr := get_capture_trigger g in
    Done (mk_options (flags g) (texts g) sp tr
            match texts g limit with Some s => strtoll s | None => -1 end).

(** ** The extcap protocol *)

Definition version_line : string :=
  "extcap {version=" +:+ EXTCAP_VERSION +:+ "}{help=" +:+ EXTCAP_URL +:+ "}{display="
  +:+ VENDOR_NAME +:+ "}".
Definition interface_line : string :=
  "interface {value=" +:+ INTERFACE_NAME +:+ "}{display=" +:+ VENDOR_NAME +:+ "}".

(** ["%d"]. *)
Definition dec_string (n : Z) : string :=
  String.string_of_list_ascii (map (fun b => ascii_of_nat (Z.to_nat b)) (dec n)).

Definition dlt_line (number : Z) (name display : string) : string :=
  "dlt {number=" +:+ dec_string number +:+ "}{name=" +:+ name +:+ "}{display=" +:+ display +:+ "}".

Definition dlts_text : list string := [
  dlt_line LINKTYPE_USB_2_0 "USB_2_0" "USB 2.0";
  dlt_line LINKTYPE_USB_2_0_LOW_SPEED "USB_2_0_LOW_SPEED" "USB 2.0 Low Speed";
  dlt_line LINKTYPE_USB_2_0_FULL_SPEED "USB_2_0_FULL_SPEED" "USB 2.0 Full Speed";
  dlt_line LINKTYPE_USB_2_0_HIGH_SPEED "USB_2_0_HIGH_SPEED" "USB 2.0 High Speed" ].

Definition config_text : list string := [
  "arg {number=0}{call=--speed}{display=Capture Speed}{tooltip=USB capture speed}{type=selector}";
  "value {arg=0}{value=auto}{display=Auto-Detect}{default=true}";
  "value {arg=0}{value=ls}{display=Low-Speed}{default=false}";
  "value {arg=0}{value=fs}{display=Full-Speed}{default=false}";
  "value {arg=0}{value=hs}{display=High-Speed}{default=false}";
  "arg {number=1}{call=--fold}{display=Fold empty frames}{tooltip=Fold frames that have no data or errors}{type=boolflag}";
  "arg {number=2}{call=--exclude}{display=Exclude Line State}{tooltip=Exclude Line State to reduce CPU usage}{type=boolflag}";
  "arg {number=3}{call=--trigger}{display=Capture Trigger}{tooltip=Condition used to start the capture}{type=selector}";
  "value {arg=3}{value=disabled}{display=Disabled}{default=true}";
  "value {arg=3}{value=low}{display=Low}{default=false}";
  "value {arg=3}{value=high}{display=High}{default=false}";
  "value {arg=3}{value=falling}{display=Falling}{default=false}";
  "value {arg=3}{value=rising}{display=Rising}{default=false}";
  "arg {number=4}{call=--limit}{display=Capture Limit}{tooltip=Limit the number of captured packets (0 for unlimited)}{type=integer}{range=0,10000000}{default=0}" ].

(** The lines on stdout, the lines for the log, and whether a query was answered. *)
Definition handle_extcap_request (g : Options) : list string * list string * bool :=
  let out := if flags g extcap_version then [version_line] else [] in
  if flags g extcap_interfaces then (out ++ [interface_line], [], true)
  else if flags g extcap_version then (out, [], true)
  else if match texts g extcap_interface with Some i => negb (bool_decide (i = INTERFACE_NAME)) | None => false end
  then (out, ["invalid interface, expected " +:+ INTERFACE_NAME], true)
  else if flags g extcap_dlts then (out ++ dlts_text, [], true)
  else if flags g extcap_config then (out ++ config_text, [], true)
  else (out, [], false).

(** ** The parser stores through pointers of the right type *)

(** An option with an argument points to a string, one without to a flag; a
    section heading points nowhere. *)
Definition well_typed (opt : OsOption) : Prop :=
  match arg_name opt, value opt with
  | Some _, Some (Text _) | None, Some (Flag _) => True
  | None, None => short_name opt = 0 \/ short_name opt = 1
  | _, _ => False
  end.

Definition is_heading (opt : OsOption) : Prop := value opt = None.
#[export] Instance slot_eq_dec : EqDecision slot.
Proof. solve_decision. Defined.

Lemma options_typed : Forall well_typed options.
Proof. repeat (apply Forall_cons_2; [cbn; auto|]). apply Forall_nil_2. Qed.

(** The argument names a section heading of the table. *)
Definition names_heading (arg : string) : Prop :=
  match arg with
  | String "-" (String "-" name) =>
      exists o, find_long_option options (fst (cut_eq name)) = Some o /\ is_heading o
  | String "-" chars => String.index 0 (String (ascii_of_nat 1) "") chars <> None
  | _ => False
  end.

Lemma find_long_In os n o : find_long_option os n = Some o -> o ∈ os.
Proof.
  induction os as [|a os IH]; cbn; [done|]. destruct (opt_live a); cbn; [|done].
  case_decide; [intros E; simplify_eq; by left|]. intros Hf. right. by apply IH.
Qed.

Lemma find_short_In os c o : find_short_option os c = Some o -> o ∈ os /\ short_name o = char_int c.
Proof.
  induction os as [|a os IH]; cbn; [done|]. destruct (opt_live a); cbn; [|done].
  destruct (Z.eqb_spec (short_name a) (char_int c)) as [E|E].
  - intros Hf. simplify_eq. split; [by left|done].
  - intros Hf. apply IH in Hf as [H1 H2]. split; [by right|done].
Qed.

Lemma typed_In o : o ∈ options -> well_typed o.
Proof. intros H. exact (proj1 (list.Forall_forall _ _) options_typed _ H). Qed.

(** A section heading is found by character 1 only. *)
Lemma heading_char o c : o ∈ options -> is_heading o -> has_arg o = false ->
  opt_live o = true -> short_name o = char_int c -> c = ascii_of_nat 1.
Proof.
  intros Hi Hh Ha Hl Hc. apply typed_In in Hi. unfold well_typed, is_heading, has_arg, opt_live in *.
  rewrite Hh in Hi, Hl. cbn in Hl.
  destruct (arg_name o); [done|]. destruct Hi as [E|E]; rewrite E in *; [done|].
  rewrite <- (ascii_nat_embedding c). f_equal. unfold char_int in Hc.
  pose proof (nat_ascii_bounded c). destruct (Z.ltb_spec (Z.of_nat (nat_of_ascii c)) 128); lia.
Qed.

Lemma find_live os c o : find_short_option os c = Some o -> opt_live o = true.
Proof.
  induction os as [|a os IH]; cbn; [done|]. destruct (opt_live a) eqn:E; cbn; [|done].
  destruct (short_name a =? char_int c); [intros Hf; by simplify_eq|done].
Qed.

(** [store_flag] and [store_text] on what the searches find. *)
Lemma store_flag_typed o g : o ∈ options -> has_arg o = false -> store_flag o g = Crash -> is_heading o.
Proof.
  intros Hi Ha. apply typed_In in Hi. unfold well_typed, store_flag, is_heading, has_arg in *.
  destruct (arg_name o); [done|]. by destruct (value o) as [[]|].
Qed.

Lemma store_text_typed o v g : o ∈ options -> has_arg o = true -> store_text o v g <> Crash.
Proof.
  intros Hi Ha. apply typed_In in Hi. unfold well_typed, store_text, has_arg in *.
  destruct (arg_name o); [|done]. by destruct (value o) as [[]|].
Qed.

(** What is pending between two arguments. *)
Definition pending_ok (arg_opt : option OsOption) : Prop :=
  match arg_opt with Some o => o ∈ options /\ has_arg o = true | None => True end.

Lemma opt_end_no_crash argc a s g : opt_end argc a s g <> Crash.
Proof. unfold opt_end. by destruct a, s. Qed.

Lemma short_options_typed chars a g :
  pending_ok a ->
  match short_options options chars a g with
  | Crash => String.index 0 (String (ascii_of_nat 1) "") chars <> None
  | Done (a', _) => pending_ok a'
  | Exit _ _ => True
  end.
Proof.
  revert a g. induction chars as [|c chars IH]; intros a g Ha; [done|].
  cbn [short_options]. destruct a as [o|]; [done|].
  destruct (find_short_option options c) as [o|] eqn:Ef; [|done].
  pose proof (find_live _ _ _ Ef) as Hl. apply find_short_In in Ef as [Hi Hs].
  assert (Hc : String.index 0 (String (ascii_of_nat 1) "") chars <> None \/ c = ascii_of_nat 1 ->
               String.index 0 (String (ascii_of_nat 1) "") (String c chars) <> None).
  { intros Hc. cbn [String.index String.prefix]. destruct (ascii_dec (ascii_of_nat 1) c) as [E|E].
    - by destruct chars.
    - destruct Hc as [Hc|Hc]; [|by rewrite Hc in E]. by destruct (String.index 0 _ chars). }
  destruct (has_arg o) eqn:Ea.
  - specialize (IH (Some o) g (conj Hi Ea)). destruct (short_options _ _ _ _) as [[]| |]; auto.
  - destruct (store_flag o g) as [g'| |] eqn:Es; cbn [bind].
    + specialize (IH None g' I). destruct (short_options _ _ _ _) as [[]| |]; auto.
    + done.
    + apply Hc. right. apply store_flag_typed in Es; [|done|done]. by eapply heading_char.
Qed.

Lemma long_option_typed name g :
  match long_option options name g with
  | Crash => names_heading (String "-" (String "-" name))
  | Done (a', _) => pending_ok a'
  | Exit _ _ => True
  end.
Proof.
  unfold long_option. cbn [names_heading]. destruct (cut_eq name) as [n v]. cbn [fst].
  destruct (find_long_option options n) as [o|] eqn:Ef; [|done]. pose proof (find_long_In _ _ _ Ef) as Hi.
  destruct (has_arg o) eqn:Ea, v as [v|]; cbn [bind pending_ok].
  - pose proof (store_text_typed o v g Hi Ea). by destruct (store_text o v g).
  - done.
  - destruct (store_flag o g) eqn:Es; [done|done|]. exists o. split; [done|]. by eapply store_flag_typed.
  - destruct (store_flag o g) eqn:Es; [done|done|]. exists o. split; [done|]. by eapply store_flag_typed.
Qed.

Lemma opt_loop_typed argc i args a s g :
  pending_ok a -> opt_loop options argc i args a s g = Crash -> Exists names_heading args.
Proof.
  revert i a s g. induction args as [|arg args IH]; intros i a s g Ha E; cbn [opt_loop] in E.
  { by apply opt_end_no_crash in E. }
  destruct a as [o|].
  - assert (E' : opt_end argc (Some o) s g = Crash
        \/ bind (store_text o arg g) (fun g => opt_loop options argc (i + 1) args None s g) = Crash).
    { destruct arg as [|c arg]; [by right|]. destruct c as [[] [] [] [] [] [] [] []]; auto. }
    destruct E' as [E'|E']; [by apply opt_end_no_crash in E'|].
    pose proof (store_text_typed o arg g (proj1 Ha) (proj2 Ha)) as Hs.
    destruct (store_text o arg g); cbn in E'; [|done|done]. apply Exists_cons_tl. by eapply (IH _ None).
  - destruct arg as [|c arg]; [done|].
    destruct (ascii_dec c "-") as [->|Hne].
    2:{ destruct c as [[] [] [] [] [] [] [] []]; try discriminate E. by destruct Hne. }
    destruct arg as [|c arg]; [done|].
    destruct (ascii_dec c "-") as [->|Hne].
    + pose proof (long_option_typed arg g) as Hl. destruct (long_option options arg g) as [[a g']| |]; cbn [bind] in E.
      * apply Exists_cons_tl. by eapply IH.
      * done.
      * by apply Exists_cons_hd.
    + pose proof (short_options_typed (String c arg) None g I) as Hl.
      assert (E' : bind (short_options options (String c arg) None g)
                (fun '(a, g) => opt_loop options argc (i + 1) args a true g) = Crash).
      { destruct c as [[] [] [] [] [] [] [] []]; try exact E. by destruct Hne. }
      clear E. destruct (short_options options (String c arg) None g) as [[a g']| |]; cbn [bind] in E'.
      * apply Exists_cons_tl. by eapply IH.
      * done.
      * apply Exists_cons_hd. destruct c as [[] [] [] [] [] [] [] []]; try exact Hl. by destruct Hne.
Qed.

(** C26: pointers.  Whatever the command line, the parser stores a flag only through a
    pointer to a flag and a string only through a pointer to a string; the only
    argument that makes it store through a null pointer is the name of one of the
    section headings of the help text, or the character 1 as a short option. *)
Theorem parse_command_line_typed build argv g :
  parse_command_line build argv g = Crash -> Exists names_heading (tl argv).
Proof.
  unfold parse_command_line, os_opt_parse. intros E.
  destruct (opt_loop options _ 1 (tl argv) None false g) as [[last g']| |] eqn:El; cbn [bind] in E.
  - destruct (flags g' help); [done|]. destruct (_ && _); [done|].
    assert (Hs : get_capture_speed g' <> Crash) by (unfold get_capture_speed; repeat case_match; done).
    assert (Ht : get_capture_trigger g' <> Crash) by (unfold get_capture_trigger; repeat case_match; done).
    destruct (get_capture_speed g'); [|done|done]. by destruct (get_capture_trigger g').
  - done.
  - by eapply (opt_loop_typed _ _ _ None).
Qed.

(** The heading of the first section on the command line. *)
Lemma heading_crash : parse_command_line "" ["plugin"; "--General:"] g_opt0 = Crash.
Proof. vm_compute. reflexivity. Qed.

Lemma parse_command_line_typed_witness : Exists names_heading ["--General:"].
Proof. exact (parse_command_line_typed "" ["plugin"; "--General:"] g_opt0 heading_crash). Defined.

(** ** Every way of writing an option is read back *)

(** An option given long, long with [=], or short, with its argument if it takes one. *)
Inductive style := Long | Long_eq | Short.
Record choice := mk_choice { c_opt : OsOption; c_value : string; c_style : style }.

Definition opt_char (o : OsOption) : ascii := ascii_of_nat (Z.to_nat (short_name o)).

Definition render (c : choice) : list string :=
  let o := c_opt c in
  let name := default "" (long_name o) in
  match c_style c, has_arg o with
  | Long, true => ["--" +:+ name; c_value c]
  | Long_eq, true => ["--" +:+ name +:+ "=" +:+ c_value c]
  | Short, true => [String "-" (String (opt_char o) ""); c_value c]
  | Short, false => [String "-" (String (opt_char o) "")]
  | _, false => ["--" +:+ name]
  end.

Definition store (c : choice) (g : Options) : Options :=
  match value (c_opt c) with
  | Some (Flag f) => set_flag f g
  | Some (Text t) => set_text t (c_value c) g
  | None => g
  end.

(** A value in an argument of its own does not begin with a dash. *)
Definition dashed (s : string) : bool := match s with String "-" _ => true | _ => false end.
Definition choice_ok (c : choice) : Prop :=
  c_opt c ∈ options /\ is_Some (value (c_opt c))
  /\ match c_style c with
     | Long => has_arg (c_opt c) = true -> dashed (c_value c) = false
     | Long_eq => True
     | Short => 1 < short_name (c_opt c) /\ (has_arg (c_opt c) = true -> dashed (c_value c) = false)
     end.

(** What the table promises of each of its entries. *)
Definition entry_ok (o : OsOption) : Prop :=
  value o = None
  \/ (exists n, long_name o = Some n /\ cut_eq n = (n, None) /\ find_long_option options n = Some o)
     /\ (1 < short_name o -> find_short_option options (opt_char o) = Some o /\ opt_char o <> "-"%char).

Lemma options_ok : Forall entry_ok options.
Proof.
  repeat apply Forall_cons_2; try apply Forall_nil_2; try (by left); right;
    (split; [eexists; split; [reflexivity|split; reflexivity]|cbn; intros Hs]);
    first [lia | split; [reflexivity|discriminate]].
Qed.

Lemma cut_eq_app n v : cut_eq n = (n, None) -> cut_eq (n +:+ String "=" v) = (n, Some v).
Proof.
  induction n as [|c n IH]; [done|].
  change (String c n +:+ String "=" v) with (String c (n +:+ String "=" v)). cbn [cut_eq].
  destruct (Ascii.eqb c "="); [done|]. destruct (cut_eq n) as [a w]. intros E.
  injection E as -> ->. by rewrite IH.
Qed.

(** The stores of a well-formed choice succeed. *)
Lemma store_choice c g :
  choice_ok c -> (if has_arg (c_opt c) then store_text (c_opt c) (c_value c) g else store_flag (c_opt c) g)
                 = Done (store c g).
Proof.
  intros (Hi & [s Hs] & _). apply typed_In in Hi. unfold well_typed, has_arg, store_text, store_flag, store in *.
  rewrite Hs in *. destruct (arg_name (c_opt c)), s; done.
Qed.

Lemma undashed_loop argc i v args o s g :
  dashed v = false ->
  opt_loop options argc i (v :: args) (Some o) s g
  = bind (store_text o v g) (fun g => opt_loop options argc (i + 1) args None s g).
Proof.
  intros Hd. destruct v as [|c v]; [done|]. cbn [opt_loop].
  destruct c as [[] [] [] [] [] [] [] []]; try done.
Qed.

Lemma long_loop argc i name args s g :
  opt_loop options argc i (String "-" (String "-" name) :: args) None s g
  = bind (long_option options name g) (fun '(a, g) => opt_loop options argc (i + 1) args a false g).
Proof. reflexivity. Qed.

Lemma short_loop argc i c args s g :
  c <> "-"%char ->
  opt_loop options argc i (String "-" (String c "") :: args) None s g
  = bind (short_options options (String c "") None g)
      (fun '(a, g) => opt_loop options argc (i + 1) args a true g).
Proof.
  intros Hd. cbn [opt_loop]. destruct c as [[] [] [] [] [] [] [] []]; try done.
Qed.

(** One choice at the head of the arguments. *)
Lemma opt_loop_choice argc i c args s g :
  choice_ok c -> exists s',
    opt_loop options argc i (render c ++ args) None s g
    = opt_loop options argc (i + Z.of_nat (length (render c))) args None s' (store c g).
Proof.
  intros Hc. pose proof (store_choice c g Hc) as Hs. destruct Hc as (Hi & Hv & Hst).
  destruct (proj1 (list.Forall_forall _ _) options_ok _ Hi) as [E|[(n & Hn & Hcut & Hl) Hsh]].
  { by rewrite E in Hv; destruct Hv. }
  unfold render. rewrite Hn. cbn [default id from_option]. destruct (c_style c); destruct (has_arg (c_opt c)) eqn:Ha.
  - exists false. cbn [app]. change ("--" +:+ n) with (String "-" (String "-" n)).
    rewrite long_loop. unfold long_option. rewrite Hcut, Hl, Ha. cbn [bind].
    rewrite undashed_loop by auto. rewrite Hs. cbn [bind length]. by rewrite <- Z.add_assoc.
  - exists false. change ("--" +:+ n) with (String "-" (String "-" n)). cbn [app].
    rewrite long_loop. unfold long_option. rewrite Hcut, Hl, Ha, Hs. done.
  - exists false. change ("--" +:+ n +:+ "=" +:+ c_value c)
      with (String "-" (String "-" (n +:+ String "=" (c_value c)))). cbn [app].
    rewrite long_loop. unfold long_option. rewrite cut_eq_app by done. rewrite Hl, Ha, Hs. done.
  - exists false. change ("--" +:+ n) with (String "-" (String "-" n)). cbn [app].
    rewrite long_loop. unfold long_option. rewrite Hcut, Hl, Ha, Hs. done.
  - exists true. destruct Hst as [H1 Hd]. destruct (Hsh H1) as [Hf Hne]. cbn [app].
    rewrite short_loop by done. cbn [short_options]. rewrite Hf, Ha. cbn [bind].
    rewrite undashed_loop by auto. rewrite Hs. cbn [bind length]. by rewrite <- Z.add_assoc.
  - exists true. destruct Hst as [H1 _]. destruct (Hsh H1) as [Hf Hne]. cbn [app].
    rewrite short_loop by done. cbn [short_options]. rewrite Hf, Ha, Hs. done.
Qed.

Lemma opt_loop_choices argc i cs rest s g :
  Forall choice_ok cs -> exists s',
    opt_loop options argc i (concat (map render cs) ++ rest) None s g
    = opt_loop options argc (i + Z.of_nat (length (concat (map render cs)))) rest None s'
        (fold_left (fun g c => store c g) cs g).
Proof.
  intros Hcs. revert i s g. induction Hcs as [|c cs Hc Hcs IH]; intros i s g; cbn [map concat app fold_left].
  { exists s. cbn [length]. by rewrite Z.add_0_r. }
  rewrite <- app_assoc. destruct (opt_loop_choice argc i c (concat (map render cs) ++ rest) s g Hc) as [s1 E1].
  destruct (IH (i + Z.of_nat (length (render c))) s1 (store c g)) as [s2 E2]. exists s2.
  rewrite E1, E2, length_app. f_equal. lia.
Qed.

(** C25: options.  A command line made of options of the table, each written long,
    long with [=] or short, sets exactly the members they name, later ones
    overriding earlier ones, and the parser stops at the first argument that is
    no option. *)
Theorem os_opt_parse_render prog cs rest g :
  Forall choice_ok cs -> match rest with [] => True | a :: _ => dashed a = false end ->
  let argv := (prog :: concat (map render cs) ++ rest)%list in
  os_opt_parse options argv g
  = Done (Z.of_nat (length argv) - Z.of_nat (length rest), fold_left (fun g c => store c g) cs g).
Proof.
  intros Hcs Hr argv. unfold os_opt_parse. cbn [tl argv].
  destruct (opt_loop_choices (Z.of_nat (length argv)) 1 cs rest false g Hcs) as [s ->].
  subst argv. cbn [length]. rewrite length_app.
  destruct rest as [|a rest]; cbn [length].
  - cbn [opt_loop opt_end]. by rewrite Z.sub_0_r.
  - transitivity (Done (1 + Z.of_nat (length (concat (map render cs))),
                        fold_left (fun g c => store c g) cs g)); [|do 2 f_equal; lia].
    destruct a as [|c a]; [done|]. cbn [opt_loop].
    destruct c as [[] [] [] [] [] [] [] []]; done.
Qed.

Definition demo_choices : list choice :=
  [ mk_choice (setting 115 "speed" "speed" speed "select USB speed: 'auto' (default), 'ls', 'fs' or 'hs'")
      "hs" Long_eq;
    mk_choice (switch 108 "fold" fold_empty "fold empty frames") "" Short;
    mk_choice (setting 110 "limit" "number" limit "limit the number of captured packets") "12" Long ].

Lemma demo_choices_ok : Forall choice_ok demo_choices.
Proof.
  repeat apply Forall_cons_2; try apply Forall_nil_2; (split; [|split; [by eexists|]]); cbn; auto with lia.
  all: try (split; [lia|done]).
  - do 3 right. left.
  - do 4 right. left.
  - do 6 right. left.
Qed.

Lemma os_opt_parse_render_witness :
  os_opt_parse options ["plugin"; "--speed=hs"; "-l"; "--limit"; "12"; "x"] g_opt0
  = Done (5, fold_left (fun g c => store c g) demo_choices g_opt0).
Proof. exact (os_opt_parse_render "plugin" demo_choices ["x"] g_opt0 demo_choices_ok eq_refl). Defined.

(** ** What a parsed command line is worth *)

Lemma bind_Done {A B} (m : outcome A) (f : A -> outcome B) b :
  bind m f = Done b -> exists a, m = Done a /\ f a = Done b.
Proof. destruct m as [a| |]; [|done..]. intros E. by exists a. Qed.

Lemma get_capture_speed_range g v : get_capture_speed g = Done v -> 0 <= v <= 3.
Proof. unfold get_capture_speed. repeat case_match; intros E; simplify_eq; done. Qed.

Lemma get_capture_trigger_range g v : get_capture_trigger g = Done v -> 0 <= v <= 4.
Proof. unfold get_capture_trigger. repeat case_match; intros E; simplify_eq; done. Qed.

Lemma strtoll_range s : LLONG_MIN <= strtoll s <= LLONG_MAX.
Proof. unfold strtoll, LLONG_MIN, LLONG_MAX. lia. Qed.

(** Values.  When the command line is accepted, the speed and the trigger are
    values of their enumerations, the limit is a 64-bit number, -1 when none is
    given, help was not asked for, and every argument was read unless one of the
    queries of Wireshark is asked for. *)
Theorem parse_command_line_ranges build argv g g' :
  parse_command_line build argv g = Done g' ->
  0 <= capture_speed g' <= 3 /\ 0 <= capture_trigger g' <= 4
  /\ LLONG_MIN <= capture_limit g' <= LLONG_MAX
  /\ (texts g' limit = None -> capture_limit g' = -1)
  /\ flags g' help = false
  /\ (query_mode g' = false ->
      exists g1, os_opt_parse options argv g = Done (Z.of_nat (length argv), g1)
                 /\ flags g1 = flags g' /\ texts g1 = texts g').
Proof.
  unfold parse_command_line. intros E.
  apply bind_Done in E as ([last g1] & Ep & E).
  destruct (flags g1 help) eqn:Eh; [done|].
  destruct (_ && _ && _) eqn:Em; [done|].
  apply bind_Done in E as (sp & Es & E). apply bind_Done in E as (tr & Et & E). simplify_eq.
  apply get_capture_speed_range in Es. apply get_capture_trigger_range in Et. cbn.
  split; [done|]. split; [done|]. split.
  { destruct (texts g1 limit); [apply strtoll_range|unfold LLONG_MIN, LLONG_MAX; lia]. }
  split; [by intros ->|]. split; [done|]. intros Hq. exists g1. split; [|done]. rewrite Ep.
  destruct (Z.eqb_spec last (Z.of_nat (length argv))) as [->|Hne]; [done|].
  change (query_mode g1 = false) in Hq. rewrite Hq in Em. cbn in Em. by rewrite andb_false_r in Em.
Qed.

Lemma parse_command_line_ranges_witness :
  match parse_command_line "" ["plugin"; "--speed=hs"; "-n"; "12"; "--trigger=rising"] g_opt0 with
  | Done g => capture_speed g = 2 /\ capture_trigger g = 4 /\ capture_limit g = 12
              /\ LLONG_MIN <= capture_limit g <= LLONG_MAX
  | _ => False
  end.
Proof.
  destruct (parse_command_line "" ["plugin"; "--speed=hs"; "-n"; "12"; "--trigger=rising"] g_opt0)
    as [g| |] eqn:E; [|discriminate E|discriminate E].
  pose proof (parse_command_line_ranges _ _ _ _ E) as H. vm_compute in E. injection E as <-.
  split; [reflexivity|]. split; [reflexivity|]. split; [reflexivity|]. apply H.
Defined.

(** ** What the configuration answer offers is what the parser accepts *)

Fixpoint strip (p s : string) : option string :=
  match p, s with
  | EmptyString, s => Some s
  | String a p, String b s => if Ascii.eqb a b then strip p s else None
  | _, _ => None
  end.

Fixpoint upto (c : ascii) (s : string) : string * string :=
  match s with
  | EmptyString => (EmptyString, EmptyString)
  | String a s => if Ascii.eqb a c then (EmptyString, s) else let '(x, r) := upto c s in (String a x, r)
  end.

(** A "value" line of an argument: the value and whether it is the default one. *)
Definition offer (arg line : string) : option (string * bool) :=
  match strip ("value {arg=" +:+ arg +:+ "}{value=") line with
  | None => None
  | Some r =>
      let '(v, r) := upto "}" r in
      let '(_, r) := upto "}" r in
      Some (v, bool_decide (r = "{default=true}"))
  end.

Definition offers (arg : string) (lines : list string) : list (string * bool) :=
  omap (offer arg) lines.

(** Configuration.  The values that the configuration query offers for the speed
    and for the trigger are exactly those the parser accepts, and the one marked
    as the default means the same as leaving the option out. *)
Theorem config_offers_accepted g v :
  ((exists d, (v, d) ∈ offers "0" config_text)
     <-> exists s, get_capture_speed (set_text speed v g) = Done s)
  /\ ((exists d, (v, d) ∈ offers "3" config_text)
     <-> exists s, get_capture_trigger (set_text trigger v g) = Done s)
  /\ ((v, true) ∈ offers "0" config_text ->
      get_capture_speed (set_text speed v g) = get_capture_speed g_opt0)
  /\ ((v, true) ∈ offers "3" config_text ->
      get_capture_trigger (set_text trigger v g) = get_capture_trigger g_opt0).
Proof.
  assert (E0 : offers "0" config_text = [("auto", true); ("ls", false); ("fs", false); ("hs", false)])
    by (vm_compute; reflexivity).
  assert (E3 : offers "3" config_text = [("disabled", true); ("low", false); ("high", false);
                                         ("falling", false); ("rising", false)])
    by (vm_compute; reflexivity).
  rewrite E0, E3. unfold get_capture_speed, get_capture_trigger, set_text. cbn [texts].
  rewrite !decide_True by done.
  split_and!.
  - split; [intros [d Hd]; set_unfold; destruct_or! Hd; simplify_eq; by eexists|].
    intros [s Es]. repeat case_decide; subst; try discriminate Es;
      first [exists true; set_solver|exists false; set_solver].
  - split; [intros [d Hd]; set_unfold; destruct_or! Hd; simplify_eq; by eexists|].
    intros [s Es]. repeat case_decide; subst; try discriminate Es;
      first [exists true; set_solver|exists false; set_solver].
  - intros Hd. set_unfold. destruct_or! Hd; by simplify_eq.
  - intros Hd. set_unfold. destruct_or! Hd; by simplify_eq.
Qed.

Lemma config_offers_accepted_witness :
  get_capture_trigger (set_text trigger "disabled" g_opt0) = Done CaptureTrigger_Disabled.
Proof.
  rewrite (proj2 (proj2 (proj2 (config_offers_accepted g_opt0 "disabled")))); [reflexivity|].
  vm_compute. left.
Defined.
