(* ===== verification/Device.v ===== *)
(** * Which sniffer is on the bus (src/device.c)

    The classification of a VID / PID / bcdDevice triple and the scan of the
    device list.  The list is libusb's: a descriptor, or [None] where reading it
    fails. *)

From stdpp Require Import sets.
From S2P Require Import Prelude.
Local Open Scope list_scope.

Definition USB_VID_VLLOGIC : Z := 0x1209.
Definition USB_PID_VLLOGIC : Z := 0x6688.
Definition USB_VID_LEGACY : Z := 0x6666.
Definition USB_PID_LEGACY : Z := 0x6620.
Definition USB_VID_FX2LP : Z := 0x04b4.
Definition USB_PID_FX2LP : Z := 0x8613.
Definition USB_BCD_GEN1 : Z := 0x0001.
Definition USB_BCD_GEN2 : Z := 0x0602.

Inductive device_kind := Device_None | Device_Gen1 | Device_Gen2 | Device_Both | Device_Fx2lp_Only.
#[export] Instance device_kind_eq_dec : EqDecision device_kind.
Proof. solve_decision. Defined.

(** [idVendor], [idProduct], [bcdDevice]. *)
Record descriptor := mk_desc { idVendor : Z; idProduct : Z; bcdDevice : Z }.

Definition device_is_gen2 (vid pid bcd : Z) : bool :=
  (vid =? USB_VID_VLLOGIC) && (pid =? USB_PID_VLLOGIC) && (bcd =? USB_BCD_GEN2).

Definition gen1_classify (vid pid bcd : Z) : bool :=
  if (vid =? USB_VID_LEGACY) && (pid =? USB_PID_LEGACY) then true
  else if (vid =? USB_VID_VLLOGIC) && (pid =? USB_PID_VLLOGIC) then bcd =? USB_BCD_GEN1
  else false.

Definition is_fx2lp (vid pid : Z) : bool := (vid =? USB_VID_FX2LP) && (pid =? USB_PID_FX2LP).

(** The loop over the device list, with the three flags it keeps. *)
Fixpoint probe_loop (devices : list (option descriptor)) (gen1 gen2 fx2lp : bool) : bool * bool * bool :=
  match devices with
  | [] => (gen1, gen2, fx2lp)
  | None :: devices => probe_loop devices gen1 gen2 fx2lp
  | Some desc :: devices =>
      let gen1 :=
        if gen1_classify (idVendor desc) (idProduct desc) (bcdDevice desc) then true else gen1 in
      let fx2lp := if is_fx2lp (idVendor desc) (idProduct desc) then true else fx2lp in
      let gen2 :=
        if device_is_gen2 (idVendor desc) (idProduct desc) (bcdDevice desc) then true else gen2 in
      if gen1 && gen2 then (gen1, gen2, fx2lp) else probe_loop devices gen1 gen2 fx2lp
  end.

Definition device_probe (devices : list (option descriptor)) : device_kind :=
  let '(gen1, gen2, fx2lp) := probe_loop devices false false false in
  if gen1 && gen2 then Device_Both
  else if gen1 then Device_Gen1
  else if gen2 then Device_Gen2
  else if fx2lp then Device_Fx2lp_Only
  else Device_None.

(** ** The scan as a whole *)

(** A device of a class is on the bus. *)
Definition on_bus (f : descriptor -> bool) (devices : list (option descriptor)) : Prop :=
  exists d, Some d ∈ devices /\ f d = true.

Definition gen1_dev (d : descriptor) : bool := gen1_classify (idVendor d) (idProduct d) (bcdDevice d).
Definition gen2_dev (d : descriptor) : bool := device_is_gen2 (idVendor d) (idProduct d) (bcdDevice d).
Definition fx2lp_dev (d : descriptor) : bool := is_fx2lp (idVendor d) (idProduct d).

Lemma on_bus_nil f : ~ on_bus f [].
Proof. intros (d & Hd & _). by apply not_elem_of_nil in Hd. Qed.

Lemma on_bus_None f l : on_bus f (None :: l) <-> on_bus f l.
Proof. split; intros (d & Hd & E); exists d; (split; [set_solver|done]). Qed.

Lemma on_bus_Some f x l : on_bus f (Some x :: l) <-> f x = true \/ on_bus f l.
Proof.
  split.
  - intros (d & Hd & E). apply elem_of_cons in Hd as [Hd|Hd]; [left; congruence|].
    right. by exists d.
  - intros [E|(d & Hd & E)]; [exists x|exists d]; (split; [set_solver|done]).
Qed.

Lemma if_true (b a : bool) : (if b then true else a) = true <-> a = true \/ b = true.
Proof. destruct b; naive_solver. Qed.

(** What the loop finds, up to its early end once both generations are there. *)
Lemma probe_loop_spec l a b c :
  match probe_loop l a b c with
  | (a', b', c') =>
      (a' = true <-> a = true \/ on_bus gen1_dev l) /\ (b' = true <-> b = true \/ on_bus gen2_dev l)
      /\ (c' = true <-> c = true \/ on_bus fx2lp_dev l)
      \/ a' = true /\ b' = true /\ (a = true \/ on_bus gen1_dev l) /\ (b = true \/ on_bus gen2_dev l)
  end.
Proof.
  revert a b c. induction l as [|[d|] l IH]; intros a b c; cbn [probe_loop].
  - left. split_and!; (split; [by left|intros [?|Hn]; [done|by apply on_bus_nil in Hn]]).
  - pose proof (on_bus_Some gen1_dev d l). pose proof (on_bus_Some gen2_dev d l).
    pose proof (on_bus_Some fx2lp_dev d l). fold (gen1_dev d) (gen2_dev d) (fx2lp_dev d).
    set (a1 := if gen1_dev d then true else a). set (b1 := if gen2_dev d then true else b).
    set (c1 := if fx2lp_dev d then true else c).
    pose proof (if_true (gen1_dev d) a) as Ha. pose proof (if_true (gen2_dev d) b) as Hb.
    pose proof (if_true (fx2lp_dev d) c) as Hc. fold a1 in Ha. fold b1 in Hb. fold c1 in Hc.
    destruct (a1 && b1) eqn:E.
    + apply andb_true_iff in E as [E1 E2]. right. tauto.
    + specialize (IH a1 b1 c1). destruct (probe_loop l a1 b1 c1) as [[a' b'] c']. tauto.
  - pose proof (on_bus_None gen1_dev l). pose proof (on_bus_None gen2_dev l).
    pose proof (on_bus_None fx2lp_dev l). specialize (IH a b c).
    destruct (probe_loop l a b c) as [[a' b'] c']. tauto.
Qed.

(** C27: selection.  The result depends on which kinds of device are on the bus and on
    nothing else: both generations, one of them whatever FX2LP chips are there too,
    a bare FX2LP only in the absence of both, or none. *)
Theorem device_probe_spec l :
  match device_probe l with
  | Device_Both => on_bus gen1_dev l /\ on_bus gen2_dev l
  | Device_Gen1 => on_bus gen1_dev l /\ ~ on_bus gen2_dev l
  | Device_Gen2 => ~ on_bus gen1_dev l /\ on_bus gen2_dev l
  | Device_Fx2lp_Only => ~ on_bus gen1_dev l /\ ~ on_bus gen2_dev l /\ on_bus fx2lp_dev l
  | Device_None => ~ on_bus gen1_dev l /\ ~ on_bus gen2_dev l /\ ~ on_bus fx2lp_dev l
  end.
Proof.
  unfold device_probe. pose proof (probe_loop_spec l false false false) as H.
  destruct (probe_loop l false false false) as [[a b] c].
  destruct H as [(Ha & Hb & Hc)|(-> & -> & Ha & Hb)]; [|cbn; split; naive_solver].
  destruct a, b, c; cbn; naive_solver.
Qed.

(** An FX2LP next to a second-generation sniffer does not hide it. *)
Example probe_fx2lp_gen2 :
  device_probe [Some (mk_desc 0x04b4 0x8613 0xa001); None; Some (mk_desc 0x1209 0x6688 0x0602)]
  = Device_Gen2.
Proof. reflexivity. Qed.
