(* ===== verification/Libusb.v ===== *)
(** * The libusb transport of the second generation (src/transport_libusb.c)

    Two phases over one endpoint: synchronous reads while the session exchanges
    commands, and a pool of sixteen transfers once it streams.  The completion callback hands
    the driver a spare buffer before it parses the full one; the buffers, who holds them and
    what the driver writes into the ones it holds are part of the state.  libusb is a script
    of the results of its calls. *)

From stdpp Require Import sets.
From S2P Require Import Prelude Device Transport.
Local Open Scope list_scope.

Definition TRANSFER_SIZE : Z := 256 * 1024.
Definition TRANSFER_COUNT : nat := 16.
Definition SYNC_BUF_SIZE : Z := 256 * 1024.
Definition OUT_POOL_SIZE : nat := 4.
Definition OUT_PACKET_MAX : Z := 64.
Definition PROBE_COUNT : nat := 8.
Definition LIBUSB_ERROR_NO_DEVICE : Z := -4.
Definition LIBUSB_ERROR_TIMEOUT : Z := -7.
Definition LIBUSB_ERROR_INTERRUPTED : Z := -10.

(** [transfer->status]. *)
Inductive status := COMPLETED | ERROR | TIMED_OUT | CANCELLED | STALL | NO_DEVICE | OVERFLOW.

(** A completion: of an IN transfer, with the bytes received and the result of submitting
    it again, or of an OUT transfer. *)
Inductive completion :=
| In (i : nat) (st : status) (data : list Z) (submit : Z)
| Out (k : nat) (st : status).

(** The results of libusb's calls to come; where a list is used up a call does nothing
    of note.  A scan of the bus is a list of devices, each with the result of opening it;
    a synchronous read is its result, its bytes and the completions handled meanwhile; a round of
    the event loop is its result and its completions. *)
Record script := mk_script {
  inits : list Z;
  scans : list (Z + list (option descriptor * Z));
  claims : list Z;
  controls : list Z;
  reads : list (Z * list Z * list completion);
  rounds : list (Z * list completion);
  submits : list Z;
  clocks : list Z;
}.
#[export] Instance script_settable : Settable script := fun s =>
  mk_script (inits s) (scans s) (claims s) (controls s) (reads s) (rounds s) (submits s) (clocks s).

(** A transfer of the IN pool: the buffer it points to, and whether the driver has it. *)
Record in_slot := mk_in { s_buf : nat; s_flight : bool }.
Record out_slot := mk_out { busy : bool; has_transfer : bool; o_data : list Z }.

(** [libusb_priv], with the memory of the sixteen buffers and the spare one, the packets
    given to the driver, the script, and whether an [os_error] ended the process. *)
Record libusb_priv := mk_libusb {
  handle : bool;
  in_pool : list (option in_slot);
  spare : option nat;
  mem : list (list Z);
  out_pool : list out_slot;
  cmd_buf : bool;
  alive : bool;
  streams_up : bool;
  closing : bool;
  wire : list (list Z);
  env : script;
  exited : bool;
}.
#[export] Instance libusb_settable : Settable libusb_priv := fun p =>
  mk_libusb (handle p) (in_pool p) (spare p) (mem p) (out_pool p) (cmd_buf p) (alive p)
    (streams_up p) (closing p) (wire p) (env p) (exited p).

Definition pop {A} (d : A) (l : list A) : A * list A := match l with [] => (d, []) | a :: l => (a, l) end.

Definition out_init : list out_slot := replicate OUT_POOL_SIZE (mk_out false false []).

(** [os_alloc (TRANSFER_SIZE)]. *)
Definition blank_buffer : list Z := replicate (Z.to_nat TRANSFER_SIZE) 0.

(** The private state of a new transport. *)
Definition libusb_new (e : script) : libusb_priv :=
  mk_libusb false (replicate TRANSFER_COUNT None) None (replicate (S TRANSFER_COUNT) []) out_init
    false false false false [] e false.

Section Backend.
(** What the driver makes of a buffer it is given. *)
Context (scribble : list Z -> list Z).
Implicit Type p : libusb_priv.

Definition on_env p (f : script -> script) : libusb_priv := p <| env := f (env p) |>.

Definition next_submit p : Z * libusb_priv :=
  let '(rc, l) := pop 0 (submits (env p)) in (rc, on_env p (fun e => e <| submits := l |>)).
Definition next_round p : Z * list completion * libusb_priv :=
  let '(r, l) := pop (0, []) (rounds (env p)) in (r, on_env p (fun e => e <| rounds := l |>)).
Definition next_read p : Z * list Z * list completion * libusb_priv :=
  let '(r, l) := pop (LIBUSB_ERROR_TIMEOUT, [], []) (reads (env p)) in (r, on_env p (fun e => e <| reads := l |>)).
Definition next_control p : Z * libusb_priv :=
  let '(rc, l) := pop 0 (controls (env p)) in (rc, on_env p (fun e => e <| controls := l |>)).

(** *** The driver's side *)

(** The slot of a transfer the driver has. *)
Definition in_flight p (i : nat) : option in_slot :=
  match in_pool p !! i with
  | Some (Some s) => if s_flight s then Some s else None
  | _ => None
  end.

Definition set_slot p (i : nat) (s : in_slot) : libusb_priv := p <| in_pool := <[i := Some s]> (in_pool p) |>.

(** [libusb_submit_transfer] taking transfer [i]: from here on its buffer is the driver's. *)
Definition submit_in p (i : nat) (s : in_slot) : libusb_priv :=
  (set_slot p i (mk_in (s_buf s) true)) <| mem := <[s_buf s := scribble (mem p !!! s_buf s)]> (mem p) |>.

(** The driver stores what it received and gives the transfer back. *)
Definition complete_in p (i : nat) (s : in_slot) (data : list Z) : libusb_priv :=
  (set_slot p i (mk_in (s_buf s) false))
    <| mem := <[s_buf s := data ++ drop (length data) (mem p !!! s_buf s)]> (mem p) |>.

(** *** The callbacks *)

Definition out_callback p (k : nat) : libusb_priv :=
  match out_pool p !! k with
  | Some s => p <| out_pool := <[k := mk_out false (has_transfer s) (o_data s)]> (out_pool p) |>
  | None => p
  end.

Section Client.
Context {U : Type} `{FeedClient U}.
Implicit Type u : U.

(** The first [len] bytes of a buffer, where there are any. *)
Definition feed_buffer p (b : nat) (len : Z) u : U :=
  if 0 <? len then feed (take (Z.to_nat len) (mem p !!! b)) u else u.

Definition in_callback p u (i : nat) (s : in_slot) (st : status) (len submit : Z) : libusb_priv * U :=
  if closing p then (p, u)
  else match st with
  | NO_DEVICE => (p <| alive := false |>, u)
  | CANCELLED => (p, u)
  | _ =>
      let mine := s_buf s in
      match spare p with
      | Some other =>
          if len <? TRANSFER_SIZE then
            let p := (set_slot p i (mk_in other false)) <| spare := Some mine |> in
            if submit <? 0 then
              ((set_slot p i (mk_in mine false)) <| alive := false |> <| spare := None |>, u)
            else
              let p := submit_in p i (mk_in other false) in
              let u := feed_buffer p mine len u in
              (p <| spare := Some mine |>, u)
          else
            let u := feed_buffer p mine len u in
            if submit <? 0 then (p <| alive := false |>, u) else (submit_in p i s, u)
      | None =>
          let u := feed_buffer p mine len u in
          if submit <? 0 then (p <| alive := false |>, u) else (submit_in p i s, u)
      end
  end.

(** A completion; the driver completes only what it has, and receives at most a buffer. *)
Definition complete (pu : libusb_priv * U) (c : completion) : libusb_priv * U :=
  let '(p, u) := pu in
  match c with
  | In i st data submit =>
      match in_flight p i with
      | Some s =>
          if Z.of_nat (length data) <=? TRANSFER_SIZE then
            in_callback (complete_in p i s data) u i (mk_in (s_buf s) false) st (Z.of_nat (length data)) submit
          else (p, u)
      | None => (p, u)
      end
  | Out k st => (out_callback p k, u)
  end.

Definition handle_completions (l : list completion) p u : libusb_priv * U := fold_left complete l (p, u).

(** *** The operations *)

(** The loop of [tl_events] while streaming, over the rounds to come. *)
Fixpoint events_loop (l : list (Z * list completion)) p u : libusb_priv * U * bool :=
  match l with
  | [] => (on_env p (fun e => e <| rounds := [] |>), u, alive p)
  | (rc, cs) :: l =>
      if negb (alive p) then (on_env p (fun e => e <| rounds := (rc, cs) :: l |>), u, false)
      else
        let '(p, u) := handle_completions cs p u in
        if rc =? LIBUSB_ERROR_INTERRUPTED then events_loop l p u
        else
          let p := on_env p (fun e => e <| rounds := l |>) in
          if (rc <? 0) && negb (rc =? LIBUSB_ERROR_TIMEOUT) then (p <| alive := false |>, u, false)
          else (p, u, true)
  end.

Definition tl_events p u (timeout_ms : Z) : libusb_priv * U * bool :=
  if negb (alive p) then (p, u, false)
  else if negb (streams_up p) then
    let '(rc, data, cs, p) := next_read p in
    let data := take (Z.to_nat SYNC_BUF_SIZE) data in
    let '(p, u) := handle_completions cs p u in
    let fed := if (0 <? length data)%nat then feed data u else u in
    if rc =? LIBUSB_ERROR_TIMEOUT then (p, fed, true)
    else if rc =? LIBUSB_ERROR_NO_DEVICE then (p <| alive := false |>, u, false)
    else if rc <? 0 then (p <| alive := false |>, u, false)
    else (p, fed, true)
  else events_loop (rounds (env p)) p u.
End Client.

(** [tl_submit_in_pool]: one turn of its loop; the count is of the transfers armed. *)
Definition arm_one (pa : libusb_priv * nat) (i : nat) : libusb_priv * nat :=
  let '(p, armed) := pa in
  let p := p <| mem := <[i := blank_buffer]> (mem p) |> in
  let p := if (i =? 0)%nat then
             match spare p with None => p <| spare := Some TRANSFER_COUNT |> | Some _ => p end else p in
  let '(rc, p) := next_submit p in
  if rc <? 0 then (p <| in_pool := <[i := None]> (in_pool p) |>, armed)
  else (submit_in p i (mk_in i false), S armed).

Definition tl_submit_in_pool p : libusb_priv :=
  if negb (handle p) || streams_up p then p
  else
    let '(p, armed) := fold_left arm_one (seq 0 TRANSFER_COUNT) (p, 0%nat) in
    if (armed =? 0)%nat then p <| exited := true |> <| alive := false |>
    else p <| streams_up := true |>.

(** The scan of [tl_open_handle]: the first gen2 device that opens. *)
Fixpoint first_gen2 (l : list (option descriptor * Z)) : bool :=
  match l with
  | [] => false
  | (Some d, rc) :: l =>
      if device_is_gen2 (idVendor d) (idProduct d) (bcdDevice d)
      then if rc <? 0 then first_gen2 l else true
      else first_gen2 l
  | (None, _) :: l => first_gen2 l
  end.

(** Its attempts: the handle found, [None] where the list cannot be read. *)
Fixpoint open_attempts (n : nat) p : option bool * libusb_priv :=
  match n with
  | O => (Some false, p)
  | S n =>
      let '(r, l) := pop (inr []) (scans (env p)) in
      let p := on_env p (fun e => e <| scans := l |>) in
      match r with
      | inl _ => (None, p)
      | inr devices => if first_gen2 devices then (Some true, p) else open_attempts n p
      end
  end.

Definition tl_open_handle p : libusb_priv * bool :=
  match open_attempts 50 p with
  | (Some true, p) =>
      let p := p <| handle := true |> <| cmd_buf := true |> in
      let '(rc, l) := pop 0 (claims (env p)) in
      let p := on_env p (fun e => e <| claims := l |>) in
      if rc <? 0 then (p <| cmd_buf := false |> <| handle := false |>, false) else (p, true)
  | (_, p) => (p, false)
  end.

(** The event loop while the pools are torn down or probed: the callbacks run, nothing is fed. *)
Definition drain_round p : libusb_priv :=
  let '(_, cs, p) := next_round p in fst (handle_completions (U := list (list Z)) cs p []).

Definition tl_teardown_io p : libusb_priv :=
  let p := p <| closing := true |> in
  let p := Nat.iter 50 drain_round p in
  p <| in_pool := replicate TRANSFER_COUNT None |>
    <| out_pool := map (fun s => mk_out false false (o_data s)) (out_pool p) |>
    <| cmd_buf := false |> <| streams_up := false |>.

Definition tl_open p : libusb_priv * bool :=
  let '(rc, l) := pop 0 (inits (env p)) in
  let p := on_env p (fun e => e <| inits := l |>) in
  if rc <? 0 then (p <| exited := true |>, false)
  else
    let '(p, ok) := tl_open_handle p in
    if ok then (p <| alive := true |>, true) else (p <| exited := true |>, false).

Definition tl_reset_device p : libusb_priv * bool :=
  if negb (handle p) || streams_up p then (p, false)
  else
    let '(_, p) := next_control p in
    let p := tl_teardown_io p in
    let p := p <| handle := false |> <| closing := false |> <| alive := false |> in
    let '(p, ok) := tl_open_handle p in
    if ok then (p <| alive := true |>, true) else (p, false).

(** The reads of [tl_discard]. *)
Fixpoint discard_loop (n : nat) p : libusb_priv :=
  match n with
  | O => p
  | S n =>
      let '(rc, _, cs, p) := next_read p in
      let p := fst (handle_completions (U := list (list Z)) cs p []) in
      if rc =? LIBUSB_ERROR_TIMEOUT then p
      else if rc =? LIBUSB_ERROR_NO_DEVICE then p <| alive := false |>
      else discard_loop n p
  end.

Definition tl_discard p : libusb_priv := if negb (handle p) then p else discard_loop 50 p.

Definition tl_stream_mode p : libusb_priv := tl_submit_in_pool p.

(** The first slot of the OUT pool that is not busy. *)
Fixpoint free_slot (l : list out_slot) (k : nat) : option nat :=
  match l with
  | [] => None
  | s :: l => if busy s then free_slot l (S k) else Some k
  end.

Definition tl_write p (data : list Z) : libusb_priv * Z :=
  if OUT_PACKET_MAX <? Z.of_nat (length data) then (p <| exited := true |> <| alive := false |>, -1)
  else match free_slot (out_pool p) 0 with
  | None => (p, -1)
  | Some k =>
      let p := p <| out_pool := <[k := mk_out true true data]> (out_pool p) |> in
      let '(rc, p) := next_submit p in
      if rc <? 0 then (p <| out_pool := <[k := mk_out false true data]> (out_pool p) |>, rc)
      else (p <| wire := wire p ++ [data] |>, 0)
  end.

(** The probe's own transfers, those the driver has, and the bytes counted. *)
Record probe_ctx := mk_probe { p_flight : list bool; p_bytes : Z; p_stop : bool }.

Definition probe_callback (pc : probe_ctx) (i : nat) (st : status) (len submit : Z) : probe_ctx :=
  let pc := mk_probe (<[i := false]> (p_flight pc)) (p_bytes pc) (p_stop pc) in
  let pc := match st with COMPLETED => mk_probe (p_flight pc) (p_bytes pc + len) (p_stop pc) | _ => pc end in
  match st with
  | CANCELLED => pc
  | _ =>
      if p_stop pc then pc
      else if submit <? 0 then pc
      else mk_probe (<[i := true]> (p_flight pc)) (p_bytes pc) (p_stop pc)
  end.

Definition probe_complete (pp : libusb_priv * probe_ctx) (c : completion) : libusb_priv * probe_ctx :=
  let '(p, pc) := pp in
  match c with
  | In i st data submit =>
      match p_flight pc !! i with
      | Some true => (p, probe_callback pc i st (Z.of_nat (length data)) submit)
      | _ => (p, pc)
      end
  | Out k st => (out_callback p k, pc)
  end.

Definition probe_round (pp : libusb_priv * probe_ctx) : libusb_priv * probe_ctx :=
  let '(_, cs, p) := next_round (fst pp) in fold_left probe_complete cs (p, snd pp).

(** The submissions, up to the first that fails. *)
Fixpoint probe_arm (n : nat) (i : nat) p (pc : probe_ctx) : libusb_priv * probe_ctx :=
  match n with
  | O => (p, pc)
  | S n =>
      let '(rc, p) := next_submit p in
      if rc <? 0 then (p, pc)
      else probe_arm n (S i) p (mk_probe (<[i := true]> (p_flight pc)) (p_bytes pc) (p_stop pc))
  end.

(** The window, on the readings of the clock. *)
Fixpoint probe_window (now : list Z) (deadline : Z) (pp : libusb_priv * probe_ctx) : list Z * (libusb_priv * probe_ctx) :=
  match now with
  | [] => ([], pp)
  | t :: now => if t <? deadline then probe_window now deadline (probe_round pp) else (now, pp)
  end.

Definition tl_probe_upstream p (window_ms : Z) : libusb_priv * Z :=
  if negb (handle p) then (p, -1)
  else
    let '(p, pc) := probe_arm PROBE_COUNT 0 p (mk_probe (replicate PROBE_COUNT false) 0 false) in
    let '(start, now) := pop 0 (clocks (env p)) in
    let '(now, (p, pc)) := probe_window now (start + window_ms) (p, pc) in
    let p := on_env p (fun e => e <| clocks := now |>) in
    let '(p, pc) := Nat.iter 50 probe_round (p, mk_probe (p_flight pc) (p_bytes pc) true) in
    (p, p_bytes pc).

Definition tl_alive p : bool := alive p.

Definition tl_close p : libusb_priv :=
  if handle p then
    let '(_, p) := next_control p in (tl_teardown_io p) <| handle := false |>
  else p.

Definition libusb_ops {U} `{FeedClient U} : transport_ops libusb_priv U :=
  mk_ops tl_open tl_discard tl_stream_mode tl_events tl_write tl_alive tl_close
    (Some tl_probe_upstream) (Some tl_reset_device).

Definition transport_libusb_new {U} `{FeedClient U} (e : script) : transport libusb_priv U :=
  mk_transport (libusb_new e) libusb_ops.
End Backend.

(** ** Who holds the buffers *)

(** Seventeen buffers; those of the transfers and the spare one are all different. *)
Record pool_ok (p : libusb_priv) : Prop := {
  po_mem : length (mem p) = S TRANSFER_COUNT;
  po_slot i s : in_pool p !! i = Some (Some s) -> (s_buf s < S TRANSFER_COUNT)%nat;
  po_spare b : spare p = Some b ->
    (b < S TRANSFER_COUNT)%nat /\ forall i s, in_pool p !! i = Some (Some s) -> s_buf s <> b;
  po_distinct i j s t : in_pool p !! i = Some (Some s) -> in_pool p !! j = Some (Some t) -> i <> j -> s_buf s <> s_buf t;
}.

(** The armed transfers are all with the driver. *)
Definition full (p : libusb_priv) : Prop := forall i s, in_pool p !! i = Some (Some s) -> s_flight s = true.

Lemma slot_after (l : list (option in_slot)) i x j s :
  <[i := Some x]> l !! j = Some (Some s) -> (j = i /\ s = x) \/ (j <> i /\ l !! j = Some (Some s)).
Proof.
  destruct (decide (j = i)) as [->|Hne].
  - destruct (decide (i < length l)%nat).
    + rewrite list_lookup_insert_eq by done. intros [= ->]. by left.
    + rewrite list_insert_ge by lia. intros E. apply lookup_lt_Some in E. lia.
  - rewrite list_lookup_insert_ne by done. by right.
Qed.

(** A transfer keeps its buffer. *)
Lemma pool_keep p q i s f :
  pool_ok p -> in_pool p !! i = Some (Some s) -> in_pool q = <[i := Some (mk_in (s_buf s) f)]> (in_pool p) ->
  spare q = spare p -> length (mem q) = length (mem p) -> pool_ok q.
Proof.
  intros [H1 H2 H3 H4] Hi Eq Es Em.
  assert (Hold : forall j t, in_pool q !! j = Some (Some t) -> exists t', in_pool p !! j = Some (Some t') /\ s_buf t = s_buf t').
  { intros j t. rewrite Eq. intros [[-> ->]|[_ E]]%slot_after; eauto. }
  constructor.
  - by rewrite Em.
  - intros j t (t' & E & ->)%Hold. eauto.
  - rewrite Es. intros b Hb. destruct (H3 b Hb) as [? Hf]. split; [done|].
    intros j t (t' & E & ->)%Hold. eauto.
  - intros j k t t' (x & Ex & ->)%Hold (y & Ey & ->)%Hold. eauto.
Qed.

(** A transfer changes its buffer with the spare one. *)
Lemma pool_swap p q i s o f :
  pool_ok p -> in_pool p !! i = Some (Some s) -> spare p = Some o ->
  in_pool q = <[i := Some (mk_in o f)]> (in_pool p) -> spare q = Some (s_buf s) ->
  length (mem q) = length (mem p) -> pool_ok q.
Proof.
  intros [H1 H2 H3 H4] Hi Ho Eq Es Em. destruct (H3 o Ho) as [Hlt Hf]. constructor.
  - by rewrite Em.
  - intros j t. rewrite Eq. intros [[-> ->]|[_ E]]%slot_after; eauto.
  - rewrite Es. intros b [= <-]. split; [eauto|]. intros j t. rewrite Eq.
    intros [[-> ->]|[Hne E]]%slot_after; [cbn; intros ->; by apply (Hf i s Hi)|].
    by apply (H4 j i).
  - intros j k t t'. rewrite Eq. intros [[-> ->]|[Hj E]]%slot_after [[-> ->]|[Hk E']]%slot_after Hne; try done.
    + cbn. intros ->. by apply (Hf k t' E').
    + cbn. by apply (Hf j t E).
    + by apply (H4 j k).
Qed.

Lemma pool_drop_spare p q : pool_ok p -> in_pool q = in_pool p -> spare q = None -> mem q = mem p -> pool_ok q.
Proof.
  intros [H1 H2 H3 H4] Ei Es Em. constructor; rewrite ?Ei, ?Es, ?Em; try done.
Qed.

Lemma pool_ext p q : pool_ok p -> in_pool q = in_pool p -> spare q = spare p -> mem q = mem p -> pool_ok q.
Proof. intros [H1 H2 H3 H4] Ei Es Em. constructor; rewrite ?Ei, ?Es, ?Em; done. Qed.

Lemma full_insert p q i s :
  full p -> in_pool q = <[i := Some (mk_in s true)]> (in_pool p) -> full q.
Proof. intros Hf E j t. rewrite E. intros [[-> ->]|[_ Ht]]%slot_after; [done|]. by apply (Hf j). Qed.

Lemma in_flight_Some p i s : in_flight p i = Some s -> in_pool p !! i = Some (Some s) /\ s_flight s = true.
Proof. unfold in_flight. destruct (in_pool p !! i) as [[t|]|]; try done. destruct (s_flight t) eqn:E; [|done]. by intros [= ->]. Qed.

(** ** What a completion delivers *)

Definition chunk (data : list Z) : list (list Z) := match data with [] => [] | _ => [data] end.

(** The bytes of a completion reach the client, except where the buffer was changed for the
    spare one and the driver does not take the transfer back. *)
Definition delivers (p : libusb_priv) (c : completion) : list (list Z) :=
  match c with
  | In i st data submit =>
      match in_flight p i with
      | Some _ =>
          if (Z.of_nat (length data) <=? TRANSFER_SIZE) && negb (closing p) then
            match st with
            | NO_DEVICE | CANCELLED => []
            | _ =>
                if match spare p with Some _ => Z.of_nat (length data) <? TRANSFER_SIZE | None => false end
                   && (submit <? 0)
                then [] else chunk data
            end
          else []
      | None => []
      end
  | Out _ _ => []
  end.

(** A transfer of the pool. *)
Definition is_armed (p : libusb_priv) (i : nat) : Prop := exists s, in_pool p !! i = Some (Some s).

Lemma armed_insert p q i s x j :
  in_pool p !! i = Some (Some s) -> in_pool q = <[i := Some x]> (in_pool p) -> is_armed p j -> is_armed q j.
Proof.
  intros Hi E [t Ht]. unfold is_armed. rewrite E. apply lookup_lt_Some in Hi.
  destruct (decide (j = i)) as [->|Hne]; [rewrite list_lookup_insert_eq by done; eauto|].
  rewrite list_lookup_insert_ne by done. eauto.
Qed.

(** A completion that ends no session: the transfer carries data and is taken back. *)
Definition settles (c : completion) : Prop :=
  match c with
  | In _ st _ submit => st <> NO_DEVICE /\ st <> CANCELLED /\ 0 <= submit
  | Out _ _ => True
  end.

Section Delivery.
Context (scribble : list Z -> list Z) {U : Type} `{FeedClient U}.
Implicit Type u : U.

Definition feed_all (ds : list (list Z)) u : U := fold_left (fun u d => feed d u) ds u.

Lemma feed_buffer_all p b data rest u :
  mem p !!! b = data ++ rest -> feed_buffer p b (Z.of_nat (length data)) u = feed_all (chunk data) u.
Proof.
  intros E. unfold feed_buffer. rewrite E, Nat2Z.id, take_app_length.
  destruct data as [|x data]; [done|]. by destruct (Z.ltb_spec 0 (Z.of_nat (length (x :: data)))); [|cbn in *; lia].
Qed.

(** Nothing but the buffers of the pool, the memory and the liveness changes. *)
Definition same_rest p q : Prop :=
  closing q = closing p /\ streams_up q = streams_up p /\ handle q = handle p /\ env q = env p
  /\ forall j, is_armed p j -> is_armed q j.

(** The callback of a transfer the driver has just given back. *)
Lemma given_back p i s data submit u :
  pool_ok p -> in_pool p !! i = Some (Some s) ->
  let p1 := complete_in p i s data in
  let b := mk_in (s_buf s) false in
  let len := Z.of_nat (length data) in
  let '(p', u') :=
    (let u := feed_buffer p1 (s_buf s) len u in
     if submit <? 0 then (p1 <| alive := false |>, u) else (submit_in scribble p1 i b, u)) in
  pool_ok p' /\ same_rest p p' /\ u' = feed_all (chunk data) u
  /\ (0 <= submit -> alive p' = alive p /\ (full p -> full p')).
Proof.
  intros Hp Hi. cbv zeta. pose proof (po_slot _ Hp i s Hi) as Hb. pose proof (po_mem _ Hp) as Hm.
  assert (Hpool : pool_ok (complete_in p i s data)).
  { apply (pool_keep p _ i s false); try done. cbn. by rewrite length_insert. }
  assert (Emem : mem (complete_in p i s data) !!! s_buf s = data ++ drop (length data) (mem p !!! s_buf s)).
  { cbn. rewrite list_lookup_total_insert_eq; [done|lia]. }
  assert (Efeed := feed_buffer_all _ _ _ _ u Emem).
  destruct (Z.ltb_spec submit 0) as [Hs|Hs].
  - split; [by apply (pool_ext _ _ Hpool)|]. split; [split_and!; try done; intros j; by eapply armed_insert|].
    split; [exact Efeed|lia].
  - assert (Epool : in_pool (submit_in scribble (complete_in p i s data) i (mk_in (s_buf s) false))
                    = <[i := Some (mk_in (s_buf s) true)]> (in_pool p)).
    { cbn. by rewrite list_insert_insert_eq. }
    split; [apply (pool_keep p _ i s true); [done|done|exact Epool|done|cbn; by rewrite !length_insert]|].
    split; [split_and!; try done; intros j; by eapply armed_insert|]. split; [exact Efeed|].
    intros _. split; [done|]. intros Hf. by apply (full_insert p _ i (s_buf s)).
Qed.

Lemma complete_spec p u c :
  pool_ok p ->
  let '(p', u') := complete scribble (p, u) c in
  pool_ok p' /\ same_rest p p' /\ u' = feed_all (delivers p c) u
  /\ (settles c -> closing p = false -> alive p' = alive p /\ (full p -> full p')).
Proof.
  intros Hp. unfold complete. destruct c as [i st data submit|k st].
  2: { unfold out_callback. destruct (out_pool p !! k); [|done]. split; [by apply (pool_ext p)|done]. }
  unfold delivers. destruct (in_flight p i) as [s|] eqn:Ef; [|done]. apply in_flight_Some in Ef as [Hi Hfl].
  destruct (Z.of_nat (length data) <=? TRANSFER_SIZE) eqn:El; cbn [andb]; [|done].
  pose proof (po_slot _ Hp i s Hi) as Hb. pose proof (po_mem _ Hp) as Hm.
  set (p1 := complete_in p i s data).
  assert (Hpool : pool_ok p1) by (apply (pool_keep p _ i s false); try done; cbn; by rewrite length_insert).
  unfold in_callback. change (closing p1) with (closing p). destruct (closing p) eqn:Ec; cbn [negb].
  { split; [done|]. split; [split_and!; try done; intros j; by eapply armed_insert|]. by split. }
  pose proof (given_back p i s data submit u Hp Hi) as Hback. cbv zeta in Hback. fold p1 in Hback.
  set (len := Z.of_nat (length data)) in *.
  assert (Hgo : let '(p', u') :=
      match spare p1 with
      | Some other =>
          if len <? TRANSFER_SIZE then
            let q := (set_slot p1 i (mk_in other false)) <| spare := Some (s_buf s) |> in
            if submit <? 0 then
              ((set_slot q i (mk_in (s_buf s) false)) <| alive := false |> <| spare := None |>, u)
            else
              let q := submit_in scribble q i (mk_in other false) in
              let u := feed_buffer q (s_buf s) len u in
              (q <| spare := Some (s_buf s) |>, u)
          else
            let u := feed_buffer p1 (s_buf s) len u in
            if submit <? 0 then (p1 <| alive := false |>, u) else (submit_in scribble p1 i (mk_in (s_buf s) false), u)
      | None =>
          let u := feed_buffer p1 (s_buf s) len u in
          if submit <? 0 then (p1 <| alive := false |>, u) else (submit_in scribble p1 i (mk_in (s_buf s) false), u)
      end in
    pool_ok p' /\ same_rest p p'
    /\ u' = feed_all (if match spare p with Some _ => len <? TRANSFER_SIZE | None => false end && (submit <? 0)
                      then [] else chunk data) u
    /\ (0 <= submit -> alive p' = alive p /\ (full p -> full p'))).
  2: { assert (Hset : forall q, (0 <= submit -> alive q = alive p /\ (full p -> full q)) ->
         (st <> NO_DEVICE /\ st <> CANCELLED /\ 0 <= submit -> false = false -> alive q = alive p /\ (full p -> full q)))
         by (intros q Hq (_ & _ & Hs) _; by apply Hq).
       revert Hgo. destruct (match spare p1 with Some _ => _ | None => _ end) as [q u']. intros (G1 & G2 & G3 & G4).
       destruct st; try (split_and!; [done|done|done|by apply Hset]);
         (split; [by apply (pool_ext p1)|]; split; [split_and!; try done; intros j; by eapply armed_insert|]; split; [done|]; by intros (? & ? & _)). }
  change (spare p1) with (spare p). destruct (spare p) as [o|] eqn:Eo; [destruct (len <? TRANSFER_SIZE)|]; cbn [andb].
  - destruct (po_spare _ Hp o Eo) as [Hol Hof]. cbv zeta. destruct (Z.ltb_spec submit 0) as [Hs|Hs].
    + assert (Epool : in_pool (((set_slot ((set_slot p1 i (mk_in o false)) <| spare := Some (s_buf s) |>) i (mk_in (s_buf s) false))
                          <| alive := false |> <| spare := None |>)) = in_pool p1) by (cbn; by rewrite !list_insert_insert_eq).
      split; [by apply (pool_drop_spare p1)|]. split; [|split; [done|lia]].
      split_and!; try done. intros j. unfold is_armed. rewrite Epool. by eapply armed_insert.
    + set (q := (set_slot p1 i (mk_in o false)) <| spare := Some (s_buf s) |>).
      assert (Emem : mem (submit_in scribble q i (mk_in o false)) !!! s_buf s = data ++ drop (length data) (mem p !!! s_buf s)).
      { cbn. rewrite list_lookup_total_insert_ne by (intros E; by apply (Hof i s Hi)).
        rewrite list_lookup_total_insert_eq; [done|lia]. }
      assert (Epool : in_pool (submit_in scribble q i (mk_in o false)) = <[i := Some (mk_in o true)]> (in_pool p))
        by (cbn; by rewrite !list_insert_insert_eq).
      split; [apply (pool_swap p _ i s o true); try done; cbn; by rewrite !length_insert|].
      split; [split_and!; try done; intros j; by eapply armed_insert|].
      split; [exact (feed_buffer_all _ _ _ _ u Emem)|]. intros _. split; [done|].
      intros Hf. by apply (full_insert p _ i o).
  - cbv zeta. destruct (submit <? 0); exact Hback.
  - cbv zeta. destruct (submit <? 0); exact Hback.
Qed.

(** A row of completions of armed transfers, none of which ends the session. *)
Definition usual (p : libusb_priv) (c : completion) : Prop :=
  settles c /\ match c with
               | In i _ data _ => is_armed p i /\ Z.of_nat (length data) <= TRANSFER_SIZE
               | Out _ _ => True
               end.
Definition carried (c : completion) : list (list Z) := match c with In _ _ data _ => chunk data | Out _ _ => [] end.

(** The pool at work. *)
Definition streaming (p : libusb_priv) : Prop :=
  pool_ok p /\ full p /\ alive p = true /\ streams_up p = true /\ closing p = false.

Lemma delivers_carried p c : streaming p -> usual p c -> delivers p c = carried c.
Proof.
  intros (_ & Hf & _ & _ & Hc) [Hset Hu]. destruct c as [i st data submit|k st]; [|done].
  destruct Hu as [[s Hs] Hlen], Hset as (Hn & Hca & Hsub). cbn [delivers carried].
  unfold in_flight. rewrite Hs, (Hf i s Hs), Hc.
  destruct (Z.leb_spec (Z.of_nat (length data)) TRANSFER_SIZE); [|lia]. cbn [andb negb].
  destruct (Z.ltb_spec submit 0); [lia|]. rewrite andb_false_r. by destruct st.
Qed.

Lemma handle_usual cs : forall p u, streaming p -> Forall (usual p) cs ->
  let '(q, u') := handle_completions scribble cs p u in
  streaming q /\ same_rest p q /\ u' = feed_all (concat (map carried cs)) u.
Proof.
  unfold handle_completions. induction cs as [|c cs IH]; intros p u Hp Hcs; [done|].
  apply Forall_cons_1 in Hcs as [Hc Hcs]. cbn [fold_left map concat].
  pose proof (complete_spec p u c ltac:(apply Hp)) as Hone. pose proof (delivers_carried p c Hp Hc) as Ed.
  destruct (complete scribble (p, u) c) as [p1 u1]. destruct Hone as (P1 & R1 & U1 & S1).
  destruct Hp as (_ & Hf & Ha & Hu & Hcl). destruct (S1 (proj1 Hc) Hcl) as [A1 F1].
  pose proof R1 as (C1 & U1' & H1 & E1 & M1).
  assert (Hp1 : streaming p1) by (split_and!; [done|by apply F1|congruence|congruence|congruence]).
  assert (Hcs1 : Forall (usual p1) cs).
  { eapply Forall_impl; [|exact Hcs]. intros c' [Hset Hx]. split; [done|]. destruct c' as [j ? ? ?|]; [|done].
    destruct Hx. split; [by apply M1|done]. }
  specialize (IH p1 u1 Hp1 Hcs1). destruct (fold_left _ cs (p1, u1)) as [q u']. destruct IH as (Q1 & Q2 & ->).
  destruct Q2 as (C2 & U2 & H2 & E2 & M2). split; [done|]. split; [split_and!; try congruence; auto|].
  subst u1. rewrite Ed. unfold feed_all. by rewrite fold_left_app.
Qed.

(** ** Arming the pool *)

Lemma arm_one_spec p armed i :
  (i < TRANSFER_COUNT)%nat -> length (mem p) = S TRANSFER_COUNT -> length (in_pool p) = TRANSFER_COUNT ->
  (forall j s, in_pool p !! j = Some (Some s) -> (j < i)%nat /\ s = mk_in j true) ->
  (forall b, spare p = Some b -> b = TRANSFER_COUNT) ->
  let '(q, armed') := arm_one scribble (p, armed) i in
  length (mem q) = S TRANSFER_COUNT /\ length (in_pool q) = TRANSFER_COUNT
  /\ (forall j s, in_pool q !! j = Some (Some s) -> (j < S i)%nat /\ s = mk_in j true)
  /\ (forall b, spare q = Some b -> b = TRANSFER_COUNT)
  /\ alive q = alive p /\ closing q = closing p.
Proof.
  intros Hi Hm Hl Hs Hsp. unfold arm_one. cbv zeta.
  set (p1 := if (i =? 0)%nat then _ else _).
  assert (H1 : length (mem p1) = S TRANSFER_COUNT /\ in_pool p1 = in_pool p
               /\ (forall b, spare p1 = Some b -> b = TRANSFER_COUNT) /\ alive p1 = alive p /\ closing p1 = closing p).
  { unfold p1. destruct (i =? 0)%nat; [destruct (spare _) eqn:E|]; cbn in *; rewrite length_insert; split_and!;
      first [done | by intros b [= <-] | intros b Hb; apply Hsp; congruence]. }
  clearbody p1. destruct H1 as (M1 & I1 & S1 & A1 & C1). unfold next_submit.
  destruct (pop 0 (submits (env p1))) as [rc l]. destruct (rc <? 0); cbn; rewrite ?length_insert, I1; split_and!; try done.
  - intros j s. destruct (decide (j = i)) as [->|Hne].
    + rewrite list_lookup_insert_eq by lia. done.
    + rewrite list_lookup_insert_ne by done. intros E. destruct (Hs j s E). split; [lia|done].
  - intros j s [[-> ->]|[Hne E]]%slot_after; [split; [lia|done]|]. destruct (Hs j s E). split; [lia|done].
Qed.

Lemma arm_all n p armed :
  (n <= TRANSFER_COUNT)%nat -> length (mem p) = S TRANSFER_COUNT -> in_pool p = replicate TRANSFER_COUNT None -> spare p = None ->
  let '(q, armed') := fold_left (arm_one scribble) (seq 0 n) (p, armed) in
  length (mem q) = S TRANSFER_COUNT /\ length (in_pool q) = TRANSFER_COUNT
  /\ (forall j s, in_pool q !! j = Some (Some s) -> (j < n)%nat /\ s = mk_in j true)
  /\ (forall b, spare q = Some b -> b = TRANSFER_COUNT)
  /\ alive q = alive p /\ closing q = closing p.
Proof.
  intros Hn Hm Hi Hs. induction n as [|n IH].
  - cbn. rewrite Hi, Hs. split_and!; try done. intros j s E. apply lookup_replicate in E as [E _]. done.
  - rewrite seq_S, fold_left_app. specialize (IH ltac:(lia)). cbn [Nat.add fold_left].
    destruct (fold_left (arm_one scribble) (seq 0 n) (p, armed)) as [q a]. destruct IH as (Q1 & Q2 & Q3 & Q4 & Q5 & Q6).
    pose proof (arm_one_spec q a n ltac:(lia) Q1 Q2 Q3 Q4) as Hone.
    destruct (arm_one scribble (q, a) n) as [r a']. destruct Hone as (R1 & R2 & R3 & R4 & R5 & R6).
    split_and!; try done; congruence.
Qed.

(** An open device before the data phase. *)
Definition ready (p : libusb_priv) : Prop :=
  handle p = true /\ alive p = true /\ streams_up p = false /\ closing p = false
  /\ length (mem p) = S TRANSFER_COUNT /\ in_pool p = replicate TRANSFER_COUNT None /\ spare p = None.

Lemma streams_start p : ready p -> exited (tl_stream_mode scribble p) = false -> streaming (tl_stream_mode scribble p).
Proof.
  intros (Hh & Ha & Hu & Hc & Hm & Hi & Hs). unfold tl_stream_mode, tl_submit_in_pool. rewrite Hh, Hu. cbn [negb orb].
  pose proof (arm_all TRANSFER_COUNT p 0 ltac:(lia) Hm Hi Hs) as Harm.
  destruct (fold_left (arm_one scribble) _ _) as [q armed]. destruct Harm as (Q1 & Q2 & Q3 & Q4 & Q5 & Q6).
  destruct (armed =? 0)%nat; [done|]. intros _. split_and!; cbn; try congruence.
  - constructor; cbn; try done.
    + intros i s E. destruct (Q3 i s E) as [? ->]. cbn. lia.
    + intros b E. rewrite (Q4 b E). split; [lia|]. intros i s Ei. destruct (Q3 i s Ei) as [? ->]. cbn. lia.
    + intros i j s t Ei Ej Hne. destruct (Q3 i s Ei) as [_ ->], (Q3 j t Ej) as [_ ->]. exact Hne.
  - intros i s E. by destruct (Q3 i s E) as [_ ->].
Qed.

Lemma streaming_env p f : streaming p -> streaming (on_env p f).
Proof. intros (Hp & Hrest). split; [by apply (pool_ext p)|exact Hrest]. Qed.

Lemma events_loop_spec rc cs l : 0 <= rc \/ rc = LIBUSB_ERROR_TIMEOUT -> forall ks p u,
  streaming p -> Forall (usual p) (concat ks ++ cs) ->
  let '(q, u', more) := events_loop scribble (map (fun k => (LIBUSB_ERROR_INTERRUPTED, k)) ks ++ (rc, cs) :: l) p u in
  more = true /\ streaming q /\ rounds (env q) = l /\ u' = feed_all (concat (map carried (concat ks ++ cs))) u.
Proof.
  intros Hrc. induction ks as [|k ks IH]; intros p u Hp Hcs; pose proof Hp as (_ & _ & Ha & _); cbn [map app events_loop concat].
  - rewrite Ha. cbn [negb]. pose proof (handle_usual cs p u Hp Hcs) as Hh.
    destruct (handle_completions scribble cs p u) as [q u']. destruct Hh as (Q1 & Q2 & ->).
    destruct (Z.eqb_spec rc LIBUSB_ERROR_INTERRUPTED) as [->|_]; [unfold LIBUSB_ERROR_INTERRUPTED, LIBUSB_ERROR_TIMEOUT in Hrc; lia|].
    replace ((rc <? 0) && negb (rc =? LIBUSB_ERROR_TIMEOUT)) with false.
    2: { symmetry. destruct Hrc as [H0| ->]; [|done]. by destruct (Z.ltb_spec rc 0); [lia|]. }
    split; [done|]. split; [by apply streaming_env|]. done.
  - rewrite Ha. cbn [negb]. cbn [concat] in Hcs. rewrite <- app_assoc in Hcs. apply Forall_app in Hcs as [Hk Hcs].
    pose proof (handle_usual k p u Hp Hk) as Hh.
    destruct (handle_completions scribble k p u) as [q u']. destruct Hh as (Q1 & Q2 & ->).
    rewrite Z.eqb_refl. specialize (IH q (feed_all (concat (map carried k)) u) Q1).
    destruct Q2 as (_ & _ & _ & _ & M).
    assert (Hcs' : Forall (usual q) (concat ks ++ cs)).
    { eapply Forall_impl; [|exact Hcs]. intros c' [Hset Hx]. split; [done|]. destruct c' as [j ? ? ?|]; [|done].
      destruct Hx. split; [by apply M|done]. }
    specialize (IH Hcs'). destruct (events_loop scribble _ q _) as [[r u''] more].
    destruct IH as (I1 & I2 & I3 & ->). split_and!; try done.
    rewrite <- app_assoc, (map_app carried k), concat_app. unfold feed_all. by rewrite fold_left_app.
Qed.


(** Arming leaves the script of the event loop as it is. *)
Lemma arm_rounds l p a : rounds (env (fold_left (arm_one scribble) l (p, a)).1) = rounds (env p).
Proof.
  revert p a. induction l as [|i l IH]; intros p a; [done|]. cbn [fold_left].
  assert (E : rounds (env (arm_one scribble (p, a) i).1) = rounds (env p)).
  { unfold arm_one. cbv zeta. set (p1 := if (i =? 0)%nat then _ else _).
    assert (E1 : rounds (env p1) = rounds (env p)) by (unfold p1; destruct (i =? 0)%nat; [destruct (spare _)|]; done).
    clearbody p1. unfold next_submit. destruct (pop 0 (submits (env p1))) as [rc l']. by destruct (rc <? 0). }
  destruct (arm_one scribble (p, a) i) as [q b]. cbn [fst] in E. by rewrite IH.
Qed.

Lemma stream_rounds p : rounds (env (tl_stream_mode scribble p)) = rounds (env p).
Proof.
  unfold tl_stream_mode, tl_submit_in_pool. destruct (_ || _); [done|].
  pose proof (arm_rounds (seq 0 TRANSFER_COUNT) p 0) as E. destruct (fold_left _ _ _) as [q n]. cbn [fst] in E.
  by destruct (n =? 0)%nat.
Qed.
End Delivery.

(** ** Three transfers, two of them the same one *)

Definition junk (l : list Z) : list Z := [0xde; 0xad].
Definition demo_script (submit : Z) : script :=
  mk_script [] [] [] [] []
    [(LIBUSB_ERROR_INTERRUPTED, []);
     (0, [In 3 COMPLETED [1; 2] 0; In 0 TIMED_OUT [3] 0; In 3 COMPLETED [4] submit])] [] [].
Definition demo_ready (submit : Z) : libusb_priv :=
  mk_libusb true (replicate TRANSFER_COUNT None) None (replicate (S TRANSFER_COUNT) []) out_init
    true true false false [] (demo_script submit) false.

Lemma demo_is_ready submit : ready (demo_ready submit).
Proof. by split_and!. Qed.

Lemma demo_usual : Forall (usual (tl_stream_mode junk (demo_ready 0)))
  [In 3 COMPLETED [1; 2] 0; In 0 TIMED_OUT [3] 0; In 3 COMPLETED [4] 0].
Proof.
  repeat (apply Forall_cons_2; [split; [split_and!; [done|done|lia]|split; [by eexists|unfold TRANSFER_SIZE; cbn; lia]]|]).
  apply Forall_nil_2.
Qed.


(** When the driver refuses a transfer that was given the spare buffer, the bytes it had
    received are dropped. *)
Example refused_transfer_loses p i s data submit :
  in_flight p i = Some s -> closing p = false -> is_Some (spare p) ->
  Z.of_nat (length data) < TRANSFER_SIZE -> submit < 0 -> delivers p (In i COMPLETED data submit) = [].
Proof.
  intros Hi Hc [b Hb] Hl Hs. unfold delivers. rewrite Hi, Hc, Hb.
  destruct (Z.leb_spec (Z.of_nat (length data)) TRANSFER_SIZE); [|lia]. cbn [andb negb].
  destruct (Z.ltb_spec (Z.of_nat (length data)) TRANSFER_SIZE); [|lia]. by destruct (Z.ltb_spec submit 0); [|lia].
Qed.
