(* ===== verification/LibusbSession.v ===== *)
(** * Live sessions of the second generation

    The libusb backend touches its client only by feeding it bytes, so it is a transport in the
    sense of SessionSafe.v, and the guarantees of a session hold for live captures: whatever
    libusb answers, whenever and in whichever order it completes the transfers. *)

From Stdlib Require Import String.
From S2P Require Import Prelude Uhsif Stream Pcapng Format Device Transport Cmd Packet Session SessionSafe.
From S2P Require Import PacketFrames ReplaySession SessionFile SessionReturns Libusb.
Local Open Scope list_scope.

(** ** The bytes of a script *)

Definition completion_bytes (c : completion) : Prop := match c with In _ _ data _ => bytes_ok data | Out _ _ => True end.

Record script_bytes (e : script) : Prop := {
  sb_reads : Forall (fun r => bytes_ok r.1.2 /\ Forall completion_bytes r.2) (reads e);
  sb_rounds : Forall (fun r => Forall completion_bytes r.2) (rounds e);
}.

(** The script holds bytes, and so do the buffers. *)
Definition libusb_bytes (p : libusb_priv) : Prop := script_bytes (env p) /\ Forall (fun l => bytes_ok l) (mem p).

Section Bytes.
Context (scribble : list Z -> list Z).
Context (scribble_bytes : forall l, bytes_ok l -> bytes_ok (scribble l)).
Implicit Type p : libusb_priv.

Lemma buffer_bytes p b : Forall (fun l => bytes_ok l) (mem p) -> bytes_ok (mem p !!! b).
Proof.
  intros Hm. rewrite list_lookup_total_alt. destruct (mem p !! b) as [l|] eqn:E; [|constructor].
  cbn. eapply Forall_lookup_1 in E; [|exact Hm]. exact E.
Qed.

Lemma submit_bytes p i s : libusb_bytes p -> libusb_bytes (submit_in scribble p i s).
Proof. intros [He Hm]. split; [done|]. cbn. apply Forall_insert; [done|]. by apply scribble_bytes, buffer_bytes. Qed.

Lemma given_bytes p i s data : libusb_bytes p -> bytes_ok data -> libusb_bytes (complete_in p i s data).
Proof.
  intros [He Hm] Hd. split; [done|]. cbn. apply Forall_insert; [done|]. apply Forall_app_2; [done|].
  by apply bytes_ok_drop, buffer_bytes.
Qed.

Lemma same_bytes p q : env q = env p -> mem q = mem p -> libusb_bytes p -> libusb_bytes q.
Proof. unfold libusb_bytes. by intros -> ->. Qed.

(** A client fed byte strings and nothing else. *)
Definition fed {U} `{FeedClient U} (u u' : U) : Prop :=
  exists ds, Forall (fun d => bytes_ok d) ds /\ u' = fold_left (fun u d => feed d u) ds u.

Section Client.
Context {U : Type} `{FeedClient U}.
Implicit Type u : U.

Lemma fed_none u : fed u u.
Proof. by exists []. Qed.
Lemma fed_one u d : bytes_ok d -> fed u (feed d u).
Proof. intros Hd. exists [d]. split; [by constructor|done]. Qed.
Lemma fed_trans u v w : fed u v -> fed v w -> fed u w.
Proof.
  intros (ds & Hd & ->) (es & He & ->). exists (ds ++ es). split; [by apply Forall_app_2|]. by rewrite fold_left_app.
Qed.

Lemma fed_buffer p b len u : libusb_bytes p -> fed u (feed_buffer p b len u).
Proof.
  intros [_ Hm]. unfold feed_buffer. destruct (0 <? len); [|apply fed_none].
  apply fed_one. by apply bytes_ok_take, buffer_bytes.
Qed.

Lemma callback_bytes p u i s st len submit :
  libusb_bytes p ->
  libusb_bytes (in_callback scribble p u i s st len submit).1 /\ fed u (in_callback scribble p u i s st len submit).2.
Proof.
  intros Hp. unfold in_callback. destruct (closing p); [split; [done|apply fed_none]|].
  assert (Hplain : forall r : libusb_priv * U,
    (r = let u := feed_buffer p (s_buf s) len u in
         if submit <? 0 then (p <| alive := false |>, u) else (submit_in scribble p i s, u)) ->
    libusb_bytes r.1 /\ fed u r.2).
  { intros r ->. cbv zeta. destruct (submit <? 0); cbn [fst snd]; (split; [|by apply fed_buffer]).
    - by apply (same_bytes p).
    - by apply submit_bytes. }
  destruct st; try (split; [by apply (same_bytes p)|apply fed_none]);
    (destruct (spare p) as [o|]; [destruct (len <? TRANSFER_SIZE)|]; [|by apply Hplain|by apply Hplain]);
    cbv zeta; (destruct (submit <? 0); cbn [fst snd]; [split; [by apply (same_bytes p)|apply fed_none]|]);
    set (q := submit_in scribble _ i _);
    assert (Hq : libusb_bytes q) by (apply submit_bytes; by apply (same_bytes p));
    (split; [by apply (same_bytes q)|by apply fed_buffer]).
Qed.

Lemma complete_bytes p u c :
  libusb_bytes p -> completion_bytes c ->
  libusb_bytes (complete scribble (p, u) c).1 /\ fed u (complete scribble (p, u) c).2.
Proof.
  intros Hp Hc. unfold complete. destruct c as [i st data submit|k st].
  - destruct (in_flight p i) as [s|]; [|split; [done|apply fed_none]].
    destruct (_ <=? _); [|split; [done|apply fed_none]]. apply callback_bytes. by apply given_bytes.
  - split; [|apply fed_none]. unfold out_callback. cbn [fst]. destruct (out_pool p !! k); [by apply (same_bytes p)|done].
Qed.

Lemma completions_bytes cs : forall p u,
  libusb_bytes p -> Forall completion_bytes cs ->
  libusb_bytes (handle_completions scribble cs p u).1 /\ fed u (handle_completions scribble cs p u).2.
Proof.
  unfold handle_completions. induction cs as [|c cs IH]; intros p u Hp Hcs; [split; [done|apply fed_none]|].
  apply Forall_cons_1 in Hcs as [Hc Hcs]. cbn [fold_left]. destruct (complete_bytes p u c Hp Hc) as [P1 F1].
  destruct (complete scribble (p, u) c) as [q v]. cbn [fst snd] in *. destruct (IH q v P1 Hcs) as [P2 F2].
  split; [done|by eapply fed_trans].
Qed.
End Client.

(** ** The operations keep the script and the buffers bytes *)

Lemma env_bytes p f : script_bytes (f (env p)) -> libusb_bytes p -> libusb_bytes (on_env p f).
Proof. intros Hf [_ Hm]. by split. Qed.

Lemma env_same p f : reads (f (env p)) = reads (env p) -> rounds (f (env p)) = rounds (env p) ->
  libusb_bytes p -> libusb_bytes (on_env p f).
Proof. intros E1 E2 Hp. apply env_bytes; [|done]. destruct (proj1 Hp) as [R1 R2]. split; by rewrite ?E1, ?E2. Qed.

Lemma pop_Forall {A} (P : A -> Prop) d l : P d -> Forall P l -> P (pop d l).1 /\ Forall P (pop d l).2.
Proof. intros Hd Hl. by destruct Hl. Qed.

Lemma next_submit_bytes p : libusb_bytes p -> libusb_bytes (next_submit p).2.
Proof. intros Hp. unfold next_submit. destruct (pop 0 _) as [rc l]. by apply env_same. Qed.
Lemma next_control_bytes p : libusb_bytes p -> libusb_bytes (next_control p).2.
Proof. intros Hp. unfold next_control. destruct (pop 0 _) as [rc l]. by apply env_same. Qed.

Lemma next_round_bytes p :
  libusb_bytes p -> Forall completion_bytes (next_round p).1.2 /\ libusb_bytes (next_round p).2.
Proof.
  intros Hp. unfold next_round. pose proof (proj1 Hp) as [R1 R2].
  pose proof (pop_Forall _ (0, []) _ (Forall_nil_2 _) R2) as [P1 P2].
  destruct (pop _ _) as [r l]. cbn [fst snd] in *. destruct r as [rc cs]. split; [done|]. by apply env_bytes.
Qed.

Lemma next_read_bytes p :
  libusb_bytes p ->
  bytes_ok (next_read p).1.1.2 /\ Forall completion_bytes (next_read p).1.2 /\ libusb_bytes (next_read p).2.
Proof.
  intros Hp. unfold next_read. pose proof (proj1 Hp) as [R1 R2].
  assert (H0 : bytes_ok (LIBUSB_ERROR_TIMEOUT, [] : list Z, [] : list completion).1.2
               /\ Forall completion_bytes (LIBUSB_ERROR_TIMEOUT, [] : list Z, [] : list completion).2)
    by (split; apply Forall_nil_2).
  pose proof (pop_Forall _ _ _ H0 R1) as [P1 P2]. clear H0.
  destruct (pop _ _) as [r l]. cbn [fst snd] in *. destruct r as [[rc d] cs]. destruct P1.
  split_and!; [done|done|]. by apply env_bytes.
Qed.

Lemma drain_bytes p : libusb_bytes p -> libusb_bytes (drain_round scribble p).
Proof.
  intros Hp. unfold drain_round. pose proof (next_round_bytes p Hp) as [Hc Hq].
  destruct (next_round p) as [[rc cs] q]. cbn [fst snd] in *. by apply completions_bytes.
Qed.

Lemma teardown_bytes p : libusb_bytes p -> libusb_bytes (tl_teardown_io scribble p).
Proof.
  intros Hp. unfold tl_teardown_io. cbv zeta.
  assert (Hi : forall n q, libusb_bytes q -> libusb_bytes (Nat.iter n (drain_round scribble) q)).
  { induction n; [done|]. intros q Hq. apply drain_bytes. by apply IHn. }
  match goal with |- context [Nat.iter ?n (drain_round _) ?q] => specialize (Hi n q); set (r := Nat.iter n (drain_round scribble) q) in * end.
  apply (same_bytes r); [done|done|]. apply Hi. by apply (same_bytes p).
Qed.

Lemma attempts_bytes n : forall p, libusb_bytes p -> libusb_bytes (open_attempts n p).2.
Proof.
  induction n as [|n IH]; intros p Hp; cbn [open_attempts]; [done|]. destruct (pop (inr []) _) as [r l].
  assert (Hq : libusb_bytes (on_env p (fun e => e <| scans := l |>))) by by apply env_same.
  destruct r as [|ds]; [done|]. destruct (first_gen2 ds); [done|by apply IH].
Qed.

Lemma handle_bytes p : libusb_bytes p -> libusb_bytes (tl_open_handle p).1.
Proof.
  intros Hp. unfold tl_open_handle. pose proof (attempts_bytes 50 p Hp) as Hq.
  destruct (open_attempts 50 p) as [r q]. cbn [snd] in Hq. destruct r as [[]|]; [|done|done]. cbv zeta.
  destruct (pop 0 _) as [rc l]. destruct (rc <? 0); cbn [fst].
  - match goal with |- libusb_bytes ?x => apply (same_bytes (on_env q (fun e => e <| claims := l |>))) end; try done.
    by apply env_same.
  - match goal with |- libusb_bytes ?x => apply (same_bytes (on_env q (fun e => e <| claims := l |>))) end; try done.
    by apply env_same.
Qed.

Lemma open_bytes p : libusb_bytes p -> libusb_bytes (tl_open p).1.
Proof.
  intros Hp. unfold tl_open. destruct (pop 0 _) as [rc l].
  set (q := on_env p _). assert (Hq : libusb_bytes q) by by apply env_same.
  destruct (rc <? 0); cbn [fst]; [by apply (same_bytes q)|].
  pose proof (handle_bytes q Hq) as Hr. destruct (tl_open_handle q) as [r ok]. cbn [fst] in Hr.
  destruct ok; by apply (same_bytes r).
Qed.

Lemma reset_bytes p : libusb_bytes p -> libusb_bytes (tl_reset_device scribble p).1.
Proof.
  intros Hp. unfold tl_reset_device. destruct (_ || _); [done|].
  pose proof (next_control_bytes p Hp) as Hq. destruct (next_control p) as [rc q]. cbn [snd] in Hq. cbv zeta.
  pose proof (teardown_bytes q Hq) as Ht. revert Ht. generalize (tl_teardown_io scribble q). intros t Ht.
  assert (H0 : libusb_bytes (t <| handle := false |> <| closing := false |> <| alive := false |>)) by by apply (same_bytes t).
  apply handle_bytes in H0. destruct (tl_open_handle _) as [r ok].
  destruct ok; [by apply (same_bytes r)|done].
Qed.

Lemma discard_bytes n : forall p, libusb_bytes p -> libusb_bytes (discard_loop scribble n p).
Proof.
  induction n as [|n IH]; intros p Hp; cbn [discard_loop]; [done|].
  pose proof (next_read_bytes p Hp) as (_ & Hc & Hq). destruct (next_read p) as [[[rc d] cs] q]. cbn [fst snd] in *. cbv zeta.
  pose proof (completions_bytes (U := list (list Z)) cs q [] Hq Hc) as [Hr _].
  destruct (rc =? LIBUSB_ERROR_TIMEOUT); [done|].
  destruct (rc =? LIBUSB_ERROR_NO_DEVICE); [by eapply same_bytes, Hr|by apply IH].
Qed.

Lemma arm_bytes l : forall p a, libusb_bytes p -> libusb_bytes (fold_left (arm_one scribble) l (p, a)).1.
Proof.
  induction l as [|i l IH]; intros p a Hp; [done|]. cbn [fold_left].
  assert (H1 : libusb_bytes (arm_one scribble (p, a) i).1).
  { unfold arm_one. cbv zeta. set (p1 := if (i =? 0)%nat then _ else _).
    assert (H1 : libusb_bytes p1).
    { destruct Hp as [He Hm]. assert (Hb : Forall (fun l => bytes_ok l) (<[i := blank_buffer]> (mem p))).
      { apply Forall_insert; [done|]. unfold blank_buffer. apply Forall_replicate. lia. }
      unfold p1. destruct (i =? 0)%nat; [destruct (spare _)|]; by split. }
    clearbody p1. pose proof (next_submit_bytes p1 H1) as Hq. destruct (next_submit p1) as [rc q]. cbn [snd] in Hq.
    destruct (rc <? 0); [by apply (same_bytes q)|by apply submit_bytes]. }
  destruct (arm_one scribble (p, a) i) as [q b]. cbn [fst] in H1. by apply IH.
Qed.

Lemma stream_keeps_bytes p : libusb_bytes p -> libusb_bytes (tl_stream_mode scribble p).
Proof.
  intros Hp. unfold tl_stream_mode, tl_submit_in_pool. destruct (_ || _); [done|].
  pose proof (arm_bytes (List.seq 0 TRANSFER_COUNT) p 0%nat Hp) as Hq. destruct (fold_left _ _ _) as [q n]. cbn [fst] in Hq.
  destruct (n =? 0)%nat; by apply (same_bytes q).
Qed.

Lemma write_bytes p d : libusb_bytes p -> libusb_bytes (tl_write p d).1.
Proof.
  intros Hp. unfold tl_write. destruct (_ <? _); [by apply (same_bytes p)|].
  destruct (free_slot _ _) as [k|]; [|done]. cbv zeta.
  match goal with |- context [next_submit ?x] => pose proof (next_submit_bytes x) as Hq; destruct (next_submit x) as [rc q] end.
  cbn [snd] in Hq. specialize (Hq ltac:(by apply (same_bytes p))). destruct (rc <? 0); by apply (same_bytes q).
Qed.

Lemma probe_round_bytes pp : libusb_bytes pp.1 -> libusb_bytes (probe_round pp).1.
Proof.
  intros Hp. unfold probe_round. pose proof (next_round_bytes pp.1 Hp) as [_ Hq].
  destruct (next_round pp.1) as [[rc cs] q]. cbn [fst snd] in *. generalize (pp.2). clear pp Hp rc.
  revert q Hq. induction cs as [|c cs IH]; intros q Hq pc; [done|]. cbn [fold_left].
  assert (H1 : libusb_bytes (probe_complete (q, pc) c).1).
  { unfold probe_complete. destruct c as [i st d s|k st].
    - destruct (p_flight pc !! i) as [[]|]; done.
    - cbn [fst]. unfold out_callback. destruct (out_pool q !! k); [by apply (same_bytes q)|done]. }
  destruct (probe_complete (q, pc) c) as [r pc']. by apply IH.
Qed.

Lemma probe_arm_bytes n : forall i p pc, libusb_bytes p -> libusb_bytes (probe_arm n i p pc).1.
Proof.
  induction n as [|n IH]; intros i p pc Hp; cbn [probe_arm]; [done|].
  pose proof (next_submit_bytes p Hp) as Hq. destruct (next_submit p) as [rc q]. cbn [snd] in Hq.
  destruct (rc <? 0); [done|by apply IH].
Qed.

Lemma probe_window_bytes now d : forall pp, libusb_bytes pp.1 -> libusb_bytes (probe_window now d pp).2.1.
Proof.
  induction now as [|t now IH]; intros pp Hp; cbn [probe_window]; [done|].
  destruct (t <? d); [by apply IH, probe_round_bytes|done].
Qed.

Lemma probe_bytes p ms : libusb_bytes p -> libusb_bytes (tl_probe_upstream p ms).1.
Proof.
  intros Hp. unfold tl_probe_upstream. destruct (handle p); cbn [negb]; [|done].
  match goal with |- context [probe_arm ?n ?i p ?c] => pose proof (probe_arm_bytes n i p c Hp) as H1; destruct (probe_arm n i p c) as [q pc] end.
  cbn [fst] in H1. destruct (pop 0 _) as [start now].
  match goal with |- context [probe_window ?n ?d ?x] => pose proof (probe_window_bytes n d x H1) as H2; destruct (probe_window n d x) as [now' [r pc']] end.
  cbn [fst snd] in H2. cbv zeta.
  assert (Hi : forall n pp, libusb_bytes pp.1 -> libusb_bytes (Nat.iter n probe_round pp).1).
  { induction n; [done|]. intros pp Hpp. apply probe_round_bytes. by apply IHn. }
  match goal with |- context [Nat.iter ?n probe_round ?x] => specialize (Hi n x); destruct (Nat.iter n probe_round x) as [t pt] end.
  apply Hi. by apply env_same.
Qed.

Lemma loop_bytes {U} `{FeedClient U} l : forall p (u : U),
  Forall (fun r => Forall completion_bytes r.2) l -> libusb_bytes p ->
  libusb_bytes (events_loop scribble l p u).1.1 /\ fed u (events_loop scribble l p u).1.2.
Proof.
  assert (Henv : forall p l, Forall (fun r : Z * list completion => Forall completion_bytes r.2) l -> libusb_bytes p ->
    libusb_bytes (on_env p (fun e => e <| rounds := l |>))).
  { intros p l' Hl Hp. apply env_bytes; [|done]. destruct (proj1 Hp) as [R1 R2]. by split. }
  induction l as [|[rc cs] l IH]; intros p u Hl Hp; cbn [events_loop].
  - split; [by apply Henv|apply fed_none].
  - destruct (alive p); cbn [negb]; [|split; [by apply Henv|apply fed_none]].
    apply Forall_cons_1 in Hl as [Hc Hl]. pose proof (completions_bytes cs p u Hp Hc) as [H1 F1].
    destruct (handle_completions scribble cs p u) as [q v]. cbn [fst snd] in *.
    destruct (rc =? LIBUSB_ERROR_INTERRUPTED).
    + destruct (IH q v Hl H1) as [H2 F2]. split; [done|by eapply fed_trans].
    + cbv zeta. destruct (_ && _); cbn [fst snd]; (split; [|done]); [|by apply Henv].
      eapply same_bytes; [| |apply (Henv q l Hl H1)]; done.
Qed.

Lemma events_bytes {U} `{FeedClient U} p (u : U) tmo :
  libusb_bytes p -> libusb_bytes (tl_events scribble p u tmo).1.1 /\ fed u (tl_events scribble p u tmo).1.2.
Proof.
  intros Hp. unfold tl_events. destruct (alive p); cbn [negb]; [|split; [done|apply fed_none]].
  destruct (streams_up p); cbn [negb]; [apply loop_bytes; [apply (proj1 Hp)|done]|].
  pose proof (next_read_bytes p Hp) as (Hd & Hc & Hq). destruct (next_read p) as [[[rc d] cs] q]. cbn [fst snd] in *. cbv zeta.
  pose proof (completions_bytes cs q u Hq Hc) as [Hr Fr]. destruct (handle_completions scribble cs q u) as [r v]. cbn [fst snd] in *.
  assert (Ff : fed u (if (0 <? length (take (Z.to_nat SYNC_BUF_SIZE) d))%nat then feed (take (Z.to_nat SYNC_BUF_SIZE) d) v else v)).
  { destruct (_ <? _)%nat; [|done]. eapply fed_trans; [done|]. apply fed_one. auto with sniffer. }
  repeat case_match; cbn [fst snd]; (split; [first [done | by apply (same_bytes r)]|done]).
Qed.

(** The backend touches its client only by feeding it bytes. *)
Lemma libusb_feeds_bytes {U} `{FeedClient U} : feeds_bytes libusb_bytes (libusb_ops (U := U) scribble).
Proof.
  constructor; cbn.
  - apply open_bytes.
  - intros p Hp. unfold tl_discard. destruct (negb _); [done|by apply discard_bytes].
  - apply stream_keeps_bytes.
  - intros p d. apply write_bytes.
  - intros p ms. apply probe_bytes.
  - apply reset_bytes.
  - intros p u tmo. apply events_bytes.
Qed.
End Bytes.

(** ** Live captures *)


(** A device that answers the commands and the bandwidth test, sends one block in the data
    phase and is unplugged. *)
Definition live_script : script :=
  mk_script [0] [inr [(None, 0); (Some (mk_desc USB_VID_VLLOGIC USB_PID_VLLOGIC USB_BCD_GEN2), 0)]] [0] []
   ([(LIBUSB_ERROR_TIMEOUT, [], [Out 0 COMPLETED; Out 1 COMPLETED]);
     (LIBUSB_ERROR_TIMEOUT, [], [Out 0 COMPLETED])]
     ++ map (fun k => (0, encode_block k demo_ack, [Out 0 COMPLETED])) [1; 2; 3; 4])
   ((0, [Out 0 COMPLETED; Out 1 COMPLETED; In 0 COMPLETED [1; 2; 3; 4] 0]) :: replicate 49 (0, [])
     ++ [(0, [In 3 COMPLETED (encode_block 5 demo_block) 0]); (0, [In 0 NO_DEVICE [] 0])])
   [] [].

Lemma live_script_bytes : script_bytes live_script.
Proof.
  assert (Ha : forall k, bytes_ok (encode_block k demo_ack))
    by (intros k; apply demo_bytes_ok; [apply demo_ack_ok|apply Forall_nil_2]).
  assert (Hb : bytes_ok (encode_block 5 demo_block)).
  { apply demo_bytes_ok; [apply demo_block_ok|].
    vm_compute; repeat apply Forall_cons_2; try apply Forall_nil_2; split; discriminate || reflexivity. }
  split; cbn [reads rounds live_script app map].
  - repeat (apply Forall_cons_2; [split; [first [apply Ha | apply Forall_nil_2]|repeat constructor]|]). apply Forall_nil_2.
  - apply Forall_cons_2; [repeat constructor; cbn; lia|]. apply Forall_app_2; [apply Forall_replicate; apply Forall_nil_2|].
    apply Forall_cons_2; [apply Forall_cons_2; [exact Hb|apply Forall_nil_2]|]. repeat constructor.
Qed.

Definition live_run (fuel : nat) : res (world * Z) :=
  run_capture_gen2 (fun n => Z.of_nat n) fuel [(0%nat, false); (1%nat, false); (0%nat, true)] false []
    (mk_opts false false 1 0 (-1)) ([] : list record, pcapng_open ([] : list Z)) (transport_libusb_new junk live_script).

Lemma live_run_ok k :
  match live_run (5 + k) with Ok (w, code) => (code =? 0) && negb (exited (priv (w_tr w))) | _ => false end = true.
Proof. vm_compute. reflexivity. Qed.

