(* ===== verification/Gen1Writer.v ===== *)
(** * The pcapng writer of the gen1 engine (src/gen1/capture.c, writer part)

    Blocks are assembled in [capture_buf] and written to the output file with
    [fwrite].  The same block grammar as src/pcapng.c, without staging, queue or
    thread; [view] relates the two writers. *)

From Stdlib Require Import String.
From S2P Require Import Prelude Pcapng.
Local Open Scope list_scope.

(** [capture_buf], [capture_buf_ptr] and the content of [capture_fd]. *)
Record writer := mk_writer { capture_buf : list Z; capture_buf_ptr : nat; capture_fd : list Z }.
#[export] Instance writer_settable : Settable writer := fun w =>
  mk_writer (capture_buf w) (capture_buf_ptr w) (capture_fd w).

(** A writer whose file was just opened. *)
Definition writer_open : writer := mk_writer (replicate (Z.to_nat 4096) 0) 0 [].

(** Bytes stored at [capture_buf_ptr]; the pointer moves past them. *)
Definition store (w : writer) (d : list Z) : writer :=
  w <| capture_buf := write_at (capture_buf w) (capture_buf_ptr w) d |>
    <| capture_buf_ptr := (capture_buf_ptr w + length d)%nat |>.

Fixpoint put_pad_loop (fuel : nat) (w : writer) : writer :=
  match fuel with
  | O => w
  | S fuel =>
      if (capture_buf_ptr w mod 4 =? 0)%nat then w else put_pad_loop fuel (store w [0])
  end.
Definition put_pad (w : writer) : writer := put_pad_loop 4 w.

Definition put_half (w : writer) (value : Z) : writer :=
  store w [u8 value; u8 (Z.shiftr value 8)].

Definition put_word (w : writer) (value : Z) : writer :=
  store w [u8 value; u8 (Z.shiftr value 8); u8 (Z.shiftr value 16); u8 (Z.shiftr value 24)].

Definition put_data (w : writer) (data : list Z) (size : Z) : writer :=
  store w (take (Z.to_nat size) data).

Definition put_option (w : writer) (index : Z) (str : string) : writer :=
  let len := Z.of_nat (String.length str) in
  let w := put_half w (u16 index) in
  let w := put_half w (u16 len) in
  let w := put_data w (cstr str) len in
  put_pad w.

Section Writer.
(** [fwrite] on a file with the first content: whether it takes the whole second. *)
Context (takes : list Z -> list Z -> bool).

(** [None] is the failed check, "write() error". *)
Definition send_buffer (w : writer) : option writer :=
  let size := Z.of_nat (capture_buf_ptr w) + 4 in
  let w := put_word w (u32 size) in
  let w := w <| capture_buf := write_at (capture_buf w) 4
                  [u8 size; u8 (Z.shiftr size 8); u8 (Z.shiftr size 16); u8 (Z.shiftr size 24)] |> in
  let d := take (capture_buf_ptr w) (capture_buf w) in
  if takes (capture_fd w) d
  then Some (w <| capture_fd := capture_fd w ++ d |> <| capture_buf_ptr := 0%nat |>)
  else None.

Definition write_file_header (w : writer) : option writer :=
  let w := put_word w 0x0a0d0d0a in
  let w := put_word w 0 in
  let w := put_word w 0x1a2b3c4d in
  let w := put_half w 1 in
  let w := put_half w 0 in
  let w := put_word w 0xffffffff in
  let w := put_word w 0xffffffff in
  let w := put_option w 0x0002 "USB Sniffer by Alex Taradov"%string in
  let w := put_option w 0x0000 ""%string in
  send_buffer w.

(** The [link_type] of [write_usb_header]; [None] is the failed assertion. *)
Definition usb_link_type (speed : Z) : option Z :=
  if 0 =? speed then Some LINKTYPE_USB_2_0_LOW_SPEED
  else if 1 =? speed then Some LINKTYPE_USB_2_0_FULL_SPEED
  else if 2 =? speed then Some LINKTYPE_USB_2_0_HIGH_SPEED
  else if 3 =? speed then Some LINKTYPE_USB_2_0
  else None.

(** The rest of an interface description. *)
Definition write_usb_header (speed : Z) (w : writer) : option writer :=
  match usb_link_type speed with
  | None => None
  | Some link_type =>
      let w := put_word w 1 in
      let w := put_word w 0 in
      let w := put_half w (u16 link_type) in
      let w := put_half w 0 in
      let w := put_word w 0xffff in
      let w := put_option w 0x0002 "usb"%string in
      let w := put_option w 0x0003 "Hardware USB interface"%string in
      let w := put_half w 9 in
      let w := put_half w 1 in
      let w := put_word w 9 in
      let w := put_option w 0x0000 ""%string in
      send_buffer w
  end.

Definition write_info_header (w : writer) : option writer :=
  let w := put_word w 1 in
  let w := put_word w 0 in
  let w := put_half w LINKTYPE_WIRESHARK_UPPER_PDU in
  let w := put_half w 0 in
  let w := put_word w 0xffff in
  let w := put_option w 0x0002 "info"%string in
  let w := put_option w 0x0003 "Out of band information"%string in
  let w := put_half w 9 in
  let w := put_half w 1 in
  let w := put_word w 9 in
  let w := put_option w 0x0000 ""%string in
  send_buffer w.

(** The block [write_packet] writes. *)
Definition packet_block (w : writer) (ts : Z) (data : list Z) (size : Z) : option writer :=
  let w := put_word w 6 in
  let w := put_word w 0 in
  let w := put_word w 0 in
  let w := put_word w (u32 (Z.shiftr ts 32)) in
  let w := put_word w (u32 ts) in
  let w := put_word w (u32 size) in
  let w := put_word w (u32 size) in
  let w := put_data w data size in
  let w := put_pad w in
  let w := put_option w 0x0000 ""%string in
  send_buffer w.

(** [hdr] of [write_str] and the block it writes. *)
Definition str_hdr : list Z := [0; 12; 0; 6; 115; 121; 115; 108; 111; 103; 0; 0; 0; 0].

Definition str_block (w : writer) (ts : Z) (data : list Z) (size : Z) : option writer :=
  let w := put_word w 6 in
  let w := put_word w 0 in
  let w := put_word w 1 in
  let w := put_word w (u32 (Z.shiftr ts 32)) in
  let w := put_word w (u32 ts) in
  let w := put_word w (u32 (14 + size)) in
  let w := put_word w (u32 (14 + size)) in
  let w := put_data w str_hdr 14 in
  let w := put_data w data size in
  let w := put_pad w in
  send_buffer w.

(** ** The writer of src/pcapng.c seen through the state of this one *)

(** A writer past [pcapng_begin] that writes straight to the file. *)
Definition view (w : writer) : pcapng (list Z) :=
  mk_pcapng true (capture_buf w) (capture_buf_ptr w) [] 0 (capture_fd w).

Lemma view_store w d : view (store w d) = Pcapng.store (view w) d.
Proof. reflexivity. Qed.

Lemma view_pad_loop n w : view (put_pad_loop n w) = Pcapng.put_pad_loop n (view w).
Proof.
  revert w. induction n as [|n IH]; intros w; [done|]. cbn [put_pad_loop Pcapng.put_pad_loop].
  change (ptr (view w)) with (capture_buf_ptr w). destruct (_ =? 0)%nat; [done|].
  by rewrite IH, view_store.
Qed.

Lemma view_option w i s : view (put_option w i s) = Pcapng.put_option (view w) i s.
Proof. unfold put_option, put_pad. by rewrite view_pad_loop. Qed.

Lemma view_pad w : view (put_pad w) = Pcapng.put_pad (view w).
Proof. apply view_pad_loop. Qed.

Lemma view_word w v : view (put_word w v) = Pcapng.put_word (view w) v.
Proof. reflexivity. Qed.
Lemma view_half w v : view (put_half w v) = Pcapng.put_half (view w) v.
Proof. reflexivity. Qed.
Lemma view_data w d n : view (put_data w d n) = Pcapng.put_data (view w) d n.
Proof. reflexivity. Qed.

(** Both writers send the same block; this one stops when the file does not take it. *)
Lemma view_send w w' : send_buffer w = Some w' -> view w' = Pcapng.send_buffer (view w).
Proof.
  unfold send_buffer. destruct (takes _ _); [|done]. intros E. apply (inj Some) in E as <-. reflexivity.
Qed.

Lemma flush_list (p : pcapng (list Z)) : p <| out := chunk_flush (out p) |> = p.
Proof. by destruct p. Qed.

Lemma view_packet w w' ts d n :
  packet_block w ts d n = Some w' -> view w' = pcapng_write_epb (view w) ts d n.
Proof.
  intros E. apply view_send in E. rewrite E, view_option, view_pad, view_data, !view_word.
  unfold pcapng_write_epb, write_block_type. reflexivity.
Qed.

Lemma view_str w w' ts d n :
  str_block w ts d n = Some w' -> view w' = pcapng_write_info (view w) ts d n.
Proof.
  intros E. apply view_send in E. rewrite E, view_pad, !view_data, !view_word.
  unfold pcapng_write_info, write_block_type. by rewrite flush_list.
Qed.

(** What a block adds to the file. *)
Definition adds (w w' : writer) (d : list Z) : Prop :=
  idle (view w') /\ capture_fd w' = capture_fd w ++ d.

Lemma emits_adds w w' d : emits (view w) (view w') d -> adds w w' d.
Proof. intros (Hi & _ & _ & E). by split. Qed.

Lemma writer_open_idle : idle (view writer_open).
Proof.
  split; [apply length_replicate|]. split; [done|]. split; [by left|done].
Qed.

(** The section header of this engine. *)
Definition gen1_shb_body : list Z :=
  le32 0x1a2b3c4d ++ le16 1 ++ le16 0 ++ le32 0xffffffff ++ le32 0xffffffff
  ++ option_bytes 2 (cstr "USB Sniffer by Alex Taradov"%string) ++ option_bytes 0 [].

Lemma file_header_adds w w' :
  idle (view w) -> write_file_header w = Some w' -> adds w w' (block_bytes 0x0a0d0d0a gen1_shb_body).
Proof.
  intros Hi E. apply view_send in E. rewrite !view_option in E. apply emits_adds. rewrite E.
  apply send_buffer_emits; [done| |room]. rewrite !view_word, !view_half, !view_word.
  eapply holds_eq; [assemble|]. by rewrite <- !app_assoc.
Qed.

Lemma link_type_range speed link : usb_link_type speed = Some link -> 0 <= link < 65536.
Proof. unfold usb_link_type. repeat case_match; intros E; by simplify_eq. Qed.

Lemma usb_header_adds w w' speed link :
  idle (view w) -> usb_link_type speed = Some link -> write_usb_header speed w = Some w' ->
  adds w w' (block_bytes 1 (idb_body link "usb" "Hardware USB interface")).
Proof.
  unfold write_usb_header. intros Hi Hl E. rewrite Hl in E. apply view_send in E.
  rewrite view_option, view_word, !view_half, !view_option, view_word, !view_half, !view_word in E.
  apply emits_adds. rewrite E.
  pose proof (write_usb_header_emits (view w) link Hi ltac:(by eapply link_type_range)) as X.
  unfold Pcapng.write_usb_header, write_block_type in X. exact X.
Qed.

Lemma info_header_adds w w' :
  idle (view w) -> write_info_header w = Some w' ->
  adds w w' (block_bytes 1 (idb_body 252 "info" "Out of band information")).
Proof.
  unfold write_info_header. intros Hi E. apply view_send in E.
  rewrite view_option, view_word, !view_half, !view_option, view_word, !view_half, !view_word in E.
  apply emits_adds. rewrite E. pose proof (write_info_header_emits (view w) Hi) as X.
  unfold Pcapng.write_info_header, write_block_type in X. exact X.
Qed.

(** The blocks of a record. *)
Definition write_record (w : writer) (r : record) : option writer :=
  match r with
  | Packet ts d => packet_block w ts d (Z.of_nat (length d))
  | Info ts t => str_block w ts t (Z.of_nat (length t))
  end.

Lemma record_adds w w' r :
  idle (view w) -> record_fits r -> write_record w r = Some w' -> adds w w' (record_bytes r).
Proof.
  intros Hi Hr E. apply emits_adds. destruct r as [ts d|ts t]; cbn [write_record] in E.
  - rewrite (view_packet _ _ _ _ _ E). by apply pcapng_write_epb_emits.
  - rewrite (view_str _ _ _ _ _ E). by apply pcapng_write_info_emits.
Qed.

Fixpoint write_records (w : writer) (rs : list record) : option writer :=
  match rs with
  | [] => Some w
  | r :: rs => w ← write_record w r; write_records w rs
  end.

Lemma records_add w w' rs :
  idle (view w) -> Forall record_fits rs -> write_records w rs = Some w' -> adds w w' (records_bytes rs).
Proof.
  intros Hi Hrs. revert w Hi. induction Hrs as [|r rs Hr Hrs IH]; intros w Hi E; cbn in E.
  { simplify_eq. split; [done|]. by rewrite app_nil_r. }
  destruct (write_record w r) as [w1|] eqn:E1; [|done]. cbn in E.
  destruct (record_adds _ _ _ Hi Hr E1) as [I1 F1]. destruct (IH _ I1 E) as [I2 F2].
  split; [done|]. rewrite F2, F1, <- app_assoc. done.
Qed.

(** The headers [capture_start] writes. *)
Definition write_headers (speed : Z) (w : writer) : option writer :=
  w ← write_file_header w; w ← write_usb_header speed w; write_info_header w.

(** The blocks of a session's file. *)
Definition gen1_blocks (link : Z) (rs : list record) : list (Z * list Z) :=
  (0x0a0d0d0a, gen1_shb_body) :: tl (session_blocks link rs).

Lemma gen1_headers_add w w' speed link :
  idle (view w) -> usb_link_type speed = Some link -> write_headers speed w = Some w' ->
  adds w w' (concat (map (fun b => block_bytes b.1 b.2) (gen1_blocks link []))).
Proof.
  unfold write_headers. intros Hi Hl E.
  destruct (write_file_header w) as [w1|] eqn:E1; [|done]. cbn in E.
  destruct (write_usb_header speed w1) as [w2|] eqn:E2; [|done]. cbn in E.
  destruct (file_header_adds _ _ Hi E1) as [I1 F1].
  destruct (usb_header_adds _ _ _ _ I1 Hl E2) as [I2 F2].
  destruct (info_header_adds _ _ I2 E) as [I3 F3].
  split; [done|]. rewrite F3, F2, F1. unfold gen1_blocks, session_blocks. cbn [tl map concat fst snd].
  by rewrite app_nil_r, <- !app_assoc.
Qed.
End Writer.

Lemma gen1_blocks_app link rs :
  concat (map (fun b => block_bytes b.1 b.2) (gen1_blocks link rs))
  = concat (map (fun b => block_bytes b.1 b.2) (gen1_blocks link [])) ++ records_bytes rs.
Proof.
  unfold gen1_blocks, session_blocks, records_bytes. cbn [tl map concat fst snd].
  by rewrite map_map, app_nil_r, <- !app_assoc.
Qed.

(** A reader gets the blocks back. *)
Lemma read_gen1_blocks link rs :
  0 <= link < 65536 -> Forall record_fits rs ->
  read_blocks (length rs + 3) (concat (map (fun b => block_bytes b.1 b.2) (gen1_blocks link rs)))
  = Some (gen1_blocks link rs).
Proof.
  intros Hl Hrs. apply read_blocks_concat.
  - unfold gen1_blocks, session_blocks. cbn [tl length]. rewrite length_map. lia.
  - unfold gen1_blocks, session_blocks. cbn [tl]. repeat apply Forall_cons_2; try (cbn; lia).
    + split_and!; vm_compute; done.
    + split_and!; vm_compute; done.
    + split_and!; vm_compute; done.
    + apply Forall_map. eapply Forall_impl; [|exact Hrs]. intros r Hr. unfold compose. cbn [fst snd].
      split_and!; [lia|lia|apply record_body_aligned|by apply record_body_length].
Qed.

(** The file of a gen1 session.  Whatever the configured speed and the records,
    as long as the file takes every write it holds the section header, the two
    interface descriptions and the records in order, each record the same block
    src/pcapng.c writes for it; a reader gets the blocks back and decodes every
    record.  A write the file does not take ends the session instead. *)
Theorem gen1_file_roundtrip takes speed link rs w :
  usb_link_type speed = Some link -> Forall record_fits rs ->
  (w0 ← write_headers takes speed writer_open; write_records takes w0 rs) = Some w ->
  read_blocks (length rs + 3) (capture_fd w) = Some (gen1_blocks link rs)
  /\ map (fun r => read_record (6, record_body r)) rs = map Some rs.
Proof.
  intros Hl Hrs E. destruct (write_headers takes speed writer_open) as [w0|] eqn:E0; [|done]. cbn in E.
  destruct (gen1_headers_add _ _ _ _ _ writer_open_idle Hl E0) as [I0 F0].
  destruct (records_add _ _ _ _ I0 Hrs E) as [_ F1]. split; [|by apply read_session_records].
  rewrite F1, F0. cbn [capture_fd writer_open app]. rewrite <- gen1_blocks_app.
  pose proof (link_type_range _ _ Hl). by apply read_gen1_blocks.
Qed.

(** A full-speed session with two records. *)
Definition demo_records : list record := [Packet 7 [0xa5; 1; 2]; Info 9 (cstr "Starting capture"%string)].
Definition always (a d : list Z) : bool := true.

Lemma gen1_file_roundtrip_witness :
  match (w0 ← write_headers always 1 writer_open; write_records always w0 demo_records) with
  | Some w => read_blocks 5 (capture_fd w) = Some (gen1_blocks 294 demo_records)
  | None => False
  end.
Proof.
  destruct (w0 ← write_headers always 1 writer_open; write_records always w0 demo_records) as [w|] eqn:E.
  - refine (proj1 (gen1_file_roundtrip always 1 294 demo_records w eq_refl _ E)).
    unfold demo_records. repeat apply Forall_cons_2; [..|apply Forall_nil_2];
      (split; [lia|split; [cbn; forall_concrete|cbn; lia]]).
  - vm_compute in E. discriminate E.
Defined.
