(* ===== verification/Gen1Capture.v ===== *)
(** * The capture engine of the first generation (src/gen1/capture.c)

    The byte walk, the event synthesis and the folding of the gen1 analyzer.
    Unlike src/packet.c, whose model is Packet.v, it flushes the fold buffer
    before every message, compares times unsigned, writes times as they are
    and leaves the process on a desynchronisation or at the capture limit. *)

From Stdlib Require Import String.
From S2P Require Import Prelude Format Pcapng Packet Gen1Writer.
Local Open Scope list_scope.

(** What the engine asks of its writer: the blocks of [write_packet] and
    [write_str], [None] when the file does not take them, and [fflush]. *)
Class Gen1Out (W : Type) := {
  put_packet : W -> Z -> list Z -> Z -> option W;
  put_str : W -> Z -> list Z -> Z -> option W;
  out_fflush : W -> W;
}.

Definition writer_out (takes : list Z -> list Z -> bool) : Gen1Out writer := {|
  put_packet := packet_block takes;
  put_str := str_block takes;
  out_fflush w := w;
|}.

(** The log of the records in the order they are written. *)
#[export] Instance gen1_log : Gen1Out (list record) := {
  put_packet l ts d n := Some (l ++ [Packet ts (take (Z.to_nat n) d)]);
  put_str l ts s n := Some (l ++ [Info ts (take (Z.to_nat n) s)]);
  out_fflush l := l;
}.

(** The static variables of the file, with the members of [g_opt] it reads, as
    in the packet layer: [opts] is the part of [g_opt]. *)
Record engine (W : Type) := mk_engine {
  g_opt : packet_opts;
  out : W;
  capture_data : list Z;
  capture_data_ptr : Z;
  capture_size : Z;
  capture_header : bool;
  capture_status : bool;
  capture_toggle : Z;
  capture_ls : Z;
  capture_vbus : Z;
  capture_trigger : Z;
  capture_speed : Z;
  capture_enabled : bool;
  capture_ts_int : Z;
  capture_ts : Z;
  capture_last_ts : Z;
  capture_overflow : bool;
  capture_crc_error : bool;
  capture_data_error : bool;
  capture_duration : Z;
  capture_fold_buf : list CaptureFrame;
  capture_fold_buf_ptr : Z;
  capture_fold_count : Z;
  capture_saved_ls : Z;
  capture_saved_ts : Z;
}.
Arguments mk_engine {W}.
Arguments g_opt {W}. Arguments out {W}. Arguments capture_data {W}.
Arguments capture_data_ptr {W}. Arguments capture_size {W}. Arguments capture_header {W}.
Arguments capture_status {W}. Arguments capture_toggle {W}. Arguments capture_ls {W}.
Arguments capture_vbus {W}. Arguments capture_trigger {W}.
Arguments capture_speed {W}. Arguments capture_enabled {W}. Arguments capture_ts_int {W}.
Arguments capture_ts {W}. Arguments capture_last_ts {W}. Arguments capture_overflow {W}.
Arguments capture_crc_error {W}. Arguments capture_data_error {W}.
Arguments capture_duration {W}. Arguments capture_fold_buf {W}.
Arguments capture_fold_buf_ptr {W}. Arguments capture_fold_count {W}.
Arguments capture_saved_ls {W}. Arguments capture_saved_ts {W}.
#[export] Instance engine_settable W : Settable (engine W) := fun s =>
  mk_engine
    (g_opt s) (out s) (capture_data s) (capture_data_ptr s) (capture_size s)
    (capture_header s) (capture_status s) (capture_toggle s) (capture_ls s) (capture_vbus s)
    (capture_trigger s) (capture_speed s) (capture_enabled s) (capture_ts_int s)
    (capture_ts s) (capture_last_ts s) (capture_overflow s) (capture_crc_error s)
    (capture_data_error s) (capture_duration s) (capture_fold_buf s) (capture_fold_buf_ptr s)
    (capture_fold_count s) (capture_saved_ls s) (capture_saved_ts s).

(** The variables at program start, with the output as [capture_start] leaves it. *)
Definition engine_init {W} (o : packet_opts) (w : W) : engine W :=
  mk_engine o w (replicate DATA_BUF_SIZE 0) 0 0 true false 0 (-1) (-1) (-1) (-1) false 0 0 0
    false false false 0
    (replicate (Z.to_nat FOLD_BUF_SIZE) (mk_frame 0 0 (replicate DATA_BUF_SIZE 0))) 0 0
    LS_INVALID 0.

(** A run goes on, leaves the process with an exit code and the output it has
    written, or does what C leaves undefined: an access outside an object, or a
    conversion without its argument. *)
Inductive run (W : Type) := Go (s : engine W) | Leave (code : Z) (w : W) | Wild.
Arguments Go {W}. Arguments Leave {W}. Arguments Wild {W}.

Definition andthen {W} (m : run W) (f : engine W -> run W) : run W :=
  match m with Go s => f s | Leave c w => Leave c w | Wild => Wild end.
Notation "'let>' x := m 'in' f" := (andthen m (fun x => f))
  (at level 10, x name, m at level 200, f at level 200).

(** A store that may miss its object. *)
Definition or_wild {W} (m : option (engine W)) : run W :=
  match m with Some s => Go s | None => Wild end.

Section Engine.
Context {W : Type} `{Gen1Out W}.
Implicit Type s : engine W.

(** The failed check of [send_buffer] leaves with the output written so far. *)
Definition put s (w : option W) : run W :=
  match w with Some w => Go (s <| out := w |>) | None => Leave 1 (out s) end.

Definition write_packet s (ts : Z) (data : list Z) (size : Z) : run W :=
  let> s := put s (put_packet (out s) ts data size) in
  Go (s <| capture_last_ts := ts |>).

Definition write_str s (ts : Z) (data : list Z) (size : Z) : run W :=
  let> s := put s (put_str (out s) ts data size) in
  Go (s <| capture_last_ts := ts |>).

(** The message [line_state_event] builds. *)
Definition line_state_text s (dp dm delta : Z) : list Z :=
  cstr "Line state: "
  ++ (if (dp =? 0) && (dm =? 0) then cstr "SE0"
      else if dp =? 0 then
        if CaptureSpeed_LS =? capture_speed s then cstr "J" else cstr "K"
      else if dm =? 0 then
        if CaptureSpeed_LS =? capture_speed s then cstr "K" else cstr "J"
      else cstr "Undefined (DP=" ++ dec dp ++ cstr " / DM=" ++ dec dm ++ cstr ")")
  ++ (if delta <? LS_DELTA_THRESHOLD then delta_text delta else []).

(** [line_state_event], given the [capture_info] it calls with the message as the
    format: a message with a conversion in it is [Wild]. *)
Definition line_state_event_with (info : engine W -> Z -> list Z -> run W) s : run W :=
  let dp := Z.land (Z.shiftr (capture_saved_ls s) 0) 3 in
  let dm := Z.land (Z.shiftr (capture_saved_ls s) 2) 3 in
  let delta := s32 (capture_ts s - capture_saved_ts s) in
  if LS_INVALID =? capture_saved_ls s then Go s
  else
    let s := s <| capture_saved_ls := LS_INVALID |> in
    if exclude_line_state (g_opt s) then Go s
    else
      let str := line_state_text s dp dm delta in
      if existsb (Z.eqb 37) str then Wild else info s (capture_saved_ts s) str.

Definition write_keepalive_with (info : engine W -> Z -> list Z -> run W) s (ts : Z) : run W :=
  info s ts (cstr "Keep-alive").

(** The body of the loop of [stop_folding]. *)
Definition unfold_frame_with (info : engine W -> Z -> list Z -> run W) s (i : nat) : run W :=
  let f := capture_fold_buf s !!! i in
  if f_size f <? 0 then write_keepalive_with info s (f_ts f)
  else write_packet s (f_ts f) (f_data f) (f_size f).

Fixpoint unfold_frames_with (info : engine W -> Z -> list Z -> run W) s (ixs : list nat) : run W :=
  match ixs with
  | [] => Go s
  | i :: ixs => let> s := unfold_frame_with info s i in unfold_frames_with info s ixs
  end.

Definition stop_folding_with (info : engine W -> Z -> list Z -> run W) s : run W :=
  let count := capture_fold_count s in
  let ptr := capture_fold_buf_ptr s in
  if (0 =? count) && (0 =? ptr) then Go s
  else
    let s := s <| capture_fold_count := 0 |> <| capture_fold_buf_ptr := 0 |> in
    let> s :=
      if count =? 1 then info s (capture_ts s) (cstr "Folded empty frame")
      else if 1 <? count then
        info s (capture_ts s) (cstr "Folded " ++ dec count ++ cstr " empty frames")
      else Go s in
    unfold_frames_with info s (seq 0 (Z.to_nat ptr)).

(** [capture_info] with the text its format gives.  [str] has 512 bytes, and [len]
    is what [vsnprintf] returns: the length of the whole text.  The function calls
    itself through [line_state_event] and [stop_folding]; running out of the fuel
    for that is [Wild] too. *)
Fixpoint capture_info_n (fuel : nat) s (ts : Z) (text : list Z) : run W :=
  match fuel with
  | O => Wild
  | S fuel =>
      let str := take 511 text ++ [0] in
      let len := Z.of_nat (length text) in
      let> s := line_state_event_with (capture_info_n fuel) s in
      let> s := stop_folding_with (capture_info_n fuel) s in
      if 512 <? len then Wild
      else
        let> s := write_str s ts str len in
        Go (s <| out := out_fflush (out s) |>)
  end.

(** Three levels are enough. *)
Definition capture_info s (ts : Z) (text : list Z) : run W := capture_info_n 3 s ts text.
Definition line_state_event s : run W := line_state_event_with (capture_info_n 2) s.
Definition stop_folding s : run W := stop_folding_with (capture_info_n 2) s.
Definition write_keepalive s (ts : Z) : run W := write_keepalive_with capture_info s ts.

Definition timeout_event s : run W :=
  if capture_enabled s then capture_info s (capture_ts s) (cstr "Periodic update") else Go s.

Definition fold_packet s (ts : Z) (data : list Z) (size : Z) : run W :=
  let f := capture_fold_buf s !!! Z.to_nat (capture_fold_buf_ptr s) in
  or_wild
    (d ← copy_in (f_data f) data size;
     b ← set_at (capture_fold_buf s) (capture_fold_buf_ptr s) (mk_frame ts size d);
     Some (s <| capture_fold_buf := b |> <| capture_fold_buf_ptr := capture_fold_buf_ptr s + 1 |>)).

Definition fold_keepalive s (ts delta : Z) : run W :=
  let f := capture_fold_buf s !!! Z.to_nat (capture_fold_buf_ptr s) in
  or_wild
    (b ← set_at (capture_fold_buf s) (capture_fold_buf_ptr s) (mk_frame ts (- delta) (f_data f));
     Some (s <| capture_fold_buf := b |> <| capture_fold_buf_ptr := capture_fold_buf_ptr s + 1 |>)).

Definition check_capture_limit s : run W :=
  let s := s <| g_opt := (g_opt s) <| capture_limit := s64 (capture_limit (g_opt s) - 1) |> |> in
  if capture_limit (g_opt s) =? 0 then
    let> s := capture_info s (capture_ts s) (cstr "Capture limit reached") in
    Leave 0 (out s)
  else Go s.

Definition keepalive_event s (ts delta : Z) : run W :=
  if negb (capture_enabled s) then Go s
  else
    let> s :=
      if negb (fold_empty (g_opt s)) then write_keepalive s ts
      else if negb (capture_fold_buf_ptr s =? 0) then
        let s := s <| capture_fold_count := capture_fold_count s + 1 |>
                   <| capture_fold_buf_ptr := 0 |> in
        let> s := if capture_fold_count s =? FOLD_LIMIT_LS_FS then stop_folding s else Go s in
        fold_keepalive s ts delta
      else fold_keepalive s ts delta in
    check_capture_limit s.

(** [None] is the failed assertion on an unknown trigger mode. *)
Definition trigger_gate s (trigger : Z) : option bool :=
  let t := Packet.capture_trigger (g_opt s) in
  if CaptureTrigger_Disabled =? t then Some true
  else if CaptureTrigger_Low =? t then Some (trigger =? 0)
  else if CaptureTrigger_High =? t then Some (trigger =? 1)
  else if CaptureTrigger_Falling =? t then
    Some (capture_enabled s || (trigger =? 0) && (capture_trigger s =? 1))
  else if CaptureTrigger_Rising =? t then
    Some (capture_enabled s || (trigger =? 1) && (capture_trigger s =? 0))
  else None.

(** The four parts of [status_event]. *)
Definition status_trigger s (trigger : Z) : run W :=
  if capture_trigger s =? trigger then Go s
  else
    let was_enabled := capture_enabled s in
    match trigger_gate s trigger with
    | None => Leave 1 (out s)
    | Some en =>
        let s := s <| capture_enabled := en |> in
        let s := s <| capture_trigger := trigger |> in
        let> s := capture_info s (capture_ts s)
                    (cstr "Trigger input = " ++ dec (capture_trigger s)) in
        if capture_enabled s && negb was_enabled
        then capture_info s (capture_ts s) (cstr "Starting capture")
        else if was_enabled && negb (capture_enabled s)
        then capture_info s (capture_ts s) (cstr "Waiting for a trigger")
        else Go s
    end.

Definition status_vbus s (vbus : Z) : run W :=
  if capture_vbus s =? vbus then Go s
  else
    let s := s <| capture_vbus := vbus |> in
    capture_info s (capture_ts s)
      (cstr "VBUS " ++ if capture_vbus s =? 0 then cstr "OFF" else cstr "ON").

Definition status_speed s (speed : Z) : run W :=
  if capture_speed s =? speed then Go s
  else
    let s := s <| capture_speed := speed |> in
    if capture_enabled s then
      if CaptureSpeed_Reset =? speed
      then capture_info s (capture_ts s) (cstr "--- Bus Reset ---")
      else capture_info s (capture_ts s) (cstr "Detected speed: " ++ speed_name (capture_speed s))
    else Go s.

Definition status_ls s (ls : Z) : run W :=
  if capture_ls s =? ls then Go s
  else
    let delta := u64 (capture_ts s - capture_saved_ts s) in
    let s := s <| capture_ls := ls |> in
    if (CaptureSpeed_LS =? capture_speed s) && (LS_SE0 =? capture_saved_ls s)
       && (LS_J3 =? ls) && (MIN_KEEPALIVE_DURATION <? delta) && (delta <? MAX_KEEPALIVE_DURATION)
    then
      let s := s <| capture_saved_ls := LS_INVALID |> in
      keepalive_event s (capture_saved_ts s) (s32 delta)
    else
      let> s := line_state_event s in
      let s := s <| capture_saved_ls := ls |> in
      Go (s <| capture_saved_ts := capture_ts s |>).

Definition status_event s (ls vbus trigger speed : Z) : run W :=
  let> s := status_trigger s trigger in
  let> s := status_vbus s vbus in
  let> s := status_speed s speed in
  status_ls s ls.

(** The middle of [data_event]: how the frame is written or folded. *)
Definition data_fold s (data_error allow_sof : bool) (pid : Z) : run W :=
  if data_error || negb (fold_empty (g_opt s)) then
    write_packet s (capture_ts s) (capture_data s) (capture_size s)
  else if negb (capture_fold_buf_ptr s =? 0) then
    if (PID_IN =? pid) || (PID_NAK =? pid) then
      fold_packet s (capture_ts s) (capture_data s) (capture_size s)
    else if (PID_SOF =? pid) && allow_sof then
      let s := s <| capture_fold_count := capture_fold_count s + 1 |>
                 <| capture_fold_buf_ptr := 0 |> in
      let> s :=
        if capture_fold_count s
           =? (if CaptureSpeed_HS =? capture_speed s then FOLD_LIMIT_HS else FOLD_LIMIT_LS_FS)
        then stop_folding s else Go s in
      fold_packet s (capture_ts s) (capture_data s) (capture_size s)
    else
      let> s := stop_folding s in
      write_packet s (capture_ts s) (capture_data s) (capture_size s)
  else if (PID_SOF =? pid) && allow_sof then
    fold_packet s (capture_ts s) (capture_data s) (capture_size s)
  else write_packet s (capture_ts s) (capture_data s) (capture_size s).

Definition data_event s : run W :=
  let data_error := capture_crc_error s || capture_data_error s in
  let allow_sof := negb (CaptureSpeed_LS =? capture_speed s) in
  let pid := capture_data s !!! 0%nat in
  if negb (capture_enabled s) then Go s
  else
    let> s := line_state_event s in
    let> s :=
      if capture_overflow s || data_error || (FOLD_BUF_SIZE =? capture_fold_buf_ptr s)
      then stop_folding s else Go s in
    let> s :=
      if capture_overflow s
      then capture_info s (capture_ts s) (cstr "Hardware buffer overflow") else Go s in
    let> s :=
      if capture_data_error s
      then capture_info s (capture_ts s) (cstr "USB PHY error") else Go s in
    let> s := data_fold s data_error allow_sof pid in
    check_capture_limit s.

(** The text of the dump and the messages of a desynchronisation; [header] has 256
    bytes. *)
Definition desync_error s : run W :=
  let> s := capture_info s (capture_ts s)
              (cstr "Error: protocol desynchronization, stopping the capture") in
  let header := hex_dump (take (Z.to_nat (capture_size s)) (capture_data s)) in
  if (256 <=? Z.of_nat (length header)) then Wild
  else
    let> s := capture_info s (capture_ts s) (cstr "Packet header: " ++ header) in
    Leave 0 (out s).

Definition check_header s (toggle zero : Z) : run W :=
  if (toggle =? capture_toggle s) && (0 =? zero) then Go s
  else
    let> s :=
      if negb (toggle =? capture_toggle s)
      then capture_info s (capture_ts s)
             (cstr "Error: received toggle value " ++ dec toggle ++ cstr ", expected "
              ++ dec (capture_toggle s))
      else Go s in
    let> s :=
      if negb (zero =? 0)
      then capture_info s (capture_ts s) (cstr "Error: zero bit in the header is not zero")
      else Go s in
    desync_error s.

Definition check_data_size s (size : Z) : run W :=
  if (DATA_HEADER_SIZE <=? size) && (size <=? MAX_DATA_SIZE) then Go s
  else
    let> s := capture_info s (capture_ts s)
                (cstr "Error: invalid data size (" ++ dec size ++ cstr ")") in
    desync_error s.

(** The timestamp part of a complete header: unwrap, convert, periodic update. *)
Definition header_time s (ts toggle : Z) : run W :=
  let s :=
    if has (capture_data s !!! 0%nat) HEADER_TS_OVERFLOW
    then s <| capture_ts_int := u64 (capture_ts_int s + 0x100000) |> else s in
  let s := s <| capture_ts := u64 (Z.lor (capture_ts_int s) ts * 100) / 6 |> in
  let s := s <| capture_toggle := 1 - toggle |> in
  if UPDATE_INTERVAL <? u64 (capture_ts s - capture_last_ts s) then timeout_event s else Go s.

(** The [else // data] branch of a complete header. *)
Definition header_data s : run W :=
  let d i := capture_data s !!! i in
  let size := Z.lor (Z.shiftl (Z.land (d 3%nat) 0x7) 8) (d 4%nat) in
  let> s := check_data_size s size in
  let s := s <| capture_size := size - DATA_HEADER_SIZE |> in
  let s := s <| capture_overflow := has (d 3%nat) HEADER_OVERFLOW |> in
  let s := s <| capture_crc_error := has (d 3%nat) HEADER_CRC_ERROR |> in
  let s := s <| capture_data_error := has (d 3%nat) HEADER_DATA_ERROR |> in
  let s := s <| capture_duration := Z.lor (Z.shiftl (d 5%nat) 8) (d 6%nat) |> in
  Go (s <| capture_header := (0 =? capture_size s) |>).

Definition header_status s : run W :=
  let b := capture_data s !!! 3%nat in
  let ls := Z.land b HEADER_LS_MASK in
  let vbus := if has b HEADER_VBUS then 1 else 0 in
  let trigger := if has b HEADER_TRIGGER then 1 else 0 in
  let speed := Z.land (Z.shiftr b HEADER_SPEED_OFFS) HEADER_SPEED_MASK in
  status_event s ls vbus trigger speed.

(** The [if (capture_header)] branch of [capture_sm]. *)
Definition header_complete s : run W :=
  let d i := capture_data s !!! i in
  let ts := Z.lor (Z.lor (Z.shiftl (Z.land (d 0%nat) 0xf) 16) (Z.shiftl (d 1%nat) 8)) (d 2%nat) in
  let toggle := if has (d 0%nat) HEADER_TOGGLE then 1 else 0 in
  let zero := if has (d 0%nat) HEADER_ZERO then 1 else 0 in
  let> s := check_header s toggle zero in
  let> s := header_time s ts toggle in
  if capture_status s then header_status s else header_data s.

Definition capture_sm s (byte : Z) : run W :=
  let s :=
    if capture_header s && (0 =? capture_data_ptr s) then
      let s := s <| capture_status := (0 =? Z.land byte HEADER_STATUS) |> in
      s <| capture_size := if capture_status s then STATUS_HEADER_SIZE else DATA_HEADER_SIZE |>
    else s in
  let> s := or_wild
    (d ← set_at (capture_data s) (capture_data_ptr s) byte;
     Some (s <| capture_data := d |> <| capture_data_ptr := capture_data_ptr s + 1 |>)) in
  if capture_data_ptr s <? capture_size s then Go s
  else
    let> s :=
      if capture_header s then header_complete s
      else data_event (s <| capture_header := true |>) in
    Go (s <| capture_data_ptr := 0 |>).

Fixpoint capture_callback s (data : list Z) : run W :=
  match data with
  | [] => Go s
  | b :: data => let> s := capture_sm s b in capture_callback s data
  end.

(** The messages [capture_start] writes before the transfer begins. *)
Definition capture_announce s : run W :=
  if CaptureTrigger_Disabled =? Packet.capture_trigger (g_opt s) then
    let> s := capture_info s 0 (cstr "Starting capture") in
    Go (s <| capture_enabled := true |>)
  else capture_info s (capture_ts s) (cstr "Waiting for a trigger").
End Engine.
