(* ===== verification/Gen1Safe.v ===== *)
(** * The gen1 engine is safe on any byte stream

    A weakest-precondition reading of the runs of Gen1Capture.v: from a well-formed
    state no operation leaves an object or misuses a format, three levels of
    [capture_info] are enough, and every record is one the writer can take. *)

From Stdlib Require Import String.
From S2P Require Import Prelude Format Pcapng Packet Gen1Writer Gen1Capture.
Local Open Scope list_scope.

(** A property of the output that every record the writer takes preserves. *)
Class Gen1Inv {W} `{Gen1Out W} (I : W -> Prop) := {
  inv_packet w w' ts d n : I w -> epb_ok ts d n -> put_packet w ts d n = Some w' -> I w';
  inv_str w w' ts d : I w -> u64_ok ts -> bytes_ok d -> (length d <= 511)%nat ->
    put_str w ts (d ++ [0]) (Z.of_nat (length d)) = Some w' -> I w';
  inv_fflush w : I w -> I (out_fflush w);
}.

(** The fields the events leave alone. *)
Definition walk {W} (s : engine W) :=
  (capture_data s, capture_data_ptr s, capture_size s, capture_header s, capture_status s,
   capture_toggle s, capture_ts s, capture_ts_int s).

Section Safe.
Context {W : Type} `{Gen1Out W} (I : W -> Prop) `{!Gen1Inv I}.
Implicit Types (s : engine W) (m : run W).

(** A run that ends in [Q], or leaves the process with a good output. *)
Definition safe (Q : engine W -> Prop) m : Prop :=
  match m with Go s => Q s | Leave _ w => I w | Wild => False end.

Lemma safe_bind (R Q : engine W -> Prop) m f :
  safe R m -> (forall s, R s -> safe Q (f s)) -> safe Q (andthen m f).
Proof. destruct m; cbn; auto. Qed.

Lemma safe_weaken (R Q : engine W -> Prop) m : safe R m -> (forall s, R s -> Q s) -> safe Q m.
Proof. destruct m; cbn; auto. Qed.

Lemma safe_if (b : bool) (Q : engine W -> Prop) m1 m2 :
  (b = true -> safe Q m1) -> (b = false -> safe Q m2) -> safe Q (if b then m1 else m2).
Proof. destruct b; auto. Qed.

Record core s : Prop := {
  core_out : I (out s);
  core_data_len : length (capture_data s) = DATA_BUF_SIZE;
  core_data : bytes_ok (capture_data s);
  core_ts : u64_ok (capture_ts s);
  core_saved_ts : u64_ok (capture_saved_ts s);
  core_fold_len : Z.of_nat (length (capture_fold_buf s)) = FOLD_BUF_SIZE;
  core_fold : Forall frame_ok (capture_fold_buf s);
  core_fold_ptr : 0 <= capture_fold_buf_ptr s <= FOLD_BUF_SIZE;
}.

Ltac core_set := match goal with Hc : core ?s |- core _ => destruct Hc; constructor; cbn; auto; try lia end.

(** Nothing pending that a message would flush. *)
Definition calm s : Prop :=
  capture_saved_ls s = LS_INVALID /\ capture_fold_count s = 0 /\ capture_fold_buf_ptr s = 0.

(** [core] with the walk of [s0]. *)
Definition kept s0 s : Prop := core s /\ walk s = walk s0.

Lemma kept_refl s : core s -> kept s s.
Proof. by split. Qed.

Lemma kept_trans s0 s1 s2 : kept s0 s1 -> kept s1 s2 -> kept s0 s2.
Proof. intros [_ E1] [C2 E2]. split; [done|congruence]. Qed.

Lemma kept_set s0 s (f : engine W -> engine W) :
  kept s0 s -> core (f s) -> walk (f s) = walk s -> kept s0 (f s).
Proof. intros [_ E] Hc Ew. split; [done|congruence]. Qed.

(** A text a message may have. *)
Definition text_ok (t : list Z) : Prop := bytes_ok t /\ (length t <= 511)%nat.

Lemma put_packet_safe s ts d n :
  core s -> epb_ok ts d n ->
  safe (fun s' => kept s s' /\ (calm s -> calm s')) (write_packet s ts d n).
Proof.
  intros Hc He. unfold write_packet, put. destruct (put_packet _ _ _ _) as [w|] eqn:E; [|apply Hc].
  cbn. pose proof (inv_packet _ _ _ _ _ (core_out _ Hc) He E). split; [split; [core_set|done]|done].
Qed.

Lemma put_text_safe s ts t :
  core s -> u64_ok ts -> text_ok t ->
  safe (fun s' => kept s s' /\ (calm s -> calm s'))
    (if 512 <? Z.of_nat (length t) then Wild
     else let> s := write_str s ts (take 511 t ++ [0]) (Z.of_nat (length t)) in
          Go (s <| out := out_fflush (out s) |>)).
Proof.
  intros Hc Ht [Hb Hl]. destruct (Z.ltb_spec 512 (Z.of_nat (length t))); [lia|].
  rewrite take_ge by lia. unfold write_str, put.
  destruct (put_str _ _ _ _) as [w|] eqn:E; [|apply Hc]. cbn.
  pose proof (inv_fflush _ (inv_str _ _ _ _ (core_out _ Hc) Ht Hb Hl E)).
  split; [split; [core_set|done]|done].
Qed.

(** A message with nothing pending. *)
Lemma info_calm n s ts t :
  core s -> calm s -> u64_ok ts -> text_ok t ->
  safe (fun s' => kept s s' /\ calm s') (capture_info_n (S n) s ts t).
Proof.
  intros Hc Hq Ht Hx. pose proof Hq as (El & Ec & Ep). cbn [capture_info_n].
  unfold line_state_event_with, stop_folding_with. rewrite El. cbn [Z.eqb LS_INVALID Pos.eqb andthen].
  rewrite Ec, Ep. cbn [Z.eqb andb andthen].
  eapply safe_weaken; [by apply put_text_safe|]. intros s' [Hk Hq']. auto.
Qed.

Lemma text_ok_lit (t : string) : (String.length t <=? 511)%nat = true -> text_ok (cstr t).
Proof.
  intros Hl. apply Nat.leb_le in Hl. split; [apply bytes_ok_cstr|]. by rewrite length_cstr.
Qed.

Lemma unfold_frame_safe n s i :
  core s -> calm s -> (i < length (capture_fold_buf s))%nat ->
  safe (fun s' => (kept s s' /\ calm s') /\ length (capture_fold_buf s') = length (capture_fold_buf s))
    (unfold_frame_with (capture_info_n (S n)) s i).
Proof.
  intros Hc Hq Hi. unfold unfold_frame_with.
  assert (Hf : frame_ok (capture_fold_buf s !!! i)).
  { destruct (lookup_lt_is_Some_2 _ _ Hi) as [f Ef]. rewrite (list_lookup_total_correct _ _ _ Ef).
    by apply (Forall_lookup_1 _ _ _ _ (core_fold _ Hc) Ef). }
  set (f := capture_fold_buf s !!! i) in *. clearbody f. destruct Hf as (Ht & Hn & Hl & Hb).
  assert (Hlen : forall s', kept s s' -> length (capture_fold_buf s') = length (capture_fold_buf s)).
  { intros s' [Hc' _]. pose proof (core_fold_len _ Hc). pose proof (core_fold_len _ Hc'). lia. }
  destruct (Z.ltb_spec (f_size f) 0).
  - eapply safe_weaken; [apply info_calm; [done|done|done|by apply text_ok_lit]|].
    intros s' [Hk Hq']. auto.
  - eapply safe_weaken; [apply put_packet_safe; [done|]|].
    + unfold DATA_BUF_SIZE in Hl. split_and!; try done; lia.
    + intros s' [Hk Hq']. auto.
Qed.

Lemma unfold_frames_safe n ix s :
  core s -> calm s -> Forall (fun i => (i < length (capture_fold_buf s))%nat) ix ->
  safe (fun s' => kept s s' /\ calm s') (unfold_frames_with (capture_info_n (S n)) s ix).
Proof.
  revert s. induction ix as [|i ix IH]; intros s Hc Hq Hi; cbn [unfold_frames_with].
  { split; [by apply kept_refl|done]. }
  apply Forall_cons_1 in Hi as [Hi Hix].
  eapply safe_bind; [by apply unfold_frame_safe|]. intros s1 [[Hk Hq1] Hl].
  eapply safe_weaken; [apply IH; [apply Hk|done|by rewrite Hl]|].
  intros s2 [Hk2 Hq2]. split; [by eapply kept_trans|done].
Qed.

Lemma text_ok_folded n : text_ok (cstr "Folded " ++ dec n ++ cstr " empty frames").
Proof.
  split; [bytes_pieces|]. rewrite !length_app, !length_cstr. pose proof (length_dec n). cbn. lia.
Qed.

(** Flushing the fold buffer, with no line state pending. *)
Lemma stop_folding_safe n s :
  core s -> capture_saved_ls s = LS_INVALID ->
  safe (fun s' => kept s s' /\ calm s') (stop_folding_with (capture_info_n (S n)) s).
Proof.
  intros Hc El. unfold stop_folding_with.
  destruct (Z.eqb_spec 0 (capture_fold_count s)) as [Ec|Ec];
    [destruct (Z.eqb_spec 0 (capture_fold_buf_ptr s)) as [Ep|Ep]|]; cbn [andb].
  1: { split; [by apply kept_refl|by split_and!]. }
  all: set (s0 := s <| capture_fold_count := 0 |> <| capture_fold_buf_ptr := 0 |>).
  all: assert (H0 : core s0 /\ calm s0 /\ walk s0 = walk s
                    /\ capture_fold_buf s0 = capture_fold_buf s) by (split_and!; try done; core_set).
  all: clearbody s0; destruct H0 as (C0 & Q0 & W0 & F0).
  all: eapply safe_bind with (R := fun s1 => kept s0 s1 /\ calm s1).
  1, 3: apply safe_if; intros _;
    [apply info_calm; [done|done|apply C0|by apply text_ok_lit]|];
    apply safe_if; intros _;
    [apply info_calm; [done|done|apply C0|apply text_ok_folded]|split; [by apply kept_refl|done]].
  all: intros s1 [K1 Q1]; eapply safe_weaken; [apply unfold_frames_safe; [apply K1|done|]|].
  1, 3: pose proof (core_fold_len _ (proj1 K1)); pose proof (core_fold_ptr _ Hc);
    apply Forall_forall; intros i Hi; apply in_seq in Hi; lia.
  all: intros s2 [K2 Q2]; split; [|done]; split; [apply K2|];
    rewrite (proj2 K2), (proj2 K1); done.
Qed.

(** *** Texts *)

(** Nothing [printf] would take for a conversion. *)
Definition plain (t : list Z) : Prop := existsb (Z.eqb 37) t = false.

Lemma plain_app a b : plain a -> plain b -> plain (a ++ b).
Proof. unfold plain. intros Ha Hb. by rewrite existsb_app, Ha, Hb. Qed.

Lemma plain_digits fuel n acc : plain acc -> plain (dec_digits fuel n acc).
Proof.
  revert n acc. induction fuel as [|fuel IH]; intros n acc Ha; cbn [dec_digits]; [done|].
  assert (Hd : plain ((48 + n mod 10) :: acc)).
  { unfold plain in *. cbn [existsb]. rewrite Ha. pose proof (Z.mod_pos_bound n 10 ltac:(lia)).
    destruct (Z.eqb_spec 37 (48 + n mod 10)); [lia|done]. }
  destruct (n <? 10); [done|by apply IH].
Qed.

Lemma plain_dec n : plain (dec n).
Proof.
  unfold dec. destruct (n <? 0); [|by apply plain_digits].
  change (45 :: dec_digits 20 (- n) []) with ([45] ++ dec_digits 20 (- n) []).
  apply plain_app; [done|by apply plain_digits].
Qed.

Lemma plain_zero_pad k n : plain (zero_pad k n).
Proof.
  revert n. induction k as [|k IH]; intros n; [done|]. cbn [zero_pad]. apply plain_app; [apply IH|].
  unfold plain. cbn [existsb]. pose proof (Z.mod_pos_bound n 10 ltac:(lia)).
  destruct (Z.eqb_spec 37 (48 + n mod 10)); [lia|done].
Qed.

Lemma plain_fixed k q : plain (fixed k q).
Proof.
  unfold fixed. repeat apply plain_app; [by destruct (_ <? _)|apply plain_dec|done|apply plain_zero_pad].
Qed.

Lemma length_zero_pad k n : length (zero_pad k n) = k.
Proof. revert n. induction k as [|k IH]; intros n; [done|]. cbn [zero_pad]. rewrite length_app, IH. cbn. lia. Qed.

Lemma length_fixed q : (length (fixed 2 q) <= 25)%nat.
Proof.
  unfold fixed. rewrite !length_app, length_zero_pad. pose proof (length_dec (fixed_units 2 q / 10 ^ Z.of_nat 2)).
  destruct (q.1 <? 0); cbn [length]; lia.
Qed.

Lemma fixed_text_ok a b q :
  plain (cstr a) -> plain (cstr b) -> (String.length a + String.length b <= 10)%nat ->
  let t := cstr a ++ fixed 2 q ++ cstr b in plain t /\ (length t <= 40)%nat /\ bytes_ok t.
Proof.
  intros Ha Hb Hl t. subst t. split; [|split].
  - apply plain_app; [done|]. apply plain_app; [apply plain_fixed|done].
  - rewrite !length_app, !length_cstr. pose proof (length_fixed q). lia.
  - rewrite !bytes_ok_app. split; [apply bytes_ok_cstr|]. split; [apply bytes_ok_fixed|apply bytes_ok_cstr].
Qed.

Lemma delta_text_ok d : plain (delta_text d) /\ (length (delta_text d) <= 40)%nat /\ bytes_ok (delta_text d).
Proof. unfold delta_text. repeat case_match; apply fixed_text_ok; try reflexivity; cbn; lia. Qed.

Lemma line_state_text_ok s dp dm d :
  plain (line_state_text s dp dm d) /\ text_ok (line_state_text s dp dm d).
Proof.
  destruct (delta_text_ok d) as (Hp & Hl & Hb). unfold line_state_text.
  assert (Ht : exists t, (if d <? LS_DELTA_THRESHOLD then delta_text d else []) = t
                         /\ plain t /\ (length t <= 40)%nat /\ bytes_ok t).
  { eexists. split; [reflexivity|]. case_match; [done|]. split; [done|]. split; [cbn; lia|constructor]. }
  destruct Ht as (t & -> & Tp & Tl & Tb).
  assert (Hu : exists u, (if (dp =? 0) && (dm =? 0) then cstr "SE0"
      else if dp =? 0 then if CaptureSpeed_LS =? capture_speed s then cstr "J" else cstr "K"
      else if dm =? 0 then if CaptureSpeed_LS =? capture_speed s then cstr "K" else cstr "J"
      else cstr "Undefined (DP=" ++ dec dp ++ cstr " / DM=" ++ dec dm ++ cstr ")") = u
      /\ plain u /\ (length u <= 80)%nat /\ bytes_ok u).
  { eexists. split; [reflexivity|]. pose proof (length_dec dp). pose proof (length_dec dm).
    repeat case_match; split_and!; repeat apply plain_app; try apply plain_dec; try reflexivity;
      try (bytes_pieces; done); rewrite ?length_app, !length_cstr; cbn [String.length]; lia. }
  destruct Hu as (u & -> & Up & Ul & Ub).
  split; [by repeat apply plain_app|]. split; [rewrite !bytes_ok_app; auto with sniffer|].
  rewrite !length_app, length_cstr. cbn [String.length]. lia.
Qed.

(** *** Messages *)

(** A message with no line state pending. *)
Lemma info_idle n s ts t :
  core s -> capture_saved_ls s = LS_INVALID -> u64_ok ts -> text_ok t ->
  safe (fun s' => kept s s' /\ calm s') (capture_info_n (S (S n)) s ts t).
Proof.
  intros Hc El Ht Hx. cbn [capture_info_n]. unfold line_state_event_with at 1. rewrite El.
  cbn [Z.eqb LS_INVALID Pos.eqb andthen].
  eapply safe_bind; [by apply (stop_folding_safe n)|]. intros s1 [K1 Q1].
  eapply safe_weaken; [apply put_text_safe; [apply K1|done|done]|].
  intros s2 [K2 Q2]. split; [by eapply kept_trans|auto].
Qed.

Lemma line_state_safe n s :
  core s ->
  safe (fun s' => kept s s' /\ capture_saved_ls s' = LS_INVALID)
    (line_state_event_with (capture_info_n (S (S n))) s).
Proof.
  intros Hc. unfold line_state_event_with.
  destruct (Z.eqb_spec LS_INVALID (capture_saved_ls s)) as [E|E].
  { split; [by apply kept_refl|done]. }
  set (t := line_state_text _ _ _ _).
  pose proof (line_state_text_ok (s <| capture_saved_ls := LS_INVALID |>)
    (Z.land (Z.shiftr (capture_saved_ls s) 0) 3) (Z.land (Z.shiftr (capture_saved_ls s) 2) 3)
    (s32 (capture_ts s - capture_saved_ts s))) as [Hp Hx]. fold t in Hp, Hx. clearbody t.
  set (s0 := s <| capture_saved_ls := LS_INVALID |>).
  assert (H0 : core s0 /\ capture_saved_ls s0 = LS_INVALID /\ walk s0 = walk s
               /\ u64_ok (capture_saved_ts s0)) by (split_and!; try done; try core_set; apply Hc).
  clearbody s0. destruct H0 as (C0 & L0 & W0 & T0).
  apply safe_if; intros _.
  - split; [by split|done].
  - unfold plain in Hp. rewrite Hp. eapply safe_weaken; [by apply info_idle|].
    intros s1 [[C1 W1] Q1]. split; [split; [done|congruence]|apply Q1].
Qed.

Lemma line_state_event_safe s :
  core s -> safe (fun s' => kept s s' /\ capture_saved_ls s' = LS_INVALID) (line_state_event s).
Proof. apply (line_state_safe 0). Qed.

Lemma info_safe s ts t :
  core s -> u64_ok ts -> text_ok t -> safe (fun s' => kept s s' /\ calm s') (capture_info s ts t).
Proof.
  intros Hc Ht Hx. unfold capture_info. cbn [capture_info_n].
  eapply safe_bind; [by apply (line_state_safe 0)|]. intros s1 [K1 L1].
  eapply safe_bind; [apply (stop_folding_safe 1); [apply K1|done]|]. intros s2 [K2 Q2].
  eapply safe_weaken; [apply put_text_safe; [apply K2|done|done]|].
  intros s3 [K3 Q3]. split; [|auto]. by do 2 (eapply kept_trans; [done|]).
Qed.

(** The forms in which the events use it. *)
Lemma info_now s0 s t : kept s0 s -> text_ok t -> safe (kept s0) (capture_info s (capture_ts s) t).
Proof.
  intros K Hx. eapply safe_weaken; [apply info_safe; [apply K|apply K|done]|].
  intros s1 [K1 _]. by eapply kept_trans.
Qed.

Lemma keepalive_safe s0 s ts : kept s0 s -> u64_ok ts -> safe (kept s0) (write_keepalive s ts).
Proof.
  intros K Ht. eapply safe_weaken; [apply info_safe; [apply K|done|by apply text_ok_lit]|].
  intros s1 [K1 _]. by eapply kept_trans.
Qed.

Lemma write_safe s0 s ts d n : kept s0 s -> epb_ok ts d n -> safe (kept s0) (write_packet s ts d n).
Proof.
  intros K He. eapply safe_weaken; [apply put_packet_safe; [apply K|done]|].
  intros s1 [K1 _]. by eapply kept_trans.
Qed.

(** *** Folding *)

(** [kept] with no line state pending, as it is while frames are handled. *)
Definition still s0 s : Prop := kept s0 s /\ capture_saved_ls s = LS_INVALID.

Lemma still_info s0 s t :
  kept s0 s -> text_ok t -> safe (still s0) (capture_info s (capture_ts s) t).
Proof.
  intros K Hx. eapply safe_weaken; [apply info_safe; [apply K|apply K|done]|].
  intros s1 [K1 Q1]. split; [by eapply kept_trans|apply Q1].
Qed.

Lemma still_write s0 s ts d n :
  still s0 s -> epb_ok ts d n -> safe (still s0) (write_packet s ts d n).
Proof.
  intros [K L] He. pose proof (write_safe s0 s ts d n K He) as Hs. unfold write_packet, put in *.
  destruct (put_packet _ _ _ _); [|done]. cbn in *. by split.
Qed.

Lemma still_stop s0 s : still s0 s -> safe (fun s' => still s0 s' /\ calm s') (stop_folding s).
Proof.
  intros [K L]. eapply safe_weaken; [apply (stop_folding_safe 1); [apply K|done]|].
  intros s1 [K1 Q1]. split; [|done]. split; [by eapply kept_trans|apply Q1].
Qed.

(** Storing in the fold buffer, which has room. *)
Lemma fold_store_core s f :
  core s -> frame_ok f -> capture_fold_buf_ptr s < FOLD_BUF_SIZE ->
  exists b, set_at (capture_fold_buf s) (capture_fold_buf_ptr s) f = Some b
    /\ core (s <| capture_fold_buf := b |> <| capture_fold_buf_ptr := capture_fold_buf_ptr s + 1 |>).
Proof.
  intros Hc Hf Hp. eexists. split.
  { apply set_at_Some. pose proof (core_fold_len _ Hc). pose proof (core_fold_ptr _ Hc). lia. }
  destruct Hc. constructor; cbn; auto; try lia.
  - by rewrite length_insert.
  - by apply Forall_insert.
Qed.

Lemma fold_slot s : core s -> capture_fold_buf_ptr s < FOLD_BUF_SIZE ->
  frame_ok (capture_fold_buf s !!! Z.to_nat (capture_fold_buf_ptr s)).
Proof.
  intros Hc Hp. pose proof (core_fold_len _ Hc). pose proof (core_fold_ptr _ Hc).
  destruct (lookup_lt_is_Some_2 (capture_fold_buf s) (Z.to_nat (capture_fold_buf_ptr s))) as [f Ef]; [lia|].
  rewrite (list_lookup_total_correct _ _ _ Ef). by apply (Forall_lookup_1 _ _ _ _ (core_fold _ Hc) Ef).
Qed.

Lemma fold_packet_safe s0 s ts d n :
  still s0 s -> capture_fold_buf_ptr s < FOLD_BUF_SIZE -> epb_ok ts d n ->
  safe (still s0) (fold_packet s ts d n).
Proof.
  intros [K L] Hp (Ht & Hb & Hn & Hl). pose proof (fold_slot s (proj1 K) Hp) as (_ & _ & Fl & Fb).
  unfold fold_packet. set (f := capture_fold_buf s !!! _) in *. clearbody f.
  unfold DATA_BUF_SIZE in Fl.
  rewrite copy_in_Some by lia. cbn [mbind option_bind].
  destruct (fold_store_core s (mk_frame ts n (write_at (f_data f) 0 (take (Z.to_nat n) d))) (proj1 K))
    as (b & -> & Hc); [|done|].
  { split; [done|]. split; [cbn; lia|]. cbn [f_data]. split.
    - rewrite length_write_at; [done|]. rewrite length_take. lia.
    - apply bytes_ok_write_at; [done|by apply bytes_ok_take]. }
  cbn. split; [|done]. split; [exact Hc|apply K].
Qed.

Lemma fold_keepalive_safe s0 s ts delta :
  still s0 s -> capture_fold_buf_ptr s < FOLD_BUF_SIZE -> u64_ok ts -> 0 <= delta ->
  safe (still s0) (fold_keepalive s ts delta).
Proof.
  intros [K L] Hp Ht Hd. pose proof (fold_slot s (proj1 K) Hp) as (_ & _ & Fl & Fb).
  unfold fold_keepalive. set (f := capture_fold_buf s !!! _) in *. clearbody f.
  destruct (fold_store_core s (mk_frame ts (- delta) (f_data f)) (proj1 K)) as (b & -> & Hc); [|done|].
  { split; [done|]. split; [cbn; lia|done]. }
  cbn. split; [|done]. split; [exact Hc|apply K].
Qed.

Lemma still_limit s0 s : still s0 s -> safe (still s0) (check_capture_limit s).
Proof.
  intros [K L]. unfold check_capture_limit.
  set (s1 := s <| g_opt := (g_opt s) <| capture_limit := s64 (capture_limit (g_opt s) - 1) |> |>).
  assert (K1 : still s0 s1).
  { split; [|done]. destruct K as [Hc Hw]. split; [core_set|done]. }
  clearbody s1. apply safe_if; intros _; [|done].
  eapply safe_bind; [apply still_info; [apply K1|by apply text_ok_lit]|]. intros s2 [K2 _]. apply K2.
Qed.

(** The fold buffer emptied for the next frame. *)
Lemma still_next s0 s :
  still s0 s ->
  still s0 (s <| capture_fold_count := capture_fold_count s + 1 |> <| capture_fold_buf_ptr := 0 |>).
Proof.
  intros [[Hc Hw] L]. split; [|done]. split; [|done]. unfold FOLD_BUF_SIZE in *. core_set.
Qed.

Lemma keepalive_event_safe s0 s ts delta :
  still s0 s -> u64_ok ts -> 0 <= delta -> safe (still s0) (keepalive_event s ts delta).
Proof.
  intros K Ht Hd. unfold keepalive_event. apply safe_if; intros _; [done|].
  eapply safe_bind with (R := still s0); [|intros s1 K1; by apply still_limit].
  apply safe_if; intros _.
  { eapply safe_weaken; [apply info_safe; [apply K|done|by apply text_ok_lit]|].
    intros s1 [K1 Q1]. split; [eapply kept_trans; [apply K|done]|apply Q1]. }
  apply safe_if; intros Hp.
  - pose proof (still_next s0 s K) as K1. set (s1 := s <| capture_fold_count := _ |> <| capture_fold_buf_ptr := 0 |>) in *.
    assert (P1 : capture_fold_buf_ptr s1 = 0) by done. clearbody s1.
    eapply safe_bind with (R := fun s' => still s0 s' /\ capture_fold_buf_ptr s' = 0).
    + apply safe_if; intros _; [|done]. eapply safe_weaken; [by apply still_stop|].
      intros s2 [K2 Q2]. split; [done|apply Q2].
    + intros s2 [K2 P2]. apply fold_keepalive_safe; try done. unfold FOLD_BUF_SIZE. lia.
  - apply fold_keepalive_safe; try done. unfold FOLD_BUF_SIZE. bool_split. lia.
Qed.

(** *** Status frames *)

(** A message of literal text and one number. *)
Lemma text_ok_dec a n b :
  (String.length a + String.length b <= 400)%nat -> text_ok (cstr a ++ dec n ++ cstr b).
Proof.
  intros Hl. split; [rewrite !bytes_ok_app; split; [apply bytes_ok_cstr|];
    split; [apply bytes_ok_dec|apply bytes_ok_cstr]|].
  rewrite !length_app, !length_cstr. pose proof (length_dec n). lia.
Qed.

Lemma text_ok_app a b : text_ok a -> text_ok b -> (length a + length b <= 511)%nat -> text_ok (a ++ b).
Proof. intros [Ha _] [Hb _] Hl. split; [by apply bytes_ok_app_2|]. rewrite length_app. lia. Qed.

Lemma status_trigger_safe s0 s t : kept s0 s -> safe (kept s0) (status_trigger s t).
Proof.
  intros K. unfold status_trigger. apply safe_if; intros _; [done|].
  destruct (trigger_gate s t) as [en|]; [|apply K].
  set (s1 := s <| capture_enabled := en |> <| capture_trigger := t |>).
  assert (K1 : kept s0 s1) by (destruct K as [Hc Hw]; split; [core_set|done]). clearbody s1.
  eapply safe_bind with (R := kept s0).
  - apply info_now; [done|]. pose proof (text_ok_dec "Trigger input = " (capture_trigger s1) "" ltac:(cbn; lia)) as Hx.
    rewrite app_nil_r in Hx. exact Hx.
  - intros s2 K2. repeat (apply safe_if; intros _); try done; apply info_now; try done; by apply text_ok_lit.
Qed.

Lemma status_vbus_safe s0 s v : kept s0 s -> safe (kept s0) (status_vbus s v).
Proof.
  intros K. unfold status_vbus. apply safe_if; intros _; [done|].
  set (s1 := s <| capture_vbus := v |>).
  assert (K1 : kept s0 s1) by (destruct K as [Hc Hw]; split; [core_set|done]). clearbody s1.
  apply info_now; [done|]. destruct (capture_vbus s1 =? 0); apply text_ok_app; try by apply text_ok_lit.
  all: rewrite !length_cstr; cbn; lia.
Qed.

Lemma speed_name_ok v : text_ok (speed_name v) /\ (length (speed_name v) <= 20)%nat.
Proof.
  unfold speed_name. repeat case_match; (split; [by apply text_ok_lit|rewrite length_cstr; cbn; lia])
    || (split; [split; [constructor|cbn; lia]|cbn; lia]).
Qed.

Lemma status_speed_safe s0 s v : kept s0 s -> safe (kept s0) (status_speed s v).
Proof.
  intros K. unfold status_speed. apply safe_if; intros _; [done|].
  set (s1 := s <| capture_speed := v |>).
  assert (K1 : kept s0 s1) by (destruct K as [Hc Hw]; split; [core_set|done]). clearbody s1.
  repeat (apply safe_if; intros _); try done; apply info_now; try done; [by apply text_ok_lit|].
  destruct (speed_name_ok (capture_speed s1)) as [Hn Hl].
  apply text_ok_app; [by apply text_ok_lit|done|]. rewrite length_cstr. cbn [String.length]. lia.
Qed.

Lemma status_ls_safe s0 s ls : kept s0 s -> safe (kept s0) (status_ls s ls).
Proof.
  intros K. unfold status_ls. apply safe_if; intros _; [done|].
  set (delta := u64 (capture_ts s - capture_saved_ts s)).
  set (s1 := s <| capture_ls := ls |>).
  assert (K1 : kept s0 s1) by (destruct K as [Hc Hw]; split; [core_set|done]). clearbody s1.
  apply safe_if; intros Hcond.
  - bool_split. set (s2 := s1 <| capture_saved_ls := LS_INVALID |>).
    assert (K2 : still s0 s2) by (destruct K1 as [Hc Hw]; split; [split; [core_set|done]|done]).
    assert (Hd : s32 delta = delta).
    { unfold MIN_KEEPALIVE_DURATION, MAX_KEEPALIVE_DURATION in *. apply s32_small. lia. }
    rewrite Hd. eapply safe_weaken; [apply keepalive_event_safe; [done|apply K2|]|].
    + unfold MIN_KEEPALIVE_DURATION in *. lia.
    + intros s3 K3. apply K3.
  - eapply safe_bind; [apply line_state_event_safe, K1|]. intros s2 [K2 _].
    pose proof (kept_trans _ _ _ K1 K2) as [Hc Hw]. split; [core_set|done].
Qed.

Lemma status_event_safe s0 s ls v t sp : kept s0 s -> safe (kept s0) (status_event s ls v t sp).
Proof.
  intros K. unfold status_event.
  eapply safe_bind; [by apply status_trigger_safe|]. intros s1 K1.
  eapply safe_bind; [by apply status_vbus_safe|]. intros s2 K2.
  eapply safe_bind; [by apply status_speed_safe|]. intros s3 K3. by apply status_ls_safe.
Qed.

(** *** Data frames *)

(** The frame in the buffer is one the writer can take. *)
Lemma frame_epb s0 s :
  kept s0 s -> 0 <= capture_size s0 <= 1273 ->
  epb_ok (capture_ts s) (capture_data s) (capture_size s).
Proof.
  intros [Hc Hw] Hsz. assert (capture_size s = capture_size s0) as -> by (unfold walk in Hw; congruence).
  pose proof (core_data_len _ Hc) as Hl. unfold DATA_BUF_SIZE in Hl.
  split; [apply Hc|]. split; [apply Hc|]. lia.
Qed.

Lemma data_fold_safe s0 s e sof pid :
  still s0 s -> 0 <= capture_size s0 <= 1273 -> e = true \/ capture_fold_buf_ptr s < FOLD_BUF_SIZE ->
  safe (still s0) (data_fold s e sof pid).
Proof.
  intros K Hsz Hp. unfold data_fold.
  assert (Hnow : forall s', still s0 s' -> safe (still s0)
            (write_packet s' (capture_ts s') (capture_data s') (capture_size s'))).
  { intros s' K'. apply still_write; [done|]. by apply (frame_epb s0); [apply K'|]. }
  assert (Hfold : forall s', still s0 s' -> capture_fold_buf_ptr s' < FOLD_BUF_SIZE -> safe (still s0)
            (fold_packet s' (capture_ts s') (capture_data s') (capture_size s'))).
  { intros s' K' P'. apply fold_packet_safe; [done|done|]. by apply (frame_epb s0); [apply K'|]. }
  apply safe_if; intros He; [by apply Hnow|]. apply orb_false_iff in He as [-> _].
  destruct Hp as [|Hp]; [done|].
  apply safe_if; intros _.
  - apply safe_if; intros _; [by apply Hfold|]. apply safe_if; intros _.
    + pose proof (still_next s0 s K) as K1.
      set (s1 := s <| capture_fold_count := _ |> <| capture_fold_buf_ptr := 0 |>) in *.
      assert (P1 : capture_fold_buf_ptr s1 = 0) by done. clearbody s1.
      eapply safe_bind with (R := fun s' => still s0 s' /\ capture_fold_buf_ptr s' = 0).
      * apply safe_if; intros _; [|done]. eapply safe_weaken; [by apply still_stop|].
        intros s2 [K2 Q2]. split; [done|apply Q2].
      * intros s2 [K2 P2]. apply Hfold; [done|]. unfold FOLD_BUF_SIZE. lia.
    + eapply safe_bind; [by apply still_stop|]. intros s1 [K1 _]. by apply Hnow.
  - apply safe_if; intros _; [by apply Hfold|by apply Hnow].
Qed.

Lemma data_event_safe s : core s -> 0 <= capture_size s <= 1273 -> safe (kept s) (data_event s).
Proof.
  intros Hc Hsz. unfold data_event. apply safe_if; intros _; [by apply kept_refl|].
  eapply safe_bind; [by apply line_state_event_safe|]. intros s1 K1. change (still s s1) in K1.
  eapply safe_bind with (R := fun s' => still s s'
      /\ (capture_crc_error s || capture_data_error s = true \/ capture_fold_buf_ptr s' < FOLD_BUF_SIZE)).
  { apply safe_if; intros Hb.
    - eapply safe_weaken; [by apply still_stop|]. intros s2 [K2 (_ & _ & Q2)]. split; [done|].
      right. unfold FOLD_BUF_SIZE. lia.
    - split; [done|]. right. apply orb_false_iff in Hb as [_ Hb]. bool_split.
      pose proof (core_fold_ptr _ (proj1 (proj1 K1))). lia. }
  intros s2 [K2 P2].
  (* the messages that follow empty the fold buffer *)
  assert (Hmsg : forall s' t, still s s' -> text_ok t ->
     safe (fun s'' => still s s'' /\ (capture_crc_error s || capture_data_error s = true
             \/ capture_fold_buf_ptr s'' < FOLD_BUF_SIZE)) (capture_info s' (capture_ts s') t)).
  { intros s' t K' Hx. eapply safe_weaken; [apply info_safe; [apply K'|apply K'|done]|].
    intros s'' [K'' (L & _ & P)]. split; [split; [eapply kept_trans; [apply K'|done]|done]|].
    right. unfold FOLD_BUF_SIZE. lia. }
  eapply safe_bind; [apply safe_if; intros _; [apply Hmsg; [done|by apply text_ok_lit]|by split]|].
  intros s3 [K3 P3]. cbv beta in *.
  eapply safe_bind; [apply safe_if; intros _; [apply Hmsg; [done|by apply text_ok_lit]|by split]|].
  intros s4 [K4 P4].
  eapply safe_bind; [by apply data_fold_safe|]. intros s5 K5.
  eapply safe_weaken; [by apply still_limit|]. intros s6 K6. apply K6.
Qed.

(** *** Headers and the byte walk *)

Lemma length_hex_dump d : length (hex_dump d) = (3 * length d)%nat.
Proof. unfold hex_dump. induction d as [|b d IH]; [done|]. cbn [map concat]. rewrite length_app, IH. cbn. lia. Qed.

Lemma hex_dump_ok d : bytes_ok d -> bytes_ok (hex_dump d).
Proof.
  intros Hd. unfold hex_dump. induction Hd as [|b d Hb Hd IH]; [constructor|]. cbn [map concat].
  apply bytes_ok_app_2; [|done]. apply bytes_ok_app_2; [by apply bytes_ok_hex2|apply bytes_ok_cstr].
Qed.

Lemma desync_error_safe s0 s Q :
  kept s0 s -> 0 <= capture_size s0 <= 7 -> safe Q (desync_error s).
Proof.
  intros K Hsz. unfold desync_error.
  eapply safe_bind; [apply info_now; [done|by apply text_ok_lit]|]. intros s1 K1.
  assert (E1 : capture_size s1 = capture_size s0) by (destruct K1 as [_ Hw]; unfold walk in Hw; congruence).
  set (h := hex_dump _).
  assert (Hh : (length h <= 21)%nat).
  { subst h. rewrite length_hex_dump, length_take. lia. }
  assert (Hhb : bytes_ok h) by (apply hex_dump_ok, bytes_ok_take, (core_data _ (proj1 K1))).
  clearbody h. destruct (Z.leb_spec 256 (Z.of_nat (length h))); [lia|].
  eapply safe_bind; [apply info_now; [exact K1|]|].
  - apply text_ok_app; [by apply text_ok_lit|split; [done|lia]|rewrite length_cstr; cbn [String.length]; lia].
  - intros s2 K2. apply K2.
Qed.

Lemma check_header_safe s t z : core s -> 0 <= capture_size s <= 7 -> safe (kept s) (check_header s t z).
Proof.
  intros Hc Hsz. unfold check_header. apply safe_if; intros _; [by apply kept_refl|].
  eapply safe_bind with (R := kept s).
  { apply safe_if; intros _; [|by apply kept_refl]. apply info_now; [by apply kept_refl|].
    rewrite app_assoc, app_assoc. apply text_ok_app.
    - rewrite <- app_assoc. apply text_ok_dec. cbn. lia.
    - split; [apply bytes_ok_dec|]. pose proof (length_dec (capture_toggle s)). lia.
    - rewrite !length_app, !length_cstr. pose proof (length_dec (capture_toggle s)).
      pose proof (length_dec t). cbn [String.length]. lia. }
  intros s1 K1. eapply safe_bind with (R := kept s).
  { apply safe_if; intros _; [|done]. apply info_now; [done|by apply text_ok_lit]. }
  intros s2 K2. by apply (desync_error_safe s).
Qed.

Lemma check_data_size_safe s n :
  core s -> 0 <= capture_size s <= 7 -> safe (fun s' => kept s s' /\ 7 <= n <= 1280) (check_data_size s n).
Proof.
  intros Hc Hsz. unfold check_data_size, DATA_HEADER_SIZE, MAX_DATA_SIZE.
  apply safe_if; intros Hb; [bool_split; split; [by apply kept_refl|lia]|].
  eapply safe_bind; [apply info_now; [by apply kept_refl|apply text_ok_dec; cbn; lia]|].
  intros s1 K1. by apply (desync_error_safe s).
Qed.

(** Where the walk is between two bytes. *)
Definition at_byte s : Prop :=
  core s /\ 0 <= capture_data_ptr s
  /\ if capture_header s then capture_data_ptr s = 0 \/ capture_data_ptr s < capture_size s <= 7
     else capture_data_ptr s < capture_size s <= 1273.

(** The state a complete header leaves, its pointer not yet reset. *)
Definition ended s : Prop :=
  core s /\ if capture_header s then True else 0 < capture_size s <= 1273.

Lemma header_time_safe s ts toggle :
  core s -> safe (fun s' => core s' /\ capture_data s' = capture_data s
    /\ capture_size s' = capture_size s /\ capture_header s' = capture_header s) (header_time s ts toggle).
Proof.
  intros Hc. unfold header_time.
  set (s1 := if has _ _ then _ else _).
  assert (H1 : core s1 /\ capture_data s1 = capture_data s /\ capture_size s1 = capture_size s
               /\ capture_header s1 = capture_header s).
  { subst s1. destruct (has _ _); split_and!; try done. core_set. }
  clearbody s1. destruct H1 as (C1 & D1 & S1 & E1).
  set (s2 := s1 <| capture_ts := _ |> <| capture_toggle := _ |>).
  assert (H2 : core s2 /\ capture_data s2 = capture_data s /\ capture_size s2 = capture_size s
               /\ capture_header s2 = capture_header s).
  { subst s2. split_and!; try done. pose proof (u64_range (Z.lor (capture_ts_int s1) ts * 100)).
    destruct C1. constructor; cbn; auto. divmod. }
  change (safe (fun s' => core s' /\ capture_data s' = capture_data s
    /\ capture_size s' = capture_size s /\ capture_header s' = capture_header s)
    (if UPDATE_INTERVAL <? u64 (capture_ts s2 - capture_last_ts s2) then timeout_event s2 else Go s2)).
  clearbody s2. apply safe_if; intros _; [|done]. unfold timeout_event. apply safe_if; intros _; [|done].
  eapply safe_weaken; [apply (info_now s2); [apply kept_refl, H2|by apply text_ok_lit]|].
  intros s3 [C3 W3]. unfold walk in W3. split; [done|]. destruct H2 as (_ & D2 & S2 & E2).
  split_and!; congruence.
Qed.

Lemma header_data_safe s :
  core s -> 0 <= capture_size s <= 7 -> capture_header s = true -> safe ended (header_data s).
Proof.
  intros Hc Hsz Hh. unfold header_data.
  eapply safe_bind; [by apply check_data_size_safe|]. intros s1 [[C1 W1] Hn]. unfold DATA_HEADER_SIZE.
  set (n := Z.lor _ _) in *. clearbody n. clear Hc. cbn [safe]. split.
  - core_set.
  - cbn -[Z.eqb]. destruct (Z.eqb_spec 0 (n - 7)); [done|lia].
Qed.

Lemma header_status_safe s :
  core s -> capture_header s = true -> safe ended (header_status s).
Proof.
  intros Hc Hh. unfold header_status. eapply safe_weaken; [apply (status_event_safe s); by apply kept_refl|].
  intros s1 [C1 W1]. split; [done|]. unfold walk in W1.
  assert (capture_header s1 = true) as -> by congruence. done.
Qed.

Lemma header_complete_safe s :
  core s -> 0 <= capture_size s <= 7 -> capture_header s = true -> safe ended (header_complete s).
Proof.
  intros Hc Hsz Hh. unfold header_complete.
  eapply safe_bind; [by apply check_header_safe|]. intros s1 [C1 W1].
  assert (Hw : capture_size s1 = capture_size s /\ capture_header s1 = capture_header s)
    by (unfold walk in W1; split; congruence). destruct Hw as [S1 H1].
  eapply safe_bind; [by apply header_time_safe|]. intros s2 (C2 & _ & S2 & H2).
  apply safe_if; intros _; [apply header_status_safe|apply header_data_safe]; try done; try congruence.
Qed.

Lemma capture_sm_safe s b : at_byte s -> byte_ok b -> safe at_byte (capture_sm s b).
Proof.
  intros (Hc & Hp & Hw) Hb. unfold capture_sm.
  set (s1 := if _ && _ then _ else _).
  assert (H1 : core s1 /\ capture_data_ptr s1 = capture_data_ptr s /\ capture_header s1 = capture_header s
     /\ (capture_data_ptr s < capture_size s1)
     /\ if capture_header s then capture_size s1 <= 7 else capture_size s1 <= 1273).
  { subst s1. destruct (capture_header s) eqn:Eh; cbn [andb].
    - destruct (Z.eqb_spec 0 (capture_data_ptr s)) as [E|E].
      + unfold STATUS_HEADER_SIZE, DATA_HEADER_SIZE. split; [core_set|]. split_and!; try done; cbn; case_match; lia.
      + split_and!; try done; lia.
    - split_and!; try done; lia. }
  clearbody s1. destruct H1 as (C1 & P1 & E1 & Lt & Sz).
  assert (Hlen : capture_data_ptr s < 2048) by (destruct (capture_header s); lia).
  rewrite set_at_Some by (rewrite (core_data_len _ C1); unfold DATA_BUF_SIZE; lia).
  cbn [mbind option_bind or_wild andthen].
  set (s2 := s1 <| capture_data := _ |> <| capture_data_ptr := _ |>).
  assert (H2 : core s2 /\ capture_data_ptr s2 = capture_data_ptr s + 1 /\ capture_header s2 = capture_header s
               /\ capture_size s2 = capture_size s1).
  { subst s2. split_and!; try done; [|cbn; lia]. destruct C1. constructor; cbn; auto.
    - by rewrite length_insert.
    - by apply Forall_insert. }
  clearbody s2. destruct H2 as (C2 & P2 & E2 & S2). rewrite P2, S2.
  apply safe_if; intros Hlt; bool_split.
  { split; [done|]. rewrite P2, E2, S2. split; [lia|]. destruct (capture_header s); lia. }
  eapply safe_bind with (R := ended).
  { rewrite E2. destruct (capture_header s) eqn:Eh.
    - apply header_complete_safe; [done|rewrite S2; lia|done].
    - set (s3 := s2 <| capture_header := true |>).
      assert (C3 : core s3) by (destruct C2; constructor; cbn; auto).
      eapply safe_weaken; [apply data_event_safe; [done|change (capture_size s3) with (capture_size s2); lia]|].
      intros s4 [C4 W4]. split; [done|]. unfold walk in W4.
      assert (capture_header s4 = true) as -> by (change true with (capture_header s3); congruence). done. }
  intros s3 [C3 H3]. split; [destruct C3; constructor; cbn; auto|].
  cbn. split; [lia|]. destruct (capture_header s3); [by left|lia].
Qed.

Lemma capture_callback_safe s data : at_byte s -> bytes_ok data -> safe at_byte (capture_callback s data).
Proof.
  intros Hs Hd. revert s Hs. induction Hd as [|b data Hb Hd IH]; intros s Hs; [done|].
  cbn [capture_callback]. eapply safe_bind; [by apply capture_sm_safe|]. intros s1 H1. by apply IH.
Qed.

Lemma engine_init_core o w : I w -> core (engine_init o w).
Proof.
  intros Hw. constructor; cbn [engine_init out capture_data capture_ts capture_saved_ts capture_fold_buf
    capture_fold_buf_ptr]; try lia; [exact Hw|apply length_replicate|apply Forall_replicate; lia|..].
  - rewrite length_replicate. reflexivity.
  - apply Forall_replicate. split; [cbn; lia|]. split; [cbn; lia|]. cbn [f_data].
    split; [apply length_replicate|apply Forall_replicate; lia].
  - unfold FOLD_BUF_SIZE. lia.
Qed.

Lemma capture_announce_safe o w :
  I w -> safe at_byte (capture_announce (engine_init o w)).
Proof.
  intros Hw. pose proof (engine_init_core o w Hw) as Hc. set (s := engine_init o w) in *.
  assert (Hp : capture_data_ptr s = 0 /\ capture_header s = true) by done. clearbody s.
  assert (Hat : forall s', kept s s' -> at_byte s').
  { intros s' [C1 W1]. unfold walk in W1. split; [done|].
    assert (capture_data_ptr s' = 0) as -> by (destruct Hp; congruence).
    assert (capture_header s' = true) as -> by (destruct Hp; congruence). lia. }
  unfold capture_announce. apply safe_if; intros _.
  - eapply safe_bind with (R := kept s).
    + eapply safe_weaken; [apply info_safe; [done|lia|by apply text_ok_lit]|]. by intros s1 [K1 _].
    + intros s1 [C1 W1]. apply Hat. split; [core_set|done].
  - eapply safe_weaken; [apply info_now; [by apply kept_refl|by apply text_ok_lit]|]. exact Hat.
Qed.

(** A capture: the announcement, then the bytes of the device. *)
Definition gen1_session (o : packet_opts) (w : W) (data : list Z) : run W :=
  let> s := capture_announce (engine_init o w) in capture_callback s data.

Lemma gen1_session_safe o w data : I w -> bytes_ok data -> safe at_byte (gen1_session o w data).
Proof.
  intros Hw Hd. eapply safe_bind; [by apply capture_announce_safe|].
  intros s Hs. by apply capture_callback_safe.
Qed.

(** C24: whatever the options and the bytes the device sends, the engine touches no
    memory outside its buffers, gives [printf] no stray conversion, nests
    [capture_info] at most three deep, and hands the writer admissible records
    only, up to the point where the capture goes on or the process leaves. *)
Theorem gen1_memory_safe o w data :
  I w -> bytes_ok data ->
  match gen1_session o w data with
  | Go s => I (out s) /\ 0 <= capture_data_ptr s < 2048 /\ 0 <= capture_fold_buf_ptr s <= FOLD_BUF_SIZE
  | Leave _ w' => I w'
  | Wild => False
  end.
Proof.
  intros Hw Hd. pose proof (gen1_session_safe o w data Hw Hd) as Hs.
  destruct (gen1_session o w data) as [s|c w'|]; [|done|done]. destruct Hs as (Hc & Hp & Hb).
  split; [apply Hc|]. split; [|apply Hc]. destruct (capture_header s); lia.
Qed.
End Safe.

(** ** The file a gen1 capture leaves *)

(** The writer next to a log of the records it wrote. *)
Definition logged (takes : list Z -> list Z -> bool) : Gen1Out (list record * writer) := {|
  put_packet lw ts d n :=
    w ← packet_block takes lw.2 ts d n; Some (lw.1 ++ [Packet ts (take (Z.to_nat n) d)], w);
  put_str lw ts d n :=
    w ← str_block takes lw.2 ts d n; Some (lw.1 ++ [Info ts (take (Z.to_nat n) d)], w);
  out_fflush lw := lw;
|}.

(** The file holds the headers and the records of the log. *)
Definition filed (link : Z) (lw : list record * writer) : Prop :=
  idle (view lw.2) /\ Forall record_fits lw.1
  /\ capture_fd lw.2 = concat (map (fun b => block_bytes b.1 b.2) (gen1_blocks link lw.1)).

Lemma filed_adds link l w w' r :
  filed link (l, w) -> record_fits r -> adds w w' (record_bytes r) -> filed link (l ++ [r], w').
Proof.
  intros (Hi & Hl & Hf) Hr [Hi' Hf']. cbn [fst snd] in *. split; [done|]. split.
  - apply Forall_app_2; [done|by repeat constructor].
  - cbn [fst snd]. rewrite Hf', Hf, (gen1_blocks_app link (l ++ [r])), (gen1_blocks_app link l).
    unfold records_bytes. rewrite map_app, concat_app. cbn [map concat]. by rewrite app_nil_r, <- app_assoc.
Qed.

Lemma take_str (d : list Z) : take (length d) (d ++ [0]) = d.
Proof. by rewrite take_app_length. Qed.

Lemma put_data_take w d n : put_data w (take n d) (Z.of_nat n) = put_data w d (Z.of_nat n).
Proof. unfold put_data. by rewrite Nat2Z.id, take_take, Nat.min_id. Qed.

Lemma packet_block_take takes w ts d n :
  0 <= n <= Z.of_nat (length d) ->
  packet_block takes w ts d n
  = write_record takes w (Packet ts (take (Z.to_nat n) d)).
Proof.
  intros Hn. destruct (Z_of_nat_complete n) as [k ->]; [lia|]. cbn [write_record].
  rewrite Nat2Z.id, length_take, Nat.min_l by lia. unfold packet_block. by rewrite put_data_take.
Qed.

Lemma str_block_take takes w ts d :
  str_block takes w ts (d ++ [0]) (Z.of_nat (length d)) = write_record takes w (Info ts d).
Proof.
  cbn [write_record]. unfold str_block. rewrite <- (put_data_take _ (d ++ [0])), take_str. done.
Qed.

#[export] Instance logged_inv takes link : @Gen1Inv _ (logged takes) (filed link).
Proof.
  constructor.
  - intros [l w] lw ts d n HI (Ht & Hb & Hn & Hl) E. cbn [put_packet logged fst snd] in E.
    rewrite packet_block_take in E by lia.
    destruct (write_record _ _ _) as [w'|] eqn:Ew; [|done]. cbn in E. simplify_eq.
    assert (Hr : record_fits (Packet ts (take (Z.to_nat n) d))).
    { split; [done|]. split; [by apply bytes_ok_take|]. rewrite length_take. lia. }
    apply (filed_adds _ _ w); [done|done|]. eapply record_adds; [apply HI|done|done].
  - intros [l w] lw ts d HI Ht Hb Hl E. cbn [put_str logged fst snd] in E.
    rewrite str_block_take, Nat2Z.id, take_str in E.
    destruct (write_record _ _ _) as [w'|] eqn:Ew; [|done]. cbn in E. simplify_eq.
    assert (Hr : record_fits (Info ts d)) by (split; [done|split; [done|lia]]).
    apply (filed_adds _ _ w); [done|done|]. eapply record_adds; [apply HI|done|done].
  - done.
Qed.

(** The output of a run that has one. *)
Definition run_out {W} (m : run W) : option W :=
  match m with Go s => Some (out s) | Leave _ w => Some w | Wild => None end.

(** The file of a gen1 capture.  However the capture stops - the limit, a
    desynchronisation, a write the file does not take, or the end of the data -
    what was written so far is a readable pcapng file: the headers and the
    records, in the order the engine wrote them. *)
Theorem gen1_session_file takes o link w0 data :
  usb_link_type (Packet.capture_speed o) = Some link ->
  write_headers takes (Packet.capture_speed o) writer_open = Some w0 -> bytes_ok data ->
  exists log w, run_out (@gen1_session _ (logged takes) o ([], w0) data) = Some (log, w)
    /\ read_blocks (length log + 3) (capture_fd w) = Some (gen1_blocks link log)
    /\ map (fun r => read_record (6, record_body r)) log = map Some log.
Proof.
  intros Hl E0 Hd.
  destruct (gen1_headers_add _ _ _ _ _ writer_open_idle Hl E0) as [I0 F0].
  assert (Hf : filed link ([], w0)) by (split; [done|split; [constructor|exact F0]]).
  pose proof (@gen1_session_safe _ (logged takes) (filed link) _ o ([], w0) data Hf Hd) as Hs.
  assert (Hw : exists log w, run_out (@gen1_session _ (logged takes) o ([], w0) data) = Some (log, w)
               /\ filed link (log, w)).
  { destruct (gen1_session o ([], w0) data) as [s|c [l w]|]; [|by exists l, w|done].
    destruct Hs as [Hc _]. destruct (out s) as [l w] eqn:Eo. exists l, w. cbn. rewrite Eo.
    split; [done|]. rewrite <- Eo. apply Hc. }
  destruct Hw as (log & w & E & (Hi & Hr & Hb)). exists log, w. split; [done|].
  split; [|by apply read_session_records]. cbn [fst snd] in Hb, Hr. rewrite Hb.
  pose proof (link_type_range _ _ Hl). by apply read_gen1_blocks.
Qed.
