(* ===== verification/Gen1Equiv.v ===== *)
(** * The two engines agree

    src/packet.c is a port of the parsing logic of src/gen1/capture.c.  Without
    folding, and with a configured speed that gen2 does not substitute for the
    detected one, both engines write the same records for the same bytes, as long
    as the gen1 engine goes on and its clock does not step back. *)

From Stdlib Require Import String.
From S2P Require Import Prelude Format Pcapng Packet Gen1Writer Gen1Capture Gen1Safe.
Local Open Scope list_scope.

(** A gen1 state as a gen2 one: the same fields. *)
Definition to_packet {W} (s : engine W) : packet W := {|
  opts := g_opt s; Packet.out := out s; done := false;
  Packet.capture_data := capture_data s; Packet.capture_data_ptr := capture_data_ptr s;
  Packet.capture_size := capture_size s; Packet.capture_header := capture_header s;
  Packet.capture_status := capture_status s; Packet.capture_toggle := capture_toggle s;
  Packet.capture_ls := capture_ls s; Packet.capture_vbus := capture_vbus s;
  capture_trigger_input := capture_trigger s; capture_speed_in := capture_speed s;
  Packet.capture_enabled := capture_enabled s; Packet.capture_ts_int := capture_ts_int s;
  Packet.capture_ts := capture_ts s; Packet.capture_last_ts := capture_last_ts s;
  Packet.capture_overflow := capture_overflow s; Packet.capture_crc_error := capture_crc_error s;
  Packet.capture_data_error := capture_data_error s; Packet.capture_duration := capture_duration s;
  Packet.capture_fold_buf := capture_fold_buf s;
  Packet.capture_fold_buf_ptr := capture_fold_buf_ptr s;
  Packet.capture_fold_count := capture_fold_count s;
  Packet.capture_saved_ls := capture_saved_ls s; Packet.capture_saved_ts := capture_saved_ts s
|}.

Abbreviation eng := (engine (list record)).
Implicit Types s : eng.

(** Nothing is folded, and the detected speed is what both engines use. *)
Record plain_mode s : Prop := {
  pm_count : capture_fold_count s = 0;
  pm_ptr : capture_fold_buf_ptr s = 0;
  pm_fold : fold_empty (g_opt s) = false;
  pm_speed : Packet.capture_speed (g_opt s) = CaptureSpeed_Reset
             \/ Packet.capture_speed (g_opt s) = CaptureSpeed_LS;
}.

(** A gen1 run and a gen2 step that agree, as far as the gen1 run goes. *)
Definition sim (m : run (list record)) (r : option (packet (list record))) : Prop :=
  match m with Go s => r = Some (to_packet s) /\ plain_mode s | _ => True end.

Lemma sim_bind m r f g :
  sim m r -> (forall s, m = Go s -> plain_mode s -> sim (f s) (g (to_packet s))) ->
  sim (andthen m f) (r ≫= g).
Proof. destruct m as [s| |]; cbn; [|done..]. intros [-> Hp] Hf. cbn. by apply Hf. Qed.

Lemma sim_pure s : plain_mode s -> sim (Go s) (Some (to_packet s)).
Proof. by split. Qed.

Lemma sim_if (b : bool) m1 m2 r1 r2 :
  (b = true -> sim m1 r1) -> (b = false -> sim m2 r2) -> sim (if b then m1 else m2) (if b then r1 else r2).
Proof. destruct b; auto. Qed.

Lemma effective_speed_plain s : plain_mode s -> effective_speed (to_packet s) = capture_speed s.
Proof.
  intros Hp. unfold effective_speed. cbn [opts to_packet capture_speed_in].
  destruct (pm_speed _ Hp) as [-> | ->]; cbn; by rewrite ?andb_false_r.
Qed.

Lemma stop_plain n s : plain_mode s -> stop_folding_with (capture_info_n n) s = Go s.
Proof. intros [Ec Ep _ _]. unfold stop_folding_with. by rewrite Ec, Ep. Qed.

Lemma log_str l ts t :
  (length t <= 511)%nat ->
  put_str l ts (take 511 t ++ [0]) (Z.of_nat (length t)) = Some (l ++ [Info ts t]).
Proof.
  intros Hl. cbn [put_str gen1_log]. by rewrite (take_ge t), Nat2Z.id, take_str by lia.
Qed.

(** A message with no line state pending. *)
Lemma info_plain_calm n s ts t :
  plain_mode s -> capture_saved_ls s = LS_INVALID -> (length t <= 511)%nat ->
  capture_info_n (S n) s ts t
  = Go (s <| out := out s ++ [Info ts t] |> <| capture_last_ts := ts |>).
Proof.
  intros Hp El Hl. cbn [capture_info_n]. unfold line_state_event_with. rewrite El.
  cbn [Z.eqb LS_INVALID Pos.eqb andthen]. rewrite stop_plain by done. cbn [andthen].
  destruct (Z.ltb_spec 512 (Z.of_nat (length t))); [lia|].
  unfold write_str, put. by rewrite log_str.
Qed.

Lemma plain_saved s v : plain_mode s -> plain_mode (s <| capture_saved_ls := v |>).
Proof. intros []. by constructor. Qed.

Lemma line_state_plain n s :
  plain_mode s ->
  exists s', line_state_event_with (capture_info_n (S n)) s = Go s'
    /\ plain_mode s' /\ capture_saved_ls s' = LS_INVALID
    /\ to_packet s' = noted (to_packet s) (flushed (to_packet s)) (flushed_ts (to_packet s)).
Proof.
  intros Hp. unfold line_state_event_with, flushed, flushed_ts.
  change (Packet.capture_saved_ls (to_packet s)) with (capture_saved_ls s).
  change (opts (to_packet s)) with (g_opt s).
  destruct (Z.eqb_spec LS_INVALID (capture_saved_ls s)) as [E|E]; cbn [orb].
  { exists s. split_and!; try done. unfold noted. destruct s. cbn in E. by subst. }
  change (g_opt (s <| capture_saved_ls := LS_INVALID |>)) with (g_opt s).
  destruct (exclude_line_state (g_opt s)).
  { exists (s <| capture_saved_ls := LS_INVALID |>). split; [done|]. split; [by apply plain_saved|].
    by destruct s. }
  change (Packet.capture_ts (to_packet s)) with (capture_ts s).
  change (Packet.capture_saved_ts (to_packet s)) with (capture_saved_ts s).
  change (Packet.out (to_packet s)) with (out s).
  set (dp := Z.land (Z.shiftr (capture_saved_ls s) 0) 3).
  set (dm := Z.land (Z.shiftr (capture_saved_ls s) 2) 3).
  set (d := s32 (capture_ts s - capture_saved_ts s)).
  pose (s1 := s <| capture_saved_ls := LS_INVALID |>).
  assert (Et : Packet.line_state_text (to_packet s) dp dm d = line_state_text s1 dp dm d).
  { unfold line_state_text, Packet.line_state_text. by rewrite effective_speed_plain. }
  rewrite Et. destruct (line_state_text_ok s1 dp dm d) as [Hpl [_ Hl]]. unfold plain in Hpl.
  assert (P1 : plain_mode s1) by by apply plain_saved.
  change (s <| capture_saved_ls := LS_INVALID |>) with s1.
  change (capture_saved_ts s) with (capture_saved_ts s1).
  clear Et. set (t := line_state_text s1 dp dm d) in *. clearbody t. cbv zeta. rewrite Hpl.
  rewrite info_plain_calm by done.
  eexists. split; [reflexivity|]. split; [destruct P1; by constructor|]. split; [done|].
  cbn [out_info log_out]. rewrite Z.min_l, Nat2Z.id, firstn_all by lia. reflexivity.
Qed.

(** One more record on both sides. *)
Lemma to_packet_record s (p : packet (list record)) w ts0 r ts :
  to_packet s = noted p w ts0 ->
  to_packet (s <| out := out s ++ [r] |> <| capture_last_ts := ts |>) = noted p (w ++ [r]) ts.
Proof.
  intros E. change (to_packet (s <| out := out s ++ [r] |> <| capture_last_ts := ts |>))
    with ((to_packet s) <| Packet.out := Packet.out (to_packet s) ++ [r] |> <| Packet.capture_last_ts := ts |>).
  by rewrite E.
Qed.

Lemma info_plain s ts t :
  plain_mode s -> (length t <= 511)%nat ->
  sim (capture_info s ts t) (Some (Packet.capture_info (to_packet s) ts t)).
Proof.
  intros Hp Hl. unfold capture_info. cbn [capture_info_n].
  destruct (line_state_plain 1 s Hp) as (s1 & E & Hp1 & L1 & T1). cbn [capture_info_n] in E. rewrite E.
  cbn [andthen]. pose proof (stop_plain 2 s1 Hp1) as Es. cbn [capture_info_n] in Es. rewrite Es.
  cbn [andthen]. destruct (Z.ltb_spec 512 (Z.of_nat (length t))); [lia|].
  unfold write_str, put. rewrite log_str by done. cbn [andthen sim].
  split; [|destruct Hp1; by constructor]. f_equal.
  rewrite capture_info_eq, Z.min_l by lia. cbn [out_info log_out]. rewrite Nat2Z.id, firstn_all.
  symmetry. exact (to_packet_record s1 _ _ _ (Info ts t) ts T1).
Qed.

Lemma line_state_plain_event s :
  plain_mode s -> exists s', line_state_event s = Go s' /\ plain_mode s'
    /\ to_packet s' = Packet.line_state_event (to_packet s).
Proof.
  intros Hp. destruct (line_state_plain 1 s Hp) as (s' & E & P' & _ & T). exists s'.
  split; [exact E|]. split; [done|]. by rewrite line_state_event_eq.
Qed.

Lemma sim_info s ts t :
  plain_mode s -> text_ok t ->
  sim (capture_info s ts t) (Some (Packet.capture_info (to_packet s) ts t)).
Proof. intros Hp [_ Hl]. by apply info_plain. Qed.

Lemma sim_write s ts d n :
  plain_mode s -> sim (write_packet s ts d n) (Some (Packet.write_packet (to_packet s) ts d n)).
Proof. intros []. by split; [|constructor]. Qed.

Lemma sim_limit s :
  plain_mode s -> sim (check_capture_limit s) (Some (Packet.check_capture_limit (to_packet s))).
Proof.
  intros Hp. unfold check_capture_limit, Packet.check_capture_limit.
  set (s1 := s <| g_opt := (g_opt s) <| capture_limit := s64 (capture_limit (g_opt s) - 1) |> |>).
  change ((to_packet s) <| opts := _ |>) with (to_packet s1).
  change (opts (to_packet s1)) with (g_opt s1).
  destruct (capture_limit (g_opt s1) =? 0).
  - destruct (capture_info s1 _ _); done.
  - apply sim_pure. destruct Hp. by constructor.
Qed.

Lemma sim_keepalive s ts d :
  plain_mode s -> sim (keepalive_event s ts d) (Packet.keepalive_event (to_packet s) ts d).
Proof.
  intros Hp. unfold keepalive_event, Packet.keepalive_event.
  change (Packet.capture_enabled (to_packet s)) with (capture_enabled s).
  apply sim_if; intros _; [by apply sim_pure|].
  change (opts (to_packet s)) with (g_opt s). rewrite (pm_fold _ Hp). cbn [negb].
  eapply (sim_bind _ (Some (Packet.write_keepalive (to_packet s) ts))).
  - apply sim_info; [done|by apply text_ok_lit].
  - intros s1 _ P1. by apply sim_limit.
Qed.

(** ** Status frames *)

(** The gap since the saved line state, where the engines read it differently. *)
Definition gap_ok s : Prop :=
  capture_saved_ls s = LS_SE0 -> u64 (capture_ts s - capture_saved_ts s) < 2147483648.

Lemma info_gap s ts t s' : plain_mode s -> text_ok t -> capture_info s ts t = Go s' -> gap_ok s'.
Proof.
  intros Hp Hx E. pose proof (sim_info s ts t Hp Hx) as Hs. rewrite E in Hs. destruct Hs as [Es _].
  apply (inj Some) in Es. rewrite capture_info_eq in Es.
  apply (f_equal Packet.capture_saved_ls) in Es. intros L. cbn in Es. unfold LS_SE0 in L.
  unfold noted, LS_INVALID in Es. cbn in Es. lia.
Qed.

(** Agreement that keeps the gap. *)
Definition sim_gap (m : run (list record)) (r : option (packet (list record))) : Prop :=
  sim m r /\ forall s, m = Go s -> gap_ok s.

Lemma sim_gap_pure s : plain_mode s -> gap_ok s -> sim_gap (Go s) (Some (to_packet s)).
Proof. intros Hp Hg. split; [by apply sim_pure|]. by intros s' [= <-]. Qed.

Lemma sim_gap_info s t :
  plain_mode s -> text_ok t ->
  sim_gap (capture_info s (capture_ts s) t)
    (Some (Packet.capture_info (to_packet s) (Packet.capture_ts (to_packet s)) t)).
Proof. intros Hp Hx. split; [by apply sim_info|]. intros s'. by apply info_gap. Qed.

Lemma sim_gap_bind m r f g :
  sim_gap m r -> (forall s, plain_mode s -> gap_ok s -> sim_gap (f s) (g (to_packet s))) ->
  sim_gap (andthen m f) (r ≫= g).
Proof.
  intros [Hs Hg] Hf. destruct m as [s| |]; cbn in *; [|by split..].
  destruct Hs as [-> Hp]. apply Hf; [done|by apply Hg].
Qed.

Lemma text_trigger n : text_ok (cstr "Trigger input = " ++ dec n).
Proof.
  pose proof (text_ok_dec "Trigger input = " n "" ltac:(cbn; lia)) as Hx. by rewrite app_nil_r in Hx.
Qed.

Lemma text_vbus (b : bool) : text_ok (cstr "VBUS " ++ if b then cstr "OFF" else cstr "ON").
Proof. destruct b; (apply text_ok_app; [by apply text_ok_lit..|rewrite !length_cstr; cbn; lia]). Qed.

Lemma text_speed v : text_ok (cstr "Detected speed: " ++ speed_name v).
Proof.
  destruct (speed_name_ok v) as [Hn Hl]. apply text_ok_app; [by apply text_ok_lit|done|].
  rewrite length_cstr. cbn [String.length]. lia.
Qed.

Lemma sim_trigger s t :
  plain_mode s -> gap_ok s -> sim_gap (status_trigger s t) (Packet.status_trigger (to_packet s) t).
Proof.
  intros Hp Hg. unfold status_trigger, Packet.status_trigger.
  change (capture_trigger_input (to_packet s)) with (capture_trigger s).
  destruct (capture_trigger s =? t); [by apply sim_gap_pure|].
  change (Packet.trigger_gate (to_packet s) t) with (trigger_gate s t).
  destruct (trigger_gate s t) as [en|]; [|by split].
  set (s1 := s <| capture_enabled := en |> <| capture_trigger := t |>).
  assert (P1 : plain_mode s1) by (destruct Hp; by constructor).
  change (Packet.capture_enabled (to_packet s)) with (capture_enabled s).
  change ((to_packet s) <| Packet.capture_enabled := en |> <| capture_trigger_input := t |>) with (to_packet s1).
  change (capture_trigger_input (to_packet s1)) with (capture_trigger s1).
  cbv zeta. clearbody s1.
  refine (sim_gap_bind _ (Some (Packet.capture_info (to_packet s1) _ _)) _
            (fun p => Some
               (if Packet.capture_enabled p && negb (capture_enabled s)
                then Packet.capture_info p (Packet.capture_ts p) (cstr "Starting capture")
                else if capture_enabled s && negb (Packet.capture_enabled p)
                then Packet.capture_info p (Packet.capture_ts p) (cstr "Waiting for a trigger")
                else p)) _ _).
  { apply sim_gap_info; [done|apply text_trigger]. }
  intros s2 P2 G2. change (Packet.capture_enabled (to_packet s2)) with (capture_enabled s2).
  destruct (capture_enabled s2 && negb (capture_enabled s)); [apply sim_gap_info; [done|by apply text_ok_lit]|].
  destruct (capture_enabled s && negb (capture_enabled s2)); [apply sim_gap_info; [done|by apply text_ok_lit]|].
  by apply sim_gap_pure.
Qed.

Lemma sim_vbus s v :
  plain_mode s -> gap_ok s -> sim_gap (status_vbus s v) (Some (Packet.status_vbus (to_packet s) v)).
Proof.
  intros Hp Hg. unfold status_vbus, Packet.status_vbus.
  change (Packet.capture_vbus (to_packet s)) with (capture_vbus s).
  destruct (capture_vbus s =? v); [by apply sim_gap_pure|].
  set (s1 := s <| capture_vbus := v |>).
  assert (P1 : plain_mode s1) by (destruct Hp; by constructor).
  change ((to_packet s) <| Packet.capture_vbus := v |>) with (to_packet s1).
  apply sim_gap_info; [done|apply text_vbus].
Qed.

Lemma sim_speed s v :
  plain_mode s -> gap_ok s -> sim_gap (status_speed s v) (Some (Packet.status_speed (to_packet s) v)).
Proof.
  intros Hp Hg. unfold status_speed, Packet.status_speed.
  change (capture_speed_in (to_packet s)) with (capture_speed s).
  destruct (capture_speed s =? v); [by apply sim_gap_pure|].
  set (s1 := s <| capture_speed := v |>).
  assert (P1 : plain_mode s1) by (destruct Hp; by constructor).
  assert (G1 : gap_ok s1) by exact Hg.
  change ((to_packet s) <| capture_speed_in := v |>) with (to_packet s1).
  change (Packet.capture_enabled (to_packet s1)) with (capture_enabled s1).
  destruct (capture_enabled s1); [|by apply sim_gap_pure].
  destruct (CaptureSpeed_Reset =? v); apply sim_gap_info; [done|by apply text_ok_lit|done|apply text_speed].
Qed.

Lemma sim_ls s ls :
  plain_mode s -> gap_ok s -> sim (status_ls s ls) (Packet.status_ls (to_packet s) ls).
Proof.
  intros Hp Hg. unfold status_ls, Packet.status_ls. cbv zeta.
  change (Packet.capture_ls (to_packet s)) with (capture_ls s).
  destruct (capture_ls s =? ls); [by apply sim_pure|].
  change (Packet.capture_ts (to_packet s)) with (capture_ts s).
  change (Packet.capture_saved_ts (to_packet s)) with (capture_saved_ts s).
  set (d := u64 (capture_ts s - capture_saved_ts s)) in *.
  set (s1 := s <| capture_ls := ls |>).
  assert (P1 : plain_mode s1) by (destruct Hp; by constructor).
  change ((to_packet s) <| Packet.capture_ls := ls |>) with (to_packet s1).
  rewrite effective_speed_plain by done.
  change (Packet.capture_saved_ls (to_packet s1)) with (capture_saved_ls s1).
  assert (Ec : (CaptureSpeed_LS =? capture_speed s1) && (LS_SE0 =? capture_saved_ls s1) && (LS_J3 =? ls)
       && (MIN_KEEPALIVE_DURATION <? s32 d) && (s32 d <? MAX_KEEPALIVE_DURATION)
     = (CaptureSpeed_LS =? capture_speed s1) && (LS_SE0 =? capture_saved_ls s1) && (LS_J3 =? ls)
       && (MIN_KEEPALIVE_DURATION <? d) && (d <? MAX_KEEPALIVE_DURATION)).
  { destruct (Z.eqb_spec LS_SE0 (capture_saved_ls s1)) as [E|E]; [|by rewrite !andb_false_r].
    assert (Hd : d < 2147483648) by (apply Hg; by rewrite E).
    rewrite (s32_small d); [done|]. pose proof (u64_range (capture_ts s - capture_saved_ts s)). lia. }
  rewrite Ec. clear Ec. match goal with |- sim (if ?b then _ else _) _ => destruct b end.
  - assert (P2 : plain_mode (s1 <| capture_saved_ls := LS_INVALID |>)) by by apply plain_saved.
    exact (sim_keepalive _ (capture_saved_ts s1) (s32 d) P2).
  - destruct (line_state_plain_event s1 P1) as (s2 & -> & P2 & T2). cbn [andthen]. rewrite <- T2.
    split; [done|]. destruct P2. by constructor.
Qed.

Lemma sim_status s ls v t sp :
  plain_mode s -> gap_ok s ->
  sim (status_event s ls v t sp) (Packet.status_event (to_packet s) ls v t sp).
Proof.
  intros Hp Hg. unfold status_event, Packet.status_event.
  destruct (sim_trigger s t Hp Hg) as [St Gt]. eapply sim_bind; [exact St|]. intros s1 E1 P1.
  destruct (sim_vbus s1 v P1 (Gt _ E1)) as [Sv Gv].
  refine (sim_bind _ (Some (Packet.status_vbus (to_packet s1) v)) _
            (fun p => Packet.status_ls (Packet.status_speed p sp) ls) Sv _). intros s2 E2 P2.
  destruct (sim_speed s2 sp P2 (Gv _ E2)) as [Sp Gp].
  refine (sim_bind _ (Some (Packet.status_speed (to_packet s2) sp)) _
            (fun p => Packet.status_ls p ls) Sp _). intros s3 E3 P3.
  apply sim_ls; [done|by apply Gp].
Qed.

(** ** Data frames *)

Lemma sim_data s : plain_mode s -> sim (data_event s) (Packet.data_event (to_packet s)).
Proof.
  intros Hp. unfold data_event, Packet.data_event. cbv zeta. rewrite effective_speed_plain by done.
  change (Packet.capture_crc_error (to_packet s)) with (capture_crc_error s).
  change (Packet.capture_data_error (to_packet s)) with (capture_data_error s).
  change (Packet.capture_data (to_packet s)) with (capture_data s).
  change (Packet.capture_enabled (to_packet s)) with (capture_enabled s).
  set (e := capture_crc_error s || capture_data_error s).
  set (sof := negb (CaptureSpeed_LS =? capture_speed s)). set (pid := capture_data s !!! 0%nat).
  destruct (negb (capture_enabled s)); [by apply sim_pure|].
  destruct (line_state_plain_event s Hp) as (s1 & -> & P1 & <-). cbn [andthen].
  assert (Hstop : forall b : bool, (if b then stop_folding s1 else Go s1) = Go s1).
  { intros []; [by apply (stop_plain 2)|done]. }
  rewrite Hstop. cbn [andthen].
  assert (Hstop2 : forall b : bool, (if b then Packet.stop_folding (to_packet s1) else to_packet s1) = to_packet s1).
  { intros []; [|done]. unfold Packet.stop_folding.
    change (Packet.capture_fold_count (to_packet s1)) with (capture_fold_count s1).
    change (Packet.capture_fold_buf_ptr (to_packet s1)) with (capture_fold_buf_ptr s1).
    by rewrite (pm_count _ P1), (pm_ptr _ P1). }
  rewrite Hstop2. clear Hstop Hstop2.
  change (Packet.capture_overflow (to_packet s1)) with (capture_overflow s1).
  assert (Hopt : forall (b : bool) s t, plain_mode s -> text_ok t ->
    sim (if b then capture_info s (capture_ts s) t else Go s)
      (Some (if b then Packet.capture_info (to_packet s) (Packet.capture_ts (to_packet s)) t else to_packet s))).
  { intros [] s' t' P' Hx; [by apply sim_info|by apply sim_pure]. }
  refine (sim_bind _ (Some (if capture_overflow s1 then _ else _)) _
    (fun p : packet (list record) => let p := if Packet.capture_data_error p
                       then Packet.capture_info p (Packet.capture_ts p) (cstr "USB PHY error") else p in
              Packet.data_fold p e sof pid ≫= fun p => Some (Packet.check_capture_limit (W:=list record) p)) (Hopt _ _ _ P1 _) _).
  { by apply text_ok_lit. }
  intros s2 _ P2. cbv zeta.
  change (Packet.capture_data_error (to_packet s2)) with (capture_data_error s2).
  refine (sim_bind _ (Some (if capture_data_error s2 then _ else _)) _
    (fun p : packet (list record) => Packet.data_fold p e sof pid ≫= fun p => Some (Packet.check_capture_limit (W:=list record) p)) (Hopt _ _ _ P2 _) _).
  { by apply text_ok_lit. }
  intros s3 _ P3. apply (sim_bind _ (Packet.data_fold (to_packet s3) e sof pid)).
  - unfold data_fold, Packet.data_fold. change (opts (to_packet s3)) with (g_opt s3).
    rewrite (pm_fold _ P3). cbn [negb]. rewrite orb_true_r. by apply sim_write.
  - intros s4 _ P4. by apply sim_limit.
Qed.

(** ** Headers *)

(** A desynchronisation ends a gen1 capture. *)
Lemma desync_ends s s' : desync_error s <> Go s'.
Proof.
  unfold desync_error.
  destruct (capture_info s (capture_ts s) _) as [s1| |]; cbn [andthen]; [|done..].
  destruct (256 <=? _); [done|].
  match goal with |- andthen ?m _ <> _ => by destruct m end.
Qed.

Lemma desync_no_sim s r : sim (desync_error s) r.
Proof. pose proof (desync_ends s) as Hd. destruct (desync_error s) as [s'| |]; [|done..]. by destruct (Hd s'). Qed.

Lemma bind_no_sim m f r : (forall s, m = Go s -> sim (f s) r) -> sim (andthen m f) r.
Proof. destruct m; cbn; auto. Qed.

Lemma sim_check_header s t z :
  plain_mode s -> sim (check_header s t z) (Some (Packet.check_header (to_packet s) t z)).
Proof.
  intros Hp. unfold check_header, Packet.check_header.
  change (Packet.capture_toggle (to_packet s)) with (capture_toggle s).
  destruct (_ && _); [by apply sim_pure|].
  apply bind_no_sim. intros s1 _. apply bind_no_sim. intros s2 _. apply desync_no_sim.
Qed.

(** The clock has not stepped back behind the last record, and the gap is small
    where it matters. *)
Definition clock_ok (last saved_ts saved_ls ts : Z) : bool :=
  (u64 (ts - last) <? 9223372036854775808)
  && (negb (saved_ls =? LS_SE0) || (u64 (ts - saved_ts) <? 2147483648)).

Lemma clock_ok_spec last saved_ts saved_ls ts :
  clock_ok last saved_ts saved_ls ts = true ->
  u64 (ts - last) < 9223372036854775808
  /\ (saved_ls = LS_SE0 -> u64 (ts - saved_ts) < 2147483648).
Proof.
  unfold clock_ok. intros Hc. apply andb_true_iff in Hc as [H1 H2]. split; [by bool_split|].
  intros ->. rewrite Z.eqb_refl in H2. cbn in H2. by bool_split.
Qed.

(** The state with the time of a complete header. *)
Definition header_clock s (ts toggle : Z) : eng :=
  let s := if has (capture_data s !!! 0%nat) HEADER_TS_OVERFLOW
           then s <| capture_ts_int := u64 (capture_ts_int s + 0x100000) |> else s in
  let s := s <| capture_ts := u64 (Z.lor (capture_ts_int s) ts * 100) / 6 |> in
  s <| capture_toggle := 1 - toggle |>.

Lemma sim_header_time s ts toggle :
  plain_mode s ->
  clock_ok (capture_last_ts s) (capture_saved_ts s) (capture_saved_ls s)
    (capture_ts (header_clock s ts toggle)) = true ->
  sim_gap (header_time s ts toggle) (Some (Packet.header_time (to_packet s) ts toggle)).
Proof.
  intros Hp Hck. apply clock_ok_spec in Hck as [Hc Hg]. set (s1 := header_clock s ts toggle) in *.
  assert (H1 : plain_mode s1 /\ gap_ok s1 /\ capture_last_ts s1 = capture_last_ts s).
  { unfold s1, header_clock in *. destruct (has _ _); (split; [destruct Hp; by constructor|by split]). }
  assert (E : header_time s ts toggle
    = if UPDATE_INTERVAL <? u64 (capture_ts s1 - capture_last_ts s1) then timeout_event s1 else Go s1)
    by reflexivity.
  assert (E2 : Packet.header_time (to_packet s) ts toggle
    = if UPDATE_INTERVAL <? s64 (u64 (capture_ts s1 - capture_last_ts s1))
      then Packet.timeout_event (to_packet s1) else to_packet s1).
  { unfold s1, header_clock, Packet.header_time.
    change (Packet.capture_data (to_packet s)) with (capture_data s).
    by destruct (has (capture_data s !!! 0%nat) HEADER_TS_OVERFLOW). }
  rewrite E, E2. clear E E2. clearbody s1. destruct H1 as (P1 & G1 & L1). rewrite L1.
  pose proof (u64_range (capture_ts s1 - capture_last_ts s)).
  rewrite s64_small by lia. unfold timeout_event, Packet.timeout_event.
  change (Packet.capture_enabled (to_packet s1)) with (capture_enabled s1).
  destruct (UPDATE_INTERVAL <? _); [|by apply sim_gap_pure].
  destruct (capture_enabled s1); [|by apply sim_gap_pure].
  apply sim_gap_info; [done|by apply text_ok_lit].
Qed.

(** Both data branches leave the pointer at the start of the payload. *)
Definition rewind s : eng := s <| capture_data_ptr := 0 |>.

Lemma sim_header_data s :
  plain_mode s -> sim (andthen (header_data s) (fun s => Go (rewind s))) (Some (Packet.header_data (to_packet s))).
Proof.
  intros Hp. unfold header_data, Packet.header_data. cbv zeta.
  change (Packet.capture_data (to_packet s)) with (capture_data s).
  set (n := Z.lor _ _). unfold check_data_size.
  destruct (Z.leb_spec DATA_HEADER_SIZE n), (Z.leb_spec n MAX_DATA_SIZE); cbn [andb].
  2-4: destruct (capture_info s (capture_ts s) _) as [s1| |]; cbn [andthen]; [|done..];
    pose proof (desync_ends s1) as Hd; destruct (desync_error s1) as [s2| |]; [|done..];
    by destruct (Hd s2).
  destruct (Z.ltb_spec n DATA_HEADER_SIZE); [lia|]. destruct (Z.ltb_spec MAX_DATA_SIZE n); [lia|].
  cbn [orb andthen sim]. split; [reflexivity|]. destruct Hp. by constructor.
Qed.

Lemma sim_header_status s :
  plain_mode s -> gap_ok s ->
  sim (andthen (header_status s) (fun s => Go (rewind s))) (Packet.header_status (to_packet s)).
Proof.
  intros Hp Hg. unfold header_status, Packet.header_status. cbv zeta.
  change (Packet.capture_data (to_packet s)) with (capture_data s).
  apply (sim_bind _ (Packet.status_event (to_packet s) _ _ _ _)); [by apply sim_status|].
  intros s1 _ P1. split; [reflexivity|]. destruct P1. by constructor.
Qed.

#[export] Instance log_any : Gen1Inv (fun _ : list record => True).
Proof. by constructor. Qed.

Abbreviation any := (fun _ : list record => True).

Lemma check_header_same s t z s' : check_header s t z = Go s' -> s' = s.
Proof.
  unfold check_header. destruct (_ && _); [by intros [= ->]|].
  destruct (if negb (t =? _) then _ else _) as [s1| |]; cbn [andthen]; [|done..].
  destruct (if negb (z =? 0) then _ else _) as [s2| |]; cbn [andthen]; [|done..].
  intros E. by apply desync_ends in E.
Qed.

Lemma header_time_ts s ts toggle s' :
  plain_mode s -> header_time s ts toggle = Go s' -> capture_ts s' = capture_ts (header_clock s ts toggle).
Proof.
  intros Hp. set (s1 := header_clock s ts toggle).
  assert (P1 : plain_mode s1).
  { unfold s1, header_clock. destruct (has _ _); destruct Hp; by constructor. }
  assert (E : header_time s ts toggle
    = if UPDATE_INTERVAL <? u64 (capture_ts s1 - capture_last_ts s1) then timeout_event s1 else Go s1)
    by reflexivity.
  rewrite E. clear E. clearbody s1. unfold timeout_event.
  destruct (_ <? _); [|by intros [= ->]]. destruct (capture_enabled s1); [|by intros [= ->]].
  intros E. pose proof (sim_info s1 (capture_ts s1) (cstr "Periodic update") P1 ltac:(by apply text_ok_lit)) as Hs.
  rewrite E in Hs. destruct Hs as [Es _]. apply (inj Some) in Es. rewrite capture_info_eq in Es.
  by apply (f_equal Packet.capture_ts) in Es.
Qed.

Lemma header_status_ts s s' :
  core any s -> header_status s = Go s' -> capture_ts s' = capture_ts s.
Proof.
  intros Hc E.
  pose proof (status_event_safe any s s (Z.land (capture_data s !!! 3%nat) HEADER_LS_MASK)
    (if has (capture_data s !!! 3%nat) HEADER_VBUS then 1 else 0)
    (if has (capture_data s !!! 3%nat) HEADER_TRIGGER then 1 else 0)
    (Z.land (Z.shiftr (capture_data s !!! 3%nat) HEADER_SPEED_OFFS) HEADER_SPEED_MASK)
    (kept_refl any s Hc)) as Hs.
  unfold header_status in E. rewrite E in Hs. destruct Hs as [_ Hw]. unfold walk in Hw. congruence.
Qed.

Lemma header_data_ts s s' : header_data s = Go s' -> capture_ts s' = capture_ts s.
Proof.
  unfold header_data, check_data_size. destruct (_ && _).
  - by intros [= <-].
  - destruct (capture_info s _ _) as [s1| |]; cbn [andthen]; [|done..].
    pose proof (desync_ends s1) as Hd. destruct (desync_error s1) as [s2| |]; [|done..]. by destruct (Hd s2).
Qed.

Lemma sim_header_complete s :
  core any s -> plain_mode s ->
  (forall s', header_complete s = Go s' ->
     clock_ok (capture_last_ts s) (capture_saved_ts s) (capture_saved_ls s) (capture_ts s') = true) ->
  sim (andthen (header_complete s) (fun s => Go (rewind s))) (Packet.header_complete (to_packet s)).
Proof.
  intros Hc Hp Hck. unfold header_complete in *. unfold Packet.header_complete. cbv zeta in *.
  change (Packet.capture_data (to_packet s)) with (capture_data s).
  set (ts := Z.lor (Z.lor (Z.shiftl (Z.land (capture_data s !!! 0%nat) 0xf) 16)
                      (Z.shiftl (capture_data s !!! 1%nat) 8)) (capture_data s !!! 2%nat)) in *.
  set (tg := if has (capture_data s !!! 0%nat) HEADER_TOGGLE then 1 else 0) in *.
  set (z := if has (capture_data s !!! 0%nat) HEADER_ZERO then 1 else 0) in *.
  pose proof (sim_check_header s tg z Hp) as Sc.
  pose proof (check_header_same s tg z) as Same.
  destruct (check_header s tg z) as [s1| |]; [|done..]. rewrite (Same s1 eq_refl) in *. clear Same s1.
  destruct Sc as [Ec _]. apply (inj Some) in Ec. rewrite Ec. clear Ec. cbn [andthen] in *.
  pose proof (header_time_safe any s ts tg Hc) as Ht. pose proof (header_time_ts s ts tg) as Hts.
  destruct (header_time s ts tg) as [s2| |] eqn:E2; [|done..]. destruct Ht as [C2 _].
  specialize (Hts s2 Hp eq_refl). cbn [andthen] in *.
  assert (Hclock : (exists s', (if capture_status s2 then header_status s2 else header_data s2) = Go s') ->
     clock_ok (capture_last_ts s) (capture_saved_ts s) (capture_saved_ls s)
       (capture_ts (header_clock s ts tg)) = true).
  { intros [s' E]. rewrite <- Hts.
    replace (capture_ts s2) with (capture_ts s'); [by apply Hck|].
    destruct (capture_status s2); [by apply header_status_ts|by apply header_data_ts]. }
  destruct (if capture_status s2 then header_status s2 else header_data s2) as [s3| |] eqn:E3; [|done..].
  destruct (sim_header_time s ts tg Hp (Hclock (ex_intro _ s3 eq_refl))) as [St Gt].
  rewrite E2 in St. destruct St as [Et P2]. apply (inj Some) in Et. rewrite Et.
  change (Packet.capture_status (to_packet s2)) with (capture_status s2). rewrite <- E3.
  destruct (capture_status s2); [apply sim_header_status; [done|by apply Gt]|by apply sim_header_data].
Qed.

(** ** The byte walk *)

Definition tick s s' : bool :=
  clock_ok (capture_last_ts s) (capture_saved_ts s) (capture_saved_ls s) (capture_ts s').

(** The rest of [capture_sm] once the kind of frame is known. *)
Definition store_byte s (byte : Z) : run (list record) :=
  let> s := or_wild
    (d ← set_at (capture_data s) (capture_data_ptr s) byte;
     Some (s <| capture_data := d |> <| capture_data_ptr := capture_data_ptr s + 1 |>)) in
  if capture_data_ptr s <? capture_size s then Go s
  else
    let> s :=
      if capture_header s then header_complete s
      else data_event (s <| capture_header := true |>) in
    Go (rewind s).

Definition store_byte2 (p : packet (list record)) (byte : Z) : option (packet (list record)) :=
  d ← set_at (Packet.capture_data p) (Packet.capture_data_ptr p) byte;
  let p := p <| Packet.capture_data := d |>
             <| Packet.capture_data_ptr := Packet.capture_data_ptr p + 1 |> in
  if Packet.capture_data_ptr p <? Packet.capture_size p then Some p
  else if Packet.capture_header p then Packet.header_complete p
  else
    let p := p <| Packet.capture_header := true |> in
    p ← Packet.data_event p;
    Some (p <| Packet.capture_data_ptr := 0 |>).

Lemma sim_store_byte s b :
  core any s -> byte_ok b -> plain_mode s ->
  (forall s', store_byte s b = Go s' ->
     clock_ok (capture_last_ts s) (capture_saved_ts s) (capture_saved_ls s) (capture_ts s') = true) ->
  sim (store_byte s b) (store_byte2 (to_packet s) b).
Proof.
  intros Hc Hb Hp Hck. unfold store_byte, store_byte2 in *.
  change (Packet.capture_data (to_packet s)) with (capture_data s).
  change (Packet.capture_data_ptr (to_packet s)) with (capture_data_ptr s).
  destruct (set_at (capture_data s) (capture_data_ptr s) b) as [d|] eqn:Ed; [|done].
  cbn [mbind option_bind or_wild andthen] in *.
  set (s2 := s <| capture_data := d |> <| capture_data_ptr := capture_data_ptr s + 1 |>) in *.
  assert (H2 : core any s2 /\ plain_mode s2 /\ capture_last_ts s2 = capture_last_ts s
     /\ capture_saved_ts s2 = capture_saved_ts s /\ capture_saved_ls s2 = capture_saved_ls s).
  { unfold set_at in Ed. destruct (_ && _); [|done]. apply (inj Some) in Ed. subst s2 d.
    split; [|split; [destruct Hp; by constructor|done]]. destruct Hc. constructor; cbn; auto.
    - by rewrite length_insert.
    - by apply Forall_insert. }
  change ((to_packet s) <| Packet.capture_data := d |> <| Packet.capture_data_ptr := capture_data_ptr s + 1 |>)
    with (to_packet s2).
  clearbody s2. destruct H2 as (C2 & P2 & L2 & T2 & S2). rewrite <- L2, <- T2, <- S2 in Hck.
  change (Packet.capture_data_ptr (to_packet s2)) with (capture_data_ptr s2).
  change (Packet.capture_size (to_packet s2)) with (capture_size s2).
  change (Packet.capture_header (to_packet s2)) with (capture_header s2).
  destruct (capture_data_ptr s2 <? capture_size s2); [by apply sim_pure|].
  destruct (capture_header s2).
  - apply sim_header_complete; [done|done|]. intros s' E. rewrite E in Hck. cbn [andthen] in Hck.
    exact (Hck (rewind s') eq_refl).
  - assert (P3 : plain_mode (s2 <| capture_header := true |>)) by (destruct P2; by constructor).
    refine (sim_bind (data_event (s2 <| capture_header := true |>))
      (Packet.data_event (to_packet (s2 <| capture_header := true |>)))
      (fun s => Go (rewind s)) (fun p => Some (p <| Packet.capture_data_ptr := 0 |>)) (sim_data _ P3) _).
    intros s4 _ P4. split; [reflexivity|]. destruct P4. by constructor.
Qed.

Lemma sim_byte s b :
  at_byte any s -> byte_ok b -> plain_mode s -> (forall s', capture_sm s b = Go s' -> tick s s' = true) ->
  sim (capture_sm s b) (Packet.capture_sm (to_packet s) b).
Proof.
  intros (Hc & _) Hb Hp Hck. unfold tick in Hck.
  set (s1 := if capture_header s && (0 =? capture_data_ptr s)
             then s <| capture_status := (0 =? Z.land b HEADER_STATUS) |>
                    <| capture_size := if 0 =? Z.land b HEADER_STATUS then STATUS_HEADER_SIZE
                                       else DATA_HEADER_SIZE |>
             else s).
  assert (E1 : capture_sm s b = store_byte s1 b).
  { unfold capture_sm, s1. by destruct (capture_header s && (0 =? capture_data_ptr s)). }
  assert (E2 : Packet.capture_sm (to_packet s) b = store_byte2 (to_packet s1) b).
  { unfold Packet.capture_sm, s1.
    change (Packet.capture_header (to_packet s)) with (capture_header s).
    change (Packet.capture_data_ptr (to_packet s)) with (capture_data_ptr s).
    by destruct (capture_header s && (0 =? capture_data_ptr s)). }
  assert (H1 : core any s1 /\ plain_mode s1 /\ capture_last_ts s1 = capture_last_ts s
     /\ capture_saved_ts s1 = capture_saved_ts s /\ capture_saved_ls s1 = capture_saved_ls s).
  { unfold s1. destruct (_ && _); [|done].
    split; [destruct Hc; constructor; cbn; auto|split; [destruct Hp; by constructor|done]]. }
  rewrite E1, E2 in *. clear E1 E2. clearbody s1. destruct H1 as (C1 & P1 & E3 & E4 & E5).
  rewrite <- E3, <- E4, <- E5 in Hck. by apply sim_store_byte.
Qed.

(** The clock stays in order along a gen1 run. *)
Fixpoint in_order s (data : list Z) : bool :=
  match data with
  | [] => true
  | b :: data =>
      match capture_sm s b with Go s' => tick s s' && in_order s' data | _ => true end
  end.

Lemma sim_feed s data :
  at_byte any s -> bytes_ok data -> plain_mode s -> in_order s data = true ->
  sim (capture_callback s data) (packet_feed (to_packet s) data).
Proof.
  intros Hs Hd. unfold packet_feed. cbn [done to_packet]. revert s Hs.
  induction Hd as [|b data Hb Hd IH]; intros s Hs Hp Ho; [by apply sim_pure|].
  cbn [capture_callback packet_feed_loop in_order] in *.
  pose proof (capture_sm_safe any s b Hs Hb) as Hsafe.
  assert (Hck : forall s', capture_sm s b = Go s' -> tick s s' = true).
  { intros s' E. rewrite E in Ho. by apply andb_true_iff in Ho as [Ho _]. }
  pose proof (sim_byte s b Hs Hb Hp Hck) as Hsim.
  destruct (capture_sm s b) as [s1| |]; [|done..]. destruct Hsim as [-> P1]. cbn [mbind option_bind andthen].
  cbn [done to_packet]. apply IH; [done|done|]. by apply andb_true_iff in Ho as [_ Ho].
Qed.

(** C23: equivalence.  Without folding, and with the speed on automatic or low, the two
    engines started on the same options and fed the same bytes have written the
    same records and are in the same state, as long as the gen1 engine has not
    left the process, the clock of the frames does not fall behind the last
    record, and no single-ended zero on the lines lasts two seconds. *)
Theorem engines_agree o data s1 s2 :
  fold_empty o = false ->
  Packet.capture_speed o = CaptureSpeed_Reset \/ Packet.capture_speed o = CaptureSpeed_LS ->
  bytes_ok data ->
  capture_announce (engine_init o []) = Go s1 -> in_order s1 data = true ->
  capture_callback s1 data = Go s2 ->
  packet_feed (packet_announce (packet_new o [])) data = Some (to_packet s2).
Proof.
  intros Hf Hsp Hd E1 Ho E2.
  set (s0 := engine_init o ([] : list record)) in *.
  assert (P0 : plain_mode s0) by by constructor.
  assert (T0 : packet_new o [] = to_packet s0) by reflexivity.
  pose proof (capture_announce_safe any o [] Logic.I) as Hs. fold s0 in Hs. rewrite E1 in Hs.
  assert (Ha : packet_announce (packet_new o []) = to_packet s1 /\ plain_mode s1).
  { rewrite T0. assert (G0 : g_opt s0 = o) by reflexivity. clearbody s0.
    unfold capture_announce in E1. rewrite G0 in E1. unfold packet_announce. cbn [done to_packet out_flush log_out].
    change ((to_packet s0) <| done := false |>) with (to_packet s0).
    change (opts (to_packet s0)) with (g_opt s0). rewrite G0.
    destruct (CaptureTrigger_Disabled =? Packet.capture_trigger o).
    - pose proof (sim_info s0 0 (cstr "Starting capture") P0 ltac:(by apply text_ok_lit)) as Hi.
      destruct (capture_info s0 0 _) as [s3| |]; [|done..]. destruct Hi as [Ei P3].
      apply (inj Some) in Ei. rewrite Ei. cbn [andthen] in E1. injection E1 as <-.
      split; [by destruct s3|destruct P3; by constructor].
    - pose proof (sim_info s0 (capture_ts s0) (cstr "Waiting for a trigger") P0 ltac:(by apply text_ok_lit)) as Hi.
      change (Packet.capture_ts (to_packet s0)) with (capture_ts s0).
      rewrite E1 in Hi. destruct Hi as [Ei P3]. apply (inj Some) in Ei. rewrite Ei.
      split; [by destruct s1|done]. }
  destruct Ha as [-> P1]. pose proof (sim_feed s1 data Hs Hd P1 Ho) as Hsim.
  rewrite E2 in Hsim. apply Hsim.
Qed.

(** ** A capture of a status and a data frame *)

Definition demo_opts : packet_opts := mk_opts false false CaptureSpeed_Reset CaptureTrigger_Disabled (-1).
Definition demo_data : list Z :=
  [0x00; 0x01; 0x00; 0x5c; 0xc0; 0x02; 0x00; 0x00; 0x0a; 0x00; 0x30; 0xa5; 0x01; 0x02].

Lemma demo_data_ok : bytes_ok demo_data.
Proof. unfold demo_data. forall_concrete. Qed.

(** The records of a run over the log. *)
Definition run_records (m : run (list record)) : list record := default [] (run_out m).

Definition goes {W} (m : run W) : bool := match m with Go _ => true | _ => false end.

(** The demonstration runs to its end with its clock in order. *)
Lemma demo_in_order :
  match capture_announce (engine_init demo_opts ([] : list record)) with
  | Go s1 => in_order s1 demo_data && goes (capture_callback s1 demo_data)
  | _ => false
  end = true.
Proof. vm_compute. reflexivity. Qed.

Lemma demo_log : length (run_records (gen1_session demo_opts [] demo_data)) = 6%nat.
Proof. vm_compute. reflexivity. Qed.

Lemma engines_agree_witness :
  length (run_records (gen1_session demo_opts [] demo_data)) = 6%nat
  /\ exists s2, packet_feed (packet_announce (packet_new demo_opts [])) demo_data = Some (to_packet s2)
              /\ out s2 = run_records (gen1_session demo_opts [] demo_data).
Proof.
  split; [exact demo_log|]. pose proof demo_in_order as Hd. unfold gen1_session.
  destruct (capture_announce (engine_init demo_opts [])) as [s1| |] eqn:E1;
    [|discriminate Hd|discriminate Hd].
  apply andb_true_iff in Hd as [Ho Hg]. cbn [andthen].
  destruct (capture_callback s1 demo_data) as [s2| |] eqn:E2; [|discriminate Hg|discriminate Hg].
  exists s2. split; [|reflexivity].
  exact (engines_agree demo_opts demo_data s1 s2 eq_refl (or_introl eq_refl) demo_data_ok E1 Ho E2).
Defined.

Lemma demo_goes : goes (gen1_session demo_opts ([] : list record) demo_data) = true.
Proof. vm_compute. reflexivity. Qed.

Lemma gen1_memory_safe_witness :
  match gen1_session demo_opts ([] : list record) demo_data with
  | Go s => 0 <= capture_data_ptr s < 2048
  | Leave _ _ | Wild => False
  end.
Proof.
  pose proof demo_goes as Hg.
  pose proof (gen1_memory_safe any demo_opts [] demo_data Logic.I demo_data_ok) as Hs.
  destruct (gen1_session demo_opts [] demo_data) as [s|c w|]; [apply Hs|discriminate Hg|exact Hs].
Defined.

Lemma demo_headers :
  (if write_headers always CaptureSpeed_Reset writer_open then true else false) = true.
Proof. vm_compute. reflexivity. Qed.

Lemma gen1_session_file_witness :
  match write_headers always CaptureSpeed_Reset writer_open with
  | Some w0 =>
      exists log w, run_out (@gen1_session _ (logged always) demo_opts ([], w0) demo_data) = Some (log, w)
        /\ read_blocks (length log + 3) (capture_fd w) = Some (gen1_blocks LINKTYPE_USB_2_0 log)
  | None => False
  end.
Proof.
  pose proof demo_headers as Hh.
  destruct (write_headers always CaptureSpeed_Reset writer_open) as [w0|] eqn:E0.
  - destruct (gen1_session_file always demo_opts LINKTYPE_USB_2_0 w0 demo_data eq_refl E0 demo_data_ok)
      as (log & w & E & R & _). exists log, w. split; [exact E|exact R].
  - discriminate Hh.
Defined.
