(* ===== verification/Gen1Usb.v ===== *)
(** * The gen1 USB back end (src/gen1/usb.c)

    Vendor requests on the control pipe (FX2LP memory, I2C, JTAG, the capture
    register), the choice of the device, the completion callback of the bulk
    transfers and the transfer-rate test.  libusb and the device behind it are
    the class [ControlPipe]. *)

From Stdlib Require Import String.
From stdpp Require Import strings sets.
From S2P Require Import Prelude OsCommon Device.
Local Open Scope list_scope.

(** ** Programs that talk to a device

    A call changes the device and gives a value, or ends the process with a
    message (and exit code 1), leaves the bounds of an array, polls longer than the
    fuel, or leaves the process by [exit]. *)
Inductive answer (A : Type) := Value (a : A) | Died (msg : string) | Undefined | Spinning | Exited (code : Z).
Arguments Value {A}. Arguments Died {A}. Arguments Undefined {A}. Arguments Spinning {A}. Arguments Exited {A}.

Definition ans_bind {A B} (m : answer A) (f : A -> answer B) : answer B :=
  match m with
  | Value a => f a
  | Died msg => Died msg
  | Undefined => Undefined
  | Spinning => Spinning
  | Exited code => Exited code
  end.
Notation "'let^' x := m 'in' f" := (ans_bind m (fun x => f))
  (at level 10, x pattern at level 0, m at level 200, f at level 200).

Definition io (D A : Type) : Type := D -> D * answer A.
Definition io_ret {D A} (a : A) : io D A := fun d => (d, Value a).
Definition io_bind {D A B} (m : io D A) (f : A -> io D B) : io D B := fun d =>
  match m d with
  | (d, Value a) => f a d
  | (d, Died msg) => (d, Died msg)
  | (d, Undefined) => (d, Undefined)
  | (d, Spinning) => (d, Spinning)
  | (d, Exited code) => (d, Exited code)
  end.
Notation "'let~' x := m 'in' f" := (io_bind m (fun x => f))
  (at level 10, x pattern at level 0, m at level 200, f at level 200).
Notation "m ';~' f" := (io_bind m (fun _ => f)) (at level 90, right associativity).

(** [os_error] and [os_check]. *)
Definition os_error {D A} (msg : string) : io D A := fun d => (d, Died ("Error: " +:+ msg)).
Definition os_check {D} (cond : bool) (msg : string) : io D unit :=
  if cond then io_ret tt else os_error msg.

(** [for (int i = 0; i < count; i++)] *)
Fixpoint io_iter {D A} (f : A -> io D unit) (l : list A) : io D unit :=
  match l with [] => io_ret tt | x :: l => f x ;~ io_iter f l end.

(** libusb's calls on the open device: an OUT and an IN vendor request with its
    [wValue], and a read of the data endpoint.  An IN request gives the content of
    the whole buffer after the call, also where the transfer was short or failed. *)
Class ControlPipe (D : Type) := {
  control_out : Z -> Z -> list Z -> D -> D * Z;
  control_in : Z -> Z -> nat -> D -> D * (list Z * Z);
  bulk_in : D -> D * Z;
  error_name : Z -> string;
  length_control_in r v n d : length (control_in r v n d).2.1 = n;
}.

(** The [n] bytes of an answer. *)
Definition fit (n : nat) (l : list Z) : list Z := take n (l ++ replicate n 0).

Definition CPUCS_ADDR : Z := 0xe600.
Definition CTRL_REG_SIZE : Z := 4.
Definition CMD_FX2LP_REQUEST : Z := 0xa0.
Definition CMD_I2C_READ : Z := 0xb0.
Definition CMD_I2C_WRITE : Z := 0xb1.
Definition CMD_JTAG_ENABLE : Z := 0xc0.
Definition CMD_JTAG_REQUEST : Z := 0xc1.
Definition CMD_JTAG_RESPONSE : Z := 0xc2.
Definition CMD_CTRL : Z := 0xd0.
Definition MAX_COUNT_IN_REQUEST : Z := 255.
Definition LIBUSB_ERROR_TIMEOUT : Z := -7.

(** [buf[i / 4] |= (data[i] << ((i % 4) * 2))] for [i < n]. *)
Definition pack_step (data buf : list Z) (i : nat) : list Z :=
  <[(i / 4)%nat := u8 (Z.lor (buf !!! (i / 4)%nat)
                         (Z.shiftl (data !!! i) (Z.of_nat (i mod 4 * 2)%nat)))]> buf.
Definition pack_clocks (data : list Z) (n : nat) : list Z :=
  fold_left (pack_step data) (seq 0 n) (replicate 64 0).

(** [data[i / 2] |= ((buf[i] & 0x0f) << ((i % 2) * 4))] for [i < n]. *)
Definition nibble_step (buf data : list Z) (i : nat) : list Z :=
  <[(i / 2)%nat := u8 (Z.lor (data !!! (i / 2)%nat)
                         (Z.shiftl (Z.land (buf !!! i) 0x0f) (Z.of_nat (i mod 2 * 4)%nat)))]> data.
Definition join_nibbles (buf : list Z) (bytes n : nat) : list Z :=
  fold_left (nibble_step buf) (seq 0 n) (replicate bytes 0).

Section Requests.
Context {D : Type} `{ControlPipe D}.

Definition usb_check_error (error : Z) (text : string) : io D unit :=
  if error <? 0 then os_error (text +:+ ": " +:+ error_name error) else io_ret tt.

Definition vendor_out (request value : Z) (data : list Z) (text : string) : io D unit := fun d =>
  let '(d, rc) := control_out request value data d in usb_check_error rc text d.
Definition vendor_in (request value : Z) (size : nat) (text : string) : io D (list Z) := fun d =>
  let '(d, (buf, rc)) := control_in request value size d in
  (usb_check_error rc text ;~ io_ret buf) d.

Definition usb_fx2lp_reset (reset : bool) : io D unit :=
  vendor_out CMD_FX2LP_REQUEST CPUCS_ADDR [Z.b2z reset] "usb_fx2lp_reset()".
Definition usb_fx2lp_sram_read (addr : Z) (size : nat) : io D (list Z) :=
  vendor_in CMD_FX2LP_REQUEST (u16 addr) size "usb_fx2lp_sram_read()".
Definition usb_fx2lp_sram_write (addr : Z) (data : list Z) : io D unit :=
  vendor_out CMD_FX2LP_REQUEST (u16 addr) data "usb_fx2lp_sram_write()".
Definition usb_i2c_read (addr : Z) (size : nat) : io D (list Z) :=
  vendor_in CMD_I2C_READ (u16 (Z.lor addr 1)) size "usb_i2c_read()".
Definition usb_i2c_write (addr : Z) (data : list Z) : io D unit :=
  vendor_out CMD_I2C_WRITE (u16 addr) data "usb_i2c_write()".
Definition usb_jtag_enable (enable : bool) : io D unit :=
  vendor_out CMD_JTAG_ENABLE (Z.b2z enable) [] "usb_jtag_enable()".

(** [data] is the array, [count] the number of clocks. *)
Definition usb_jtag_request (data : list Z) (count : Z) : io D unit :=
  if (0 <? count) && (count <=? MAX_COUNT_IN_REQUEST) then
    let n := Z.to_nat count in
    vendor_out CMD_JTAG_REQUEST count (take ((n + 3) / 4)%nat (pack_clocks data n)) "usb_jtag_request()"
  else fun d => (d, Died "assertion '0 < count && count <= MAX_COUNT_IN_REQUEST' failed").

Definition usb_jtag_response (count : Z) : io D (list Z) :=
  if count <=? MAX_COUNT_IN_REQUEST then
    let n := Z.to_nat count in
    let~ buf := vendor_in CMD_JTAG_RESPONSE 0 ((n + 3) / 4)%nat "usb_jtag_response()" in
    io_ret (join_nibbles buf ((n + 7) / 8)%nat ((n + 3) / 4)%nat)
  else fun d => (d, Died "assertion 'count <= MAX_COUNT_IN_REQUEST' failed").

(** The capture register: one bit per request. *)
Definition CaptureCtrl_Reset : Z := 0.
Definition CaptureCtrl_Enable : Z := 1.
Definition CaptureCtrl_Speed0 : Z := 2.
Definition CaptureCtrl_Speed1 : Z := 3.
Definition CaptureCtrl_Test : Z := 4.

Definition usb_ctrl (index value : Z) : io D unit :=
  let value := Z.lor index (Z.shiftl (if value =? 0 then 0 else 1) CTRL_REG_SIZE) in
  vendor_out CMD_CTRL (u16 value) [] "usb_ctrl()".

(** At most [n] reads of the data endpoint, up to the first timeout. *)
Fixpoint flush_loop (n : nat) : io D unit :=
  match n with
  | O => io_ret tt
  | S n => fun d =>
      let '(d, rc) := bulk_in d in
      if rc =? LIBUSB_ERROR_TIMEOUT then (d, Value tt)
      else (usb_check_error rc "libusb_bulk_transfer()" ;~ flush_loop n) d
  end.
Definition usb_flush_data : io D unit := flush_loop 100.

Definition usb_ctrl_init : io D unit :=
  usb_ctrl CaptureCtrl_Reset 1 ;~
  usb_ctrl CaptureCtrl_Enable 0 ;~
  usb_ctrl CaptureCtrl_Test 0 ;~
  usb_ctrl CaptureCtrl_Speed0 1 ;~
  usb_ctrl CaptureCtrl_Speed0 0 ;~
  usb_ctrl CaptureCtrl_Speed1 1 ;~
  usb_ctrl CaptureCtrl_Speed1 0.

(** The requests of [capture_start], from the initialization to the first data. *)
Definition capture_control (capture_speed : Z) : io D unit :=
  usb_ctrl_init ;~
  usb_ctrl CaptureCtrl_Enable 0 ;~
  usb_ctrl CaptureCtrl_Reset 1 ;~
  usb_flush_data ;~
  usb_ctrl CaptureCtrl_Speed0 (Z.land capture_speed 1) ;~
  usb_ctrl CaptureCtrl_Speed1 (Z.land capture_speed 2) ;~
  usb_ctrl CaptureCtrl_Reset 0 ;~
  usb_ctrl CaptureCtrl_Enable 1.

(** The requests of [usb_speed_test]. *)
Definition speed_test_control : io D unit :=
  usb_ctrl_init ;~
  usb_ctrl CaptureCtrl_Reset 1 ;~
  usb_ctrl CaptureCtrl_Test 1 ;~
  usb_flush_data ;~
  usb_ctrl CaptureCtrl_Reset 0.
End Requests.

(** ** The choice of the device *)

Definition GEN1_VID : Z := 0x1209.
Definition GEN1_PID : Z := 0x6688.
Definition GEN1_BCD : Z := 0x0001.
Definition GEN1_VID_LEGACY : Z := 0x6666.
Definition GEN1_PID_LEGACY : Z := 0x6620.
Definition FX2LP_VID : Z := 0x04b4.
Definition FX2LP_PID : Z := 0x8613.

(** libusb's device list: a negative result, or for each device its descriptor
    ([None] where reading it fails) and the result of opening it; and the result of
    claiming interface 0. *)
Record bus := mk_bus {
  bus_list : Z + list (option descriptor * Z);
  bus_claim : descriptor -> Z;
  bus_error : Z -> string;
}.

(** The loop of [usb_open]. *)
Fixpoint open_first (vid pid bcd_accept : Z) (l : list (option descriptor * Z)) : option descriptor :=
  match l with
  | [] => None
  | (None, _) :: l => open_first vid pid bcd_accept l
  | (Some desc, rc) :: l =>
      if negb (idVendor desc =? vid) || negb (idProduct desc =? pid) then open_first vid pid bcd_accept l
      else if negb (bcd_accept =? 0) && negb (bcdDevice desc =? bcd_accept)
      then open_first vid pid bcd_accept l
      else if rc <? 0 then open_first vid pid bcd_accept l
      else Some desc
  end.

(** The handle left in [g_usb_handle]; [None] is the result [false]. *)
Definition usb_open (vid pid bcd_accept : Z) (b : bus) : answer (option descriptor) :=
  match bus_list b with
  | inl rc => Died ("Error: libusb_get_device_list(): " +:+ bus_error b rc)
  | inr l =>
      match open_first vid pid bcd_accept l with
      | None => Value None
      | Some desc =>
          if bus_claim b desc <? 0
          then Died ("Error: libusb_claim_interface(): " +:+ bus_error b (bus_claim b desc))
          else Value (Some desc)
      end
  end.

Definition open_capture_device (b : bus) : answer descriptor :=
  let^ handle := usb_open GEN1_VID GEN1_PID GEN1_BCD b in
  match handle with
  | Some d => Value d
  | None =>
      let^ handle := usb_open GEN1_VID_LEGACY GEN1_PID_LEGACY 0 b in
      match handle with
      | Some d => Value d
      | None =>
          Died "Error: could not open a capture device (gen1 1209:6688 rev 0x0001 or legacy 6666:6620)"
      end
  end.

(** ** The completion callback *)

Inductive transfer_status :=
| TRANSFER_COMPLETED | TRANSFER_TIMED_OUT | TRANSFER_CANCELLED | TRANSFER_NO_DEVICE
| TRANSFER_OTHER (code : Z).

(** A completed transfer: its status, the bytes it received, the clock before and
    after they are handled, and the result of submitting it again. *)
Record transfer := mk_transfer {
  t_status : transfer_status;
  t_data : list Z;
  t_before : Z;
  t_after : Z;
  t_submit : Z;
}.

(** The static variables of the file, the state of [os_rand16], the capture engine,
    and what was printed: the transfer rates as bytes per milliseconds, and the
    processing times. *)
Record usb_state (E : Type) := mk_usb {
  g_speed_test : bool;
  g_speed_test_time : Z;
  g_speed_test_size : Z;
  g_speed_test_count : Z;
  g_logged_delta : Z;
  g_usb_closing : bool;
  rand_state : Z;
  engine : E;
  rates : list (Z * Z);
  times : list (Z * Z);
  disconnected : bool;
  submitted : nat;
}.
Arguments mk_usb {E}. Arguments g_speed_test {E}. Arguments g_speed_test_time {E}.
Arguments g_speed_test_size {E}. Arguments g_speed_test_count {E}. Arguments g_logged_delta {E}.
Arguments g_usb_closing {E}. Arguments rand_state {E}. Arguments engine {E}. Arguments rates {E}.
Arguments times {E}. Arguments disconnected {E}. Arguments submitted {E}.
#[export] Instance usb_settable E : Settable (usb_state E) := fun u =>
  mk_usb (g_speed_test u) (g_speed_test_time u) (g_speed_test_size u) (g_speed_test_count u)
    (g_logged_delta u) (g_usb_closing u) (rand_state u) (engine u) (rates u) (times u)
    (disconnected u) (submitted u).

Section Callback.
(** [capture_callback] of the capture engine, and libusb's error names. *)
Context {E : Type} (feed : list Z -> io E unit) (error_text : Z -> string).

Definition on_engine {A} (m : io E A) : io (usb_state E) A := fun u =>
  let '(e, r) := m (engine u) in (u <| engine := e |>, r).

(** Word [i] of the buffer of [u16]. *)
Definition word_at (data : list Z) (i : nat) : Z :=
  Z.lor (data !!! (2 * i)%nat) (Z.shiftl (data !!! (2 * i + 1)%nat) 8).

(** The comparison of [n] words from word [i] on: the generator's state after them, [None]
    where a word differs. *)
Fixpoint check_words (data : list Z) (i n : nat) (state : Z) : option Z :=
  match n with
  | O => Some state
  | S n =>
      let state := os_rand16 state 0 in
      if word_at data i =? state then check_words data (S i) n state else None
  end.

Definition speed_check (t : transfer) : io (usb_state E) unit := fun u =>
  let count := (length (t_data t) / 2)%nat in
  match check_words (t_data t) 0 count (rand_state u) with
  | None => os_error "data error during the speed test" u
  | Some state =>
      let u := u <| rand_state := state |>
                 <| g_speed_test_count := u64 (g_speed_test_count u + Z.of_nat count) |>
                 <| g_speed_test_size := s32 (g_speed_test_size u + Z.of_nat (length (t_data t))) |> in
      let delta := u64 (t_after t - g_speed_test_time u) in
      io_ret tt (
        if 1000 <? delta then
          u <| rates := rates u ++ [(g_speed_test_size u, delta)] |>
            <| g_speed_test_size := 0 |> <| g_speed_test_time := t_after t |>
        else u)
  end.

Definition feed_engine (t : transfer) : io (usb_state E) unit :=
  on_engine (feed (t_data t)) ;~
  fun u =>
    let delta := u64 (t_after t - t_before t) in
    io_ret tt (
      if g_logged_delta u <? delta then
        u <| g_logged_delta := delta |> <| times := times u ++ [(delta, Z.of_nat (length (t_data t)))] |>
      else u).

(** Giving the transfer back to the driver. *)
Definition resubmit (t : transfer) : io (usb_state E) unit := fun u =>
  if t_submit t <? 0
  then os_error ("libusb_submit_transfer() in usb_capture_callback(): " +:+ error_text (t_submit t)) u
  else io_ret tt (u <| submitted := S (submitted u) |>).

Definition usb_capture_callback (t : transfer) : io (usb_state E) unit := fun u =>
  if g_usb_closing u then io_ret tt u
  else
    let go := (if g_speed_test u then speed_check t else feed_engine t) ;~ resubmit t in
    match t_status t with
    | TRANSFER_TIMED_OUT | TRANSFER_COMPLETED => go u
    | TRANSFER_CANCELLED => io_ret tt u
    | TRANSFER_NO_DEVICE => io_ret tt (u <| disconnected := true |>)
    | TRANSFER_OTHER _ => os_error "usb_capture_callback()" u
    end.

(** The completions of one [libusb_handle_events]. *)
Definition handle_events (ts : list transfer) : io (usb_state E) unit := io_iter usb_capture_callback ts.

(** The loop of [usb_data_transfer] over the turns of the event loop, each with the
    value of [g_stop] before it. *)
Fixpoint transfer_loop (turns : list (bool * list transfer)) : io (usb_state E) unit :=
  match turns with
  | [] => fun u => (u, Spinning)
  | (g_stop, ts) :: turns =>
      if g_stop then io_ret tt else handle_events ts ;~ transfer_loop turns
  end.

(** The first part of [usb_speed_test]'s run: what it sets before the transfers. *)
Definition start_speed_test (now : Z) (u : usb_state E) : usb_state E :=
  u <| g_speed_test := true |> <| g_speed_test_time := now |> <| g_speed_test_size := 0 |>
    <| g_speed_test_count := 0 |>.

(** [usb_close] on an open device: no completion after the flag is raised is handled. *)
Definition usb_close (drained : list transfer) : io (usb_state E) unit := fun u =>
  handle_events drained (u <| g_usb_closing := true |>).

Lemma usb_close_drops drained u : usb_close drained u = (u <| g_usb_closing := true |>, Value tt).
Proof. unfold usb_close, handle_events. induction drained as [|t ts IH]; [done|exact IH]. Qed.
End Callback.

(** ** The clocks of a JTAG request *)

(** Clock [i] of a packed request: two bits, TDI above TMS. *)
Definition clock_of (buf : list Z) (i : nat) : Z :=
  Z.land (Z.shiftr (buf !!! (i / 4)%nat) (Z.of_nat (i mod 4 * 2)%nat)) 3.
Definition unpack_clocks (buf : list Z) (n : nat) : list Z := map (clock_of buf) (seq 0 n).

Definition clocks_ok (l : list Z) : Prop := Forall (fun c => 0 <= c < 4) l.

Lemma field_of_lor x d s t :
  0 <= x -> 0 <= d < 4 -> 0 <= t -> 0 <= s ->
  Z.land (Z.shiftr (Z.lor x (Z.shiftl d s)) t) 3
  = Z.lor (Z.land (Z.shiftr x t) 3) (Z.land (Z.shiftr (Z.shiftl d s) t) 3).
Proof. intros. by rewrite Z.shiftr_lor, Z.land_lor_distr_l. Qed.

(** A clock shifted to its place is seen there and nowhere else. *)
Lemma field_shifted d i j :
  0 <= d < 4 -> (i < 4)%nat -> (j < 4)%nat ->
  Z.land (Z.shiftr (Z.shiftl d (Z.of_nat (i * 2))) (Z.of_nat (j * 2))) 3 = if decide (i = j) then d else 0.
Proof.
  intros Hd Hi Hj. assert (Ed : d = 0 \/ d = 1 \/ d = 2 \/ d = 3) by lia.
  assert (Ei : i = 0%nat \/ i = 1%nat \/ i = 2%nat \/ i = 3%nat) by lia.
  assert (Ej : j = 0%nat \/ j = 1%nat \/ j = 2%nat \/ j = 3%nat) by lia.
  destruct Ed as [-> |[-> |[-> | ->]]], Ei as [-> |[-> |[-> | ->]]], Ej as [-> |[-> |[-> | ->]]]; reflexivity.
Qed.

Lemma shifted_range d i : 0 <= d < 4 -> (i < 4)%nat -> 0 <= Z.shiftl d (Z.of_nat (i * 2)) < 256.
Proof.
  intros Hd Hi. rewrite Z.shiftl_mul_pow2 by lia.
  assert (1 <= 2 ^ Z.of_nat (i * 2) <= 64).
  { split; [apply Z.lt_pred_le, Z.pow_pos_nonneg; lia|].
    change 64 with (2 ^ 6). apply Z.pow_le_mono_r; lia. }
  nia.
Qed.


(** After [n] clocks every clock is in its place and the rest of the buffer is zero. *)
Definition packed (data : list Z) (n : nat) (buf : list Z) : Prop :=
  length buf = 64%nat /\ bytes_ok buf
  /\ forall k, (k < 256)%nat -> clock_of buf k = if decide (k < n)%nat then data !!! k else 0.

Lemma packed_step data n buf :
  clocks_ok data -> (n < length data)%nat -> (n < 256)%nat ->
  packed data n buf -> packed data (S n) (pack_step data buf n).
Proof.
  intros Hd Hl Hn (Hb & Hok & Hf). unfold pack_step.
  assert (Hc : 0 <= data !!! n < 4).
  { destruct (lookup_lt_is_Some_2 data n Hl) as [x Ex]. rewrite (list_lookup_total_correct _ _ _ Ex).
    by apply (proj1 (Forall_lookup _ _) Hd) in Ex. }
  pose proof (Nat.mod_upper_bound n 4 ltac:(lia)) as Hm.
  pose proof (Nat.div_mod_eq n 4) as Hq.
  pose proof (shifted_range (data !!! n) (n mod 4) Hc Hm) as Hs.
  set (i := (n / 4)%nat) in *. set (s := Z.of_nat (n mod 4 * 2)) in *.
  assert (Hi : (i < 64)%nat) by lia.
  pose proof (bytes_ok_lookup_total buf i Hok) as Hx.
  pose proof (lor_range (buf !!! i) (Z.shiftl (data !!! n) s) 8 ltac:(lia) Hx Hs) as Hr.
  rewrite u8_small by exact Hr. split_and!.
  - by rewrite length_insert.
  - by apply Forall_insert.
  - intros k Hk. unfold clock_of. destruct (decide (k / 4 = i)%nat) as [E|E].
    + rewrite E, list_lookup_total_insert_eq by lia.
      rewrite field_of_lor by lia. specialize (Hf k Hk). unfold clock_of in Hf. rewrite E in Hf. rewrite Hf.
      pose proof (Nat.div_mod_eq k 4). pose proof (Nat.mod_upper_bound k 4 ltac:(lia)).
      unfold s. rewrite (field_shifted (data !!! n) (n mod 4) (k mod 4)) by lia.
      destruct (decide (n mod 4 = k mod 4)%nat) as [Ek|Ek].
      * assert (k = n) by lia. subst k. destruct (decide (n < n)%nat); [lia|].
        destruct (decide (n < S n)%nat); [done|lia].
      * rewrite Z.lor_0_r. destruct (decide (k < n)%nat), (decide (k < S n)%nat); try done; [lia|].
        assert (k = n) by lia. congruence.
    + rewrite list_lookup_total_insert_ne by congruence. specialize (Hf k Hk). unfold clock_of in Hf.
      rewrite Hf. destruct (decide (k < n)%nat), (decide (k < S n)%nat); try done; [lia|].
      assert (k = n) by lia. subst k. done.
Qed.

Lemma pack_clocks_packed data n :
  clocks_ok data -> (n <= length data)%nat -> (n <= 256)%nat -> packed data n (pack_clocks data n).
Proof.
  intros Hd. unfold pack_clocks. induction n as [|n IH]; intros Hl Hn.
  - split_and!; [done|by apply Forall_replicate|]. intros k Hk. unfold clock_of.
    assert (E : (replicate 64 0 : list Z) !!! (k / 4)%nat = 0).
    { apply list_lookup_total_correct, lookup_replicate_2, Nat.Div0.div_lt_upper_bound. lia. }
    cbn [seq fold_left]. by rewrite E, Z.shiftr_0_l.
  - rewrite seq_S, fold_left_app. apply packed_step; [done|lia|lia|]. apply IH; lia.
Qed.

(** The device reads the clocks that were packed. *)
Lemma unpack_pack data n :
  clocks_ok data -> (n <= length data)%nat -> (n <= 255)%nat ->
  unpack_clocks (take ((n + 3) / 4) (pack_clocks data n)) n = take n data.
Proof.
  intros Hd Hl Hn. destruct (pack_clocks_packed data n Hd Hl ltac:(lia)) as (Hb & _ & Hf).
  apply list_eq. intros i. unfold unpack_clocks. rewrite list_lookup_fmap.
  destruct (decide (i < n)%nat) as [Hi|Hi].
  - rewrite lookup_seq_lt by done. cbn. rewrite lookup_take_lt by done.
    destruct (lookup_lt_is_Some_2 data i ltac:(lia)) as [x Ex]. rewrite Ex. f_equal.
    assert (Hq : (i / 4 < (n + 3) / 4)%nat).
    { pose proof (Nat.div_mod_eq i 4). pose proof (Nat.div_mod_eq (n + 3) 4).
      pose proof (Nat.mod_upper_bound i 4 ltac:(lia)). pose proof (Nat.mod_upper_bound (n + 3) 4 ltac:(lia)). lia. }
    unfold clock_of. rewrite lookup_total_take_lt by done. specialize (Hf i ltac:(lia)).
    unfold clock_of in Hf. rewrite Hf. destruct (decide (i < n)%nat); [|done].
    by apply list_lookup_total_correct.
  - rewrite lookup_seq_ge by lia. cbn. rewrite lookup_take_ge by lia. done.
Qed.

(** ** Which device is opened *)

Definition opens (f : descriptor -> bool) (l : list (option descriptor * Z)) : Prop :=
  exists d rc, (Some d, rc) ∈ l /\ 0 <= rc /\ f d = true.
Definition current_dev (d : descriptor) : bool :=
  (idVendor d =? GEN1_VID) && (idProduct d =? GEN1_PID) && (bcdDevice d =? GEN1_BCD).
Definition legacy_dev (d : descriptor) : bool :=
  (idVendor d =? GEN1_VID_LEGACY) && (idProduct d =? GEN1_PID_LEGACY).

(** What [usb_open] accepts. *)
Definition wanted (vid pid bcd : Z) (d : descriptor) : bool :=
  (idVendor d =? vid) && (idProduct d =? pid) && ((bcd =? 0) || (bcdDevice d =? bcd)).

Lemma open_first_spec vid pid bcd l :
  match open_first vid pid bcd l with
  | Some d => wanted vid pid bcd d = true /\ exists rc, (Some d, rc) ∈ l /\ 0 <= rc
  | None => ~ opens (wanted vid pid bcd) l
  end.
Proof.
  induction l as [|[[d|] rc] l IH]; cbn [open_first].
  - intros (d & rc & Hd & _). by apply not_elem_of_nil in Hd.
  - assert (Hskip : wanted vid pid bcd d = false \/ rc < 0 ->
      match open_first vid pid bcd l with
      | Some x => wanted vid pid bcd x = true /\ exists rc', (Some x, rc') ∈ (Some d, rc) :: l /\ 0 <= rc'
      | None => ~ opens (wanted vid pid bcd) ((Some d, rc) :: l)
      end).
    { intros Hs. destruct (open_first vid pid bcd l) as [x|].
      - destruct IH as (Hx & rc' & Hin & Hrc). split; [done|]. exists rc'. split; [set_solver|done].
      - intros (x & rc' & Hin & Hrc & Hx). apply elem_of_cons in Hin as [[= -> ->]|Hin].
        + destruct Hs; [congruence|lia].
        + apply IH. by exists x, rc'. }
    destruct (wanted vid pid bcd d) eqn:Ew.
    + destruct (Z.ltb_spec rc 0) as [Hrc|Hrc].
      * specialize (Hskip (or_intror Hrc)). unfold wanted in Ew. split_ifs; done.
      * pose proof Ew as Ew'. unfold wanted in Ew'. apply andb_true_iff in Ew' as [Ew' E3].
        apply andb_true_iff in Ew' as [E1 E2]. rewrite E1, E2. cbn [negb orb].
        replace (negb (bcd =? 0) && negb (bcdDevice d =? bcd)) with false
          by (destruct (bcd =? 0), (bcdDevice d =? bcd); done).
        split; [done|]. exists rc. split; [set_solver|done].
    + specialize (Hskip (or_introl eq_refl)). unfold wanted in Ew.
      destruct (idVendor d =? vid), (idProduct d =? pid); cbn [negb orb andb] in *; try done.
      by destruct (bcd =? 0), (bcdDevice d =? bcd).
  - destruct (open_first vid pid bcd l) as [x|].
    + destruct IH as (Hx & rc' & Hin & Hrc). split; [done|]. exists rc'. split; [set_solver|done].
    + intros (x & rc' & Hin & Hrc & Hx). apply elem_of_cons in Hin as [[=]|Hin]. apply IH. by exists x, rc'.
Qed.

Lemma opens_ext f g l : (forall d, f d = g d) -> opens f l <-> opens g l.
Proof. intros E. unfold opens. setoid_rewrite E. done. Qed.

Lemma wanted_current d : wanted GEN1_VID GEN1_PID GEN1_BCD d = current_dev d.
Proof. reflexivity. Qed.
Lemma wanted_legacy d : wanted GEN1_VID_LEGACY GEN1_PID_LEGACY 0 d = legacy_dev d.
Proof. unfold wanted, legacy_dev. cbn. by rewrite andb_true_r. Qed.

Lemma gen1_dev_cases d : gen1_dev d = true <-> current_dev d = true \/ legacy_dev d = true.
Proof.
  unfold gen1_dev, gen1_classify, current_dev, legacy_dev, GEN1_VID, GEN1_PID, GEN1_BCD, GEN1_VID_LEGACY,
    GEN1_PID_LEGACY, USB_VID_LEGACY, USB_PID_LEGACY, USB_VID_VLLOGIC, USB_PID_VLLOGIC, USB_BCD_GEN1.
  destruct ((idVendor d =? 0x6666) && (idProduct d =? 0x6620)); [naive_solver|].
  destruct ((idVendor d =? 0x1209) && (idProduct d =? 0x6688)); cbn; naive_solver.
Qed.

(** The device opened.  The engine opens a device of the first generation, a current
    one whenever one can be opened and else one of the legacy release; it ends the
    process exactly when none can be opened; and it never opens a gen2 device
    or a bare FX2LP. *)
Theorem open_capture_device_spec b l :
  bus_list b = inr l -> (forall d, 0 <= bus_claim b d) ->
  match open_capture_device b with
  | Value d =>
      (exists rc, (Some d, rc) ∈ l /\ 0 <= rc)
      /\ (opens current_dev l -> current_dev d = true)
      /\ gen1_dev d = true /\ gen2_dev d = false /\ fx2lp_dev d = false
  | Died _ => ~ opens gen1_dev l
  | _ => False
  end.
Proof.
  intros El Hc. unfold open_capture_device, usb_open, ans_bind. rewrite El.
  assert (Hkind : forall d, gen1_dev d = true -> gen2_dev d = false /\ fx2lp_dev d = false).
  { intros [v p r]. unfold gen1_dev, gen1_classify, gen2_dev, device_is_gen2, fx2lp_dev, is_fx2lp. cbn.
    unfold USB_VID_LEGACY, USB_PID_LEGACY, USB_VID_VLLOGIC, USB_PID_VLLOGIC, USB_BCD_GEN1, USB_BCD_GEN2,
      USB_VID_FX2LP, USB_PID_FX2LP. split_ifs; try done; intros; bool_split; split; bool_split;
      repeat match goal with |- context [?x =? ?y] => destruct (Z.eqb_spec x y); try lia end; done. }
  pose proof (open_first_spec GEN1_VID GEN1_PID GEN1_BCD l) as H1.
  destruct (open_first GEN1_VID GEN1_PID GEN1_BCD l) as [d|].
  { destruct (Z.ltb_spec (bus_claim b d) 0); [specialize (Hc d); lia|].
    rewrite wanted_current in H1. destruct H1 as [Hd Hin].
    assert (Hg : gen1_dev d = true) by (apply gen1_dev_cases; by left).
    destruct (Hkind d Hg). auto. }
  rewrite (opens_ext _ _ _ wanted_current) in H1.
  pose proof (open_first_spec GEN1_VID_LEGACY GEN1_PID_LEGACY 0 l) as H2.
  destruct (open_first GEN1_VID_LEGACY GEN1_PID_LEGACY 0 l) as [d|].
  { destruct (Z.ltb_spec (bus_claim b d) 0); [specialize (Hc d); lia|].
    rewrite wanted_legacy in H2. destruct H2 as [Hd Hin].
    assert (Hg : gen1_dev d = true) by (apply gen1_dev_cases; by right).
    destruct (Hkind d Hg). split_and!; [done|by intros|done|done|done]. }
  rewrite (opens_ext _ _ _ wanted_legacy) in H2. intros (d & rc & Hin & Hrc & Hd).
  apply gen1_dev_cases in Hd as [Hd|Hd]; [apply H1|apply H2]; by exists d, rc.
Qed.

Definition demo_bus : bus :=
  mk_bus (inr [(Some (mk_desc 0x1209 0x6688 0x0602), 0); (None, 0); (Some (mk_desc 0x6666 0x6620 0), 0);
               (Some (mk_desc 0x1209 0x6688 1), -3); (Some (mk_desc 0x1209 0x6688 1), 0)])
    (fun _ => 0) (fun _ => EmptyString).

Lemma open_capture_device_spec_witness :
  open_capture_device demo_bus = Value (mk_desc 0x1209 0x6688 1)
  /\ gen1_dev (mk_desc 0x1209 0x6688 1) = true.
Proof.
  split; [vm_compute; reflexivity|].
  exact (proj1 (proj2 (proj2 (open_capture_device_spec demo_bus _ eq_refl (fun _ => Z.le_refl 0))))).
Defined.

(** ** The capture register *)

(** A device whose capture register takes one bit per request; it keeps the pairs of
    values before and after each request. *)
Record capture_reg := mk_reg { reg : Z; changes : list (Z * Z) }.

Definition reg_write (value r : Z) : Z :=
  let i := Z.land value 15 in if Z.testbit value CTRL_REG_SIZE then Z.setbit r i else Z.clearbit r i.

#[export] Instance capture_reg_pipe : ControlPipe capture_reg.
Proof.
  refine {|
    control_out request value _ d :=
      (if request =? CMD_CTRL
       then mk_reg (reg_write value (reg d)) (changes d ++ [(reg d, reg_write value (reg d))])
       else d, 0);
    control_in _ _ n d := (d, (replicate n 0, 0));
    bulk_in d := (d, LIBUSB_ERROR_TIMEOUT);
    error_name _ := EmptyString;
  |}.
  intros. apply length_replicate.
Defined.

(** The speed bits of two values agree. *)
Definition same_speed (r r' : Z) : Prop := forall i, 2 <= i <= 3 -> Z.testbit r i = Z.testbit r' i.

Lemma reg_write_bit i v r k :
  0 <= i < 16 -> 0 <= k ->
  Z.testbit (reg_write (Z.lor i (Z.shiftl (Z.b2z v) CTRL_REG_SIZE)) r) k = if i =? k then v else Z.testbit r k.
Proof.
  intros Hi Hk. unfold reg_write, CTRL_REG_SIZE.
  assert (El : Z.land (Z.lor i (Z.shiftl (Z.b2z v) 4)) 15 = i).
  { rewrite lor_shiftl_add by lia. change 15 with (2 ^ 4 - 1). rewrite land_low by lia.
    rewrite Z.mod_add, Z.mod_small by lia. done. }
  assert (Et : Z.testbit (Z.lor i (Z.shiftl (Z.b2z v) 4)) 4 = v).
  { rewrite Z.lor_spec, Z.shiftl_spec by lia. rewrite (testbit_above i 4) by lia. by destruct v. }
  rewrite El, Et. destruct v.
  - rewrite Z.setbit_eqb by lia. by destruct (i =? k).
  - rewrite Z.clearbit_eqb. by destruct (i =? k), (Z.testbit r k).
Qed.

Definition reg_set (w : Z * bool) (d : capture_reg) : capture_reg :=
  let r := reg_write (Z.lor w.1 (Z.shiftl (Z.b2z w.2) CTRL_REG_SIZE)) (reg d) in
  mk_reg r (changes d ++ [(reg d, r)]).
Definition reg_sets (l : list (Z * bool)) (d : capture_reg) : capture_reg :=
  fold_left (fun d w => reg_set w d) l d.

Lemma usb_ctrl_reg i v d :
  0 <= i < 16 -> usb_ctrl i v d = (reg_set (i, negb (v =? 0)) d, Value tt).
Proof.
  intros Hi. unfold usb_ctrl, vendor_out, usb_check_error, reg_set. cbn.
  rewrite u16_small.
  - by destruct (v =? 0).
  - rewrite lor_shiftl_add by (unfold CTRL_REG_SIZE; lia). unfold CTRL_REG_SIZE. destruct (v =? 0); lia.
Qed.

Definition control_writes (speed : Z) : list (Z * bool) :=
  [(CaptureCtrl_Reset, true); (CaptureCtrl_Enable, false); (CaptureCtrl_Test, false);
   (CaptureCtrl_Speed0, true); (CaptureCtrl_Speed0, false); (CaptureCtrl_Speed1, true);
   (CaptureCtrl_Speed1, false); (CaptureCtrl_Enable, false); (CaptureCtrl_Reset, true);
   (CaptureCtrl_Speed0, Z.testbit speed 0); (CaptureCtrl_Speed1, Z.testbit speed 1);
   (CaptureCtrl_Reset, false); (CaptureCtrl_Enable, true)].

Lemma capture_control_writes speed d :
  0 <= speed <= 3 -> capture_control speed d = (reg_sets (control_writes speed) d, Value tt).
Proof.
  intros Hs. unfold capture_control, usb_ctrl_init, usb_flush_data, io_bind.
  do 8 (rewrite usb_ctrl_reg by (unfold CaptureCtrl_Reset, CaptureCtrl_Enable, CaptureCtrl_Test, CaptureCtrl_Speed0, CaptureCtrl_Speed1; lia); cbv iota beta).
  rewrite usb_ctrl_reg by (unfold CaptureCtrl_Reset; lia). cbn [flush_loop bulk_in capture_reg_pipe].
  cbn [Z.eqb LIBUSB_ERROR_TIMEOUT Pos.eqb].
  do 4 (rewrite usb_ctrl_reg by (unfold CaptureCtrl_Reset, CaptureCtrl_Enable, CaptureCtrl_Speed0, CaptureCtrl_Speed1; lia); cbv iota beta).
  assert (E : speed = 0 \/ speed = 1 \/ speed = 2 \/ speed = 3) by lia.
  destruct E as [-> |[-> |[-> | ->]]]; reflexivity.
Qed.

Lemma reg_set_bit i v d k :
  0 <= i < 16 -> 0 <= k -> Z.testbit (reg (reg_set (i, v) d)) k = if i =? k then v else Z.testbit (reg d) k.
Proof. apply reg_write_bit. Qed.

Lemma reg_set_changes w d :
  changes (reg_set w d) = changes d ++ [(reg d, reg (reg_set w d))].
Proof. done. Qed.

(** The capture register.  Whatever the register held, the requests of
    [capture_start] leave the capture enabled at the chosen speed, out of reset and
    out of the test mode, and the speed bits change only while the reset bit
    is set. *)
Theorem capture_control_register speed d :
  0 <= speed <= 3 -> changes d = [] ->
  exists d', capture_control speed d = (d', Value tt)
  /\ map (Z.testbit (reg d')) [CaptureCtrl_Reset; CaptureCtrl_Enable; CaptureCtrl_Speed0; CaptureCtrl_Speed1; CaptureCtrl_Test]
     = [false; true; Z.testbit speed 0; Z.testbit speed 1; false]
  /\ Forall (fun '(r, r') => Z.testbit r CaptureCtrl_Reset = false -> same_speed r r') (changes d').
Proof.
  intros Hs Hd. eexists. split; [by apply capture_control_writes|].
  unfold control_writes, CaptureCtrl_Reset, CaptureCtrl_Enable, CaptureCtrl_Test, CaptureCtrl_Speed0, CaptureCtrl_Speed1.
  cbn [reg_sets fold_left map]. split.
  - by repeat (rewrite reg_set_bit by lia; cbn [Z.eqb Pos.eqb]).
  - rewrite !reg_set_changes, Hd. cbn [app].
    repeat apply Forall_cons_2; try apply Forall_nil_2.
    all: repeat (rewrite reg_set_bit by lia; cbn [Z.eqb Pos.eqb]).
    all: intros E; try discriminate E.
    all: intros k Hk; symmetry; rewrite reg_set_bit by lia.
    all: match goal with |- context [?i =? ?j] => destruct (Z.eqb_spec i j); [lia|done] end.
Qed.

Lemma capture_control_register_witness :
  reg (capture_control 2 (mk_reg 0x1d [])).1 = 0xa
  /\ Forall (fun '(r, r') => Z.testbit r CaptureCtrl_Reset = false -> same_speed r r')
       (changes (capture_control 2 (mk_reg 0x1d [])).1).
Proof.
  split; [vm_compute; reflexivity|].
  destruct (capture_control_register 2 (mk_reg 0x1d []) (conj Z.le_0_2 (Z.le_succ_diag_r 2)) eq_refl)
    as (d' & E & _ & H). rewrite E. exact H.
Defined.

(** ** The transfer-rate test *)

(** The next [n] words of the generator. *)
Fixpoint rand_words (n : nat) (state : Z) : list Z :=
  match n with O => [] | S n => let s := os_rand16 state 0 in s :: rand_words n s end.
Definition rand_after (n : nat) (state : Z) : Z := Nat.iter n (fun s => os_rand16 s 0) state.
Lemma rand_after_S n s : rand_after (S n) s = rand_after n (os_rand16 s 0).
Proof. exact (Nat.iter_succ_r n (fun s => os_rand16 s 0) s). Qed.
Definition words (data : list Z) : list Z := map (word_at data) (seq 0 (length data / 2)).

Lemma check_words_spec data i n state :
  check_words data i n state
  = if decide (map (word_at data) (seq i n) = rand_words n state) then Some (rand_after n state) else None.
Proof.
  revert i state. induction n as [|n IH]; intros i state; [done|].
  cbn [check_words seq map rand_words]. rewrite IH.
  destruct (Z.eqb_spec (word_at data i) (os_rand16 state 0)) as [->|Hne].
  - rewrite rand_after_S. do 2 case_decide; try done; congruence.
  - case_decide; [congruence|done].
Qed.

Lemma rand_words_app n m s : rand_words (n + m) s = rand_words n s ++ rand_words m (rand_after n s).
Proof.
  revert s. induction n as [|n IH]; intros s; [done|]. cbn -[rand_after]. by rewrite IH, rand_after_S.
Qed.

Lemma length_rand_words n s : length (rand_words n s) = n.
Proof. revert s. induction n as [|n IH]; intros s; [done|]. cbn. by rewrite IH. Qed.

(** A completion that carries data and is taken back by the driver. *)
Definition carries (t : transfer) : Prop :=
  (t_status t = TRANSFER_COMPLETED \/ t_status t = TRANSFER_TIMED_OUT) /\ 0 <= t_submit t.
Definition all_words (ts : list transfer) : list Z := concat (map (fun t => words (t_data t)) ts).

Lemma length_words data : length (words data) = (length data / 2)%nat.
Proof. unfold words. by rewrite length_map, length_seq. Qed.

Lemma speed_check_spec {E} t (u : usb_state E) :
  let '(u', r) := speed_check t u in
  match r with
  | Value _ =>
      words (t_data t) = rand_words (length (words (t_data t))) (rand_state u)
      /\ rand_state u' = rand_after (length (words (t_data t))) (rand_state u)
      /\ g_speed_test u' = g_speed_test u /\ g_usb_closing u' = g_usb_closing u /\ engine u' = engine u
      /\ g_speed_test_count u' = u64 (g_speed_test_count u + Z.of_nat (length (words (t_data t))))
      /\ submitted u' = submitted u
  | Died _ => words (t_data t) <> rand_words (length (words (t_data t))) (rand_state u)
  | _ => False
  end.
Proof.
  unfold speed_check. rewrite check_words_spec, length_words. fold (words (t_data t)).
  case_decide as Ed; [|done]. split; [done|]. by destruct (1000 <? _).
Qed.

(** One completion that carries data, then the rest. *)
Lemma handle_one {E} (feed : list Z -> io E unit) error_text t ts u :
  carries t -> g_usb_closing u = false ->
  handle_events feed error_text (t :: ts) u
  = io_bind (if g_speed_test u then speed_check t else feed_engine feed t)
      (fun _ u => handle_events feed error_text ts (u <| submitted := S (submitted u) |>)) u.
Proof.
  intros [Hst Hsub] Hcl. unfold handle_events. cbn [io_iter]. unfold usb_capture_callback at 1, resubmit, io_bind.
  rewrite Hcl. destruct (Z.ltb_spec (t_submit t) 0); [lia|].
  destruct Hst as [-> | ->], (g_speed_test u);
    [destruct (speed_check t u) as [u1 []]|destruct (feed_engine feed t u) as [u1 []]
    |destruct (speed_check t u) as [u1 []]|destruct (feed_engine feed t u) as [u1 []]]; done.
Qed.

(** C31: the transfer-rate test.  Over completions that carry data the test goes on exactly
    when the words received are the next words of [os_rand16], in order and none
    missing, whatever the sizes of the transfers; it counts them and resubmits every
    transfer; and at the first other word it ends the process. *)
Theorem speed_test_exact {E} feed error_text ts (u : usb_state E) :
  Forall carries ts -> g_speed_test u = true -> g_usb_closing u = false ->
  let '(u', r) := handle_events feed error_text ts u in
  match r with
  | Value _ =>
      all_words ts = rand_words (length (all_words ts)) (rand_state u)
      /\ u64 (g_speed_test_count u') = u64 (g_speed_test_count u + Z.of_nat (length (all_words ts)))
      /\ submitted u' = (submitted u + length ts)%nat /\ engine u' = engine u
  | Died _ => all_words ts <> rand_words (length (all_words ts)) (rand_state u)
  | _ => False
  end.
Proof.
  intros Hts. revert u. induction Hts as [|t ts Ht Hts IH]; intros u Hg Hcl.
  { cbn. rewrite Z.add_0_r, Nat.add_0_r. auto. }
  rewrite handle_one, Hg by done. pose proof (speed_check_spec t u) as Hc. unfold io_bind.
  unfold all_words in *. cbn [map concat length]. rewrite length_app, rand_words_app.
  set (rest := concat (map _ ts)) in *.
  destruct (speed_check t u) as [u1 [[]|m| | |]]; [| |done|done|done].
  - destruct Hc as (Hw & Hr & Hg1 & Hc1 & He1 & Hn1 & Hs1).
    set (u2 := u1 <| submitted := S (submitted u1) |>). specialize (IH u2).
    specialize (IH (eq_trans Hg1 Hg) (eq_trans Hc1 Hcl)). change (rand_state u2) with (rand_state u1) in IH.
    rewrite Hr in IH. rewrite <- Hw.
    destruct (handle_events feed error_text ts u2) as [u3 [[]|m| | |]]; [| |done|done|done].
    + destruct IH as (I1 & I2 & I3 & I4). cbn in I2, I3, I4. rewrite <- I1. split_and!; [done| |lia|congruence].
      rewrite I2, Hn1. unfold u64. rewrite Zplus_mod_idemp_l. f_equal. lia.
    + intros Eq. apply app_inv_head in Eq. contradiction.
  - intros Eq. apply Hc. apply (f_equal (take (length (words (t_data t))))) in Eq.
    rewrite !take_app_length' in Eq; [done|by rewrite length_rand_words|done].
Qed.

(** Two transfers with the first three words of the generator. *)
Definition demo_words : list Z := rand_words 3 rand_state0.
Definition demo_transfers : list transfer :=
  [mk_transfer TRANSFER_COMPLETED
     (concat (map (fun w => [w mod 256; w / 256]) (take 2 demo_words))) 0 5 0;
   mk_transfer TRANSFER_TIMED_OUT (concat (map (fun w => [w mod 256; w / 256]) (drop 2 demo_words))) 5 9 0].
Definition demo_test : usb_state unit :=
  start_speed_test 0 (mk_usb false 0 0 0 0 false rand_state0 tt [] [] false 0).

Lemma speed_test_exact_witness :
  all_words demo_transfers = demo_words
  /\ exists u, handle_events (fun _ => io_ret tt) (fun _ => EmptyString) demo_transfers demo_test = (u, Value tt)
             /\ u64 (g_speed_test_count u) = 3.
Proof.
  split; [vm_compute; reflexivity|].
  assert (Hts : Forall carries demo_transfers) by (repeat constructor; auto; cbn; lia).
  pose proof (speed_test_exact (fun _ => io_ret tt) (fun _ => EmptyString) demo_transfers demo_test Hts
                eq_refl eq_refl) as H.
  destruct (handle_events _ _ demo_transfers demo_test) as [u [[]|m| | |]] eqn:E; [|vm_compute in E; discriminate E..].
  exists u. split; [reflexivity|]. destruct H as (_ & H & _). rewrite H. vm_compute. reflexivity.
Defined.
