(* ===== verification/Jtag.v ===== *)
(** * The JTAG layer of the FPGA programmer (src/gen1/fpga.c, first half)

    Clocks are collected in a buffer and sent as requests; scans of the instruction
    and data registers are sequences of clocks.  The class [Jtag] is what the
    programming routines use; it has two instances, the code's own on the control
    pipe and a scan-level specification, and the first refines the second on every
    device whose TAP controller is that of IEEE 1149.1. *)

From Stdlib Require Import String.
From stdpp Require Import sets.
From S2P Require Import Prelude Gen1Usb.
Local Open Scope list_scope.

(** ** The code *)

(** [g_jtag_buf], [g_jtag_count] and the device. *)
Record fpga (D : Type) := mk_fpga { g_jtag_buf : list Z; g_jtag_count : Z; dev : D }.
Arguments mk_fpga {D}. Arguments g_jtag_buf {D}. Arguments g_jtag_count {D}. Arguments dev {D}.
#[export] Instance fpga_settable D : Settable (fpga D) := fun s =>
  mk_fpga (g_jtag_buf s) (g_jtag_count s) (dev s).

Definition fpga_init {D} (d : D) : fpga D := mk_fpga (replicate 255 0) 0 d.

(** Bit [i] of the bytes at [data], the lowest first. *)
Definition bit_at (data : list Z) (i : nat) : Z :=
  Z.land (Z.shiftr (data !!! (i / 8)%nat) (Z.of_nat (i mod 8)%nat)) 1.

Section Code.
Context {D : Type} `{ControlPipe D}.
Implicit Type s : fpga D.

Definition on_dev {A} (m : io D A) : io (fpga D) A := fun s =>
  let '(d, r) := m (dev s) in (s <| dev := d |>, r).

Definition jtag_sync : io (fpga D) unit := fun s =>
  if g_jtag_count s =? 0 then (s, Value tt)
  else (on_dev (usb_jtag_request (g_jtag_buf s) (g_jtag_count s)) ;~
        fun s => (s <| g_jtag_count := 0 |>, Value tt)) s.

Definition jtag_clk (tdi tms : Z) : io (fpga D) unit := fun s =>
  match set_at (g_jtag_buf s) (g_jtag_count s) (u8 (Z.lor (Z.shiftl tdi 1) tms)) with
  | None => (s, Undefined)
  | Some buf =>
      let s := s <| g_jtag_buf := buf |> <| g_jtag_count := g_jtag_count s + 1 |> in
      if MAX_COUNT_IN_REQUEST =? g_jtag_count s then jtag_sync s else (s, Value tt)
  end.

Definition jtag_reset : io (fpga D) unit :=
  io_iter (fun _ => jtag_clk 0 1) (seq 0 16) ;~
  jtag_clk 0 0.

Definition jtag_write_ir (ir : Z) : io (fpga D) unit :=
  jtag_clk 0 1 ;~
  jtag_clk 0 1 ;~
  jtag_clk 0 0 ;~
  jtag_clk 0 0 ;~
  io_iter (fun i => jtag_clk (Z.land (Z.shiftr ir (Z.of_nat i)) 1) (Z.b2z (i =? 7)%nat)) (seq 0 8) ;~
  jtag_clk 0 1 ;~
  jtag_clk 0 0.

Definition jtag_write_dr (data : list Z) (size : nat) : io (fpga D) unit :=
  jtag_clk 0 1 ;~
  jtag_clk 0 0 ;~
  jtag_clk 0 0 ;~
  io_iter (fun i => jtag_clk (bit_at data i) (Z.b2z (i =? size - 1)%nat)) (seq 0 size) ;~
  jtag_clk 0 1 ;~
  jtag_clk 0 0.

Definition jtag_read_dr (size : nat) : io (fpga D) (list Z) :=
  jtag_clk 0 1 ;~
  jtag_clk 0 0 ;~
  jtag_clk 0 0 ;~
  jtag_sync ;~
  io_iter (fun i => jtag_clk 0 (Z.b2z (i =? size - 1)%nat)) (seq 0 size) ;~
  jtag_sync ;~
  let~ data := on_dev (usb_jtag_response (Z.of_nat size)) in
  jtag_clk 0 1 ;~
  jtag_clk 0 0 ;~
  io_ret data.

Definition jtag_run (count : nat) : io (fpga D) unit :=
  io_iter (fun _ => jtag_clk 0 0) (seq 0 count).

(** The data scan of [fpga_program_sram]: whole bytes, the highest bit first. *)
Definition jtag_burst (data : list Z) : io (fpga D) unit :=
  let size := length data in
  jtag_clk 0 1 ;~
  jtag_clk 0 0 ;~
  jtag_clk 0 0 ;~
  io_iter (fun i =>
    io_iter (fun j => jtag_clk (Z.land (Z.shiftr (data !!! i) (Z.of_nat j)) 1)
                        (Z.b2z ((i =? size - 1)%nat && (j =? 0)%nat)))
      [7; 6; 5; 4; 3; 2; 1; 0]%nat) (seq 0 size) ;~
  jtag_clk 0 1 ;~
  jtag_clk 0 0.
End Code.

(** ** The interface of the programming routines *)

Class Jtag (J : Type) := {
  write_ir : Z -> io J unit;
  write_dr : list Z -> nat -> io J unit;
  burst : list Z -> io J unit;
  read_dr : nat -> io J (list Z);
  run : nat -> io J unit;
  sync : io J unit;
}.

#[export] Instance fpga_jtag D `{ControlPipe D} : Jtag (fpga D) := {
  write_ir := jtag_write_ir;
  write_dr := jtag_write_dr;
  burst := jtag_burst;
  read_dr := jtag_read_dr;
  run := jtag_run;
  sync := jtag_sync;
}.

(** ** The specification: a log of scans *)

(** An instruction scan and a data scan with the bits shifted in, and a clock in
    Run-Test/Idle. *)
Inductive scan := IR (bits : list bool) | DR (bits : list bool) | Tick.

Definition ir_bits (ir : Z) : list bool := map (fun i => Z.testbit ir (Z.of_nat i)) (seq 0 8).
Definition dr_bits (data : list Z) (n : nat) : list bool :=
  map (fun i => Z.testbit (data !!! (i / 8)%nat) (Z.of_nat (i mod 8)%nat)) (seq 0 n).
Definition msb_bits (data : list Z) : list bool :=
  concat (map (fun b => map (fun j => Z.testbit b (Z.of_nat j)) [7; 6; 5; 4; 3; 2; 1; 0]%nat) data).

(** The scans so far and the number of answers read. *)
Record chain := mk_chain { log : list scan; reads : nat }.

(** What [jtag_read_dr] of [n] bits makes of an answer. *)
Definition answer_bytes (n : nat) (l : list Z) : list Z :=
  join_nibbles (fit ((n + 3) / 4) l) ((n + 7) / 8) ((n + 3) / 4).

Section Spec.
(** The answers of the device, in order. *)
Context (reply : nat -> list Z).

Definition scans (l : list scan) : io chain unit := fun c =>
  (mk_chain (log c ++ l) (reads c), Value tt).

Definition chain_jtag : Jtag chain := {|
  write_ir ir := scans [IR (ir_bits ir)];
  write_dr data n := scans [DR (dr_bits data n)];
  burst data := scans [DR (msb_bits data)];
  read_dr n := fun c =>
    (mk_chain (log c ++ [DR (replicate n false)]) (S (reads c)), Value (answer_bytes n (reply (reads c))));
  run n := scans (replicate n Tick);
  sync := io_ret tt;
|}.

(** ** A device with a TAP controller *)

Inductive tap :=
| TestLogicReset | RunTestIdle
| SelectDR | CaptureDR | ShiftDR | Exit1DR | PauseDR | Exit2DR | UpdateDR
| SelectIR | CaptureIR | ShiftIR | Exit1IR | PauseIR | Exit2IR | UpdateIR.

Definition tap_next (t : tap) (tms : bool) : tap :=
  match t, tms with
  | TestLogicReset, true => TestLogicReset | TestLogicReset, false => RunTestIdle
  | RunTestIdle, true => SelectDR | RunTestIdle, false => RunTestIdle
  | SelectDR, true => SelectIR | SelectDR, false => CaptureDR
  | CaptureDR, true => Exit1DR | CaptureDR, false => ShiftDR
  | ShiftDR, true => Exit1DR | ShiftDR, false => ShiftDR
  | Exit1DR, true => UpdateDR | Exit1DR, false => PauseDR
  | PauseDR, true => Exit2DR | PauseDR, false => PauseDR
  | Exit2DR, true => UpdateDR | Exit2DR, false => ShiftDR
  | UpdateDR, true => SelectDR | UpdateDR, false => RunTestIdle
  | SelectIR, true => TestLogicReset | SelectIR, false => CaptureIR
  | CaptureIR, true => Exit1IR | CaptureIR, false => ShiftIR
  | ShiftIR, true => Exit1IR | ShiftIR, false => ShiftIR
  | Exit1IR, true => UpdateIR | Exit1IR, false => PauseIR
  | PauseIR, true => Exit2IR | PauseIR, false => PauseIR
  | Exit2IR, true => UpdateIR | Exit2IR, false => ShiftIR
  | UpdateIR, true => SelectDR | UpdateIR, false => RunTestIdle
  end.

(** The controller, the bits shifted since the last capture, the log, and the
    answers read. *)
Record target := mk_target { state : tap; shifted : list bool; tlog : list scan; treads : nat }.

Definition tap_clock (c : Z) (d : target) : target :=
  let tdi := Z.testbit c 1 in
  let tms := Z.testbit c 0 in
  let next := tap_next (state d) tms in
  let sh :=
    match state d with
    | ShiftDR | ShiftIR => shifted d ++ [tdi]
    | CaptureDR | CaptureIR => []
    | _ => shifted d
    end in
  let entry :=
    match state d, next with
    | (Exit1DR | Exit2DR), UpdateDR => [DR sh]
    | (Exit1IR | Exit2IR), UpdateIR => [IR sh]
    | RunTestIdle, RunTestIdle => [Tick]
    | _, _ => []
    end in
  mk_target next sh (tlog d ++ entry) (treads d).
Definition clock_all (l : list Z) (d : target) : target := fold_left (fun d c => tap_clock c d) l d.

#[export] Instance target_pipe : ControlPipe target.
Proof.
  refine {|
    control_out request value data d :=
      (if request =? CMD_JTAG_REQUEST then clock_all (unpack_clocks data (Z.to_nat value)) d else d, 0);
    control_in request _ n d :=
      if request =? CMD_JTAG_RESPONSE
      then (mk_target (state d) (shifted d) (tlog d) (S (treads d)), (fit n (reply (treads d)), 0))
      else (d, (replicate n 0, 0));
    bulk_in d := (d, LIBUSB_ERROR_TIMEOUT);
    error_name _ := EmptyString;
  |}.
  intros r v n d. destruct (r =? _); cbn; [unfold fit|].
  - rewrite length_take, length_app, length_replicate. lia.
  - apply length_replicate.
Defined.
End Spec.

(** ** The code on that device *)

Section Refines.
Context (reply : nat -> list Z).
#[local] Existing Instance target_pipe.
#[local] Instance pipe : ControlPipe target := target_pipe reply.
Implicit Type s : fpga target.

(** The clocks collected and not yet sent, and the device once they are. *)
Definition collected s : list Z := take (Z.to_nat (g_jtag_count s)) (g_jtag_buf s).
Definition ahead s : target := clock_all (collected s) (dev s).

Record buffer_ok s : Prop := {
  buf_length : length (g_jtag_buf s) = 255%nat;
  buf_count : 0 <= g_jtag_count s < 255;
  buf_clocks : clocks_ok (g_jtag_buf s);
}.

(** [m] goes through and acts on the device, once the collected clocks are sent, as [f]. *)
Definition steps {A} (m : io (fpga target) A) (a : A) (f : target -> target) : Prop :=
  forall s, buffer_ok s -> exists s', m s = (s', Value a) /\ buffer_ok s' /\ ahead s' = f (ahead s).

Lemma steps_ret {A} (a : A) : steps (io_ret a) a (fun d => d).
Proof. intros s Hs. by exists s. Qed.

Lemma steps_bind {A B} (m : io _ A) (n : A -> io _ B) a b f g :
  steps m a f -> steps (n a) b g -> steps (io_bind m n) b (fun d => g (f d)).
Proof.
  intros Hm Hn s Hs. destruct (Hm s Hs) as (s1 & E1 & H1 & A1). destruct (Hn s1 H1) as (s2 & E2 & H2 & A2).
  exists s2. unfold io_bind. rewrite E1, E2, A2, A1. done.
Qed.

Lemma steps_ext {A} (m : io _ A) a f g : (forall d, f d = g d) -> steps m a f -> steps m a g.
Proof. intros E H s Hs. destruct (H s Hs) as (s' & ? & ? & ?). exists s'. by rewrite <- E. Qed.

Lemma clock_all_app l k d : clock_all (l ++ k) d = clock_all k (clock_all l d).
Proof. apply fold_left_app. Qed.

(** Sending the collected clocks. *)
Lemma request_collected buf n d :
  clocks_ok buf -> (0 < n <= 255)%nat -> (n <= length buf)%nat ->
  usb_jtag_request buf (Z.of_nat n) d = (clock_all (take n buf) d, Value tt).
Proof.
  intros Hb Hn Hl. unfold usb_jtag_request, MAX_COUNT_IN_REQUEST.
  destruct (Z.ltb_spec 0 (Z.of_nat n)); [|lia]. destruct (Z.leb_spec (Z.of_nat n) 255); [|lia]. cbn [andb].
  unfold vendor_out, usb_check_error. rewrite Nat2Z.id. cbn -[unpack_clocks pack_clocks Nat.div].
  rewrite Nat2Z.id, unpack_pack by (done || lia). done.
Qed.

Lemma steps_sync : forall s, buffer_ok s ->
  exists s', jtag_sync s = (s', Value tt) /\ buffer_ok s' /\ ahead s' = ahead s /\ g_jtag_count s' = 0.
Proof.
  intros s Hs. unfold jtag_sync. destruct (Z.eqb_spec (g_jtag_count s) 0) as [E|E].
  { by exists s. }
  destruct Hs as [Hl Hc Hk].
  pose proof (request_collected (g_jtag_buf s) (Z.to_nat (g_jtag_count s)) (dev s) Hk ltac:(lia) ltac:(lia)) as Hr.
  rewrite Z2Nat.id in Hr by lia. unfold io_bind, on_dev. rewrite Hr.
  eexists. split; [reflexivity|]. split; [by split|done].
Qed.

(** A clock. *)
Definition clk_code (tdi tms : Z) : Z := 2 * tdi + tms.

Lemma clk_code_lor tdi tms :
  0 <= tdi < 2 -> 0 <= tms < 2 -> u8 (Z.lor (Z.shiftl tdi 1) tms) = clk_code tdi tms.
Proof.
  intros H1 H2. rewrite Z.lor_comm, lor_shiftl_add by lia. unfold clk_code. rewrite u8_small; lia.
Qed.

Lemma steps_clk tdi tms :
  0 <= tdi < 2 -> 0 <= tms < 2 -> steps (jtag_clk tdi tms) tt (tap_clock (clk_code tdi tms)).
Proof.
  intros H1 H2 s [Hl Hc Hk]. unfold jtag_clk. rewrite clk_code_lor by done. set (c := clk_code tdi tms).
  assert (Hcr : 0 <= c < 4) by (unfold c, clk_code; lia).
  rewrite set_at_Some by lia. set (i := Z.to_nat (g_jtag_count s)).
  set (s1 := s <| g_jtag_buf := _ |> <| g_jtag_count := g_jtag_count s + 1 |>).
  assert (Hb1 : clocks_ok (g_jtag_buf s1)) by (apply Forall_insert; done).
  assert (Hl1 : length (g_jtag_buf s1) = 255%nat) by (cbn; by rewrite length_insert).
  assert (Ha : clock_all (take (S i) (g_jtag_buf s1)) (dev s1) = tap_clock c (ahead s)).
  { cbn. unfold ahead, collected. fold i.
    rewrite <- Nat.add_1_r, take_push by (unfold i; lia). by rewrite clock_all_app. }
  destruct (Z.eqb_spec MAX_COUNT_IN_REQUEST (g_jtag_count s1)) as [E|E]; cbn in E; unfold MAX_COUNT_IN_REQUEST in E.
  - pose proof (request_collected (g_jtag_buf s1) (S i) (dev s1) Hb1 ltac:(unfold i; lia) ltac:(unfold i; lia)) as Hr.
    replace (Z.of_nat (S i)) with (g_jtag_count s1) in Hr by (cbn; unfold i; lia).
    unfold jtag_sync. destruct (Z.eqb_spec (g_jtag_count s1) 0) as [E0|E0]; [cbn in E0; lia|].
    unfold io_bind, on_dev. rewrite Hr.
    eexists. split; [reflexivity|]. split; [by split|]. rewrite <- Ha. done.
  - eexists. split; [reflexivity|]. split; [split; [done|cbn; lia|done]|].
    rewrite <- Ha. unfold ahead, collected. do 2 f_equal. cbn. unfold i. lia.
Qed.

Lemma steps_iter {X} (f : X -> io _ unit) (g : X -> Z) l :
  (forall x, x ∈ l -> steps (f x) tt (tap_clock (g x))) -> steps (io_iter f l) tt (clock_all (map g l)).
Proof.
  induction l as [|x l IH]; intros Hf; cbn [io_iter map].
  - apply steps_ret.
  - apply (steps_bind (f x) (fun _ => io_iter f l) tt tt (tap_clock (g x)) (clock_all (map g l)));
      [apply Hf; set_solver|apply IH; intros; apply Hf; set_solver].
Qed.

(** The clocks of a shift: TMS is set on the last bit. *)
Fixpoint shift_clocks (l : list bool) : list Z :=
  match l with
  | [] => []
  | [b] => [clk_code (Z.b2z b) 1]
  | b :: l => clk_code (Z.b2z b) 0 :: shift_clocks l
  end.

Lemma shift_clocks_seq (b : nat -> bool) n k m :
  (k + m = n)%nat ->
  map (fun i => clk_code (Z.b2z (b i)) (Z.b2z (i =? n - 1)%nat)) (seq k m) = shift_clocks (map b (seq k m)).
Proof.
  revert k. induction m as [|m IH]; intros k E; [done|]. cbn [seq map]. rewrite IH by lia.
  destruct m as [|m]; cbn [seq map shift_clocks].
  - destruct (Nat.eqb_spec k (n - 1)); [done|lia].
  - destruct (Nat.eqb_spec k (n - 1)); [lia|done].
Qed.

Lemma clock_code (tdi tms : bool) d :
  tap_clock (clk_code (Z.b2z tdi) (Z.b2z tms)) d = tap_clock (Z.b2z tms + 2 * Z.b2z tdi) d.
Proof. unfold clk_code. f_equal. lia. Qed.

Lemma shift_dr l d :
  state d = ShiftDR -> l <> [] ->
  clock_all (shift_clocks l) d = mk_target Exit1DR (shifted d ++ l) (tlog d) (treads d).
Proof.
  revert d. induction l as [|b [|b' l] IH]; intros d Hd Hn; [done|..].
  - unfold clock_all. cbn [shift_clocks fold_left]. unfold tap_clock. rewrite Hd.
    by destruct b; cbn; rewrite app_nil_r.
  - change (shift_clocks (b :: b' :: l)) with (clk_code (Z.b2z b) 0 :: shift_clocks (b' :: l)).
    change (clock_all (?x :: ?y) d) with (clock_all y (tap_clock x d)).
    assert (E : tap_clock (clk_code (Z.b2z b) 0) d = mk_target ShiftDR (shifted d ++ [b]) (tlog d) (treads d)).
    { unfold tap_clock. rewrite Hd. by destruct b; cbn; rewrite app_nil_r. }
    rewrite E, IH by done. cbn. by rewrite <- app_assoc.
Qed.

Lemma shift_ir l d :
  state d = ShiftIR -> l <> [] ->
  clock_all (shift_clocks l) d = mk_target Exit1IR (shifted d ++ l) (tlog d) (treads d).
Proof.
  revert d. induction l as [|b [|b' l] IH]; intros d Hd Hn; [done|..].
  - unfold clock_all. cbn [shift_clocks fold_left]. unfold tap_clock. rewrite Hd.
    by destruct b; cbn; rewrite app_nil_r.
  - change (shift_clocks (b :: b' :: l)) with (clk_code (Z.b2z b) 0 :: shift_clocks (b' :: l)).
    change (clock_all (?x :: ?y) d) with (clock_all y (tap_clock x d)).
    assert (E : tap_clock (clk_code (Z.b2z b) 0) d = mk_target ShiftIR (shifted d ++ [b]) (tlog d) (treads d)).
    { unfold tap_clock. rewrite Hd. by destruct b; cbn; rewrite app_nil_r. }
    rewrite E, IH by done. cbn. by rewrite <- app_assoc.
Qed.

(** The target is idle and has logged [l] since [d]. *)
Definition idle_after (l : list scan) (d d' : target) : Prop :=
  state d' = RunTestIdle /\ tlog d' = tlog d ++ l /\ treads d' = treads d.

(** A clock on a known state. *)
Lemma tap_clock_at c st sh lg r :
  tap_clock c (mk_target st sh lg r) =
  let next := tap_next st (Z.testbit c 0) in
  let sh' := match st with ShiftDR | ShiftIR => sh ++ [Z.testbit c 1] | CaptureDR | CaptureIR => [] | _ => sh end in
  mk_target next sh'
    (lg ++ match st, next with
           | (Exit1DR | Exit2DR), UpdateDR => [DR sh']
           | (Exit1IR | Exit2IR), UpdateIR => [IR sh']
           | RunTestIdle, RunTestIdle => [Tick]
           | _, _ => []
           end) r.
Proof. reflexivity. Qed.
Ltac taps := repeat (rewrite tap_clock_at; cbn); rewrite ?app_nil_r.

Lemma leave_idle d :
  state d = RunTestIdle -> tap_clock 1 d = mk_target SelectDR (shifted d) (tlog d) (treads d).
Proof. intros Hd. unfold tap_clock. rewrite Hd. cbn. by rewrite app_nil_r. Qed.

Lemma ir_scan bits d :
  state d = RunTestIdle -> bits <> [] ->
  idle_after [IR bits] d (clock_all ([1; 1; 0; 0] ++ shift_clocks bits ++ [1; 0]) d).
Proof.
  intros Hd Hn. rewrite !clock_all_app.
  assert (E : clock_all [1; 1; 0; 0] d = mk_target ShiftIR [] (tlog d) (treads d)).
  { unfold clock_all. cbn [fold_left]. rewrite (leave_idle d Hd). taps. by rewrite ?app_nil_r. }
  rewrite E, shift_ir by done. unfold clock_all. cbn [fold_left app]. taps. done.
Qed.

Lemma dr_scan bits d :
  state d = RunTestIdle -> bits <> [] ->
  idle_after [DR bits] d (clock_all ([1; 0; 0] ++ shift_clocks bits ++ [1; 0]) d).
Proof.
  intros Hd Hn. rewrite !clock_all_app.
  assert (E : clock_all [1; 0; 0] d = mk_target ShiftDR [] (tlog d) (treads d)).
  { unfold clock_all. cbn [fold_left]. rewrite (leave_idle d Hd). taps. by rewrite ?app_nil_r. }
  rewrite E, shift_dr by done. unfold clock_all. cbn [fold_left app]. taps. done.
Qed.

Lemma tick_scan n d :
  state d = RunTestIdle -> idle_after (replicate n Tick) d (clock_all (replicate n 0) d).
Proof.
  revert d. induction n as [|n IH]; intros d Hd.
  - split_and!; [done|by rewrite app_nil_r|done].
  - cbn [replicate]. change (clock_all (?x :: ?y) d) with (clock_all y (tap_clock x d)).
    assert (E : tap_clock 0 d = mk_target RunTestIdle (shifted d) (tlog d ++ [Tick]) (treads d)).
    { unfold tap_clock. by rewrite Hd. }
    rewrite E. destruct (IH (mk_target RunTestIdle (shifted d) (tlog d ++ [Tick]) (treads d)) eq_refl) as (H1 & H2 & H3).
    split_and!; [done| |done]. rewrite H2. cbn. by rewrite <- app_assoc.
Qed.

(** *** The scans of the code *)

Lemma land_1_bit x i : Z.land (Z.shiftr x (Z.of_nat i)) 1 = Z.b2z (Z.testbit x (Z.of_nat i)).
Proof.
  change 1 with (2 ^ 1 - 1) at 1. rewrite land_low by lia. rewrite Z.shiftr_div_pow2 by lia.
  by rewrite Z.testbit_spec' by lia.
Qed.

Lemma steps_bit b tms : steps (jtag_clk (Z.b2z b) (Z.b2z tms)) tt (tap_clock (clk_code (Z.b2z b) (Z.b2z tms))).
Proof. apply steps_clk; [destruct b|destruct tms]; cbn; lia. Qed.

Lemma steps_shift (m : nat -> io _ unit) (b : nat -> bool) n :
  (forall i, m i = jtag_clk (Z.b2z (b i)) (Z.b2z (i =? n - 1)%nat)) ->
  steps (io_iter m (seq 0 n)) tt (clock_all (shift_clocks (map b (seq 0 n)))).
Proof.
  intros Hm. rewrite <- (shift_clocks_seq b n) by lia.
  apply (steps_iter m (fun i => clk_code (Z.b2z (b i)) (Z.b2z (i =? n - 1)%nat))).
  intros i _. rewrite Hm. apply steps_bit.
Qed.

Ltac clocks :=
  repeat first
    [ eapply (steps_bind (jtag_clk 0 1)); [apply (steps_bit false true)|]
    | eapply (steps_bind (jtag_clk 0 0)); [apply (steps_bit false false)|] ].

Lemma steps_write_ir ir :
  steps (jtag_write_ir ir) tt (clock_all ([1; 1; 0; 0] ++ shift_clocks (ir_bits ir) ++ [1; 0])).
Proof.
  unfold jtag_write_ir. eapply steps_ext; [|clocks; eapply steps_bind;
    [apply (steps_shift _ (fun i => Z.testbit ir (Z.of_nat i)) 8)|clocks; apply (steps_bit false false)]].
  - intros d. rewrite !clock_all_app. reflexivity.
  - intros i. cbn. by rewrite land_1_bit.
Qed.

Lemma steps_write_dr data n :
  steps (jtag_write_dr data n) tt (clock_all ([1; 0; 0] ++ shift_clocks (dr_bits data n) ++ [1; 0])).
Proof.
  unfold jtag_write_dr. eapply steps_ext; [|clocks; eapply steps_bind;
    [apply (steps_shift _ (fun i => Z.testbit (data !!! (i / 8)%nat) (Z.of_nat (i mod 8)%nat)) n)|clocks; apply (steps_bit false false)]].
  - intros d. rewrite !clock_all_app. reflexivity.
  - intros i. unfold bit_at. by rewrite land_1_bit.
Qed.

Lemma steps_run n : steps (jtag_run n) tt (clock_all (replicate n 0)).
Proof.
  replace (replicate n 0) with (map (fun _ : nat => clk_code 0 0) (seq 0 n)).
  - apply (steps_iter (fun _ => jtag_clk 0 0) (fun _ => clk_code 0 0)). intros. apply (steps_bit false false).
  - rewrite <- (length_seq n 0) at 2. generalize (seq 0 n). induction l; cbn; by rewrite ?IHl.
Qed.

Lemma steps_iter_all {X} (f : X -> io _ unit) (g : X -> list Z) l :
  (forall x, x ∈ l -> steps (f x) tt (clock_all (g x))) ->
  steps (io_iter f l) tt (clock_all (concat (map g l))).
Proof.
  induction l as [|x l IH]; intros Hf; cbn [io_iter map concat]; [apply steps_ret|].
  eapply steps_ext; [|eapply steps_bind; [apply Hf; set_solver|apply IH; intros; apply Hf; set_solver]].
  intros d. cbn. by rewrite clock_all_app.
Qed.

Lemma shift_clocks_app l k :
  k <> [] -> shift_clocks (l ++ k) = map (fun b => clk_code (Z.b2z b) 0) l ++ shift_clocks k.
Proof.
  intros Hk. induction l as [|b l IH]; [done|]. cbn [app map]. rewrite <- IH.
  destruct (l ++ k) eqn:E; [apply app_eq_nil in E as [_ ->]; done|done].
Qed.

Definition burst_clocks (size i : nat) (b : Z) : list Z :=
  map (fun j => clk_code (Z.b2z (Z.testbit b (Z.of_nat j))) (Z.b2z ((i =? size - 1)%nat && (j =? 0)%nat)))
    [7; 6; 5; 4; 3; 2; 1; 0]%nat.

Lemma burst_clocks_seq size pre l :
  size = (length pre + length l)%nat ->
  concat (map (fun i => burst_clocks size i ((pre ++ l) !!! i)) (seq (length pre) (length l)))
  = shift_clocks (msb_bits l).
Proof.
  revert pre. induction l as [|b l IH]; intros pre E; [done|]. cbn [length seq map concat].
  specialize (IH (pre ++ [b])). rewrite length_app, <- app_assoc in IH. cbn [length app] in IH.
  rewrite Nat.add_1_r in IH. rewrite IH by (cbn in E; lia).
  rewrite lookup_total_app_r, Nat.sub_diag by lia. cbn [lookup_total list_lookup_total].
  unfold msb_bits. cbn [map concat]. fold (msb_bits l). unfold burst_clocks. destruct l as [|b' l].
  - cbn in E. replace (length pre =? size - 1)%nat with true by (symmetry; apply Nat.eqb_eq; lia). reflexivity.
  - cbn in E. replace (length pre =? size - 1)%nat with false by (symmetry; apply Nat.eqb_neq; lia).
    rewrite (shift_clocks_app _ (msb_bits (b' :: l))) by done. reflexivity.
Qed.

Lemma steps_burst data :
  steps (jtag_burst data) tt (clock_all ([1; 0; 0] ++ shift_clocks (msb_bits data) ++ [1; 0])).
Proof.
  unfold jtag_burst. eapply steps_ext; [|clocks; eapply steps_bind;
    [apply (steps_iter_all _ (fun i => burst_clocks (length data) i (data !!! i)))|clocks; apply (steps_bit false false)]].
  - intros d. rewrite <- (burst_clocks_seq (length data) [] data) by done. rewrite !clock_all_app. reflexivity.
  - intros i _. apply (steps_iter _ (fun j => clk_code (Z.b2z (Z.testbit (data !!! i) (Z.of_nat j)))
      (Z.b2z ((i =? length data - 1)%nat && (j =? 0)%nat)))).
    intros j _. rewrite land_1_bit. apply steps_bit.
Qed.

(** *** The refinement *)

(** The code's state and the log of the specification: the controller is idle and has
    done what is logged, once the collected clocks are sent. *)
Definition linked s (c : chain) : Prop :=
  buffer_ok s /\ state (ahead s) = RunTestIdle /\ tlog (ahead s) = log c /\ treads (ahead s) = reads c.

Definition agree {A} (m : io (fpga target) A) (n : io chain A) : Prop :=
  forall s c, linked s c -> exists s' c' r, m s = (s', r) /\ n c = (c', r) /\ linked s' c'.

Lemma agree_const {A} (r : answer A) : agree (fun s => (s, r)) (fun c => (c, r)).
Proof. intros s c Hs. by exists s, c, r. Qed.

Lemma agree_ret {A} (a : A) : agree (io_ret a) (io_ret a).
Proof. apply agree_const. Qed.

Lemma agree_check b msg : agree (os_check b msg) (os_check b msg).
Proof. destruct b; apply agree_const. Qed.

Lemma agree_bind {A B} m n (f : A -> io _ B) g :
  agree m n -> (forall a, agree (f a) (g a)) -> agree (io_bind m f) (io_bind n g).
Proof.
  intros Hm Hf s c Hs. destruct (Hm s c Hs) as (s1 & c1 & r & E1 & E2 & H1).
  unfold io_bind. rewrite E1, E2. destruct r as [a|msg| | |code].
  - apply Hf, H1.
  - by exists s1, c1, (Died msg).
  - by exists s1, c1, Undefined.
  - by exists s1, c1, Spinning.
  - by exists s1, c1, (Exited code).
Qed.

Lemma agree_iter {X} (f : X -> io _ unit) g l :
  (forall x, x ∈ l -> agree (f x) (g x)) -> agree (io_iter f l) (io_iter g l).
Proof.
  induction l as [|x l IH]; intros H; [apply agree_ret|].
  apply agree_bind; [apply H; set_solver|]. intros _. apply IH. intros; apply H; set_solver.
Qed.

Lemma agree_scans m cs l :
  steps m tt (clock_all cs) -> (forall d, state d = RunTestIdle -> idle_after l d (clock_all cs d)) ->
  agree m (scans l).
Proof.
  intros Hm Hc s c (Hb & Hd & Hl & Hr). destruct (Hm s Hb) as (s' & E & Hb' & Ha).
  destruct (Hc _ Hd) as (H1 & H2 & H3). eexists s', _, _. split; [exact E|]. split; [reflexivity|].
  split; [done|]. rewrite Ha. split_and!; [done|by rewrite H2, Hl|by rewrite H3].
Qed.

Lemma agree_write_ir ir : agree (jtag_write_ir ir) (scans [IR (ir_bits ir)]).
Proof. eapply agree_scans; [apply steps_write_ir|]. intros d Hd. by apply ir_scan. Qed.

Lemma dr_bits_not_nil data n : (0 < n)%nat -> dr_bits data n <> [].
Proof. by destruct n; [lia|]. Qed.

Lemma agree_write_dr data n : (0 < n)%nat -> agree (jtag_write_dr data n) (scans [DR (dr_bits data n)]).
Proof.
  intros Hn. eapply agree_scans; [apply steps_write_dr|]. intros d Hd.
  apply dr_scan; [done|by apply dr_bits_not_nil].
Qed.

Lemma agree_burst data : data <> [] -> agree (jtag_burst data) (scans [DR (msb_bits data)]).
Proof.
  intros Hn. eapply agree_scans; [apply steps_burst|]. intros d Hd. apply dr_scan; [done|].
  by destruct data.
Qed.

Lemma agree_run n : agree (jtag_run n) (scans (replicate n Tick)).
Proof. eapply agree_scans; [apply steps_run|]. intros d Hd. by apply tick_scan. Qed.

Lemma agree_sync : agree jtag_sync (io_ret tt).
Proof.
  intros s c (Hb & Hd & Hl & Hr). destruct (steps_sync s Hb) as (s' & E & Hb' & Ha & _).
  exists s', c, (Value tt). split; [done|]. split; [done|]. split; [done|]. by rewrite Ha.
Qed.

(** Reading the answer with nothing collected. *)
Lemma response_step n s :
  buffer_ok s -> g_jtag_count s = 0 -> (n <= 255)%nat ->
  exists s', on_dev (usb_jtag_response (Z.of_nat n)) s = (s', Value (answer_bytes n (reply (treads (ahead s)))))
  /\ buffer_ok s' /\ ahead s' = mk_target (state (ahead s)) (shifted (ahead s)) (tlog (ahead s)) (S (treads (ahead s))).
Proof.
  intros [Hl Hc Hk] Hz Hn. assert (Ha : ahead s = dev s) by (unfold ahead, collected; by rewrite Hz).
  rewrite Ha. unfold on_dev, usb_jtag_response, MAX_COUNT_IN_REQUEST.
  destruct (Z.leb_spec (Z.of_nat n) 255); [|lia]. rewrite Nat2Z.id.
  unfold io_bind, vendor_in, usb_check_error. cbn -[Nat.div join_nibbles fit].
  eexists. split; [reflexivity|]. split; [by split|]. unfold ahead, collected. cbn. by rewrite Hz.
Qed.

Lemma steps_read_shift n :
  steps (io_iter (fun i => jtag_clk 0 (Z.b2z (i =? n - 1)%nat)) (seq 0 n)) tt
    (clock_all (shift_clocks (replicate n false))).
Proof.
  replace (replicate n false) with (map (fun _ : nat => false) (seq 0 n)).
  - by apply (steps_shift _ (fun _ => false)).
  - rewrite <- (length_seq n 0) at 2. generalize (seq 0 n). induction l; cbn; by rewrite ?IHl.
Qed.

Lemma agree_read_dr n :
  (0 < n <= 255)%nat -> agree (jtag_read_dr n) (read_dr (Jtag := chain_jtag reply) n).
Proof.
  intros Hn s c (Hb & Hd & Hl & Hr). unfold jtag_read_dr.
  assert (Hhead : forall B (k : io (fpga target) B), exists s1,
    (jtag_clk 0 1 ;~ jtag_clk 0 0 ;~ jtag_clk 0 0 ;~ k) s = k s1
    /\ buffer_ok s1 /\ ahead s1 = clock_all [1; 0; 0] (ahead s)).
  { intros B k. destruct (steps_bit false true s Hb) as (s1 & E1 & H1 & A1).
    destruct (steps_bit false false s1 H1) as (s2 & E2 & H2 & A2).
    destruct (steps_bit false false s2 H2) as (s3 & E3 & H3 & A3). cbn in E1, E2, E3.
    exists s3. unfold io_bind. rewrite E1, E2, E3. split; [done|]. split; [done|]. by rewrite A3, A2, A1. }
  destruct (Hhead _ (jtag_sync ;~ io_iter (fun i => jtag_clk 0 (Z.b2z (i =? n - 1)%nat)) (seq 0 n) ;~ jtag_sync ;~
    let~ data := on_dev (usb_jtag_response (Z.of_nat n)) in jtag_clk 0 1 ;~ jtag_clk 0 0 ;~ io_ret data))
    as (s1 & -> & H1 & A1).
  destruct (steps_sync s1 H1) as (s2 & E2 & H2 & A2 & _).
  destruct (steps_read_shift n s2 H2) as (s3 & E3 & H3 & A3).
  destruct (steps_sync s3 H3) as (s4 & E4 & H4 & A4 & Z4).
  destruct (response_step n s4 H4 Z4 ltac:(lia)) as (s5 & E5 & H5 & A5).
  destruct (steps_bit false true s5 H5) as (s6 & E6 & H6 & A6).
  destruct (steps_bit false false s6 H6) as (s7 & E7 & H7 & A7). cbn in E6, E7.
  unfold io_bind. rewrite E2, E3, E4, E5, E6, E7.
  destruct (dr_scan (replicate n false) (ahead s) Hd) as (I1 & I2 & I3); [by destruct n; [lia|]|].
  rewrite !clock_all_app in I1, I2, I3.
  assert (E : clock_all (shift_clocks (replicate n false)) (clock_all [1; 0; 0] (ahead s)) = ahead s4)
    by (by rewrite A4, A3, A2, A1).
  rewrite E in I1, I2, I3.
  assert (Et : treads (ahead s4) = reads c) by (rewrite <- Hr, <- I3; reflexivity).
  rewrite Et in *. eexists s7, _, _. split; [reflexivity|]. split; [reflexivity|]. split; [done|].
  rewrite A7, A6, A5. cbn in I1, I2 |- *. by rewrite <- Hl, <- I2, <- Et.
Qed.
End Refines.
