(* ===== verification/Fpga.v ===== *)
(** * Programming the FPGA (src/gen1/fpga.c, second half)

    The bitstream check, the JED parser and the routines that load the SRAM and
    erase, program and verify the flash, against the interface [Jtag]. *)

From Stdlib Require Import String.
From stdpp Require Import sets strings.
From S2P Require Import Prelude OsCommon Gen1Usb Jtag.
Local Open Scope list_scope.

Definition CMD_ISC_ENABLE : Z := 0xc6.
Definition CMD_LSC_CHECK_BUSY : Z := 0xf0.
Definition CMD_LSC_READ_STATUS : Z := 0x3c.
Definition CMD_ISC_ERASE : Z := 0x0e.
Definition CMD_LSC_INIT_ADDRESS : Z := 0x46.
Definition CMD_LSC_PROG_INCR_NV : Z := 0x70.
Definition CMD_LSC_PROG_FEATURE : Z := 0xe4.
Definition CMD_LSC_READ_FEATURE : Z := 0xe7.
Definition CMD_LSC_PROG_FEABITS : Z := 0xf8.
Definition CMD_LSC_READ_FEABITS : Z := 0xfb.
Definition CMD_LSC_READ_INCR_NV : Z := 0x73.
Definition CMD_ISC_PROGRAM_DONE : Z := 0x5e.
Definition CMD_ISC_DISABLE : Z := 0x26.
Definition CMD_ISC_NOOP : Z := 0xff.
Definition CMD_LSC_REFRESH : Z := 0x79.
Definition CMD_LSC_BITSTREAM_BURST : Z := 0x7a.

Definition BITSTREAM_SIGNATURE : list Z := cstr "LCMXO2-2000HC".
Definition MAX_CONFIG_SIZE : Z := 512 * 1024.
Definition ISC_ENABLE_SRAM : Z := 0x00.
Definition ISC_ENABLE_FLASH : Z := 0x08.
Definition ISC_ERASE_SRAM : Z := 1.
Definition ISC_ERASE_ALL_NV : Z := 0x0e.
Definition STATUS_BUSY : Z := Z.shiftl 1 12.
Definition STATUS_FAIL : Z := Z.shiftl 1 13.
Definition FLASH_ROW_SIZE : Z := 128.

(** The enabling and disabling of the JTAG port are compiled out, and the two
    identifiers are constants. *)
Definition fpga_enable {J} : io J unit := io_ret tt.
Definition fpga_disable {J} : io J unit := io_ret tt.
Definition fpga_read_idcode : Z := 0x20250616.
Definition fpga_read_traceid : Z := u64 0x20250616.

Definition bitstream_valid (data : list Z) (size : Z) : bool :=
  if size <? 1024 then false
  else match find_str data 1024 BITSTREAM_SIGNATURE with None => false | Some _ => true end.

(** ** The JED file *)

Definition is_bit (c : Z) : bool := (c =? 48) || (c =? 49).

Definition jed_error {A} (msg : string) : answer A := Died ("Error: malformed JED file: " +:+ msg).

(** The loop over the configuration field; [l] is the file from [offset] on. *)
Fixpoint config_loop (l : list Z) (config : list Z) (bit_count : Z) : answer (list Z * Z) :=
  match l with
  | [] => jed_error "no field terminator found"
  | c :: l =>
      if c =? 42 then Value (config, bit_count)
      else if is_bit c then
        let i := Z.quot bit_count 8 in
        match config !! Z.to_nat i with
        | None => Undefined
        | Some old =>
            let config := <[Z.to_nat i := u8 (Z.lor old (Z.shiftl (c - 48) (Z.rem bit_count 8)))]> config in
            let bit_count := bit_count + 1 in
            if bit_count <? MAX_CONFIG_SIZE * 8 then config_loop l config bit_count
            else jed_error "configuration data is too big"
        end
      else config_loop l config bit_count
  end.

(** The loop over the feature row. *)
Fixpoint feature_loop (l : list Z) (feature feabits fr_bit_count : Z) : answer (Z * Z * Z) :=
  match l with
  | [] => jed_error "no field terminator found"
  | c :: l =>
      if c =? 42 then Value (feature, feabits, fr_bit_count)
      else if is_bit c then
        let bit := c - 48 in
        if fr_bit_count <? 64 + 16 then
          if fr_bit_count <? 64
          then feature_loop l (Z.lor feature (u64 (Z.shiftl bit fr_bit_count))) feabits (fr_bit_count + 1)
          else feature_loop l feature (u16 (Z.lor feabits (Z.shiftl bit (fr_bit_count - 64)))) (fr_bit_count + 1)
        else jed_error "feature row data is too big"
      else feature_loop l feature feabits fr_bit_count
  end.

Definition start_text : list Z := cstr "L000000".
Definition fr_text : list Z := cstr "NOTE FEATURE_ROW*".

Record jed := mk_jed { jed_config : list Z; jed_bits : Z; jed_feabits : Z; jed_feature : Z }.

(** [config] as it starts, zeroed. *)
Definition blank_config : list Z := replicate (Z.to_nat MAX_CONFIG_SIZE) 0.

Definition parse_jed_file (data : list Z) : answer jed :=
  let size := Z.of_nat (length data) in
  if negb (bitstream_valid data size) then jed_error "device signature not found"
  else match find_str data size start_text with
  | None => jed_error "no 'L000000' found"
  | Some ptr =>
      let offset := (ptr + length start_text)%nat in
      let^ (config, bit_count) := config_loop (drop offset data) blank_config 0 in
      if negb (Z.rem bit_count FLASH_ROW_SIZE =? 0)
      then jed_error "size of the configuration data must be a multiple of 128"
      else match find_str data size fr_text with
      | None => jed_error "no feature row found"
      | Some ptr =>
          let offset := (ptr + length fr_text)%nat in
          let^ (feature, feabits, fr_bit_count) := feature_loop (drop offset data) 0 0 0 in
          if negb (fr_bit_count =? 64 + 16) then jed_error "invalid feature row size"
          else Value (mk_jed config bit_count feabits feature)
      end
  end.

(** The bytes of a [u32], [u64] or [u16] in memory, and back. *)
Definition to_bytes (n : nat) (x : Z) : list Z :=
  map (fun i => u8 (Z.shiftr x (8 * Z.of_nat i))) (seq 0 n).
Definition of_bytes (l : list Z) : Z := foldr (fun b x => b + 256 * x) 0 l.

Section Program.
Context {J : Type} `{Jtag J}.

Definition fpga_program_sram (data : list Z) : io J unit :=
  (if negb (bitstream_valid data (Z.of_nat (length data)))
   then os_error "malformed BIT file: device signature not found" else io_ret tt) ;~
  write_ir CMD_ISC_ENABLE ;~
  write_dr [ISC_ENABLE_SRAM] 8 ;~
  run 8 ;~
  write_ir CMD_ISC_ERASE ;~
  write_dr [ISC_ERASE_SRAM] 8 ;~
  run 8 ;~
  write_ir CMD_LSC_BITSTREAM_BURST ;~
  run 8 ;~
  burst data ;~
  run 100 ;~
  write_ir CMD_ISC_DISABLE ;~
  run 8 ;~
  write_ir CMD_ISC_NOOP ;~
  run 100 ;~
  sync.

(** The wait of [poll_busy_flag]. *)
Fixpoint busy_loop (fuel : nat) : io J unit :=
  match fuel with
  | O => fun j => (j, Spinning)
  | S fuel =>
      write_ir CMD_LSC_CHECK_BUSY ;~
      let~ busy := read_dr 1 in
      if busy !!! 0%nat =? 0 then io_ret tt else busy_loop fuel
  end.

Definition poll_busy_flag (fuel : nat) : io J unit :=
  busy_loop fuel ;~
  write_ir CMD_LSC_READ_STATUS ;~
  let~ status := read_dr 32 in
  run 8 ;~
  (if has (of_bytes status) STATUS_BUSY then os_error "poll_busy_flag(): busy" else io_ret tt) ;~
  (if has (of_bytes status) STATUS_FAIL then os_error "poll_busy_flag(): fail" else io_ret tt).

Definition fpga_erase_flash (fuel : nat) : io J unit :=
  write_ir CMD_ISC_ENABLE ;~
  write_dr [ISC_ENABLE_SRAM] 8 ;~
  run 8 ;~
  write_ir CMD_ISC_ERASE ;~
  write_dr [ISC_ERASE_SRAM] 8 ;~
  run 8 ;~
  write_ir CMD_ISC_NOOP ;~
  write_ir CMD_ISC_ENABLE ;~
  write_dr [ISC_ENABLE_FLASH] 8 ;~
  run 8 ;~
  write_ir CMD_ISC_ERASE ;~
  write_dr [ISC_ERASE_ALL_NV] 8 ;~
  run 8 ;~
  poll_busy_flag fuel.

(** Row [row] of the configuration. *)
Definition row_at (config : list Z) (row : nat) : list Z := take 16 (drop (row * 16) config).

Definition program_row (fuel : nat) (config : list Z) (row : nat) : io J unit :=
  write_ir CMD_LSC_PROG_INCR_NV ;~
  write_dr (row_at config row) (Z.to_nat FLASH_ROW_SIZE) ;~
  run 1000 ;~
  poll_busy_flag fuel.

Definition verify_row (config : list Z) (row : nat) : io J unit :=
  let~ tmp := read_dr (Z.to_nat FLASH_ROW_SIZE) in
  run 8 ;~
  if decide (tmp = row_at config row) then io_ret tt else os_error "configuration verification failed".

(** A feature register written and read back; [run] comes before or after the read. *)
Definition program_feature (fuel : nat) (feature : Z) : io J unit :=
  write_ir CMD_LSC_INIT_ADDRESS ;~
  run 8 ;~
  write_ir CMD_LSC_PROG_FEATURE ;~
  write_dr (to_bytes 8 feature) 64 ;~
  run 8 ;~
  poll_busy_flag fuel ;~
  write_ir CMD_LSC_READ_FEATURE ;~
  let~ verify := read_dr 64 in
  run 8 ;~
  os_check (of_bytes verify =? feature) "Feature Row verification failed".

Definition program_feabits (fuel : nat) (feabits : Z) : io J unit :=
  write_ir CMD_LSC_PROG_FEABITS ;~
  write_dr (to_bytes 2 feabits) 16 ;~
  run 8 ;~
  poll_busy_flag fuel ;~
  write_ir CMD_LSC_READ_FEABITS ;~
  run 8 ;~
  let~ verify := read_dr 16 in
  os_check (of_bytes verify =? feabits) "FEABITS verification failed".

Definition exit_programming (fuel : nat) : io J unit :=
  write_ir CMD_ISC_PROGRAM_DONE ;~
  run 1000 ;~
  poll_busy_flag fuel ;~
  write_ir CMD_ISC_DISABLE ;~
  run 8 ;~
  write_ir CMD_ISC_NOOP ;~
  run 100 ;~
  write_ir CMD_LSC_REFRESH ;~
  run 8 ;~
  write_ir CMD_ISC_NOOP ;~
  run 100 ;~
  sync.

Definition fpga_program_flash (fuel : nat) (data : list Z) : io J unit :=
  let~ j := fun s => (s, parse_jed_file data) in
  let row_count := Z.to_nat (Z.quot (jed_bits j) FLASH_ROW_SIZE) in
  fpga_erase_flash fuel ;~
  write_ir CMD_LSC_INIT_ADDRESS ;~
  run 8 ;~
  io_iter (program_row fuel (jed_config j)) (seq 0 row_count) ;~
  write_ir CMD_LSC_INIT_ADDRESS ;~
  run 8 ;~
  write_ir CMD_LSC_READ_INCR_NV ;~
  run 8 ;~
  io_iter (verify_row (jed_config j)) (seq 0 row_count) ;~
  program_feature fuel (jed_feature j) ;~
  program_feabits fuel (jed_feabits j) ;~
  exit_programming fuel.
End Program.

(** ** The routines on the control pipe *)

Section OnPipe.
Context (reply : nat -> list Z).
#[local] Instance target_control : ControlPipe target := target_pipe reply.
#[local] Instance chain_spec : Jtag chain := chain_jtag reply.

(** Follow the two sides of a routine. *)
Ltac agree_step :=
  lazymatch goal with
  | |- agree (io_bind _ _) _ => apply agree_bind; [|intros ?]
  | |- agree (io_ret _) _ => apply agree_ret
  | |- agree (os_check _ _) _ => apply agree_check
  | |- agree (os_error _) _ => apply agree_const
  | |- agree (if ?b then _ else _) _ => destruct b
  | |- agree (write_ir _) _ => apply agree_write_ir
  | |- agree (write_dr _ _) _ => apply agree_write_dr; unfold FLASH_ROW_SIZE; lia
  | |- agree (read_dr _) _ => apply agree_read_dr; unfold FLASH_ROW_SIZE; lia
  | |- agree (run _) _ => apply agree_run
  | |- agree sync _ => apply agree_sync
  | |- agree (io_iter _ _) _ => apply agree_iter; intros ? _
  end.
Ltac agree_all := repeat agree_step.

Lemma agree_busy fuel : agree (busy_loop fuel) (busy_loop fuel).
Proof.
  induction fuel as [|fuel IH]; cbn [busy_loop]; [apply agree_const|].
  agree_all. exact IH.
Qed.

Lemma agree_poll fuel : agree (poll_busy_flag fuel) (poll_busy_flag fuel).
Proof. unfold poll_busy_flag. apply agree_bind; [apply agree_busy|intros _; agree_all]. Qed.

Lemma agree_erase fuel : agree (fpga_erase_flash fuel) (fpga_erase_flash fuel).
Proof. unfold fpga_erase_flash. agree_all. apply agree_poll. Qed.

Lemma agree_sram data : agree (fpga_program_sram data) (fpga_program_sram data).
Proof.
  unfold fpga_program_sram. destruct (bitstream_valid data _) eqn:E.
  - assert (Hd : data <> []) by (intros ->; discriminate E). agree_all. by apply agree_burst.
  - intros s c Hs. by eexists s, c, _.
Qed.

Lemma agree_flash fuel data : agree (fpga_program_flash fuel data) (fpga_program_flash fuel data).
Proof.
  unfold fpga_program_flash. apply agree_bind; [apply agree_const|]. intros j.
  unfold program_feature, program_feabits, exit_programming, program_row, verify_row.
  repeat first [agree_step | apply agree_erase | apply agree_poll].
Qed.


(** Nothing is collected before the first clock and after a final [jtag_sync]. *)
Lemma linked_init d : state d = RunTestIdle -> linked (fpga_init d) (mk_chain (tlog d) (treads d)).
Proof.
  intros Hd. split; [split; [done|cbn; lia|by apply (Forall_replicate _ 255 0)]|].
  unfold ahead, collected. cbn. auto.
Qed.

Definition ends_synced {A} (m : io (fpga target) A) : Prop :=
  forall s s' a, m s = (s', Value a) -> g_jtag_count s' = 0.

Lemma ends_bind {A B} (m : io _ A) (f : A -> io _ B) : (forall a, ends_synced (f a)) -> ends_synced (io_bind m f).
Proof.
  intros H s s' b. unfold io_bind. destruct (m s) as [s1 [a|msg| | |]]; try discriminate. apply H.
Qed.

Lemma ends_sync : ends_synced jtag_sync.
Proof.
  intros s s' []. unfold jtag_sync. destruct (Z.eqb_spec (g_jtag_count s) 0) as [E|E]; [by intros [= <-]|].
  unfold io_bind. destruct (on_dev _ s) as [s1 [a|msg| | |]]; try discriminate. by intros [= <-].
Qed.

Lemma linked_synced s c :
  linked s c -> g_jtag_count s = 0 -> state (dev s) = RunTestIdle /\ tlog (dev s) = log c /\ treads (dev s) = reads c.
Proof. intros (_ & H) E. unfold ahead, collected in H. by rewrite E in H. Qed.

(** ** Loading the SRAM *)

Definition sram_log (data : list Z) : list scan :=
  [IR (ir_bits CMD_ISC_ENABLE); DR (dr_bits [ISC_ENABLE_SRAM] 8)] ++ replicate 8 Tick
  ++ [IR (ir_bits CMD_ISC_ERASE); DR (dr_bits [ISC_ERASE_SRAM] 8)] ++ replicate 8 Tick
  ++ [IR (ir_bits CMD_LSC_BITSTREAM_BURST)] ++ replicate 8 Tick
  ++ [DR (msb_bits data)] ++ replicate 100 Tick
  ++ [IR (ir_bits CMD_ISC_DISABLE)] ++ replicate 8 Tick
  ++ [IR (ir_bits CMD_ISC_NOOP)] ++ replicate 100 Tick.

(** Loading the SRAM.  A file with the device's signature in its first 1024 bytes goes
    to an idle device as one burst, every byte with its highest bit first, between
    the instructions that enable, erase and leave the configuration, and all clocks
    are sent; any other file is refused before the first clock. *)
Theorem fpga_program_sram_scans data d :
  state d = RunTestIdle ->
  exists s r, fpga_program_sram data (fpga_init d) = (s, r)
  /\ state (dev s) = RunTestIdle
  /\ if bitstream_valid data (Z.of_nat (length data))
     then r = Value tt /\ tlog (dev s) = tlog d ++ sram_log data
     else r = Died "Error: malformed BIT file: device signature not found" /\ dev s = d.
Proof.
  intros Hd. destruct (agree_sram data _ _ (linked_init d Hd)) as (s & c & r & E1 & E2 & Hl).
  exists s, r. split; [exact E1|].
  destruct (bitstream_valid data _) eqn:Ev.
  - unfold fpga_program_sram in E1, E2. rewrite Ev in E1, E2.
    assert (Er : r = Value tt) by (injection E2 as _ <-; reflexivity). subst r.
    assert (Es : g_jtag_count s = 0).
    { revert E1. generalize (fpga_init d) as s0. intros s0 E1.
      revert E1. apply (fun H => H s0 s tt). repeat (apply ends_bind; intros _). apply ends_sync. }
    destruct (linked_synced s c Hl Es) as (-> & -> & _). split; [done|]. split; [done|].
    injection E2 as <-. cbn [log]. unfold sram_log. by rewrite <- !app_assoc.
  - unfold fpga_program_sram in E1. rewrite Ev in E1. injection E1 as <- <-. done.
Qed.

(** ** Programming the flash: what a run that goes through has done *)

(** After a run of [m] with value [a]: the scans, the answers read, and [Q] of them. *)
Definition does {A} (m : io chain A) (Q : A -> list scan -> list (list Z) -> Prop) : Prop :=
  forall c c' a, m c = (c', Value a) ->
  exists l ks, log c' = log c ++ l /\ reads c' = (reads c + length ks)%nat
    /\ ks = map reply (seq (reads c) (length ks)) /\ Q a l ks.

Lemma does_bind {A B} (m : io chain A) (f : A -> io chain B) Q R :
  does m Q -> (forall a, does (f a) (R a)) ->
  does (io_bind m f) (fun b l ks => exists a l1 l2 k1 k2,
    l = l1 ++ l2 /\ ks = k1 ++ k2 /\ Q a l1 k1 /\ R a b l2 k2).
Proof.
  intros Hm Hf c c' b E. unfold io_bind in E. destruct (m c) as [c1 [a|msg| | |]] eqn:Em; try discriminate.
  destruct (Hm _ _ _ Em) as (l1 & k1 & L1 & R1 & K1 & Q1). destruct (Hf a _ _ _ E) as (l2 & k2 & L2 & R2 & K2 & Q2).
  exists (l1 ++ l2), (k1 ++ k2). split_and!.
  - by rewrite L2, L1, app_assoc.
  - rewrite length_app. lia.
  - by rewrite length_app, seq_app, map_app, <- K1, <- R1, <- K2.
  - by exists a, l1, l2, k1, k2.
Qed.

Lemma does_weaken {A} (m : io chain A) (Q R : A -> list scan -> list (list Z) -> Prop) :
  does m Q -> (forall a l ks, Q a l ks -> R a l ks) -> does m R.
Proof. intros H HQ c c' a E. destruct (H c c' a E) as (l & ks & ? & ? & ? & ?). exists l, ks. auto. Qed.

Lemma does_nothing {A} (m : io chain A) (P : A -> Prop) :
  (forall c c' a, m c = (c', Value a) -> c' = c /\ P a) -> does m (fun a l ks => l = [] /\ ks = [] /\ P a).
Proof.
  intros H c c' a E. destruct (H c c' a E) as [-> Hp]. exists [], []. rewrite app_nil_r, Nat.add_0_r. split_and!; done.
Qed.
Lemma does_ret {A} (a : A) : does (io_ret a) (fun _ l ks => l = [] /\ ks = []).
Proof. eapply does_weaken; [apply (does_nothing _ (fun _ => True)); by intros c c' b [= <- <-]|]. naive_solver. Qed.
Lemma does_check b msg : does (os_check b msg) (fun _ l ks => l = [] /\ ks = [] /\ b = true).
Proof. apply does_nothing. intros c c' []. by destruct b; [intros [= <-]|]. Qed.
Lemma does_refuse (b : bool) msg :
  does (if b then os_error msg else io_ret tt) (fun _ l ks => l = [] /\ ks = [] /\ b = false).
Proof. apply does_nothing. intros c c' []. by destruct b; [|intros [= <-]]. Qed.
Lemma does_scans l0 : does (scans l0) (fun _ l ks => l = l0 /\ ks = []).
Proof. intros c c' [] [= <-]. exists l0, []. cbn. by rewrite Nat.add_0_r. Qed.
Lemma does_read n :
  does (read_dr n) (fun a l ks => exists k, l = [DR (replicate n false)] /\ ks = [k] /\ a = answer_bytes n k).
Proof.
  intros c c' a [= <- <-]. exists [DR (replicate n false)], [reply (reads c)].
  split; [done|]. split; [cbn; lia|]. split; [done|]. eauto.
Qed.
Lemma does_iter {X} (f : X -> io chain unit) (Q : X -> list scan -> list (list Z) -> Prop) xs :
  (forall x, does (f x) (fun _ => Q x)) ->
  does (io_iter f xs) (fun _ l ks => exists ls kss, l = concat ls /\ ks = concat kss /\ Forall3 Q xs ls kss).
Proof.
  intros Hf. induction xs as [|x xs IH]; cbn [io_iter].
  - eapply does_weaken; [apply does_ret|]. intros _ l ks [-> ->]. exists [], []. split_and!; try done. constructor.
  - eapply does_weaken; [apply (does_bind (f x) (fun _ => io_iter f xs) (fun _ => Q x)); [apply Hf|intros ?; exact IH]|].
    intros _ l ks ([] & l1 & l2 & k1 & k2 & -> & -> & H1 & ls & kss & -> & -> & H2).
    exists (l1 :: ls), (k1 :: kss). split_and!; try done. by constructor.
Qed.

(** The data scans under instruction [code]; [on] says whether it is the current one. *)
Definition ir_value (bits : list bool) : Z := foldr (fun b x => Z.b2z b + 2 * x) 0 bits.
Fixpoint pay (code : Z) (on : bool) (l : list scan) : list (list bool) :=
  match l with
  | [] => []
  | IR b :: l => pay code (ir_value b =? code) l
  | DR b :: l => if on then b :: pay code on l else pay code on l
  | Tick :: l => pay code on l
  end.
Fixpoint pay_on (code : Z) (on : bool) (l : list scan) : bool :=
  match l with [] => on | IR b :: l => pay_on code (ir_value b =? code) l | _ :: l => pay_on code on l end.
Definition payloads (code : Z) (l : list scan) : list (list bool) := pay code false l.

Lemma pay_app code on l k : pay code on (l ++ k) = pay code on l ++ pay code (pay_on code on l) k.
Proof. revert on. induction l as [|[b|b|] l IH]; intros on; cbn; [done|apply IH| |apply IH]. destruct on; by rewrite IH. Qed.
Lemma pay_on_app code on l k : pay_on code on (l ++ k) = pay_on code (pay_on code on l) k.
Proof. revert on. by induction l as [|[b|b|] l IH]; intros on; cbn. Qed.
Lemma pay_ticks code on n : pay code on (replicate n Tick) = [].
Proof. by induction n. Qed.
Lemma pay_on_ticks code on n : pay_on code on (replicate n Tick) = on.
Proof. by induction n. Qed.

(** The instructions that write the flash. *)
Definition write_codes : list Z := [CMD_LSC_PROG_INCR_NV; CMD_LSC_PROG_FEATURE; CMD_LSC_PROG_FEABITS].

(** Scans that write [p code] under each of them and leave none of them current; from any
    state, or when none is current. *)
Definition writes (p : Z -> list (list bool)) (l : list scan) : Prop :=
  forall code, code ∈ write_codes -> forall on, pay code on l = p code /\ pay_on code on l = false.
Definition pays (p : Z -> list (list bool)) (l : list scan) : Prop :=
  forall code, code ∈ write_codes -> pay code false l = p code /\ pay_on code false l = false.

Lemma writes_pays p l : writes p l -> pays p l.
Proof. intros H code Hc. by apply H. Qed.
Lemma pays_app p q l k : pays p l -> pays q k -> pays (fun code => p code ++ q code) (l ++ k).
Proof.
  intros H1 H2 code Hc. destruct (H1 code Hc) as [P1 O1], (H2 code Hc) as [P2 O2].
  by rewrite pay_app, pay_on_app, O1, P1, P2.
Qed.
Lemma pays_nil : pays (fun _ => []) [].
Proof. by intros code _. Qed.
Lemma pays_concat {X} (p : X -> Z -> list (list bool)) xs ls :
  Forall2 (fun x l => pays (p x) l) xs ls -> pays (fun code => concat (map (fun x => p x code) xs)) (concat ls).
Proof. induction 1; [apply pays_nil|by apply pays_app]. Qed.
Lemma pays_ext p q l : (forall code, code ∈ write_codes -> p code = q code) -> pays p l -> pays q l.
Proof. intros E H code Hc. rewrite <- E by done. by apply H. Qed.

(** What a straight piece of a routine does, the choices it made as facts. *)
Ltac does_step :=
  lazymatch goal with
  | |- does (io_bind _ _) _ => eapply does_bind; [|intros ?]
  | |- does (io_ret _) _ => apply does_ret
  | |- does (os_check _ _) _ => apply does_check
  | |- does (if _ then os_error _ else _) _ => apply does_refuse
  | |- does (write_ir _) _ => apply does_scans
  | |- does (write_dr _ _) _ => apply does_scans
  | |- does (run _) _ => apply does_scans
  | |- does (read_dr _) _ => apply does_read
  | |- does sync _ => apply does_ret
  end.
Ltac facts :=
  cbv beta; intros;
  repeat match goal with
         | H : exists _, _ |- _ => destruct H
         | H : _ /\ _ |- _ => destruct H
         | x : unit |- _ => destruct x
         end; subst.
(** Compute the scans under an instruction. *)
Ltac pay_known :=
  repeat first
    [ rewrite pay_app | rewrite pay_on_app | rewrite pay_ticks | rewrite pay_on_ticks
    | progress cbn [pay pay_on app]
    | match goal with
      | |- context [ir_value (ir_bits ?a) =? ?c] =>
          let v := eval vm_compute in (ir_value (ir_bits a) =? c) in change (ir_value (ir_bits a) =? c) with v
      | H : forall on, pay ?c on ?l = _ /\ _ |- context [pay ?c ?on ?l] => rewrite (proj1 (H on))
      | H : forall on, _ /\ pay_on ?c on ?l = _ |- context [pay_on ?c ?on ?l] => rewrite (proj2 (H on))
      | H : pay ?c false ?l = _ |- context [pay ?c false ?l] => rewrite H
      | H : pay_on ?c false ?l = _ |- context [pay_on ?c false ?l] => rewrite H
      end ].
(** The three instructions, each with what is known of the pieces. *)
Ltac pay_cases :=
  let code := fresh "code" in
  let Hc := fresh "Hc" in
  intros code Hc;
  repeat match goal with
         | H : writes _ _ |- _ => specialize (H code Hc)
         | H : pays _ _ |- _ => specialize (H code Hc); destruct H
         end;
  unfold write_codes in Hc;
  apply elem_of_cons in Hc as [-> |Hc];
    [|apply elem_of_cons in Hc as [-> |Hc]; [|apply list_elem_of_singleton in Hc as ->]].

Lemma does_busy fuel : does (busy_loop fuel) (fun _ l _ => writes (fun _ => []) l).
Proof.
  induction fuel as [|fuel IH]; cbn [busy_loop]; [by intros c c' a|].
  assert (Hrest : forall busy : list Z, does (if busy !!! 0%nat =? 0 then io_ret tt else busy_loop fuel)
                           (fun _ l _ => pays (fun _ => []) l)).
  { intros busy. destruct (_ =? 0).
    - eapply does_weaken; [apply does_ret|]. intros ? l ks [-> _]. apply pays_nil.
    - eapply does_weaken; [apply IH|]. intros ? l ks H. by apply writes_pays. }
  eapply does_weaken; [do 2 (does_step; [does_step|]); apply Hrest|].
  facts. pay_cases; intros on; pay_known; done.
Qed.

Definition silent (l : list scan) : Prop := writes (fun _ => []) l.

Lemma does_poll fuel : does (poll_busy_flag fuel) (fun _ l _ => silent l).
Proof.
  eapply does_weaken.
  { unfold poll_busy_flag. does_step; [apply does_busy|]. do 4 (does_step; [does_step|]). does_step. }
  facts. unfold silent in *. pay_cases; intros on; pay_known; done.
Qed.

Lemma does_erase fuel : does (fpga_erase_flash fuel) (fun _ l _ => pays (fun _ => []) l).
Proof.
  eapply does_weaken.
  { unfold fpga_erase_flash. do 13 (does_step; [does_step|]). apply does_poll. }
  facts. unfold silent in *. pay_cases; pay_known; done.
Qed.

Definition row_bits (config : list Z) (row : nat) : list bool := dr_bits (row_at config row) (Z.to_nat FLASH_ROW_SIZE).

Lemma does_program_row fuel config row :
  does (program_row fuel config row) (fun _ l _ =>
    pays (fun code => if code =? CMD_LSC_PROG_INCR_NV then [row_bits config row] else []) l).
Proof.
  eapply does_weaken.
  { unfold program_row. do 3 (does_step; [does_step|]). apply does_poll. }
  facts. unfold silent in *. pay_cases; pay_known; done.
Qed.

Lemma does_verify_row config row :
  does (verify_row config row) (fun _ l ks =>
    pays (fun _ => []) l /\ exists k, ks = [k] /\ answer_bytes 128 k = row_at config row).
Proof.
  eapply does_weaken.
  { unfold verify_row. do 2 (does_step; [does_step|]).
    apply (does_nothing _ (fun _ => a = row_at config row)). intros c c' u.
    case_decide; [by intros [= <-]|done]. }
  facts. split; [pay_cases; pay_known; done|]. eauto.
Qed.

Lemma does_program_feature fuel feature :
  does (program_feature fuel feature) (fun _ l ks =>
    pays (fun code => if code =? CMD_LSC_PROG_FEATURE then [dr_bits (to_bytes 8 feature) 64] else []) l
    /\ exists k0 k, ks = k0 ++ [k] /\ of_bytes (answer_bytes 64 k) = feature).
Proof.
  eapply does_weaken.
  { unfold program_feature. do 5 (does_step; [does_step|]). does_step; [apply does_poll|].
    do 3 (does_step; [does_step|]). does_step. }
  facts. unfold silent in *. split; [pay_cases; pay_known; done|].
  eexists _, _. split; [reflexivity|]. by apply Z.eqb_eq.
Qed.

Lemma does_program_feabits fuel feabits :
  does (program_feabits fuel feabits) (fun _ l ks =>
    pays (fun code => if code =? CMD_LSC_PROG_FEABITS then [dr_bits (to_bytes 2 feabits) 16] else []) l
    /\ exists k0 k, ks = k0 ++ [k] /\ of_bytes (answer_bytes 16 k) = feabits).
Proof.
  eapply does_weaken.
  { unfold program_feabits. do 3 (does_step; [does_step|]). does_step; [apply does_poll|].
    do 3 (does_step; [does_step|]). does_step. }
  facts. unfold silent in *. split; [pay_cases; pay_known; done|].
  eexists _, _. split; [reflexivity|]. by apply Z.eqb_eq.
Qed.

Lemma does_exit fuel : does (exit_programming fuel) (fun _ l _ => pays (fun _ => []) l).
Proof.
  eapply does_weaken.
  { unfold exit_programming. do 2 (does_step; [does_step|]). does_step; [apply does_poll|].
    do 8 (does_step; [does_step|]). does_step. }
  facts. unfold silent in *. pay_cases; pay_known; done.
Qed.

Lemma concat_singles {A B} (f : A -> B) l : concat (map (fun x => [f x]) l) = map f l.
Proof. induction l as [|x l IH]; [done|]. cbn. by rewrite IH. Qed.
Lemma concat_nils {A B} (l : list A) : concat (map (fun _ => []) l) = ([] : list B).
Proof. by induction l. Qed.

Lemma does_program_rows fuel config n :
  does (io_iter (program_row fuel config) (seq 0 n)) (fun _ l _ =>
    pays (fun code => if code =? CMD_LSC_PROG_INCR_NV then map (row_bits config) (seq 0 n) else []) l).
Proof.
  eapply does_weaken; [apply does_iter; intros x; apply does_program_row|]. facts.
  eapply pays_ext; [|apply (pays_concat (fun row code => if code =? CMD_LSC_PROG_INCR_NV then [row_bits config row] else []) (seq 0 n))].
  - intros code _. cbn beta. destruct (code =? _); [apply concat_singles|apply concat_nils].
  - induction H1; constructor; done.
Qed.

Lemma does_verify_rows config n :
  does (io_iter (verify_row config) (seq 0 n)) (fun _ l ks =>
    pays (fun _ => []) l /\ map (answer_bytes 128) ks = map (row_at config) (seq 0 n)).
Proof.
  eapply does_weaken; [apply does_iter; intros x; apply does_verify_row|]. facts. split.
  - eapply pays_ext; [|apply (pays_concat (fun _ _ => []) (seq 0 n))].
    + intros code _. apply concat_nils.
    + induction H1 as [|x y z xs ys zs [Hx _] _ IH]; constructor; done.
  - induction H1 as [|x y z xs ys zs (_ & k & -> & E) _ IH]; [done|]. cbn [concat app map]. by rewrite IH, E.
Qed.

(** What a run that goes through has written and read back. *)
Definition flashed (j : jed) (l : list scan) (ks : list (list Z)) : Prop :=
  let rows := seq 0 (Z.to_nat (Z.quot (jed_bits j) FLASH_ROW_SIZE)) in
  payloads CMD_LSC_PROG_INCR_NV l = map (row_bits (jed_config j)) rows
  /\ payloads CMD_LSC_PROG_FEATURE l = [dr_bits (to_bytes 8 (jed_feature j)) 64]
  /\ payloads CMD_LSC_PROG_FEABITS l = [dr_bits (to_bytes 2 (jed_feabits j)) 16]
  /\ exists k1 kr k2 kf k3 kb k4, ks = k1 ++ kr ++ k2 ++ [kf] ++ k3 ++ [kb] ++ k4
     /\ map (answer_bytes 128) kr = map (row_at (jed_config j)) rows
     /\ of_bytes (answer_bytes 64 kf) = jed_feature j
     /\ of_bytes (answer_bytes 16 kb) = jed_feabits j.

Lemma does_flash fuel data :
  does (fpga_program_flash fuel data) (fun _ l ks => exists j, parse_jed_file data = Value j /\ flashed j l ks).
Proof.
  eapply does_weaken.
  { unfold fpga_program_flash. does_step.
    { apply (does_nothing _ (fun j => parse_jed_file data = Value j)). intros c c' j [= <- ->]. done. }
    does_step; [apply does_erase|]. do 2 (does_step; [does_step|]). does_step; [apply does_program_rows|].
    do 4 (does_step; [does_step|]). does_step; [apply does_verify_rows|].
    does_step; [apply does_program_feature|]. does_step; [apply does_program_feabits|]. apply does_exit. }
  cbv beta. intros [] l ks
    (j & ? & ? & ? & ? & -> & -> & (-> & -> & Hj) & ue & le & ? & ke & ? & -> & -> & He &
      u1 & ? & ? & ? & ? & -> & -> & (-> & ->) & u2 & ? & ? & ? & ? & -> & -> & (-> & ->) & 
      up & lp & ? & kp & ? & -> & -> & Hp &
      u3 & ? & ? & ? & ? & -> & -> & (-> & ->) & u4 & ? & ? & ? & ? & -> & -> & (-> & ->) & 
      u5 & ? & ? & ? & ? & -> & -> & (-> & ->) & u6 & ? & ? & ? & ? & -> & -> & (-> & ->) & 
      uv & lv & ? & kv & ? & -> & -> & (Hv & Ev) &
      uf & lf & ? & ? & ? & -> & -> & (Hf & kf0 & kf & -> & Ef) &
      ub & lb & lx & ? & kx & -> & -> & (Hb & kb0 & kb & -> & Eb) & Hx).
  exists j. split; [done|]. unfold flashed, payloads. split_and!.
  1-3: match goal with |- pay ?c _ _ = _ => assert (Hc : c ∈ write_codes) by (unfold write_codes; rewrite !elem_of_cons; clear; tauto) end.
  1-3: repeat match goal with H : pays _ _ |- _ => specialize (H _ Hc); destruct H end.
  1-3: pay_known; cbn -[row_bits seq]; by rewrite ?app_nil_r.
  exists (ke ++ kp), kv, kf0, kf, kb0, kb, kx. split; [|done]. cbn [app]. by rewrite <- !app_assoc.
Qed.

(** C34: a flash that verifies.  When programming the flash of an idle device goes through,
    the file parsed; the rows written are the rows of its configuration, in order
    and nothing else, one feature row and one set of feature bits; and the device
    itself has read the same rows, feature row and feature bits back.  All clocks
    are sent and the controller is idle again. *)
Theorem fpga_program_flash_verified fuel data d s :
  state d = RunTestIdle -> fpga_program_flash fuel data (fpga_init d) = (s, Value tt) ->
  exists j l ks, parse_jed_file data = Value j
  /\ state (dev s) = RunTestIdle /\ tlog (dev s) = tlog d ++ l
  /\ ks = map reply (seq (treads d) (length ks)) /\ flashed j l ks.
Proof.
  intros Hd E. destruct (agree_flash fuel data _ _ (linked_init d Hd)) as (s' & c & r & E1 & E2 & Hl).
  rewrite E in E1. injection E1 as <- <-.
  destruct (does_flash fuel data _ _ _ E2) as (l & ks & L & _ & K & j & Hj & Hf).
  assert (Es : g_jtag_count s = 0).
  { revert E. unfold fpga_program_flash, exit_programming. generalize (fpga_init d) as s0. intros s0.
    apply (fun H => H s0 s tt). repeat (apply ends_bind; intros ?). apply ends_sync. }
  destruct (linked_synced s c Hl Es) as (S1 & S2 & _). exists j, l, ks. split_and!; try done. by rewrite S2, L.
Qed.
End OnPipe.

(** ** What the JED parser accepts *)

(** The bits of a field: its characters 0 and 1, the others skipped. *)
Definition bits_of (body : list Z) : list bool := map (fun c => c =? 49) (List.filter is_bit body).

(** A field: up to the first star. *)
Definition field (l body : list Z) : Prop := exists rest, l = body ++ 42 :: rest /\ 42 ∉ body.

Lemma field_unique l b1 b2 : field l b1 -> field l b2 -> b1 = b2.
Proof.
  intros (r1 & -> & H1) (r2 & E & H2). revert b2 E H2. induction b1 as [|x b1 IH]; intros [|y b2] E H2; cbn in E.
  - done.
  - injection E as <- _. exfalso. apply H2. left.
  - injection E as -> _. exfalso. apply H1. left.
  - injection E as -> E. f_equal. apply IH; [set_solver|done|set_solver].
Qed.

Lemma field_cons c l : c <> 42 -> forall body, field l body <-> field (c :: l) (c :: body).
Proof.
  intros Hc body. split; intros (rest & E & Hn); exists rest.
  - rewrite E. split; [done|set_solver].
  - injection E as E. split; [done|set_solver].
Qed.

Lemma field_cons_inv c l body : c <> 42 -> field (c :: l) body -> exists b, body = c :: b /\ field l b.
Proof.
  intros Hc Hf. destruct body as [|x b].
  - destruct Hf as (rest & E & _). injection E as -> _. done.
  - assert (x = c) as ->. { destruct Hf as (rest & E & _). injection E as E _. done. }
    exists b. split; [done|]. by apply (field_cons c).
Qed.

Lemma field_nil l : field (42 :: l) [].
Proof. exists l. split; [done|set_solver]. Qed.

Definition cfg_bit (config : list Z) (i : Z) : bool := Z.testbit (config !!! Z.to_nat (i / 8)) (i mod 8).

(** Setting bit [n] of a configuration where it is clear. *)
Lemma cfg_bit_set config n b i :
  bytes_ok config -> 0 <= n -> n / 8 < Z.of_nat (length config) -> cfg_bit config n = false -> 0 <= i ->
  cfg_bit (<[Z.to_nat (n / 8) := u8 (Z.lor (config !!! Z.to_nat (n / 8)) (Z.shiftl (Z.b2z b) (n mod 8)))]> config) i
  = if i =? n then b else cfg_bit config i.
Proof.
  intros Hok Hn Hl Hz Hi. unfold cfg_bit in *.
  pose proof (Z.mod_pos_bound n 8 ltac:(lia)). pose proof (Z.mod_pos_bound i 8 ltac:(lia)).
  pose proof (Z.div_mod n 8 ltac:(lia)). pose proof (Z.div_mod i 8 ltac:(lia)).
  pose proof (Z.div_pos n 8 Hn ltac:(lia)). pose proof (Z.div_pos i 8 Hi ltac:(lia)).
  destruct (Z.eq_dec (i / 8) (n / 8)) as [E|E].
  - rewrite E, list_lookup_total_insert_eq by lia. unfold u8. change 256 with (2 ^ 8).
    rewrite Z.mod_pow2_bits_low, Z.lor_spec, Z.shiftl_spec by lia.
    destruct (Z.eqb_spec i n) as [->|Hne].
    + rewrite Hz, Z.sub_diag. by destruct b.
    + assert (Hm : i mod 8 <> n mod 8) by lia.
      assert (Eb : Z.testbit (Z.b2z b) (i mod 8 - n mod 8) = false).
      { destruct (Z.lt_ge_cases (i mod 8) (n mod 8)); [by rewrite Z.testbit_neg_r by lia|].
        apply (testbit_above _ 1); [by destruct b|lia|lia]. }
      by rewrite Eb, orb_false_r.
  - rewrite list_lookup_total_insert_ne by lia. destruct (Z.eqb_spec i n); [congruence|done].
Qed.

Lemma is_bit_value c : is_bit c = true -> c - 48 = Z.b2z (c =? 49).
Proof.
  unfold is_bit. intros H. apply orb_true_iff in H as [E|E]; apply Z.eqb_eq in E as ->; reflexivity.
Qed.

(** Bit [i] of a word whose bits from [n] on are those of the list. *)
Definition spliced (old : Z -> bool) (n : Z) (bits : list bool) (i : Z) : bool :=
  if i <? n then old i else nth (Z.to_nat (i - n)) bits false.

Lemma spliced_cons old new n b bits i :
  new n = b -> (forall k, k < n -> 0 <= k -> new k = old k) -> 0 <= i ->
  spliced new (n + 1) bits i = spliced old n (b :: bits) i.
Proof.
  intros Hn Ho Hi. unfold spliced. destruct (Z.ltb_spec i n), (Z.ltb_spec i (n + 1)); try lia.
  - by apply Ho.
  - assert (i = n) as -> by lia. by rewrite Z.sub_diag.
  - replace (Z.to_nat (i - n)) with (S (Z.to_nat (i - (n + 1)))) by lia. done.
Qed.

Lemma config_loop_spec l config n :
  Z.of_nat (length config) = MAX_CONFIG_SIZE -> bytes_ok config -> 0 <= n < MAX_CONFIG_SIZE * 8 ->
  (forall i, n <= i < MAX_CONFIG_SIZE * 8 -> cfg_bit config i = false) ->
  match config_loop l config n with
  | Value (config', n') =>
      exists body, field l body /\ n' = n + Z.of_nat (length (bits_of body)) /\ n' < MAX_CONFIG_SIZE * 8
      /\ Z.of_nat (length config') = MAX_CONFIG_SIZE
      /\ forall i, 0 <= i < MAX_CONFIG_SIZE * 8 -> cfg_bit config' i = spliced (cfg_bit config) n (bits_of body) i
  | Died _ => forall body, field l body -> MAX_CONFIG_SIZE * 8 <= n + Z.of_nat (length (bits_of body))
  | _ => False
  end.
Proof.
  revert config n. induction l as [|c l IH]; intros config n Hl Hok Hn Hz; cbn [config_loop].
  { intros body (rest & E & _). by apply app_cons_not_nil in E. }
  destruct (Z.eqb_spec c 42) as [->|Hc].
  { exists []. split; [apply field_nil|]. cbn. split_and!; try lia.
    intros i Hi. unfold spliced. destruct (Z.ltb_spec i n); [done|]. rewrite Hz by lia. by destruct (Z.to_nat _). }
  destruct (is_bit c) eqn:Eb.
  - rewrite Z.quot_div_nonneg, Z.rem_mod_nonneg by lia.
    assert (Hq : 0 <= n / 8 < MAX_CONFIG_SIZE).
    { split; [apply Z.div_pos; lia|]. apply Z.div_lt_upper_bound; lia. }
    rewrite (is_bit_value c Eb), list_lookup_lookup_total_lt by lia.
    set (config1 := <[_ := _]> config).
    assert (H1 : forall i, 0 <= i -> cfg_bit config1 i = if i =? n then c =? 49 else cfg_bit config i)
      by (intros i Hi; apply cfg_bit_set; [done|lia|lia|apply Hz; lia|done]).
    assert (Hok1 : bytes_ok config1) by (apply Forall_insert; [done|apply u8_range]).
    assert (Hl1 : Z.of_nat (length config1) = MAX_CONFIG_SIZE) by (unfold config1; by rewrite length_insert).
    assert (Hbits : forall body, bits_of (c :: body) = (c =? 49) :: bits_of body)
      by (intros body; unfold bits_of; cbn [List.filter]; by rewrite Eb).
    destruct (Z.ltb_spec (n + 1) (MAX_CONFIG_SIZE * 8)) as [Hlt|Hge].
    + assert (Hz1 : forall i, n + 1 <= i < MAX_CONFIG_SIZE * 8 -> cfg_bit config1 i = false).
      { intros i Hi. rewrite H1 by lia. destruct (Z.eqb_spec i n); [lia|]. apply Hz. lia. }
      specialize (IH config1 (n + 1) Hl1 Hok1 ltac:(lia) Hz1).
      destruct (config_loop l config1 (n + 1)) as [[config' n']|m| | |]; try done.
      * destruct IH as (body & Hf & En & Hlt' & Hl' & Hb). exists (c :: body).
        split; [by apply field_cons|]. rewrite Hbits. cbn [length]. split_and!; [lia|lia|done|].
        intros i Hi. rewrite Hb by done. apply spliced_cons; [|intros k Hk Hk0|lia].
        -- rewrite H1, Z.eqb_refl by lia. done.
        -- rewrite H1 by lia. destruct (Z.eqb_spec k n); [lia|done].
      * intros body Hf. apply field_cons_inv in Hf as (b & -> & Hf); [|done].
        specialize (IH b Hf). rewrite Hbits. cbn [length]. lia.
    + intros body Hf. apply field_cons_inv in Hf as (b & -> & Hf); [|done]. rewrite Hbits. cbn [length]. lia.
  - assert (Hbits : forall body, bits_of (c :: body) = bits_of body)
      by (intros body; unfold bits_of; cbn [List.filter]; by rewrite Eb).
    specialize (IH config n Hl Hok Hn Hz). destruct (config_loop l config n) as [[config' n']|m| | |]; try done.
    + destruct IH as (body & Hf & Hrest). exists (c :: body). split; [by apply field_cons|]. by rewrite Hbits.
    + intros body Hf. apply field_cons_inv in Hf as (b & -> & Hf); [|done]. rewrite Hbits. by apply IH.
Qed.

(** Adding bit [n] to a word that is clear from [n] on. *)
Lemma bit_added x n b i :
  0 <= n -> Z.testbit x n = false -> 0 <= i ->
  Z.testbit (Z.lor x (Z.shiftl (Z.b2z b) n)) i = if i =? n then b else Z.testbit x i.
Proof.
  intros Hn Hz Hi. rewrite Z.lor_spec, Z.shiftl_spec by lia. destruct (Z.eqb_spec i n) as [->|Hne].
  - rewrite Hz, Z.sub_diag. by destruct b.
  - destruct (Z.lt_ge_cases i n); [by rewrite (Z.testbit_neg_r _ (i - n)), orb_false_r by lia|].
    rewrite (testbit_above (Z.b2z b) 1), orb_false_r by (destruct b; cbn; lia). done.
Qed.

(** The two words of the feature row as one sequence of bits. *)
Definition fr_bit (feature feabits i : Z) : bool :=
  if i <? 64 then Z.testbit feature i else Z.testbit feabits (i - 64).

Lemma shifted_bit_range b n w : 0 <= n < w -> 0 <= Z.shiftl (Z.b2z b) n < 2 ^ w.
Proof.
  intros Hn. rewrite Z.shiftl_mul_pow2 by lia. pose proof (Z.pow_lt_mono_r 2 n w ltac:(lia) ltac:(lia) ltac:(lia)).
  pose proof (Z.pow_pos_nonneg 2 n ltac:(lia) ltac:(lia)). destruct b; cbn [Z.b2z]; lia.
Qed.

Lemma feature_loop_spec l feature feabits n :
  0 <= n <= 80 -> 0 <= feature < 2 ^ 64 -> 0 <= feabits < 2 ^ 16 ->
  (forall i, n <= i -> fr_bit feature feabits i = false) ->
  match feature_loop l feature feabits n with
  | Value (feature', feabits', n') =>
      exists body, field l body /\ n' = n + Z.of_nat (length (bits_of body)) /\ n' <= 80
      /\ 0 <= feature' < 2 ^ 64 /\ 0 <= feabits' < 2 ^ 16
      /\ forall i, 0 <= i -> fr_bit feature' feabits' i = spliced (fr_bit feature feabits) n (bits_of body) i
  | Died _ => forall body, field l body -> 80 < n + Z.of_nat (length (bits_of body))
  | _ => False
  end.
Proof.
  revert feature feabits n. induction l as [|c l IH]; intros feature feabits n Hn Hf Hb Hz; cbn [feature_loop].
  { intros body (rest & E & _). by apply app_cons_not_nil in E. }
  destruct (Z.eqb_spec c 42) as [->|Hc].
  { exists []. split; [apply field_nil|]. cbn [length bits_of]. split_and!; try (cbn; lia).
    intros i Hi. unfold spliced. destruct (Z.ltb_spec i n); [done|]. rewrite Hz by lia. by destruct (Z.to_nat _). }
  destruct (is_bit c) eqn:Eb.
  2: { assert (Hbits : forall body, bits_of (c :: body) = bits_of body)
         by (intros body; unfold bits_of; cbn [List.filter]; by rewrite Eb).
       specialize (IH feature feabits n Hn Hf Hb Hz).
       destruct (feature_loop l feature feabits n) as [[[feature' feabits'] n']|m| | |]; try done.
       - destruct IH as (body & Hfb & Hrest). exists (c :: body). split; [by apply field_cons|]. by rewrite Hbits.
       - intros body Hfb. apply field_cons_inv in Hfb as (b & -> & Hfb); [|done]. rewrite Hbits. by apply IH. }
  assert (Hbits : forall body, bits_of (c :: body) = (c =? 49) :: bits_of body)
    by (intros body; unfold bits_of; cbn [List.filter]; by rewrite Eb).
  rewrite (is_bit_value c Eb). destruct (Z.ltb_spec n (64 + 16)) as [Hlt|Hge].
  2: { intros body Hfb. apply field_cons_inv in Hfb as (b & -> & Hfb); [|done]. rewrite Hbits. cbn [length]. lia. }
  (* the words after this bit, as one case *)
  assert (Hstep : forall feature1 feabits1,
    0 <= feature1 < 2 ^ 64 -> 0 <= feabits1 < 2 ^ 16 ->
    (forall i, 0 <= i -> fr_bit feature1 feabits1 i = if i =? n then c =? 49 else fr_bit feature feabits i) ->
    match feature_loop l feature1 feabits1 (n + 1) with
    | Value (feature', feabits', n') =>
        exists body, field (c :: l) body /\ n' = n + Z.of_nat (length (bits_of body)) /\ n' <= 80
        /\ 0 <= feature' < 2 ^ 64 /\ 0 <= feabits' < 2 ^ 16
        /\ forall i, 0 <= i -> fr_bit feature' feabits' i = spliced (fr_bit feature feabits) n (bits_of body) i
    | Died _ => forall body, field (c :: l) body -> 80 < n + Z.of_nat (length (bits_of body))
    | _ => False
    end).
  { intros feature1 feabits1 R1 R2 H1.
    assert (Hz1 : forall i, n + 1 <= i -> fr_bit feature1 feabits1 i = false).
    { intros i Hi. rewrite H1 by lia. destruct (Z.eqb_spec i n); [lia|]. apply Hz. lia. }
    specialize (IH feature1 feabits1 (n + 1) ltac:(lia) R1 R2 Hz1).
    destruct (feature_loop l feature1 feabits1 (n + 1)) as [[[feature' feabits'] n']|m| | |]; try done.
    - destruct IH as (body & Hfb & En & Hle & R3 & R4 & Hbb). exists (c :: body).
      split; [by apply field_cons|]. rewrite Hbits. cbn [length]. split_and!; try lia.
      intros i Hi. rewrite Hbb by done. apply spliced_cons; [|intros k Hk Hk0|done].
      + rewrite H1, Z.eqb_refl by lia. done.
      + rewrite H1 by lia. destruct (Z.eqb_spec k n); [lia|done].
    - intros body Hfb. apply field_cons_inv in Hfb as (b & -> & Hfb); [|done].
      specialize (IH b Hfb). rewrite Hbits. cbn [length]. lia. }
  destruct (Z.ltb_spec n 64) as [H64|H64].
  - pose proof (shifted_bit_range (c =? 49) n 64 ltac:(lia)) as Hr.
    rewrite u64_small by exact Hr. apply Hstep; [by apply lor_range|done|].
    intros i Hi. unfold fr_bit. destruct (Z.ltb_spec i 64).
    + apply bit_added; [lia| |done]. specialize (Hz n ltac:(lia)). unfold fr_bit in Hz.
      by destruct (Z.ltb_spec n 64); [|lia].
    + destruct (Z.eqb_spec i n); [lia|done].
  - pose proof (shifted_bit_range (c =? 49) (n - 64) 16 ltac:(lia)) as Hr.
    pose proof (lor_range feabits _ 16 ltac:(lia) Hb Hr) as Hlr.
    rewrite u16_small by exact Hlr. apply Hstep; [done|done|].
    intros i Hi. unfold fr_bit. destruct (Z.ltb_spec i 64).
    + destruct (Z.eqb_spec i n); [lia|done].
    + rewrite bit_added; [|lia| |lia].
      * destruct (Z.eqb_spec (i - 64) (n - 64)), (Z.eqb_spec i n); try done; lia.
      * specialize (Hz n ltac:(lia)). unfold fr_bit in Hz. by destruct (Z.ltb_spec n 64); [lia|].
Qed.

(** *** The rows and words hold the bits *)

Lemma row_bits_cfg config r :
  row_bits config r = map (fun i => cfg_bit config (Z.of_nat (128 * r + i))) (seq 0 128).
Proof.
  unfold row_bits, dr_bits. change (Z.to_nat FLASH_ROW_SIZE) with 128%nat.
  apply map_ext_in. intros i Hi. apply in_seq in Hi. unfold cfg_bit, row_at.
  pose proof (Nat.div_mod_eq i 8). pose proof (Nat.mod_upper_bound i 8 ltac:(lia)).
  rewrite lookup_total_take_lt by lia. rewrite list_lookup_total_alt, lookup_drop, <- list_lookup_total_alt.
  assert (E1 : Z.of_nat (128 * r + i) / 8 = Z.of_nat (r * 16 + i / 8)).
  { symmetry. apply (Z.div_unique_pos _ _ _ (Z.of_nat (i mod 8))); lia. }
  assert (E2 : Z.of_nat (128 * r + i) mod 8 = Z.of_nat (i mod 8)).
  { symmetry. apply (Z.mod_unique_pos _ _ (Z.of_nat (r * 16 + i / 8))); lia. }
  by rewrite E1, E2, Nat2Z.id.
Qed.

Lemma map_seq_shift {A} (f : nat -> A) a n : map (fun i => f (a + i)%nat) (seq 0 n) = map f (seq a n).
Proof.
  apply list_eq. intros i. rewrite !list_lookup_fmap. destruct (decide (i < n)%nat).
  - by rewrite !lookup_seq_lt by done.
  - by rewrite !lookup_seq_ge by lia.
Qed.

Lemma concat_rows (f : nat -> bool) k :
  concat (map (fun r => map (fun i => f (128 * r + i)%nat) (seq 0 128)) (seq 0 k)) = map f (seq 0 (128 * k)).
Proof.
  induction k as [|k IH]; [done|]. rewrite (seq_S k), map_app, concat_app, IH.
  change (map ?g [(0 + k)%nat]) with [g k]. cbv beta. rewrite map_seq_shift. cbn [concat]. rewrite app_nil_r.
  replace (128 * S k)%nat with (128 * k + 128)%nat by lia. by rewrite seq_app, map_app.
Qed.

Lemma dr_bits_to_bytes n x :
  0 <= x -> dr_bits (to_bytes n x) (8 * n) = map (fun i => Z.testbit x (Z.of_nat i)) (seq 0 (8 * n)).
Proof.
  intros Hx. unfold dr_bits. apply map_ext_in. intros i Hi. apply in_seq in Hi.
  pose proof (Nat.div_mod_eq i 8). pose proof (Nat.mod_upper_bound i 8 ltac:(lia)).
  assert (El : to_bytes n x !!! (i / 8)%nat = u8 (Z.shiftr x (8 * Z.of_nat (i / 8)))).
  { apply list_lookup_total_correct. unfold to_bytes. rewrite list_lookup_fmap, lookup_seq_lt by lia. done. }
  rewrite El. unfold u8. change 256 with (2 ^ 8). rewrite Z.mod_pow2_bits_low, Z.shiftr_spec by lia. f_equal. lia.
Qed.

Lemma map_nth_seq (bits : list bool) : map (fun i => nth i bits false) (seq 0 (length bits)) = bits.
Proof.
  apply list_eq. intros i. rewrite list_lookup_fmap. destruct (decide (i < length bits)%nat) as [Hi|Hi].
  - rewrite lookup_seq_lt by done. cbn. destruct (lookup_lt_is_Some_2 bits i Hi) as [b Eb]. rewrite Eb. f_equal.
    by apply nth_lookup_Some.
  - rewrite lookup_seq_ge by lia. cbn. by rewrite lookup_ge_None_2 by lia.
Qed.

(** The bits of the configuration and of the feature row, as the file spells them. *)
Definition well_formed (data : list Z) (bits fbits : list bool) : Prop :=
  bitstream_valid data (Z.of_nat (length data)) = true
  /\ (exists p body, find_str data (Z.of_nat (length data)) start_text = Some p
        /\ field (drop (p + length start_text) data) body /\ bits = bits_of body)
  /\ Z.of_nat (length bits) < MAX_CONFIG_SIZE * 8
  /\ Z.rem (Z.of_nat (length bits)) FLASH_ROW_SIZE = 0
  /\ (exists q fbody, find_str data (Z.of_nat (length data)) fr_text = Some q
        /\ field (drop (q + length fr_text) data) fbody /\ fbits = bits_of fbody)
  /\ length fbits = 80%nat.

(** What the parser keeps of them. *)
Definition holds_bits (j : jed) (bits fbits : list bool) : Prop :=
  jed_bits j = Z.of_nat (length bits)
  /\ concat (map (row_bits (jed_config j)) (seq 0 (Z.to_nat (Z.quot (jed_bits j) FLASH_ROW_SIZE)))) = bits
  /\ dr_bits (to_bytes 8 (jed_feature j)) 64 = take 64 fbits
  /\ dr_bits (to_bytes 2 (jed_feabits j)) 16 = drop 64 fbits.

Lemma config_bits_hold config bits :
  Z.rem (Z.of_nat (length bits)) FLASH_ROW_SIZE = 0 ->
  Z.of_nat (length bits) < MAX_CONFIG_SIZE * 8 ->
  (forall i, 0 <= i < MAX_CONFIG_SIZE * 8 -> cfg_bit config i = nth (Z.to_nat i) bits false) ->
  concat (map (row_bits config) (seq 0 (Z.to_nat (Z.quot (Z.of_nat (length bits)) FLASH_ROW_SIZE)))) = bits.
Proof.
  intros Hr Hlt Hb. unfold FLASH_ROW_SIZE in *. rewrite Z.rem_mod_nonneg in Hr by lia. rewrite Z.quot_div_nonneg by lia.
  rewrite (map_ext _ _ (row_bits_cfg config)).
  rewrite (concat_rows (fun k => cfg_bit config (Z.of_nat k))).
  replace (128 * Z.to_nat (Z.of_nat (length bits) / 128))%nat with (length bits).
  2: { pose proof (Z.div_mod (Z.of_nat (length bits)) 128 ltac:(lia)).
       pose proof (Z.div_pos (Z.of_nat (length bits)) 128 ltac:(lia) ltac:(lia)). lia. }
  rewrite <- (map_nth_seq bits) at 2. apply map_ext_in. intros i Hi. apply in_seq in Hi. rewrite Hb by lia. by rewrite Nat2Z.id.
Qed.

Lemma feature_bits_hold feature feabits bits :
  0 <= feature -> 0 <= feabits -> length bits = 80%nat ->
  (forall i, 0 <= i -> fr_bit feature feabits i = nth (Z.to_nat i) bits false) ->
  dr_bits (to_bytes 8 feature) 64 = take 64 bits /\ dr_bits (to_bytes 2 feabits) 16 = drop 64 bits.
Proof.
  intros H1 H2 Hl Hb. change 64%nat with (8 * 8)%nat at 1. change 16%nat with (8 * 2)%nat.
  rewrite !dr_bits_to_bytes by done. change (8 * 8)%nat with 64%nat. change (8 * 2)%nat with 16%nat.
  rewrite <- (map_nth_seq bits), Hl. change 80%nat with (64 + 16)%nat.
  rewrite seq_app, map_app. rewrite take_app_length', drop_app_length' by (by rewrite length_map, length_seq).
  split.
  - apply map_ext_in. intros i Hi. apply in_seq in Hi. specialize (Hb (Z.of_nat i) ltac:(lia)).
    rewrite Nat2Z.id in Hb. rewrite <- Hb. unfold fr_bit. by destruct (Z.ltb_spec (Z.of_nat i) 64); [|lia].
  - rewrite <- (map_seq_shift _ (0 + 64)). apply map_ext_in. intros i Hi. apply in_seq in Hi.
    specialize (Hb (Z.of_nat (64 + i)) ltac:(lia)). rewrite Nat2Z.id in Hb. change (0 + 64 + i)%nat with (64 + i)%nat. rewrite <- Hb.
    unfold fr_bit. destruct (Z.ltb_spec (Z.of_nat (64 + i)) 64); [lia|]. f_equal. lia.
Qed.

Lemma blank_config_ok :
  Z.of_nat (length blank_config) = MAX_CONFIG_SIZE /\ bytes_ok blank_config
  /\ forall i, 0 <= i < MAX_CONFIG_SIZE * 8 -> cfg_bit blank_config i = false.
Proof.
  unfold blank_config. split; [rewrite length_replicate; unfold MAX_CONFIG_SIZE; lia|].
  assert (Hm : 0 <= MAX_CONFIG_SIZE) by (unfold MAX_CONFIG_SIZE; lia).
  generalize dependent MAX_CONFIG_SIZE. intros n Hm. split; [by apply (Forall_replicate _ _ 0)|].
  intros i Hi. unfold cfg_bit. pose proof (Z.div_lt_upper_bound i 8 n ltac:(lia) ltac:(lia)).
  pose proof (Z.div_pos i 8 ltac:(lia) ltac:(lia)).
  rewrite lookup_total_replicate_2 by lia. by rewrite Z.bits_0.
Qed.

Lemma spliced_zero old bits i : 0 <= i -> spliced old 0 bits i = nth (Z.to_nat i) bits false.
Proof. intros Hi. unfold spliced. destruct (Z.ltb_spec i 0); [lia|]. by rewrite Z.sub_0_r. Qed.

(** C33: the JED parser.  It accepts exactly the files with the device's signature, a
    configuration field of less than 512 KiB in whole rows of 128 bits and a feature
    row of 80 bits; of these it keeps every bit, in order: the rows it will write
    spell the configuration field, the feature word its first 64 feature bits and
    the feature bits the other 16.  It never writes outside its buffer. *)
Theorem parse_jed_file_spec data :
  match parse_jed_file data with
  | Value j => exists bits fbits, well_formed data bits fbits /\ holds_bits j bits fbits
  | Died _ => forall bits fbits, ~ well_formed data bits fbits
  | _ => False
  end.
Proof.
  unfold parse_jed_file, jed_error, well_formed, holds_bits. cbv zeta.
  destruct (bitstream_valid data _) eqn:Ev; cbn [negb]; [|by intros bits fbits (? & _)].
  destruct (find_str data _ start_text) as [p|] eqn:Ep; [|by intros bits fbits (_ & (p & ? & ? & _) & _)].
  destruct blank_config_ok as (B1 & B2 & B3). revert B1 B2 B3. generalize blank_config as blank. intros blank B1 B2 B3.
  assert (H0 : 0 <= 0 < MAX_CONFIG_SIZE * 8) by (unfold MAX_CONFIG_SIZE; lia).
  pose proof (config_loop_spec (drop (p + length start_text) data) blank 0 B1 B2 H0 B3) as Hc.
  destruct (config_loop _ blank 0) as [[config n]|m| | |]; cbn [ans_bind]; try done.
  2: { intros bits fbits (_ & (p' & body & [= <-] & Hf & ->) & Hlt & _). specialize (Hc _ Hf). lia. }
  destruct Hc as (body & Hf & -> & Hn & _ & Hb). rewrite Z.add_0_l in *.
  destruct (Z.eqb_spec (Z.rem (Z.of_nat (length (bits_of body))) FLASH_ROW_SIZE) 0) as [Er|Er]; cbn [negb].
  2: { intros bits fbits (_ & (p' & body' & [= <-] & Hf' & ->) & _ & E & _).
       by rewrite (field_unique _ _ _ Hf' Hf) in E. }
  destruct (find_str data _ fr_text) as [q|] eqn:Eq; [|by intros bits fbits (_ & _ & _ & _ & (q & ? & ? & _) & _)].
  pose proof (feature_loop_spec (drop (q + length fr_text) data) 0 0 0 ltac:(lia) ltac:(lia) ltac:(lia)) as Hr.
  specialize (Hr ltac:(intros i Hi; unfold fr_bit; by destruct (_ <? _); rewrite Z.bits_0)).
  destruct (feature_loop _ 0 0 0) as [[[feature feabits] k]|m| | |]; cbn [ans_bind]; try done.
  2: { intros bits fbits (_ & _ & _ & _ & (q' & fbody & [= <-] & Hf' & ->) & E). specialize (Hr _ Hf'). lia. }
  destruct Hr as (fbody & Hff & -> & Hk & R1 & R2 & Hfb). rewrite Z.add_0_l in *.
  destruct (Z.eqb_spec (Z.of_nat (length (bits_of fbody))) (64 + 16)) as [E80|E80]; cbn [negb].
  2: { intros bits fbits (_ & _ & _ & _ & (q' & fbody' & [= <-] & Hf' & ->) & E).
       rewrite (field_unique _ _ _ Hf' Hff) in E. lia. }
  exists (bits_of body), (bits_of fbody). split; [split_and!; try done; [eauto|eauto|lia]|].
  cbn [jed_bits jed_config jed_feature jed_feabits]. split; [done|]. split.
  - apply config_bits_hold; [done|lia|]. intros i Hi. rewrite Hb, spliced_zero by lia. done.
  - apply feature_bits_hold; [lia|lia|lia|]. intros i Hi. by rewrite Hfb, spliced_zero.
Qed.

(** ** The theorems at work: a small image on a device *)

Section Demo.
(** The answers: the device is never busy, and reads back what [demo_jed] wrote. *)
Definition demo_row : list Z := [0x8d; 0; 0; 0; 0; 0; 0; 0; 0; 0; 0; 0; 0; 0; 0; 0x80].
Definition demo_reply (n : nat) : list Z :=
  match n with
  | 4 => flat_map (fun b => [Z.land b 15; Z.shiftr b 4]) demo_row
  | 7 => flat_map (fun b => [Z.land b 15; Z.shiftr b 4]) (to_bytes 8 5)
  | 10 => flat_map (fun b => [Z.land b 15; Z.shiftr b 4]) (to_bytes 2 0x8001)
  | _ => []
  end%nat.
#[local] Instance demo_control : ControlPipe target := target_pipe demo_reply.

Definition spell (n : nat) (bytes : list Z) : list Z := map (fun b : bool => if b then 49 else 48) (dr_bits bytes n).
Definition demo_jed : list Z :=
  BITSTREAM_SIGNATURE ++ [10] ++ start_text ++ [10] ++ spell 128 demo_row ++ [42; 10]
  ++ fr_text ++ [10] ++ spell 64 (to_bytes 8 5) ++ [10] ++ spell 16 (to_bytes 2 0x8001) ++ [42; 10] ++ replicate 1024 10.
Definition demo_target : target := mk_target RunTestIdle [] [] 0.

Lemma demo_bits : match parse_jed_file demo_jed with
  | Value j => (jed_bits j, take 16 (jed_config j), jed_feature j, jed_feabits j) = (128, demo_row, 5, 0x8001)
  | _ => False
  end.
Proof. vm_compute. reflexivity. Qed.

Lemma fpga_program_flash_verified_witness :
  let run := fpga_program_flash 1 demo_jed (fpga_init demo_target) in
  snd run = Value tt
  /\ exists j l ks, parse_jed_file demo_jed = Value j
     /\ state (dev (fst run)) = RunTestIdle /\ tlog (dev (fst run)) = l
     /\ ks = map demo_reply (seq 0 (length ks)) /\ flashed j l ks.
Proof.
  intros run. assert (E : snd run = Value tt) by (vm_compute; reflexivity). split; [exact E|].
  refine (fpga_program_flash_verified demo_reply 1 demo_jed demo_target (fst run) eq_refl _).
  fold run. rewrite <- E. apply surjective_pairing.
Defined.

Lemma fpga_program_sram_scans_witness :
  exists s r, fpga_program_sram demo_jed (fpga_init demo_target) = (s, r)
  /\ state (dev s) = RunTestIdle /\ r = Value tt /\ tlog (dev s) = sram_log demo_jed.
Proof. exact (fpga_program_sram_scans demo_reply demo_jed demo_target eq_refl). Defined.


(** Erasing alone leaves the last clocks with the host: nothing calls [jtag_sync], so the
    device is still shifting the data of its last scan. *)
Example erase_unsent :
  let s := fst (fpga_erase_flash 1 (fpga_init demo_target)) in
  g_jtag_count s = 10 /\ state (dev s) = Exit1DR.
Proof. vm_compute. auto. Qed.
End Demo.
