(* ===== verification/Fx2lp.v ===== *)
(** * Loading the FX2LP (src/gen1/fx2lp.c)

    The upload of the microcontroller's RAM and of its EEPROM, both verified by
    reading back, against a microcontroller with memory cells that may be faulty. *)

From Stdlib Require Import String.
From S2P Require Import Prelude OsCommon Gen1Usb.
Local Open Scope list_scope.

Definition USB_EP0_SIZE : nat := 64.
Definition EEPROM_ADDR : Z := 0xa2.
Definition EEPROM_PAGE_SIZE : Z := 32.
Definition FX2LP_SIZE : Z := 16384.
Definition FX2LP_HEADER : Z := 12.
Definition FX2LP_FOOTER : Z := 5.

(** The device in time: [os_sleep] lets milliseconds pass. *)
Class Sleeps (D : Type) := os_sleep : Z -> D -> D.

Section Code.
Context {D : Type} `{ControlPipe D, Sleeps D}.

(** The loop of [fx2lp_sram_upload], on the data not yet written. *)
Fixpoint sram_loop (fuel : nat) (addr : Z) (data : list Z) : io D unit :=
  match data, fuel with
  | [], _ => io_ret tt
  | _, O => fun d => (d, Spinning)
  | _, S fuel =>
      let size := length data in
      let sz := if (size <? USB_EP0_SIZE)%nat then size else USB_EP0_SIZE in
      usb_fx2lp_sram_write addr (take sz data) ;~
      let~ buf := usb_fx2lp_sram_read addr sz in
      (if decide (take sz data = buf) then io_ret tt
       else os_error "fx2lp_sram_upload(): verification failed") ;~
      sram_loop fuel (addr + Z.of_nat sz) (drop sz data)
  end.

Definition fx2lp_sram_upload (data : list Z) : io D unit :=
  os_check (Z.of_nat (length data) <=? FX2LP_SIZE) "fx2lp_sram_upload(): file is too big" ;~
  usb_fx2lp_reset true ;~
  sram_loop (length data) 0 data ;~
  usb_fx2lp_reset false.

Definition eeprom_request_valid (addr size : Z) : bool :=
  (addr <? FX2LP_SIZE) && (Z.rem addr EEPROM_PAGE_SIZE =? 0) && (size <=? EEPROM_PAGE_SIZE).

Definition fx2lp_eeprom_read (addr : Z) (size : nat) : io D (list Z) :=
  os_check (eeprom_request_valid addr (Z.of_nat size)) "fx2lp_eeprom_read(): invalid request" ;~
  usb_i2c_write EEPROM_ADDR [u8 (Z.shiftr addr 8); u8 addr] ;~
  usb_i2c_read EEPROM_ADDR size.

Definition fx2lp_eeprom_write (addr : Z) (data : list Z) : io D unit :=
  os_check (eeprom_request_valid addr (Z.of_nat (length data))) "fx2lp_eeprom_write(): invalid request" ;~
  usb_i2c_write EEPROM_ADDR ([u8 (Z.shiftr addr 8); u8 addr] ++ data) ;~
  (fun d => (os_sleep 7 d, Value tt)).

(** The file rounded up to whole pages. *)
Definition eeprom_size (data_size : Z) : Z :=
  Z.land (FX2LP_HEADER + data_size + FX2LP_FOOTER + (EEPROM_PAGE_SIZE - 1)) (Z.lnot (EEPROM_PAGE_SIZE - 1)).

(** The content of [buf]. *)
Definition eeprom_image (data : list Z) : list Z :=
  let data_size := Z.of_nat (length data) in
  let tail := (12 + length data)%nat in
  let buf := replicate (Z.to_nat FX2LP_SIZE) 0xff in
  let buf := <[0%nat := 0xc2]> buf in
  let buf := <[7%nat := 1]> buf in
  let buf := <[8%nat := u8 (Z.shiftr data_size 8)]> buf in
  let buf := <[9%nat := u8 data_size]> buf in
  let buf := <[10%nat := 0]> buf in
  let buf := <[11%nat := 0]> buf in
  let buf := list_inserts 12 data buf in
  let buf := <[(tail + 0)%nat := 0x80]> buf in
  let buf := <[(tail + 1)%nat := 0x01]> buf in
  let buf := <[(tail + 2)%nat := 0xe6]> buf in
  let buf := <[(tail + 3)%nat := 0x00]> buf in
  <[(tail + 4)%nat := 0x00]> buf.

(** The [n] bytes of [buf] from [addr] on. *)
Definition bytes_at (buf : list Z) (addr : Z) (n : nat) : list Z := take n (drop (Z.to_nat addr) buf).

Fixpoint eeprom_loop (fuel : nat) (buf : list Z) (addr size : Z) : io D unit :=
  if size =? 0 then io_ret tt
  else match fuel with
  | O => fun d => (d, Spinning)
  | S fuel =>
      let n := Z.to_nat EEPROM_PAGE_SIZE in
      fx2lp_eeprom_write addr (bytes_at buf addr n) ;~
      let~ tmp := fx2lp_eeprom_read addr n in
      (if decide (bytes_at buf addr n = tmp) then io_ret tt
       else os_error "fx2lp_eeprom_upload(): verification failed") ;~
      eeprom_loop fuel buf (u32 (addr + EEPROM_PAGE_SIZE)) (size - EEPROM_PAGE_SIZE)
  end.

(** The fuel is a page count: FX2LP_SIZE holds 512 of them. *)
Definition fx2lp_eeprom_upload (data : list Z) : io D unit :=
  let size := eeprom_size (Z.of_nat (length data)) in
  os_check (size <=? FX2LP_SIZE) "fx2lp_eeprom_upload(): file is too big" ;~
  eeprom_loop 512 (eeprom_image data) 0 size.
End Code.

(** ** A microcontroller with its RAM and EEPROM *)

(** [busy] is the time left of an EEPROM write cycle. *)
Record mcu := mk_mcu { ram : list Z; halted : bool; eeprom : list Z; pointer : Z; busy : Z }.
#[export] Instance mcu_settable : Settable mcu := fun d =>
  mk_mcu (ram d) (halted d) (eeprom d) (pointer d) (busy d).

(** What the cells of a memory hold after bytes are written from [addr] on; [cell a b] is
    what cell [a] makes of [b]. *)
Definition stored (cell : Z -> Z -> Z) (addr : Z) (bytes : list Z) : list Z :=
  imap (fun i b => cell (addr + Z.of_nat i) b) bytes.

(** An EEPROM write stays in the 64-byte page of its first address. *)
Definition page_cell (addr : Z) (i : nat) : Z := 64 * (addr / 64) + (addr mod 64 + Z.of_nat i) mod 64.
Definition page_write (cell : Z -> Z -> Z) (addr : Z) (bytes mem : list Z) : list Z :=
  fold_left (fun mem i => <[Z.to_nat (page_cell addr i) := cell (page_cell addr i) (bytes !!! i)]> mem)
    (seq 0 (length bytes)) mem.

Section Device.
(** The cells of the RAM and of the EEPROM, and the time of a write cycle. *)
Context (cell ecell : Z -> Z -> Z) (cycle : Z).

Definition nak : Z := -9.

#[export] Instance mcu_sleeps : Sleeps mcu := fun ms d => d <| busy := Z.max 0 (busy d - ms) |>.

(** While a write cycle is under way the EEPROM answers nothing. *)
Definition mcu_out (request value : Z) (data : list Z) (d : mcu) : mcu * Z :=
  let done := Z.of_nat (length data) in
  if request =? CMD_FX2LP_REQUEST then
    if value =? CPUCS_ADDR then (d <| halted := data !!! 0%nat =? 1 |>, done)
    else (d <| ram := list_inserts (Z.to_nat value) (stored cell value data) (ram d) |>, done)
  else if (request =? CMD_I2C_WRITE) && (value =? EEPROM_ADDR) && (busy d =? 0) then
    match data with
    | hi :: lo :: bytes =>
        let addr := 256 * hi + lo in
        (d <| pointer := addr |> <| eeprom := page_write ecell addr bytes (eeprom d) |>
           <| busy := match bytes with [] => 0 | _ => cycle end |>, done)
    | _ => (d, nak)
    end
  else (d, nak).

Definition mcu_in (request value : Z) (n : nat) (d : mcu) : mcu * (list Z * Z) :=
  if request =? CMD_FX2LP_REQUEST then (d, (fit n (drop (Z.to_nat value) (ram d)), Z.of_nat n))
  else if (request =? CMD_I2C_READ) && (value =? EEPROM_ADDR + 1) && (busy d =? 0) then
    (d <| pointer := pointer d + Z.of_nat n |>, (fit n (drop (Z.to_nat (pointer d)) (eeprom d)), Z.of_nat n))
  else (d, (replicate n 0, nak)).

#[export] Instance mcu_pipe : ControlPipe mcu.
Proof.
  refine {| control_out := mcu_out; control_in := mcu_in; bulk_in d := (d, LIBUSB_ERROR_TIMEOUT);
            error_name _ := "LIBUSB_ERROR_PIPE"%string |}.
  intros r v n d. unfold mcu_in, fit.
  repeat case_match; cbn [fst snd]; rewrite ?length_take, ?length_app, ?length_replicate; lia.
Defined.
End Device.

(** ** Memories *)

Lemma fit_take n l : (n <= length l)%nat -> fit n l = take n l.
Proof. intros Hn. unfold fit. by rewrite take_app_le. Qed.

Lemma length_stored cell addr l : length (stored cell addr l) = length l.
Proof. apply length_imap. Qed.

Lemma stored_app cell addr l k :
  stored cell addr (l ++ k) = stored cell addr l ++ stored cell (addr + Z.of_nat (length l)) k.
Proof. unfold stored. rewrite imap_app. f_equal. apply imap_ext. intros i x _. cbn. f_equal. lia. Qed.

(** A memory takes bytes exactly when it takes both parts of them. *)
Lemma stored_split cell addr l k :
  stored cell addr (l ++ k) = l ++ k <-> stored cell addr l = l /\ stored cell (addr + Z.of_nat (length l)) k = k.
Proof.
  rewrite stored_app. split; [|by intros [-> ->]]. intros E. apply app_inj_1 in E; [done|apply length_stored].
Qed.

Lemma read_back i (l mem : list Z) :
  (i + length l <= length mem)%nat -> take (length l) (drop i (list_inserts i l mem)) = l.
Proof.
  intros Hi. apply list_eq. intros j. destruct (decide (j < length l)%nat) as [Hj|Hj].
  - rewrite lookup_take_lt, lookup_drop, list_lookup_inserts by lia. f_equal. lia.
  - rewrite (lookup_ge_None_2 l) by lia. apply lookup_take_ge. lia.
Qed.

Lemma inserts_front (l mem : list Z) : (length l <= length mem)%nat -> list_inserts 0 l mem = l ++ drop (length l) mem.
Proof.
  intros Hl. apply list_eq. intros j. destruct (decide (j < length l)%nat) as [Hj|Hj].
  - rewrite list_lookup_inserts, lookup_app_l by lia. f_equal. lia.
  - rewrite list_lookup_inserts_ge, lookup_app_r, lookup_drop by lia. f_equal. lia.
Qed.

Lemma fold_left_ext_in {A B} (f g : A -> B -> A) l a :
  (forall x y, In y l -> f x y = g x y) -> fold_left f l a = fold_left g l a.
Proof.
  revert a. induction l as [|y l IH]; intros a H; [done|]. cbn. rewrite H by (by left). apply IH. auto using in_cons.
Qed.

(** Within a page the pointer just counts up. *)
Lemma page_write_inserts cell addr bytes mem :
  0 <= addr -> addr mod 64 + Z.of_nat (length bytes) <= 64 ->
  page_write cell addr bytes mem = list_inserts (Z.to_nat addr) (stored cell addr bytes) mem.
Proof.
  intros Ha. unfold page_write. induction bytes as [|b bytes IH] using rev_ind; intros Hp; [done|].
  rewrite length_app in *. cbn [length] in *. rewrite Nat.add_1_r, seq_S, fold_left_app. cbn [fold_left Nat.add].
  assert (Hc : page_cell addr (length bytes) = addr + Z.of_nat (length bytes)).
  { unfold page_cell. pose proof (Z.mod_pos_bound addr 64 ltac:(lia)). rewrite Z.mod_small by lia.
    pose proof (Z.div_mod addr 64 ltac:(lia)). lia. }
  rewrite Hc, stored_app, list_inserts_app_l, length_stored. cbn [stored imap list_inserts].
  rewrite list_lookup_total_middle by done. cbn. rewrite Z.add_0_r.
  replace (Z.to_nat (addr + Z.of_nat (length bytes))) with (length bytes + Z.to_nat addr)%nat by lia. f_equal.
  rewrite <- IH by lia. apply fold_left_ext_in. intros m i Hi. apply in_seq in Hi.
  by rewrite lookup_total_app_l by lia.
Qed.

Section Uploads.
Context (cell ecell : Z -> Z -> Z) (cycle : Z).
#[local] Instance the_pipe : ControlPipe mcu := mcu_pipe cell ecell cycle.
Implicit Type d : mcu.

(** ** The RAM *)

Lemma reset_runs b d : usb_fx2lp_reset b d = (d <| halted := b |>, Value tt).
Proof. by destruct b. Qed.

Lemma sram_write_runs addr data d :
  0 <= addr < FX2LP_SIZE ->
  usb_fx2lp_sram_write addr data d = (d <| ram := list_inserts (Z.to_nat addr) (stored cell addr data) (ram d) |>, Value tt).
Proof.
  unfold FX2LP_SIZE. intros Ha. unfold usb_fx2lp_sram_write, vendor_out. rewrite u16_small by lia.
  cbn [control_out the_pipe mcu_pipe]. unfold mcu_out. rewrite Z.eqb_refl.
  destruct (Z.eqb_spec addr CPUCS_ADDR) as [E|_]; [unfold CPUCS_ADDR in E; lia|].
  unfold usb_check_error. destruct (Z.ltb_spec (Z.of_nat (length data)) 0); [lia|done].
Qed.

Lemma sram_read_runs addr n d :
  0 <= addr < FX2LP_SIZE -> (Z.to_nat addr + n <= length (ram d))%nat ->
  usb_fx2lp_sram_read addr n d = (d, Value (take n (drop (Z.to_nat addr) (ram d)))).
Proof.
  unfold FX2LP_SIZE. intros Ha Hn. unfold usb_fx2lp_sram_read, vendor_in. rewrite u16_small by lia.
  cbn [control_in the_pipe mcu_pipe]. unfold mcu_in. rewrite Z.eqb_refl, fit_take by (rewrite length_drop; lia).
  unfold usb_check_error. destruct (Z.ltb_spec (Z.of_nat n) 0); [lia|done].
Qed.

Definition ram_failed : answer unit := Died "Error: fx2lp_sram_upload(): verification failed".

Lemma sram_loop_spec fuel : forall addr data d,
  (length data <= fuel)%nat -> 0 <= addr -> addr + Z.of_nat (length data) <= FX2LP_SIZE ->
  length (ram d) = Z.to_nat FX2LP_SIZE ->
  exists m r, sram_loop fuel addr data d = (d <| ram := m |>, r)
  /\ if decide (stored cell addr data = data)
     then r = Value tt /\ m = list_inserts (Z.to_nat addr) data (ram d) else r = ram_failed.
Proof.
  induction fuel as [|fuel IH]; intros addr data d Hf Ha Hs Hr; (destruct data as [|b data]; [by exists (ram d), (Value tt); destruct d|]).
  { cbn in Hf. lia. }
  cbn [sram_loop]. remember (b :: data) as l eqn:El. assert (Hl : (0 < length l)%nat) by (subst l; cbn; lia). clear El b data.
  set (sz := if (length l <? USB_EP0_SIZE)%nat then length l else USB_EP0_SIZE).
  assert (Hsz : (0 < sz <= length l)%nat).
  { unfold sz, USB_EP0_SIZE. destruct (Nat.ltb_spec (length l) 64); lia. }
  clearbody sz. assert (Ht : length (take sz l) = sz) by (rewrite length_take; lia).
  unfold FX2LP_SIZE in Hs, Hr. unfold io_bind.
  rewrite sram_write_runs by (unfold FX2LP_SIZE; lia).
  rewrite sram_read_runs by (cbn -[stored list_inserts Z.to_nat Z.of_nat]; rewrite ?length_inserts; unfold FX2LP_SIZE; lia).
  assert (Eb : take sz (drop (Z.to_nat addr) (list_inserts (Z.to_nat addr) (stored cell addr (take sz l)) (ram d)))
               = stored cell addr (take sz l)).
  { rewrite <- Ht at 1. rewrite <- (length_stored cell addr (take sz l)). apply read_back. rewrite length_stored. lia. }
  change (ram (d <| ram := ?m |>)) with m. rewrite Eb. clear Eb.
  destruct (decide (take sz l = stored cell addr (take sz l))) as [E|E].
  - rewrite <- E. cbn [io_ret].
    edestruct (IH (addr + Z.of_nat sz) (drop sz l) (d <| ram := list_inserts (Z.to_nat addr) (take sz l) (ram d) |>))
      as (m & r & E1 & E2); [rewrite length_drop; lia|lia|rewrite length_drop; unfold FX2LP_SIZE; lia|cbn; by rewrite length_inserts|].
    exists m, r. split; [exact E1|].
    pose proof (stored_split cell addr (take sz l) (drop sz l)) as Hsp. rewrite take_drop, Ht in Hsp.
    destruct (decide (stored cell addr l = l)) as [E3|E3], (decide (stored cell (addr + Z.of_nat sz) (drop sz l) = drop sz l)) as [E4|E4];
      [|tauto|exfalso; apply E3, Hsp; by split|done].
    destruct E2 as [-> ->]. split; [done|].
    transitivity (list_inserts (Z.to_nat addr) (take sz l ++ drop sz l) (ram d)); [|by rewrite take_drop].
    rewrite list_inserts_app_l, Ht. cbn. f_equal. lia.
  - eexists _, ram_failed. split; [reflexivity|]. rewrite decide_False; [done|]. intros E3. apply E.
    symmetry. apply (stored_split cell addr _ (drop sz l)). by rewrite take_drop.
Qed.

(** Loading the RAM.  A file that fits is written to the microcontroller with its processor held,
    and the upload succeeds exactly when every cell took its byte: then the RAM starts
    with the file, the rest of it unchanged, and the processor runs; otherwise the
    verification fails and the processor stays held.  A file that does not fit changes nothing. *)
Theorem fx2lp_sram_upload_spec data d :
  length (ram d) = Z.to_nat FX2LP_SIZE ->
  exists d' r, fx2lp_sram_upload data d = (d', r)
  /\ eeprom d' = eeprom d
  /\ if FX2LP_SIZE <? Z.of_nat (length data)
     then r = Died "Error: fx2lp_sram_upload(): file is too big" /\ d' = d
     else if decide (stored cell 0 data = data)
     then r = Value tt /\ ram d' = data ++ drop (length data) (ram d) /\ halted d' = false
     else r = ram_failed /\ halted d' = true.
Proof.
  intros Hr. unfold fx2lp_sram_upload, os_check. rewrite Z.leb_antisym.
  destruct (Z.ltb_spec FX2LP_SIZE (Z.of_nat (length data))) as [Hb|Hb]; cbn [negb].
  { by eexists d, _. }
  edestruct (sram_loop_spec (length data) 0 data (d <| halted := true |>)) as (m & r & E1 & E2); [lia|lia|lia|done|].
  unfold io_bind, io_ret. rewrite reset_runs, E1. destruct (decide _) as [E|E].
  - destruct E2 as [-> ->]. rewrite reset_runs. eexists _, _. split; [reflexivity|]. split; [done|].
    split; [done|]. split; [|done]. cbn. apply inserts_front. unfold FX2LP_SIZE in *. lia.
  - rewrite E2. eexists _, _. split; [reflexivity|]. done.
Qed.

(** ** The EEPROM *)

(** What the file becomes: the boot header, the data, and the write of CPUCS that starts the
    processor. *)
Definition boot_image (data : list Z) : list Z :=
  let size := Z.of_nat (length data) in
  [0xc2; 0xff; 0xff; 0xff; 0xff; 0xff; 0xff; 1; u8 (Z.shiftr size 8); u8 size; 0; 0]
  ++ data ++ [0x80; 0x01; 0xe6; 0x00; 0x00].

Lemma list_inserts_app_r {A} (k l1 l2 : list A) i : list_inserts (length l1 + i) k (l1 ++ l2) = l1 ++ list_inserts i k l2.
Proof.
  revert i. induction k as [|x k IH]; intros i; [done|]. cbn [list_inserts].
  rewrite <- insert_app_r, <- IH. do 2 f_equal. lia.
Qed.

Lemma eeprom_image_layout data :
  (17 + length data <= Z.to_nat FX2LP_SIZE)%nat ->
  eeprom_image data = boot_image data ++ replicate (Z.to_nat FX2LP_SIZE - (17 + length data)) 0xff.
Proof.
  intros Hs. unfold eeprom_image, boot_image. cbv zeta. revert Hs. generalize (Z.to_nat FX2LP_SIZE) as size. intros size Hs.
  replace size with (12 + (length data + (5 + (size - (17 + length data)))))%nat at 1 by lia.
  rewrite (replicate_add 12), (replicate_add (length data)). generalize (size - (17 + length data))%nat as pad. intros pad.
  generalize (u8 (Z.shiftr (Z.of_nat (length data)) 8)) (u8 (Z.of_nat (length data))). intros hi lo.
  change (replicate 12 ?x) with [x; x; x; x; x; x; x; x; x; x; x; x].
  cbn [app insert list_insert].
  match goal with |- context [list_inserts 12 _ (?a :: ?b :: ?c :: ?d0 :: ?e :: ?f :: ?g :: ?h :: ?i :: ?j :: ?k :: ?l :: ?m)] =>
    change (a :: b :: c :: d0 :: e :: f :: g :: h :: i :: j :: k :: l :: m) with ([a; b; c; d0; e; f; g; h; i; j; k; l] ++ m);
    set (hd := [a; b; c; d0; e; f; g; h; i; j; k; l]) end.
  change (list_inserts 12) with (list_inserts (A := Z) (length hd + 0)%nat).
  rewrite list_inserts_app_r, inserts_front, drop_app_length' by (rewrite ?length_app, ?length_replicate; lia).
  assert (Hh : (12 + length data)%nat = length (hd ++ data)) by (rewrite length_app; done).
  rewrite Hh, app_assoc. rewrite !insert_app_r. cbn [replicate Nat.add insert list_insert].
  by rewrite <- !app_assoc.
Qed.

Lemma eeprom_size_spec n :
  0 <= n -> eeprom_size n = 32 * ((n + 48) / 32).
Proof.
  intros Hn. unfold eeprom_size, FX2LP_HEADER, FX2LP_FOOTER, EEPROM_PAGE_SIZE.
  replace (12 + n + 5 + (32 - 1)) with (n + 48) by lia. rewrite <- Z.ldiff_land. change (32 - 1) with (Z.ones 5).
  rewrite Z.ldiff_ones_r, Z.shiftl_mul_pow2, Z.shiftr_div_pow2 by lia. change (2 ^ 5) with 32. lia.
Qed.

Lemma address_bytes addr : 0 <= addr < FX2LP_SIZE -> 256 * u8 (Z.shiftr addr 8) + u8 addr = addr.
Proof.
  unfold FX2LP_SIZE. intros Ha. rewrite Z.shiftr_div_pow2 by lia. change (2 ^ 8) with 256. unfold u8.
  rewrite (Z.mod_small (addr / 256)).
  - pose proof (Z.div_mod addr 256 ltac:(lia)). lia.
  - split; [apply Z.div_pos; lia|apply Z.div_lt_upper_bound; lia].
Qed.

Lemma request_ok addr n : 0 <= addr < FX2LP_SIZE -> addr mod 32 = 0 -> (n <= 32)%nat -> eeprom_request_valid addr (Z.of_nat n) = true.
Proof.
  unfold eeprom_request_valid, EEPROM_PAGE_SIZE. intros Ha Hm Hn. rewrite Z.rem_mod_nonneg by lia.
  rewrite Hm. apply andb_true_iff; split; [apply andb_true_iff; split; [lia|done]|lia].
Qed.

(** An aligned chunk stays in its page. *)
Lemma chunk_in_page addr : addr mod 32 = 0 -> addr mod 64 + 32 <= 64.
Proof.
  intros H. pose proof (Z.mod_pos_bound addr 64 ltac:(lia)). pose proof (Z.div_mod addr 64 ltac:(lia)).
  pose proof (Z.div_mod addr 32 ltac:(lia)). lia.
Qed.

Definition mcu_with d mem p b : mcu := mk_mcu (ram d) (halted d) mem p b.

Lemma eeprom_write_runs addr data d :
  0 <= cycle <= 7 -> 0 <= addr < FX2LP_SIZE -> addr mod 32 = 0 -> length data = 32%nat -> busy d = 0 ->
  fx2lp_eeprom_write addr data d
  = (mcu_with d (list_inserts (Z.to_nat addr) (stored ecell addr data) (eeprom d)) addr 0, Value tt).
Proof.
  intros Hc Ha Hm Hl Hb. unfold fx2lp_eeprom_write, os_check, io_bind. rewrite request_ok by (done || lia).
  unfold io_ret, usb_i2c_write, vendor_out. change (u16 EEPROM_ADDR) with EEPROM_ADDR.
  cbn [control_out the_pipe mcu_pipe]. unfold mcu_out. rewrite Hb. cbn [app].
  change (CMD_I2C_WRITE =? CMD_FX2LP_REQUEST) with false. change ((CMD_I2C_WRITE =? CMD_I2C_WRITE) && (EEPROM_ADDR =? EEPROM_ADDR) && (0 =? 0)) with true.
  cbv iota. rewrite address_bytes by done.
  rewrite page_write_inserts by (rewrite ?Hl; try apply chunk_in_page; lia || done).
  unfold usb_check_error. destruct (Z.ltb_spec (Z.of_nat (length (u8 (Z.shiftr addr 8) :: u8 addr :: data))) 0); [lia|].
  destruct data as [|b data]; [done|]. cbn [io_ret]. unfold os_sleep, mcu_sleeps, mcu_with.
  change (busy (?x <| busy := cycle |>)) with cycle. rewrite Z.max_l by lia. done.
Qed.

Lemma eeprom_read_runs addr d :
  0 <= addr < FX2LP_SIZE -> addr mod 32 = 0 -> (Z.to_nat addr + 32 <= length (eeprom d))%nat -> busy d = 0 ->
  fx2lp_eeprom_read addr 32 d
  = (mcu_with d (eeprom d) (addr + 32) 0, Value (bytes_at (eeprom d) addr 32)).
Proof.
  intros Ha Hm Hl Hb. unfold fx2lp_eeprom_read, os_check, io_bind. rewrite request_ok by (done || lia).
  unfold io_ret, usb_i2c_write, vendor_out. change (u16 EEPROM_ADDR) with EEPROM_ADDR.
  cbn [control_out the_pipe mcu_pipe]. unfold mcu_out. rewrite Hb.
  change (CMD_I2C_WRITE =? CMD_FX2LP_REQUEST) with false. change ((CMD_I2C_WRITE =? CMD_I2C_WRITE) && (EEPROM_ADDR =? EEPROM_ADDR) && (0 =? 0)) with true.
  cbv iota. rewrite address_bytes by done. change (page_write ecell addr [] (eeprom d)) with (eeprom d).
  change (usb_check_error (Z.of_nat (length [u8 (Z.shiftr addr 8); u8 addr])) ?t) with (fun d' : mcu => (d', Value tt)). cbv beta.
  unfold usb_i2c_read, vendor_in. change (u16 (Z.lor EEPROM_ADDR 1)) with (EEPROM_ADDR + 1).
  cbn [control_in the_pipe mcu_pipe]. unfold mcu_in.
  change (CMD_I2C_READ =? CMD_FX2LP_REQUEST) with false.
  change (busy (_ <| busy := 0 |>)) with 0.
  change ((CMD_I2C_READ =? CMD_I2C_READ) && (EEPROM_ADDR + 1 =? EEPROM_ADDR + 1) && (0 =? 0)) with true. cbv iota.
  change (pointer (_ <| busy := 0 |>)) with addr. change (eeprom (_ <| busy := 0 |>)) with (eeprom d).
  rewrite fit_take by (rewrite length_drop; lia). done.
Qed.

Definition eeprom_failed : answer unit := Died "Error: fx2lp_eeprom_upload(): verification failed".

Lemma bytes_at_split buf addr n k :
  0 <= addr -> (Z.to_nat addr + n + k <= length buf)%nat ->
  bytes_at buf addr (n + k) = bytes_at buf addr n ++ bytes_at buf (addr + Z.of_nat n) k.
Proof.
  intros Ha Hl. unfold bytes_at. rewrite <- (take_drop n (take (n + k) _)). f_equal.
  - rewrite take_take. f_equal. lia.
  - rewrite skipn_firstn_comm, drop_drop. f_equal; [lia|]. f_equal. lia.
Qed.

Lemma length_bytes_at buf addr n : (Z.to_nat addr + n <= length buf)%nat -> length (bytes_at buf addr n) = n.
Proof. intros Hl. unfold bytes_at. rewrite length_take, length_drop. lia. Qed.

Lemma eeprom_loop_spec buf : forall fuel n addr d,
  0 <= cycle <= 7 -> length buf = Z.to_nat FX2LP_SIZE -> length (eeprom d) = Z.to_nat FX2LP_SIZE -> busy d = 0 ->
  (n <= fuel)%nat -> 0 <= addr -> addr mod 32 = 0 -> addr + 32 * Z.of_nat n <= FX2LP_SIZE ->
  exists m p r, eeprom_loop fuel buf addr (32 * Z.of_nat n) d = (mcu_with d m p 0, r)
  /\ if decide (stored ecell addr (bytes_at buf addr (32 * n)) = bytes_at buf addr (32 * n))
     then r = Value tt /\ m = list_inserts (Z.to_nat addr) (bytes_at buf addr (32 * n)) (eeprom d)
     else r = eeprom_failed.
Proof.
  intros fuel n addr d Hc Hl. revert n addr d.
  induction fuel as [|fuel IH]; intros n addr d He Hb Hf Ha Hm Hs.
  { assert (n = 0%nat) as -> by lia. exists (eeprom d), (pointer d), (Value tt).
    split; [destruct d; unfold mcu_with; cbn in *; by subst|]. by rewrite decide_True. }
  destruct n as [|n].
  { exists (eeprom d), (pointer d), (Value tt).
    split; [destruct d; unfold mcu_with; cbn in *; by subst|]. by rewrite decide_True. }
  unfold FX2LP_SIZE in *. cbn [eeprom_loop].
  destruct (Z.eqb_spec (32 * Z.of_nat (S n)) 0); [lia|]. change (Z.to_nat EEPROM_PAGE_SIZE) with 32%nat.
  assert (Hp : length (bytes_at buf addr 32) = 32%nat) by (apply length_bytes_at; lia).
  set (page := bytes_at buf addr 32) in *. unfold io_bind.
  rewrite eeprom_write_runs by (done || (unfold FX2LP_SIZE; lia)).
  set (mem1 := list_inserts (Z.to_nat addr) (stored ecell addr page) (eeprom d)).
  assert (Hm1 : length mem1 = Z.to_nat 16384) by (unfold mem1; rewrite length_inserts, He; done).
  assert (Eb : bytes_at mem1 addr 32 = stored ecell addr page).
  { unfold bytes_at, mem1. rewrite <- Hp, <- (length_stored ecell addr page). apply read_back. rewrite length_stored. lia. }
  rewrite eeprom_read_runs by first [done | unfold FX2LP_SIZE; lia | unfold mcu_with; cbn [eeprom]; rewrite Hm1; lia].
  change (eeprom (mcu_with d mem1 addr 0)) with mem1. rewrite Eb.
  assert (Hsplit : bytes_at buf addr (32 * S n) = page ++ bytes_at buf (addr + 32) (32 * n)).
  { replace (32 * S n)%nat with (32 + 32 * n)%nat by lia. apply bytes_at_split; lia. }
  pose proof (stored_split ecell addr page (bytes_at buf (addr + 32) (32 * n))) as Hsp.
  rewrite Hp in Hsp. rewrite Hsplit.
  destruct (decide (page = stored ecell addr page)) as [E|E].
  - unfold io_ret. unfold EEPROM_PAGE_SIZE. rewrite u32_small by lia.
    replace (32 * Z.of_nat (S n) - 32) with (32 * Z.of_nat n) by lia.
    edestruct (IH n (addr + 32) (mcu_with (mcu_with d mem1 addr 0) mem1 (addr + 32) 0)) as (m & p & r & E1 & E2);
      [exact Hm1|done|lia|lia| |lia|].
    { rewrite <- Zplus_mod_idemp_l, Hm. done. }
    exists m, p, r. split; [exact E1|].
    destruct (decide (stored ecell (addr + 32) (bytes_at buf (addr + 32) (32 * n)) = bytes_at buf (addr + 32) (32 * n))) as [E3|E3].
    + rewrite decide_True by (apply Hsp; by split). destruct E2 as [-> ->]. split; [done|].
      rewrite list_inserts_app_l, Hp. cbn [mcu_with eeprom]. unfold mem1. rewrite <- E. f_equal. lia.
    + rewrite decide_False; [done|]. intros E4. apply E3. by apply Hsp.
  - eexists _, _, eeprom_failed. split; [reflexivity|]. rewrite decide_False; [done|]. intros E3. apply E.
    symmetry. by apply Hsp.
Qed.

(** The bytes the upload writes: the boot image up to the end of its last page. *)
Definition padded_image (data : list Z) : list Z :=
  let used := length (boot_image data) in
  boot_image data ++ replicate (32 * ((used + 31) / 32) - used) 0xff.

Lemma padded_is_image data n :
  eeprom_size (Z.of_nat (length data)) = 32 * Z.of_nat n -> 32 * Z.of_nat n <= FX2LP_SIZE ->
  bytes_at (eeprom_image data) 0 (32 * n) = padded_image data.
Proof.
  unfold FX2LP_SIZE. intros E Hn. rewrite eeprom_size_spec in E by lia.
  pose proof (Z.div_mod (Z.of_nat (length data) + 48) 32 ltac:(lia)).
  pose proof (Z.mod_pos_bound (Z.of_nat (length data) + 48) 32 ltac:(lia)).
  assert (Hu : length (boot_image data) = (17 + length data)%nat)
    by (unfold boot_image; cbn [app length]; rewrite length_app; cbn; lia).
  assert (Hfit : (17 + length data <= Z.to_nat FX2LP_SIZE)%nat) by (unfold FX2LP_SIZE; lia).
  unfold bytes_at, padded_image. rewrite (eeprom_image_layout data Hfit).
  change (Z.to_nat 0) with 0%nat. rewrite drop_0, take_app_ge by lia. f_equal. rewrite take_replicate. f_equal.
  rewrite Hu. assert (En : ((17 + length data + 31) / 32)%nat = n).
  { symmetry. apply (Nat.div_unique _ 32 n (Z.to_nat ((Z.of_nat (length data) + 48) mod 32))); lia. }
  rewrite En. unfold FX2LP_SIZE. lia.
Qed.

(** C35: programming the EEPROM.  On a memory whose write cycle takes at most the seven
    milliseconds waited, a file whose image fits in whole pages succeeds exactly when
    every cell took its byte: then the EEPROM starts with the boot header, the file, the
    command that starts the processor and the padding of the last page, and the rest
    is unchanged; otherwise the verification fails.  A file that does not fit changes nothing. *)
Theorem fx2lp_eeprom_upload_spec data d :
  0 <= cycle <= 7 -> busy d = 0 -> length (eeprom d) = Z.to_nat FX2LP_SIZE ->
  exists d' r, fx2lp_eeprom_upload data d = (d', r)
  /\ ram d' = ram d /\ halted d' = halted d
  /\ if FX2LP_SIZE <? Z.of_nat (length (padded_image data))
     then r = Died "Error: fx2lp_eeprom_upload(): file is too big" /\ d' = d
     else if decide (stored ecell 0 (padded_image data) = padded_image data)
     then r = Value tt /\ eeprom d' = padded_image data ++ drop (length (padded_image data)) (eeprom d)
     else r = eeprom_failed.
Proof.
  intros Hc Hb He. unfold fx2lp_eeprom_upload, os_check. cbv zeta.
  set (n := Z.to_nat ((Z.of_nat (length data) + 48) / 32)).
  pose proof (Z.div_pos (Z.of_nat (length data) + 48) 32 ltac:(lia) ltac:(lia)).
  assert (Es : eeprom_size (Z.of_nat (length data)) = 32 * Z.of_nat n) by (rewrite eeprom_size_spec; lia).
  assert (El : length (padded_image data) = (32 * n)%nat).
  { unfold padded_image. rewrite length_app, length_replicate.
    assert (Hu : length (boot_image data) = (17 + length data)%nat)
      by (unfold boot_image; cbn [app length]; rewrite length_app; cbn; lia).
    rewrite Hu. pose proof (Nat.div_mod_eq (17 + length data + 31) 32).
    pose proof (Nat.mod_upper_bound (17 + length data + 31) 32 ltac:(lia)).
    assert (En : ((17 + length data + 31) / 32)%nat = n).
    { pose proof (Z.div_mod (Z.of_nat (length data) + 48) 32 ltac:(lia)).
      pose proof (Z.mod_pos_bound (Z.of_nat (length data) + 48) 32 ltac:(lia)). lia. }
    lia. }
  rewrite Es, El, Nat2Z.inj_mul. change (Z.of_nat 32) with 32. rewrite Z.leb_antisym.
  destruct (Z.ltb_spec FX2LP_SIZE (32 * Z.of_nat n)) as [Hbig|Hfit]; cbn [negb]; [by eexists d, _|].
  unfold io_bind, io_ret. pose proof (padded_is_image data n Es Hfit) as Ep.
  unfold FX2LP_SIZE in *.
  assert (Hlen : length (eeprom_image data) = Z.to_nat 16384).
  { unfold eeprom_image. cbv zeta. rewrite !length_insert, length_inserts, !length_insert, length_replicate. done. }
  edestruct (eeprom_loop_spec (eeprom_image data) 512 n 0 d) as (m & p & r & E1 & E2);
    [done|exact Hlen|done|done|lia|lia|done|unfold FX2LP_SIZE; lia|].
  rewrite E1, Ep in *. exists (mcu_with d m p 0), r. split; [done|]. split; [done|]. split; [done|].
  destruct (decide _); [|done]. destruct E2 as [-> ->]. split; [done|]. cbn [mcu_with eeprom].
  rewrite <- El. apply inserts_front. rewrite El, He. lia.
Qed.
End Uploads.

(** ** At work: sound cells, and a RAM whose cell 2 is stuck at 0 *)

Definition sound (a b : Z) : Z := b.
Definition stuck (a b : Z) : Z := if a =? 2 then 0 else b.
Definition demo_firmware : list Z := [0x02; 0x00; 0x03; 0x80].
Definition demo_mcu : mcu :=
  mk_mcu (replicate (Z.to_nat FX2LP_SIZE) 0) false (replicate (Z.to_nat FX2LP_SIZE) 0xff) 0 0.

Lemma fx2lp_sram_upload_spec_witness :
  (exists d' r, fx2lp_sram_upload (H := mcu_pipe sound sound 5) demo_firmware demo_mcu = (d', r)
    /\ eeprom d' = eeprom demo_mcu
    /\ r = Value tt /\ ram d' = demo_firmware ++ drop 4 (ram demo_mcu) /\ halted d' = false)
  /\ (exists d' r, fx2lp_sram_upload (H := mcu_pipe stuck sound 5) demo_firmware demo_mcu = (d', r)
    /\ eeprom d' = eeprom demo_mcu /\ r = ram_failed /\ halted d' = true).
Proof.
  split.
  - exact (fx2lp_sram_upload_spec sound sound 5 demo_firmware demo_mcu (length_replicate _ _)).
  - exact (fx2lp_sram_upload_spec stuck sound 5 demo_firmware demo_mcu (length_replicate _ _)).
Defined.

Lemma fx2lp_eeprom_upload_spec_witness :
  exists d' r, fx2lp_eeprom_upload (H := mcu_pipe sound sound 5) demo_firmware demo_mcu = (d', r)
    /\ ram d' = ram demo_mcu /\ halted d' = false
    /\ r = Value tt /\ eeprom d' = padded_image demo_firmware ++ drop 32 (eeprom demo_mcu).
Proof.
  exact (fx2lp_eeprom_upload_spec sound sound 5 demo_firmware demo_mcu
           ltac:(lia) eq_refl (length_replicate _ _)).
Defined.
