(* ===== verification/Gen1Session.v ===== *)
(** * A gen1 capture from end to end (src/gen1/capture.c capture_start, src/main.c run_capture_gen1)

    The device is opened, set up over the control pipe and read by the event loop, whose
    completions feed the capture engine of Gen1Capture.v.  This file joins the models of the
    USB layer, the engine and its writer. *)

From Stdlib Require Import String.
From stdpp Require Import strings.
From S2P Require Import Prelude OsCommon Format Pcapng Packet Gen1Writer Gen1Capture Gen1Safe Device Gen1Usb.
Local Open Scope list_scope.

(** What the program finds around it: libusb's initialization, the bus, the state of each
    device, whether the output file opens, the completions of the event loop with the
    values of the stop flag, and those left at the end. *)
Record surroundings (D : Type) := mk_surroundings {
  init_result : Z;
  the_bus : bus;
  plugged : descriptor -> D;
  fifo_opens : bool;
  turns : list (bool * list transfer);
  drained : list transfer;
  clock : Z;
}.
Arguments mk_surroundings {D}. Arguments init_result {D}. Arguments the_bus {D}. Arguments plugged {D}.
Arguments fifo_opens {D}. Arguments turns {D}. Arguments drained {D}. Arguments clock {D}.

(** The state of the process: the open handle, the device behind it, the USB layer with the
    engine, the devices opened so far, and the text on stdout. *)
Record prog (W D : Type) := mk_prog {
  g_usb_handle : option descriptor;
  device : D;
  usb : usb_state (Gen1Capture.engine W);
  opened : list descriptor;
  stdout : list string;
}.
Arguments mk_prog {W D}. Arguments g_usb_handle {W D}. Arguments device {W D}. Arguments usb {W D}.
Arguments opened {W D}. Arguments stdout {W D}.
#[export] Instance prog_settable W D : Settable (prog W D) := fun p =>
  mk_prog (g_usb_handle p) (device p) (usb p) (opened p) (stdout p).

Definition of_answer {S A} (r : answer A) : io S A := fun s => (s, r).

Section Code.
Context {W D : Type} `{Gen1Out W, ControlPipe D}.
(** The three headers of [capture_start]. *)
Context (headers : Z -> W -> option W) (env : surroundings D).

Definition error_text : Z -> string := bus_error (the_bus env).

Definition usb_init : io (prog W D) unit :=
  if init_result env <? 0 then os_error ("libusb_init(): " +:+ error_text (init_result env)) else io_ret tt.

(** The device of the handle. *)
Definition hold (desc : descriptor) : io (prog W D) unit := fun p =>
  io_ret tt (p <| g_usb_handle := Some desc |> <| device := plugged env desc |> <| opened := opened p ++ [desc] |>).

Definition open_device : io (prog W D) unit :=
  let~ desc := of_answer (open_capture_device (the_bus env)) in hold desc.

Definition on_device {A} (m : io D A) : io (prog W D) A := fun p =>
  match g_usb_handle p with
  | None => (p, Undefined)
  | Some _ => let '(d, r) := m (device p) in (p <| device := d |>, r)
  end.
Definition on_usb {A} (m : io (usb_state (Gen1Capture.engine W)) A) : io (prog W D) A := fun p =>
  let '(u, r) := m (usb p) in (p <| usb := u |>, r).

(** The engine as a program on its state; leaving keeps the output. *)
Definition run_engine (f : Gen1Capture.engine W -> run W) : io (Gen1Capture.engine W) unit := fun s =>
  match f s with
  | Go s => io_ret tt s
  | Leave code w => (s <| out := w |>, Exited code)
  | Wild => (s, Undefined)
  end.
Definition feed (data : list Z) : io (Gen1Capture.engine W) unit := run_engine (fun s => capture_callback s data).

Definition write_the_headers : io (Gen1Capture.engine W) unit := fun s =>
  match headers (Packet.capture_speed (g_opt s)) (out s) with
  | Some w => io_ret tt (s <| out := w |>)
  | None => (s, Exited 1)
  end.

Definition usb_data_transfer : io (prog W D) unit := on_usb (transfer_loop feed error_text (turns env)).

(** [asked]: the capture flag and the file name are given. *)
Definition capture_start (asked : bool) : io (prog W D) bool :=
  if negb asked then io_ret false
  else
    os_check (fifo_opens env) "could not open FIFO pipe" ;~
    open_device ;~
    (fun p => on_device (capture_control (Packet.capture_speed (g_opt (engine (usb p))))) p) ;~
    on_usb (on_engine write_the_headers) ;~
    on_usb (on_engine (run_engine capture_announce)) ;~
    usb_data_transfer ;~
    io_ret true.

(** [usb_close]: with a handle, the completions left are drained with the flag raised. *)
Definition close_usb : io (prog W D) unit := fun p =>
  match g_usb_handle p with
  | None => io_ret tt p
  | Some _ => (on_usb (usb_close feed error_text (drained env)) ;~
               fun p => io_ret tt (p <| g_usb_handle := None |>)) p
  end.

Definition run_capture_gen1 (asked : bool) : io (prog W D) Z :=
  usb_init ;~
  capture_start asked ;~
  close_usb ;~
  io_ret 0.

(** The process with its options set and nothing done. *)
Definition start (o : packet_opts) (w : W) (d : D) : prog W D :=
  mk_prog None d (mk_usb false 0 0 0 0 false rand_state0 (engine_init o w) [] [] false 0) [] [].
End Code.

(** ** The bytes of the completions, one after the other *)

(** The completions handled before the stop flag. *)
Fixpoint before_stop (ts : list (bool * list transfer)) : list transfer :=
  match ts with
  | [] => []
  | (g_stop, l) :: ts => if g_stop then [] else l ++ before_stop ts
  end.
Definition stops (ts : list (bool * list transfer)) : bool := existsb fst ts.

(** The bytes they deliver: up to the first one that ends the process. *)
Fixpoint delivered (ts : list transfer) : list Z :=
  match ts with
  | [] => []
  | t :: ts =>
      match t_status t with
      | TRANSFER_COMPLETED | TRANSFER_TIMED_OUT =>
          t_data t ++ (if t_submit t <? 0 then [] else delivered ts)
      | TRANSFER_CANCELLED | TRANSFER_NO_DEVICE => delivered ts
      | TRANSFER_OTHER _ => []
      end
  end.

Lemma io_bind_assoc {S A B C} (m : io S A) (f : A -> io S B) (g : B -> io S C) s :
  io_bind (io_bind m f) g s = io_bind m (fun a => io_bind (f a) g) s.
Proof. unfold io_bind. by destruct (m s) as [s1 []]. Qed.

Lemma io_iter_app {S A} (f : A -> io S unit) l k s : io_iter f (l ++ k) s = (io_iter f l ;~ io_iter f k) s.
Proof.
  revert s. induction l as [|x l IH]; intros s; [done|]. cbn [io_iter app]. rewrite io_bind_assoc.
  unfold io_bind. destruct (f x s) as [s1 [[]|m| | |]]; try done; apply IH.
Qed.

(** The event loop is its completions in a row. *)
Lemma transfer_loop_row {E} (fd : list Z -> io E unit) err ts u :
  transfer_loop fd err ts u
  = (handle_events fd err (before_stop ts) ;~ (if stops ts then io_ret tt else fun u => (u, Spinning))) u.
Proof.
  revert u. induction ts as [|[b l] ts IH]; intros u; [done|]. cbn [transfer_loop before_stop stops existsb fst].
  destruct b; [done|]. unfold handle_events. cbn [orb].
  unfold io_bind at 1 2. rewrite io_iter_app. unfold io_bind at 1.
  destruct (io_iter _ l u) as [u1 [[]|m| | |]]; [exact (IH u1)|done..].
Qed.

Section Feeding.
Context {W : Type} `{Gen1Out W}.

Lemma capture_callback_app (s : Gen1Capture.engine W) a b :
  capture_callback s (a ++ b) = andthen (capture_callback s a) (fun s => capture_callback s b).
Proof.
  revert s. induction a as [|x a IH]; intros s; [done|]. cbn [capture_callback app].
  destruct (capture_sm s x) as [s1| |]; cbn [andthen]; [apply IH|done|done].
Qed.

(** After the completions the engine has been fed what they delivered, in a row. *)
Lemma handle_feeds err ts (u : usb_state (Gen1Capture.engine W)) :
  g_speed_test u = false -> g_usb_closing u = false ->
  let '(u', r) := handle_events feed err ts u in
  g_speed_test u' = false /\ g_usb_closing u' = false /\
  match capture_callback (engine u) (delivered ts) with
  | Go s => engine u' = s /\ (r = Value tt \/ exists m, r = Died m)
  | Leave c w => out (engine u') = w /\ r = Exited c
  | Wild => r = Undefined
  end.
Proof.
  revert u. induction ts as [|t ts IH]; intros u Hg Hc.
  { cbn. auto. }
  unfold handle_events in *. cbn [io_iter delivered]. unfold io_bind. unfold usb_capture_callback at 1. rewrite Hc.
  assert (Hgo : forall rest,
    (if t_submit t <? 0 then [] else delivered ts) = rest ->
    let '(u', r) := match ((if g_speed_test u then speed_check t else feed_engine feed t) ;~ resubmit err t) u with
      | (d, Value _) => io_iter (usb_capture_callback feed err) ts d
      | (d, Died msg) => (d, Died msg) | (d, Undefined) => (d, Undefined)
      | (d, Spinning) => (d, Spinning) | (d, Exited code) => (d, Exited code) end in
    g_speed_test u' = false /\ g_usb_closing u' = false /\
    match capture_callback (engine u) (t_data t ++ rest) with
    | Go s => engine u' = s /\ (r = Value tt \/ exists m, r = Died m)
    | Leave c w => out (engine u') = w /\ r = Exited c
    | Wild => r = Undefined
    end).
  { intros rest Er. rewrite Hg, capture_callback_app. unfold feed_engine, on_engine, feed at 1, run_engine, io_bind at 1 2.
    destruct (capture_callback (engine u) (t_data t)) as [s1|c w|]; cbn [andthen io_ret]; [|done|done].
    set (u1 := if _ <? _ then _ else _).
    assert (H1 : engine u1 = s1 /\ g_speed_test u1 = false /\ g_usb_closing u1 = false)
      by (unfold u1; match goal with |- context [if ?b then _ else _] => destruct b end; by split_and!).
    clearbody u1. destruct H1 as (E1 & G1 & C1). unfold resubmit. subst rest.
    destruct (t_submit t <? 0); cbn [os_error io_ret].
    - cbn [capture_callback]. split; [done|]. split; [done|]. split; [done|]. right. by eexists.
    - rewrite <- E1. set (u2 := u1 <| submitted := S (submitted u1) |>). specialize (IH u2 G1 C1).
      change (engine u2) with (engine u1) in IH. exact IH. }
  destruct (t_status t); cbn [io_ret].
  - by apply Hgo.
  - by apply Hgo.
  - by apply IH.
  - set (u2 := u <| disconnected := true |>). specialize (IH u2 Hg Hc).
    change (engine u2) with (engine u) in IH. exact IH.
  - cbn [os_error capture_callback]. split; [done|]. split; [done|]. split; [done|]. right. by eexists.
Qed.
End Feeding.

(** ** Requests that answer or end the process *)

Definition answers {S A} (m : io S A) : Prop :=
  forall s, match (m s).2 with Value _ | Died _ => True | _ => False end.

Lemma answers_bind {S A B} (m : io S A) (f : A -> io S B) : answers m -> (forall a, answers (f a)) -> answers (io_bind m f).
Proof.
  intros Hm Hf s. specialize (Hm s). unfold io_bind. destruct (m s) as [s1 [a|msg| | |]]; try done. apply Hf.
Qed.
Lemma answers_ret {S A} (a : A) : answers (io_ret (D := S) a).
Proof. done. Qed.
Lemma answers_error {S A} msg : answers (os_error (D := S) (A := A) msg).
Proof. done. Qed.

Lemma answers_control {D} `{ControlPipe D} speed : answers (capture_control speed).
Proof.
  assert (Hc : forall i v, answers (usb_ctrl i v)).
  { intros i v d. unfold usb_ctrl, vendor_out. destruct (control_out _ _ _ d) as [d1 rc].
    unfold usb_check_error. by destruct (rc <? 0). }
  assert (Hf : forall n, answers (flush_loop n)).
  { induction n as [|n IH]; [done|]. intros d. cbn [flush_loop]. destruct (bulk_in d) as [d1 rc].
    destruct (rc =? _); [done|]. apply answers_bind; [|done]. unfold usb_check_error. by destruct (rc <? 0). }
  unfold capture_control, usb_ctrl_init, usb_flush_data.
  repeat (apply answers_bind; [|intros _]); auto.
Qed.

(** ** The run of a capture *)

Section Run.
Context {W D : Type} `{Gen1Out W, ControlPipe D} (headers : Z -> W -> option W) (env : surroundings D).

(** The bytes of the session. *)
Definition session_bytes : list Z := delivered (before_stop (turns env)).

(** How a session with those bytes ends. *)
Definition ends (m : run W) (p : prog W D) (r : answer Z) : Prop :=
  match m with
  | Go s => engine (usb p) = s
      /\ (r = Value 0 \/ (exists msg, r = Died msg) \/ (r = Spinning /\ stops (turns env) = false))
  | Leave c w => out (engine (usb p)) = w /\ r = Exited c
  | Wild => r = Undefined
  end.

(** From the open handle on, the engine ready. *)
Lemma data_part p :
  g_speed_test (usb p) = false -> g_usb_closing (usb p) = false ->
  let '(p', r) := (usb_data_transfer env ;~ close_usb env ;~ io_ret 0) p in
  ends (capture_callback (engine (usb p)) session_bytes) p' r.
Proof.
  intros Hg Hc. unfold usb_data_transfer, on_usb, io_bind at 1, session_bytes. rewrite transfer_loop_row.
  pose proof (handle_feeds (error_text env) (before_stop (turns env)) (usb p) Hg Hc) as Hf.
  unfold io_bind at 1. destruct (handle_events _ _ _ (usb p)) as [u [[]|m| | |]].
  - destruct Hf as (G1 & C1 & Hf).
    destruct (capture_callback _ _) as [s|c w|]; [|by destruct Hf|done].
    destruct Hf as [Es _]. destruct (stops (turns env)) eqn:Est; cbn [io_ret].
    + unfold close_usb, io_bind. cbn [g_usb_handle usb]. destruct (g_usb_handle _); cbn [io_ret].
      * unfold on_usb. rewrite usb_close_drops. cbn. auto.
      * cbn. auto.
    + cbn. auto.
  - destruct Hf as (_ & _ & Hf). destruct (capture_callback _ _) as [s|c w|]; [|by destruct Hf|done].
    destruct Hf as [Es _]. cbn. split; [done|]. eauto.
  - destruct Hf as (_ & _ & Hf). destruct (capture_callback _ _) as [s|c w|]; [|by destruct Hf|done].
    by destruct Hf as [_ [?|[? ?]]].
  - destruct Hf as (_ & _ & Hf). destruct (capture_callback _ _) as [s|c w|]; [|by destruct Hf|done].
    by destruct Hf as [_ [?|[? ?]]].
  - destruct Hf as (_ & _ & Hf). destruct (capture_callback _ _) as [s|c w|]; [|by destruct Hf as [E [= ->]]|done].
    by destruct Hf as [_ [?|[? ?]]].
Qed.

(** The announcement and the data part, the headers written. *)
Lemma announced_part p o w0 :
  usb p = mk_usb false 0 0 0 0 false rand_state0 (engine_init o w0) [] [] false 0 ->
  let '(p', r) := (on_usb (on_engine (run_engine capture_announce)) ;~ usb_data_transfer env ;~ close_usb env ;~ io_ret 0) p in
  ends (gen1_session o w0 session_bytes) p' r.
Proof.
  intros Eu. unfold gen1_session, io_bind at 1. unfold on_usb at 1, on_engine at 1, run_engine at 1. rewrite Eu.
  cbn [engine]. destruct (capture_announce (engine_init o w0)) as [s|c w|]; cbn [io_ret andthen].
  - match goal with |- context [io_bind _ _ ?q] => set (p1 := q) end.
    exact (data_part p1 eq_refl eq_refl).
  - done.
  - done.
Qed.

Lemma open_answers b : match open_capture_device b with Value _ | Died _ => True | _ => False end.
Proof.
  assert (Hu : forall v p c, match usb_open v p c b with Value _ | Died _ => True | _ => False end).
  { intros v p c. unfold usb_open. by repeat case_match. }
  unfold open_capture_device. pose proof (Hu GEN1_VID GEN1_PID GEN1_BCD) as H1.
  pose proof (Hu GEN1_VID_LEGACY GEN1_PID_LEGACY 0) as H2.
  destruct (usb_open GEN1_VID _ _ b) as [[]| | | |]; try done. cbn [ans_bind].
  by destruct (usb_open GEN1_VID_LEGACY _ _ b) as [[]| | | |].
Qed.

(** A capture that was asked for: it fails before it writes anything, or writes the headers
    and then goes on as the engine does on the bytes delivered. *)
Lemma run_gen1_feeds o w d :
  let '(p, r) := run_capture_gen1 headers env true (start o w d) in
  (out (engine (usb p)) = w /\ ((exists msg, r = Died msg) \/ (r = Exited 1 /\ headers (Packet.capture_speed o) w = None)))
  \/ exists w0, headers (Packet.capture_speed o) w = Some w0 /\ ends (gen1_session o w0 session_bytes) p r.
Proof.
  unfold run_capture_gen1, usb_init, capture_start. cbn [negb].
  unfold io_bind at 1. destruct (init_result env <? 0); [left; cbn; split; [done|left; by eexists]|]. cbn [io_ret].
  rewrite !io_bind_assoc. unfold io_bind at 1, os_check.
  destruct (fifo_opens env); [|left; cbn; split; [done|left; by eexists]]. cbn [io_ret].
  rewrite !io_bind_assoc. unfold open_device. rewrite !io_bind_assoc. unfold io_bind at 1, of_answer at 1.
  pose proof (open_answers (the_bus env)) as Ho.
  destruct (open_capture_device (the_bus env)) as [desc|msg| | |]; [|left; cbn; split; [done|left; by eexists]|done..].
  unfold io_bind at 1, hold at 1. cbn [io_ret]. set (p1 := _ <| opened := _ |>).
  assert (Eu : usb p1 = usb (start o w d)) by done. assert (Eh : g_usb_handle p1 = Some desc) by done. clearbody p1.
  rewrite io_bind_assoc. unfold io_bind at 1, on_device at 1. rewrite Eh.
  pose proof (answers_control (Packet.capture_speed (g_opt (engine (usb p1)))) (device p1)) as Hc.
  destruct (capture_control _ (device p1)) as [d1 [[]|msg| | |]]; cbn [snd] in Hc; try done.
  2: { left. change (usb (p1 <| device := d1 |>)) with (usb p1). rewrite Eu. split; [done|left; by eexists]. }
  set (p2 := p1 <| device := d1 |>). assert (Eu2 : usb p2 = usb (start o w d)) by exact Eu. clearbody p2. clear Eu Eh p1 Hc Ho d1.
  rewrite io_bind_assoc. unfold io_bind at 1, on_usb at 1, on_engine at 1, write_the_headers at 1. rewrite Eu2.
  change (out (engine (usb (start o w d)))) with w.
  change (Packet.capture_speed (g_opt (engine (usb (start o w d))))) with (Packet.capture_speed o).
  destruct (headers (Packet.capture_speed o) w) as [w0|] eqn:Eh; cbn [io_ret].
  2: { left. change (engine (usb (p2 <| usb := ?u |>))) with (engine u). split; [done|by right]. }
  match goal with |- context [io_bind _ _ ?q] => set (p3 := q) end.
  pose proof (announced_part p3 o w0 eq_refl) as Ha. clearbody p3.
  rewrite !io_bind_assoc. unfold io_bind at 1. unfold io_bind at 1 in Ha.
  destruct (on_usb (on_engine (run_engine capture_announce)) p3) as [p4 [[]|m| | |]];
    [|right; by exists w0..].
  rewrite io_bind_assoc.
  change (let '(p, r) := (usb_data_transfer env;~ close_usb env;~ io_ret 0) p4 in ends (gen1_session o w0 session_bytes) p r) in Ha.
  match goal with |- let '(p, r) := ?X in _ => change X with ((usb_data_transfer env;~ close_usb env;~ io_ret 0) p4) end.
  destruct ((usb_data_transfer env;~ close_usb env;~ io_ret 0) p4) as [p5 r]. right. by exists w0.
Qed.
End Run.

(** ** The file of a capture *)

(** The headers of the writer, next to the log of the records. *)
Definition logged_headers (takes : list Z -> list Z -> bool) (speed : Z) (lw : list record * writer)
    : option (list record * writer) :=
  w ← write_headers takes speed lw.2; Some (lw.1, w).

Lemma delivered_ok ts : Forall (fun t => bytes_ok (t_data t)) ts -> bytes_ok (delivered ts).
Proof.
  induction 1 as [|t ts Ht _ IH]; [constructor|]. cbn [delivered].
  assert (bytes_ok (t_data t ++ (if t_submit t <? 0 then [] else delivered ts))).
  { apply Forall_app_2; [done|]. destruct (_ <? _); [constructor|done]. }
  destruct (t_status t); try done. constructor.
Qed.


(** ** A capture of two transfers *)

Definition demo_dev : descriptor := mk_desc 0x1209 0x6688 1.
Definition demo_env : surroundings capture_reg :=
  mk_surroundings 0 (mk_bus (inr [(Some demo_dev, 0)]) (fun _ => 0) (fun _ => EmptyString)) (fun _ => mk_reg 0 []) true
    [(false, [mk_transfer TRANSFER_COMPLETED [0x00; 0x01; 0x00; 0x5c; 0xc0; 0x02; 0x00] 0 0 0]);
     (false, [mk_transfer TRANSFER_TIMED_OUT [0x00; 0x0a; 0x00; 0x30; 0xa5; 0x01; 0x02] 0 0 0]);
     (true, [])]
    [] 0.
Definition session_opts : packet_opts := mk_opts false false CaptureSpeed_Reset CaptureTrigger_Disabled (-1).
Definition all_taken (a d : list Z) : bool := true.

Definition demo_run : prog (list record * writer) capture_reg * answer Z :=
  @run_capture_gen1 _ _ (logged all_taken) _ (logged_headers all_taken) demo_env true
    (start session_opts ([], writer_open) (mk_reg 0 [])).

Lemma demo_run_ends :
  (snd demo_run, length (fst (out (engine (usb (fst demo_run))))), reg (device (fst demo_run))) = (Value 0, 6%nat, 0xe).
Proof. vm_compute. reflexivity. Qed.

