(* ===== verification/Main.v ===== *)
(** * The program (src/main.c)

    [main]: the command line, the extcap queries, the choice between the two capture
    engines and the maintenance tools of the first generation. *)

From Stdlib Require Import String Ascii.
From stdpp Require Import strings.
From S2P Require Import Prelude OsCommon Format Pcapng Session Packet Gen1Writer Gen1Capture Extcap Device Gen1Usb Jtag Fpga Fx2lp Gen1Session.
Local Open Scope list_scope.

Definition is_given (o : option string) : bool := match o with Some _ => true | None => false end.

(** The members of [g_opt] the engines read. *)
Definition popts_of (g : Options) : packet_opts :=
  mk_opts (flags g fold_empty) (flags g exclude_line_state) (Extcap.capture_speed g)
    (Extcap.capture_trigger g) (Extcap.capture_limit g).

(** An extcap capture is asked for. *)
Definition capturing (g : Options) : bool := flags g extcap_capture && is_given (texts g extcap_fifo).

(** ["%014" PRIx64] of a value below 2^56. *)
Definition hex14 (n : Z) : list Z :=
  map (fun i => hex_digit (Z.land (Z.shiftr n (4 * (13 - Z.of_nat i))) 15)) (seq 0 14).

Definition chars (l : list Z) : string :=
  String.string_of_list_ascii (map (fun b => ascii_of_nat (Z.to_nat b)) l).

Definition SN_PLACEHOLDER : list Z := cstr "[-----SN-----]".

Section Program.
Context {W D G : Type} `{Gen1Out W, ControlPipe D, Sleeps D}.
(** The writer of the engine, the surroundings, the files that can be read - with the
    reason where one cannot -, the build date, the gen2 session, and the fuel of the waits for the flash. *)
Context (headers : Z -> W -> option W) (env : surroundings D) (files : string -> string + list Z).
Context (build : string) (gen2 : bool -> packet_opts -> res (G * Z)) (fuel : nat).

Notation program A := (io (prog W D) A).

Definition exit {A} (code : Z) : program A := fun p => (p, Exited code).
Definition say (line : string) : program unit := fun p => io_ret tt (p <| stdout := stdout p ++ [line] |>).

Definition os_file_read_all (name : string) : program (list Z) :=
  match files name with
  | inl why => os_error ("os_file_read_all(): " +:+ why)
  | inr data => io_ret data
  end.

(** The JTAG routines start with an empty clock buffer. *)
Definition on_fpga {A} (m : io (fpga D) A) : io D A := fun d => let '(s, r) := m (fpga_init d) in (dev s, r).

(** The open, read or refused, of one device by its identifiers. *)
Definition open_fx2lp : program unit :=
  let~ handle := of_answer (usb_open FX2LP_VID FX2LP_PID 0 (the_bus env)) in
  match handle with
  | Some desc => hold env desc
  | None => os_error "could not open unconfigured FX2LP device"
  end.

Definition maint_mcu_sram (name : string) : program Z :=
  usb_init env ;~
  open_fx2lp ;~
  let~ data := os_file_read_all name in
  say ("Uploading " +:+ dec_string (Z.of_nat (length data)) +:+ " bytes into the FX2LP SRAM") ;~
  on_device (fx2lp_sram_upload data) ;~
  say "...done" ;~
  close_usb env ;~
  exit 0.

(** The file with the serial number and the NUL of [sprintf] in the place of the placeholder. *)
Definition stamp (data : list Z) (sn : nat) (traceid : Z) : list Z := list_inserts sn (hex14 traceid ++ [0]) data.

Definition maint_mcu_eeprom (name : string) : program Z :=
  usb_init env ;~
  open_device env ;~
  let traceid := Z.land fpga_read_traceid 0x00ffffffffffffff in
  let~ data := os_file_read_all name in
  match find_str data (Z.of_nat (length data)) SN_PLACEHOLDER with
  | None => os_error "provided binary does not include a placeholder for the serial number"
  | Some sn =>
      let data := stamp data sn traceid in
      say ("Programming " +:+ dec_string (Z.of_nat (length data)) +:+ " bytes into the FX2LP EEPROM (SN: "
           +:+ chars (hex14 traceid) +:+ ")") ;~
      on_device (fx2lp_eeprom_upload data) ;~
      say "...done" ;~
      close_usb env ;~
      exit 0
  end.

Definition maint_fpga_program_sram (name : string) : program Z :=
  let~ data := os_file_read_all name in
  say "Uploading FPGA SRAM" ;~
  usb_init env ;~
  open_device env ;~
  on_device (on_fpga (fpga_enable ;~ fpga_program_sram data ;~ fpga_disable)) ;~
  say "...done" ;~
  close_usb env ;~
  exit 0.

Definition maint_fpga_program_flash (name : string) : program Z :=
  let~ data := os_file_read_all name in
  say "Programming FPGA flash" ;~
  usb_init env ;~
  open_device env ;~
  on_device (on_fpga (fpga_enable ;~ fpga_program_flash fuel data ;~ fpga_disable)) ;~
  say "...done" ;~
  close_usb env ;~
  exit 0.

Definition maint_fpga_erase : program Z :=
  say "Erasing FPGA flash" ;~
  usb_init env ;~
  open_device env ;~
  on_device (on_fpga (fpga_enable ;~ fpga_erase_flash fuel ;~ fpga_disable)) ;~
  say "... done" ;~
  close_usb env ;~
  exit 0.

Definition maint_speed_test : program Z :=
  usb_init env ;~
  open_device env ;~
  on_device speed_test_control ;~
  on_usb (fun u => io_ret tt (start_speed_test (clock env) u)) ;~
  usb_data_transfer env ;~
  close_usb env ;~
  exit 0.

Definition missing_device_error (probe : device_kind) : program unit :=
  match probe with
  | Device_None =>
      os_error "no capture device found (gen1 1209:6688 rev 0x0001 / 6666:6620, gen2 1209:6688 rev 0x0602)"
  | Device_Fx2lp_Only =>
      os_error ("only an unconfigured FX2LP (04b4:8613) was found: if this is the gen1 sniffer, "
        +:+ "load the firmware first ('--mcu-sram usb_sniffer.bin' to run, or '--mcu-eeprom' "
        +:+ "to program it permanently); if it is a different FX2LP device, it is not a "
        +:+ "capture device and must be unplugged")
  | Device_Both => os_error "both capture generations are connected; unplug one of them"
  | _ => io_ret tt
  end.

(** The scan of [device_probe], with libusb's errors. *)
Definition probe_bus : program device_kind :=
  if init_result env <? 0 then os_error ("libusb_init(): " +:+ error_text env (init_result env))
  else match bus_list (the_bus env) with
  | inl rc => os_error ("libusb_get_device_list(): " +:+ error_text env rc)
  | inr l => io_ret (device_probe (map fst l))
  end.

Definition run_capture_gen2 (replayed : bool) (g : Options) : program Z := fun p =>
  (p, match gen2 replayed (popts_of g) with
      | Ok (_, code) => Value code
      | Os_error msg => Died ("Error: " +:+ chars msg)
      | No_fuel => Spinning
      end).

Definition run_selected_capture (g : Options) : program Z :=
  if is_given (texts g replay) then run_capture_gen2 true g
  else
    (match texts g extcap_interface with
     | Some name => if decide (name = INTERFACE_NAME) then io_ret tt else os_error ("invalid interface '" +:+ name +:+ "'")
     | None => io_ret tt
     end) ;~
    let~ probe := probe_bus in
    match probe with
    | Device_Gen1 => run_capture_gen1 headers env (capturing g)
    | Device_Gen2 => run_capture_gen2 false g
    | _ => missing_device_error probe ;~ io_ret 1
    end.

(** The maintenance tools, one at most. *)
Definition maintenance (g : Options) : program Z :=
  if flags g test then maint_speed_test
  else match texts g mcu_sram with Some name => maint_mcu_sram name | None =>
       match texts g mcu_eeprom with Some name => maint_mcu_eeprom name | None =>
       match texts g fpga_sram with Some name => maint_fpga_program_sram name | None =>
       match texts g fpga_flash with Some name => maint_fpga_program_flash name | None =>
       if flags g fpga_erase then maint_fpga_erase
       else io_ret 1
       end end end end.

(** [main] after the command line. *)
Definition main_body (g : Options) : program Z :=
  let '(lines, _, handled) := handle_extcap_request g in
  (fun p => io_ret tt (p <| stdout := stdout p ++ lines |>)) ;~
  if handled then io_ret 0
  else if is_given (texts g replay) then run_selected_capture g
  else if capturing g then run_selected_capture g
  else maintenance g.

(** [w] and [d] are the output and the device before anything is opened. *)
Definition main (argv : list string) (w : W) (d : D) : prog W D * answer Z :=
  match parse_command_line build argv g_opt0 with
  | Done g => main_body g (start (popts_of g) w d)
  | Exit code msg =>
      ((start (popts_of g_opt0) w d) <| stdout := if code =? 0 then [msg] else [] |>,
       if code =? 0 then Exited 0 else Died msg)
  | Crash => (start (popts_of g_opt0) w d, Undefined)
  end.
End Program.

(** ** Which devices the program opens *)

Section Opens.
Context {W D : Type} (d0 : D) (P : descriptor -> Prop).
Implicit Type p : prog W D.

(** Nothing opened and nothing touched; or one device opened, of the class [P]. *)
Definition untouched p : Prop := opened p = [] /\ Gen1Session.g_usb_handle p = None /\ device p = d0.
Definition one_opened p : Prop := exists desc, P desc /\ opened p = [desc].
Definition fine p : Prop := untouched p \/ one_opened p.

(** Steps before the device is opened, steps that may open it, and steps that open nothing. *)
Definition before {A} (m : io (prog W D) A) : Prop := forall p, untouched p -> untouched (m p).1.
Definition opening {A} (m : io (prog W D) A) : Prop := forall p, untouched p -> fine (m p).1.
Definition steady {A} (m : io (prog W D) A) : Prop := before m /\ forall p, one_opened p -> one_opened (m p).1.

Lemma bind_end {S A B} (Q R : S -> Prop) (m : io S A) (f : A -> io S B) (s : S) :
  Q (m s).1 -> (forall q, Q q -> R q) -> (forall a q, Q q -> R (f a q).1) -> R (io_bind m f s).1.
Proof. unfold io_bind. intros Hm Hq Hf. destruct (m s) as [q [a|msg| | |code]]; cbn in *; auto. Qed.

Lemma before_bind {A B} (m : io _ A) (f : A -> io _ B) : before m -> (forall a, before (f a)) -> before (io_bind m f).
Proof. intros Hm Hf p Hp. eapply bind_end; [apply Hm, Hp|auto|]. intros a q Hq. by apply Hf. Qed.
Lemma steady_bind {A B} (m : io _ A) (f : A -> io _ B) : steady m -> (forall a, steady (f a)) -> steady (io_bind m f).
Proof.
  intros [Hm1 Hm2] Hf. split; [apply before_bind; [done|]; intros a; apply Hf|].
  intros p Hp. eapply bind_end; [apply Hm2, Hp|auto|]. intros a q Hq. by apply Hf.
Qed.
Lemma opening_after {A B} (m : io _ A) (f : A -> io _ B) : steady m -> (forall a, opening (f a)) -> opening (io_bind m f).
Proof. intros [Hm _] Hf p Hp. eapply bind_end; [apply Hm, Hp|by left|]. intros a q Hq. by apply Hf. Qed.
Lemma opening_bind {A B} (m : io _ A) (f : A -> io _ B) : opening m -> (forall a, steady (f a)) -> opening (io_bind m f).
Proof.
  intros Hm Hf p Hp. eapply bind_end; [apply Hm, Hp|auto|]. intros a q [Hq|Hq]; [left|right]; by apply Hf.
Qed.
Lemma steady_opening {A} (m : io _ A) : steady m -> opening m.
Proof. intros [Hm _] p Hp. left. by apply Hm. Qed.

Lemma steady_ret {A} (a : A) : steady (io_ret a).
Proof. split; intros p Hp; exact Hp. Qed.
Lemma steady_error {A} msg : steady (os_error (A := A) msg).
Proof. split; intros p Hp; exact Hp. Qed.
Lemma steady_check b msg : steady (os_check b msg).
Proof. unfold os_check. destruct b; split; intros p Hp; exact Hp. Qed.
Lemma steady_answer {A} (r : answer A) : steady (of_answer r).
Proof. split; intros p Hp; exact Hp. Qed.
Lemma steady_exit {A} code : steady (exit (A := A) code).
Proof. split; intros p Hp; exact Hp. Qed.
Lemma steady_say line : steady (say line).
Proof. split; intros p Hp; exact Hp. Qed.
Lemma steady_print lines : steady (fun p => io_ret tt (p <| stdout := stdout p ++ lines |>)).
Proof. split; intros p Hp; exact Hp. Qed.
Lemma steady_on_usb {A} (m : io _ A) : steady (on_usb m).
Proof. split; intros p Hp; unfold on_usb; destruct (m (usb p)); exact Hp. Qed.
Lemma steady_on_device_at {A} (m : prog W D -> io D A) : steady (fun p => on_device (m p) p).
Proof.
  split; intros p Hp; unfold on_device.
  - pose proof Hp as (_ & -> & _). exact Hp.
  - destruct (Gen1Session.g_usb_handle p); [destruct (m p (device p))|]; exact Hp.
Qed.
Lemma steady_on_device {A} (m : io D A) : steady (on_device m).
Proof. apply (steady_on_device_at (fun _ => m)). Qed.
Lemma steady_file files name : steady (os_file_read_all files name).
Proof. unfold os_file_read_all. destruct (files name); split; intros p Hp; exact Hp. Qed.
Lemma steady_init (env : surroundings D) : steady (usb_init env).
Proof. unfold usb_init. destruct (init_result env <? 0); split; intros p Hp; exact Hp. Qed.
Lemma steady_close `{Gen1Out W} (env : surroundings D) : steady (close_usb env).
Proof.
  split; intros p Hp; unfold close_usb.
  - pose proof Hp as (_ & -> & _). exact Hp.
  - destruct (Gen1Session.g_usb_handle p); [|done].
    eapply bind_end; [apply (proj2 (steady_on_usb _)), Hp|auto|]. intros [] q (desc & Hdesc & Eo). by exists desc.
Qed.
Lemma opening_hold env desc : P desc -> opening (hold env desc).
Proof. intros Hp p (Ho & _). right. exists desc. split; [done|]. cbn. by rewrite Ho. Qed.

Lemma usb_open_class vid pid bcd b d : usb_open vid pid bcd b = Value (Some d) -> wanted vid pid bcd d = true.
Proof.
  unfold usb_open. destruct (bus_list b) as [rc|l]; [done|]. pose proof (open_first_spec vid pid bcd l) as Ho.
  destruct (open_first vid pid bcd l) as [d'|]; [|done]. destruct (bus_claim b d' <? 0); [done|]. intros [= <-]. apply Ho.
Qed.

Lemma open_capture_device_class b d : open_capture_device b = Value d -> gen1_dev d = true.
Proof.
  unfold open_capture_device. pose proof (usb_open_class GEN1_VID GEN1_PID GEN1_BCD b) as H1.
  pose proof (usb_open_class GEN1_VID_LEGACY GEN1_PID_LEGACY 0 b) as H2.
  destruct (usb_open GEN1_VID _ _ b) as [[d1|]| | | |]; cbn [ans_bind]; try done.
  - intros [= <-]. apply gen1_dev_cases. left. rewrite <- wanted_current. by apply H1.
  - destruct (usb_open GEN1_VID_LEGACY _ _ b) as [[d2|]| | | |]; cbn [ans_bind]; try done.
    intros [= <-]. apply gen1_dev_cases. right. rewrite <- wanted_legacy. by apply H2.
Qed.

Lemma opening_capture_device (env : surroundings D) :
  (forall desc, gen1_dev desc = true -> P desc) -> opening (open_device env).
Proof.
  intros Hg p Hp. unfold open_device, io_bind, of_answer.
  pose proof (open_capture_device_class (the_bus env)) as Hc.
  destruct (open_capture_device (the_bus env)) as [d| | | |]; try (by left).
  apply opening_hold; [|done]. by apply Hg, Hc.
Qed.

Lemma opening_fx2lp (env : surroundings D) : (forall desc, fx2lp_dev desc = true -> P desc) -> opening (open_fx2lp env).
Proof.
  intros Hg p Hp. unfold open_fx2lp, io_bind, of_answer.
  pose proof (usb_open_class FX2LP_VID FX2LP_PID 0 (the_bus env)) as Hc.
  destruct (usb_open FX2LP_VID _ _ _) as [[d|]| | | |]; try (by left).
  apply opening_hold; [|done]. apply Hg. specialize (Hc d eq_refl). unfold wanted in Hc.
  apply andb_true_iff in Hc as [Hc _]. exact Hc.
Qed.
End Opens.

(** Steps that open nothing. *)
#[export] Hint Resolve steady_ret steady_error steady_check steady_answer steady_exit steady_say steady_print
  steady_on_usb steady_on_device steady_on_device_at steady_file steady_init steady_close : steady.
Ltac steady_all :=
  repeat first
    [ solve [auto with steady nocore]
    | apply steady_bind; [|intros ?]
    | match goal with |- steady _ _ (match ?x with _ => _ end) => destruct x end
    | progress cbv zeta ].

Section Main.
Context {W D G : Type} `{Gen1Out W, ControlPipe D, Sleeps D}.
Context (headers : Z -> W -> option W) (env : surroundings D) (files : string -> string + list Z).
Context (build : string) (gen2 : bool -> packet_opts -> res (G * Z)) (fuel : nat) (d0 : D).

(** The device a run may open: while capturing one of the first generation, and only where the
    bus has that generation alone; for the tools a device of the kind they are for. *)
Definition may_open (g : Options) (desc : descriptor) : Prop :=
  texts g replay = None
  /\ if capturing g then
       gen1_dev desc = true /\ exists l, bus_list (the_bus env) = inr l /\ device_probe (map fst l) = Device_Gen1
     else if flags g test then gen1_dev desc = true
     else if is_given (texts g mcu_sram) then fx2lp_dev desc = true
     else gen1_dev desc = true.

Lemma gen1_opening P asked :
  (forall desc, gen1_dev desc = true -> P desc) -> opening d0 P (run_capture_gen1 (W := W) headers env asked).
Proof.
  intros HP. unfold run_capture_gen1, capture_start. apply opening_after; [apply steady_init|intros _].
  apply opening_bind; [|intros ?; steady_all].
  destruct (negb asked); [apply steady_opening; steady_all|].
  apply opening_after; [apply steady_check|intros _].
  apply opening_bind; [by apply opening_capture_device|intros _]. unfold usb_data_transfer. steady_all.
Qed.

Lemma tool_opening {A} P (m : io (prog W D) A) (k : A -> io (prog W D) Z) :
  opening d0 P m -> (forall a, steady d0 P (k a)) -> opening d0 P (usb_init env ;~ io_bind m k).
Proof. intros Hm Hk. apply opening_after; [apply steady_init|intros _]. by apply opening_bind. Qed.

Lemma maintenance_opening P g :
  (forall desc, (if flags g test then gen1_dev desc = true
                 else if is_given (texts g mcu_sram) then fx2lp_dev desc = true else gen1_dev desc = true) -> P desc) ->
  opening d0 P (maintenance env files fuel g).
Proof.
  intros HP. unfold maintenance. destruct (flags g test).
  { unfold maint_speed_test. apply tool_opening; [by apply opening_capture_device|intros _].
    unfold usb_data_transfer. steady_all. }
  destruct (texts g mcu_sram) as [name|]; cbn [is_given] in HP.
  { unfold maint_mcu_sram. apply tool_opening; [by apply opening_fx2lp|intros _]. steady_all. }
  destruct (texts g mcu_eeprom) as [name|].
  { unfold maint_mcu_eeprom. apply tool_opening; [by apply opening_capture_device|intros _]. steady_all. }
  destruct (texts g fpga_sram) as [name|]; [|destruct (texts g fpga_flash) as [name|]; [|destruct (flags g fpga_erase)]].
  - unfold maint_fpga_program_sram. apply opening_after; [apply steady_file|intros data].
    apply opening_after; [apply steady_say|intros _]. apply tool_opening; [by apply opening_capture_device|intros _]. steady_all.
  - unfold maint_fpga_program_flash. apply opening_after; [apply steady_file|intros data].
    apply opening_after; [apply steady_say|intros _]. apply tool_opening; [by apply opening_capture_device|intros _]. steady_all.
  - unfold maint_fpga_erase. apply opening_after; [apply steady_say|intros _].
    apply tool_opening; [by apply opening_capture_device|intros _]. steady_all.
  - apply steady_opening. steady_all.
Qed.

Lemma gen2_steady P replayed g : steady d0 P (run_capture_gen2 (W := W) gen2 replayed g).
Proof. split; intros p Hp; exact Hp. Qed.

Lemma probe_steady P : steady d0 P (probe_bus (W := W) env).
Proof. unfold probe_bus. destruct (_ <? 0); [|destruct (bus_list _)]; steady_all. Qed.

Lemma probe_value p p' k :
  probe_bus (W := W) env p = (p', Value k) -> p' = p /\ exists l, bus_list (the_bus env) = inr l /\ device_probe (map fst l) = k.
Proof.
  unfold probe_bus. destruct (_ <? 0); [done|]. destruct (bus_list _) as [rc|l]; [done|]. intros [= <- <-]. split; [done|]. by exists l.
Qed.

Lemma selected_opening (P : descriptor -> Prop) g :
  texts g replay = None ->
  (forall l desc, bus_list (the_bus env) = inr l -> device_probe (map fst l) = Device_Gen1 -> gen1_dev desc = true -> P desc) ->
  opening d0 P (run_selected_capture headers env gen2 g).
Proof.
  intros Hr HP. unfold run_selected_capture. rewrite Hr. cbn [is_given].
  apply opening_after; [steady_all|intros _]. intros p Hp. unfold io_bind at 1.
  destruct (probe_bus env p) as [p1 [k|msg| | |code]] eqn:Ep;
    try (pose proof (proj1 (probe_steady P) p Hp) as Hs; rewrite Ep in Hs; by left).
  apply probe_value in Ep as [-> (l & El & Ek)].
  assert (Hm : forall k, opening d0 P (missing_device_error (W := W) (D := D) k ;~ io_ret 1)).
  { intros k'. apply steady_opening, steady_bind; [|intros _; steady_all]. unfold missing_device_error. steady_all. }
  destruct k; try by apply Hm.
  - apply gen1_opening; [|done]. intros desc Hd. by apply (HP l desc).
  - apply (steady_opening d0 P), Hp. apply gen2_steady.
Qed.

End Main.


(** ** Runs of the program *)

Section Demo.
#[local] Instance reg_sleeps : Sleeps capture_reg := fun _ d => d.

Definition run_main (l : list descriptor) (argv : list string) : prog (list record) capture_reg * answer Z :=
  let env := mk_surroundings 0 (mk_bus (inr (map (fun d => (Some d, 0)) l)) (fun _ => 0) (fun _ => EmptyString))
               (fun _ => mk_reg 0 []) true (turns demo_env) [] 0 in
  main (fun _ w => Some w) env (fun _ => inl "No such file or directory"%string) "today"%string
    (fun _ _ => Ok (tt, 7)) 0 argv [] (mk_reg 0 []).

Definition capture_line : list string := ["usb_sniffer"; "--capture"; "--fifo"; "out"]%string.
Definition gen2_desc : descriptor := mk_desc 0x1209 0x6688 0x0602.

(** One generation on the bus, the other, both, and none. *)
Example main_gen1 : (snd (run_main [demo_dev] capture_line), opened (fst (run_main [demo_dev] capture_line))) = (Value 0, [demo_dev]).
Proof. vm_compute. reflexivity. Qed.
Example main_gen2 : (snd (run_main [gen2_desc] capture_line), opened (fst (run_main [gen2_desc] capture_line))) = (Value 7, []).
Proof. vm_compute. reflexivity. Qed.
Example main_both :
  snd (run_main [demo_dev; gen2_desc] capture_line)
  = Died "Error: both capture generations are connected; unplug one of them"
  /\ opened (fst (run_main [demo_dev; gen2_desc] capture_line)) = [].
Proof. vm_compute. auto. Qed.

(** The serial number is 14 characters for a placeholder of 14, and [sprintf] writes one
    byte more: the byte of the firmware behind the placeholder is lost. *)
Example stamp_overruns :
  stamp (SN_PLACEHOLDER ++ [0x41]) 0 0x20250616 = cstr "00000020250616" ++ [0].
Proof. vm_compute. reflexivity. Qed.
End Demo.
