(* ===== verification/BlockReader.v ===== *)
(** * The capture tools' block reader (src/tools/usbcap.c)

    [usbcap] and [usbcap_fast] carry a parser of their own for the upstream blocks, next to
    the one of the plugin (stream.c).  It is shown to deliver the same payloads and ACKs as
    the plugin's on every byte string, however the bytes are cut into transfers, inside its
    buffer.  The words of a header are copied on a little-endian host. *)

From S2P Require Import Prelude Uhsif Stream Cmd.
Local Open Scope list_scope.

Definition CMD_MAGIC : Z := 0xC7F3.
Definition BLK_MAGIC : Z := 0x6CC6.
Definition URB_SIZE_MAX : Z := 4 * 1024 * 1024.

(** [sizeof (pbuf)]. *)
Definition PBUF_SIZE : Z := 2 * URB_SIZE_MAX + 64.

(** The inner loop's body. *)
Definition crc16_bit (crc : Z) : Z :=
  if has crc 0x8000 then u16 (Z.lxor (Z.shiftl crc 1) 0x1021) else u16 (Z.shiftl crc 1).

Definition crc16 (w : list Z) : Z :=
  fold_left (fun crc i =>
    let wv := w !!! Z.to_nat (Z.shiftr i 2) in
    let crc := u16 (Z.lxor crc (u16 (Z.shiftl (Z.land (Z.shiftr wv (Z.land i 3 * 8)) 0xFF) 8))) in
    Nat.iter 8 crc16_bit crc)
    (seqZ 0 12) 0xFFFF.

Definition build_cmd (seq cid param : Z) : list Z :=
  let w := [Z.lor (Z.shiftl (Z.land seq 0xFF) 8) (Z.land cid 0xFF); param; 0] in
  let w0 := Z.lor (Z.shiftl (crc16 w) 16) CMD_MAGIC in
  concat (map uhsif_put_le32 (w0 :: w)).

(** ** The parser

    [pbuf] holds the live bytes, [plen_buf] of them, of a buffer of [PBUF_SIZE]; the client's
    state takes the payloads. *)
Record parser (X : Type) := mk_parser {
  pbuf : list Z;
  aligned : bool;
  last_seq : Z;
  bytes_payload : Z;
  blocks : Z;
  acks : Z;
  hdr_errors : Z;
  seq_jumps : Z;
  sunk : X;
}.
Arguments mk_parser {X}. Arguments pbuf {X}. Arguments aligned {X}. Arguments last_seq {X}.
Arguments bytes_payload {X}. Arguments blocks {X}. Arguments acks {X}. Arguments hdr_errors {X}.
Arguments seq_jumps {X}. Arguments sunk {X}.
#[export] Instance parser_settable X : Settable (parser X) := fun c =>
  mk_parser (pbuf c) (aligned c) (last_seq c) (bytes_payload c) (blocks c) (acks c)
    (hdr_errors c) (seq_jumps c) (sunk c).

Definition parser_new {X} (x : X) : parser X := mk_parser [] false (-1) 0 0 0 0 0 x.

(** The loop over [i]: how far the next magic is, or the last byte. *)
Fixpoint scan (l : list Z) : nat :=
  match l with
  | a :: (b :: _) as l' => if (a =? 0xC6) && (b =? 0x6C) then 0 else S (scan l')
  | _ => 0
  end.

Section Parser.
(** What is done with a payload. *)
Context {X : Type} (deliver : list Z -> X -> X).
Implicit Type c : parser X.

(** The sequence number of a complete block. *)
Definition note_seq c (seq : Z) : parser X :=
  let c := if (0 <=? last_seq c) && negb (seq =? Z.land (last_seq c + 1) 0xFF)
           then c <| seq_jumps := u32 (seq_jumps c + 1) |> else c in
  c <| last_seq := seq |>.

(** A complete block at [off]. *)
Definition take_block c (off : nat) (plen : Z) : parser X :=
  if plen =? 0 then c <| acks := u32 (acks c + 1) |>
  else
    let n := (4 * Z.to_nat plen)%nat in
    c <| blocks := u32 (blocks c + 1) |> <| bytes_payload := u64 (bytes_payload c + Z.of_nat n) |>
      <| sunk := deliver (take n (drop (off + 16) (pbuf c))) (sunk c) |>.

(** A turn of the loop from the point where a header stands at [off]. *)
Definition parse_header c (off : nat) : (parser X * nat) + (parser X * nat) :=
  let hdr := drop off (pbuf c) in
  let w0 := uhsif_le32 hdr in
  let w1 := uhsif_le32 (drop 4 hdr) in
  let w2 := uhsif_le32 (drop 8 hdr) in
  let w3 := uhsif_le32 (drop 12 hdr) in
  let plen := Z.land (Z.shiftr w3 12) 0xFFF in
  let seq := Z.land (Z.shiftr w3 24) 0xFF in
  let ok := (Z.land w0 0xFFFF =? BLK_MAGIC) && (Z.shiftr w0 16 =? crc16 [w1; w2; w3])
            && (Z.land w1 0xFFFFF000 =? 0) && ((plen =? 0) || ((1 <=? plen) && (plen <=? 4092))) in
  if negb ok then inl (c <| hdr_errors := u32 (hdr_errors c + 1) |> <| aligned := false |>, S off)
  else
    let c := c <| aligned := true |> in
    let total := (16 + 4 * Z.to_nat plen)%nat in
    if (length (pbuf c) - off <? total)%nat then inr (c, off)
    else inl (take_block (note_seq c seq) off plen, (off + total)%nat).

(** A turn of the loop: on with the next offset, or out of the loop. *)
Definition parse_round c (off : nat) : (parser X * nat) + (parser X * nat) :=
  let plen_buf := length (pbuf c) in
  if negb (aligned c) then
    let i := (off + scan (drop off (pbuf c)))%nat in
    if (plen_buf <=? i + 1)%nat then inr (c, if (0 <? plen_buf)%nat then (plen_buf - 1)%nat else 0%nat)
    else if (plen_buf - i <? 16)%nat then inr (c, i)
    else parse_header c i
  else if (plen_buf - off <? 16)%nat then inr (c, off)
  else parse_header c off.

Fixpoint parse_loop (fuel : nat) c (off : nat) : option (parser X * nat) :=
  match fuel with
  | O => None
  | S fuel =>
      match parse_round c off with
      | inl (c, off) => parse_loop fuel c off
      | inr r => Some r
      end
  end.

(** [None] is a copy beyond the buffer, or fuel used up. *)
Definition parse_push c (data : list Z) : option (parser X) :=
  if PBUF_SIZE <? Z.of_nat (length (pbuf c) + length data) then None
  else
    let c := c <| pbuf := pbuf c ++ data |> in
    '(c, off) ← parse_loop (S (length (pbuf c))) c 0;
    Some (c <| pbuf := drop off (pbuf c) |>).

Fixpoint push_all c (chunks : list (list Z)) : option (parser X) :=
  match chunks with
  | [] => Some c
  | d :: chunks => c ← parse_push c d; push_all c chunks
  end.
End Parser.

(** ** The tools' arithmetic is the plugin's *)

Lemma land_FF_byte b : byte_ok (Z.land b 0xFF).
Proof. change 0xFF with (Z.ones 8). rewrite Z.land_ones by lia. apply Z.mod_pos_bound. lia. Qed.

Lemma crc16_bit_uhsif n crc : Nat.iter n crc16_bit crc = Nat.iter n crc_bit crc.
Proof.
  induction n as [|n IH]; [done|]. cbn [Nat.iter]. change (crc16_bit (Nat.iter n crc16_bit crc) = crc_bit (Nat.iter n crc_bit crc)). rewrite IH. unfold crc16_bit, crc_bit.
  destruct (has _ 0x8000); [|done]. by rewrite (u16_small (u16 _)) by apply u16_range.
Qed.

Lemma crc16_uhsif w1 w2 w3 : crc16 [w1; w2; w3] = uhsif_hdr_crc16 w1 w2 w3.
Proof.
  unfold crc16, uhsif_hdr_crc16.
  assert (Hl : Forall (fun i => 0 <= i < 12) (seqZ 0 12)) by (apply Forall_seqZ; lia).
  generalize 0xFFFF as crc. induction Hl as [|i l Hi Hl IH]; intros crc; [done|]. cbn [fold_left]. rewrite IH. f_equal.
  unfold crc_byte, hdr_byte.
  assert (Ew : [w1; w2; w3] !!! Z.to_nat (Z.shiftr i 2) = if i <? 4 then w1 else if i <? 8 then w2 else w3).
  { rewrite Z.shiftr_div_pow2 by lia. change (2 ^ 2) with 4.
    assert (i / 4 = 0 /\ i < 4 \/ i / 4 = 1 /\ 4 <= i < 8 \/ i / 4 = 2 /\ 8 <= i) as Hq by (pose proof (Z.div_mod i 4); pose proof (Z.mod_pos_bound i 4); lia).
    destruct Hq as [[-> ?]|[[-> ?]|[-> ?]]];
      destruct (Z.ltb_spec i 4), (Z.ltb_spec i 8); done || lia. }
  rewrite Ew. set (b := Z.land (Z.shiftr _ _) 0xFF).
  assert (Hb : byte_ok b) by apply land_FF_byte. clearbody b.
  rewrite (u16_small b), (u16_small (Z.shiftl b 8)) by (rewrite ?Z.shiftl_mul_pow2 by lia; lia).
  apply crc16_bit_uhsif.
Qed.

Lemma land_FF_u8 z : Z.land z 0xFF = u8 z.
Proof. change 0xFF with (Z.ones 8). by rewrite Z.land_ones by lia. Qed.

(** A command of the tools is a command of the plugin. *)
Lemma build_cmd_packet c cid param : byte_ok (Cmd.seq c) -> byte_ok cid -> build_cmd (Cmd.seq c) cid param = build_packet c cid param.
Proof.
  intros Hs Hc. unfold build_cmd, build_packet. rewrite crc16_uhsif, !land_FF_u8, !u8_small by done.
  cbn [map concat]. by rewrite app_nil_r.
Qed.

(** ** What the bytes hold *)

(** The payloads and ACKs in a byte string, by the plugin's reference parser. *)
Definition heard (e : stream_event) : bool := match e with EvRsync => false | _ => true end.
Definition items (l : list Z) : list stream_event := List.filter heard (parse STREAM_SCAN None l).

Lemma filter_app_heard l k : List.filter heard (l ++ k) = List.filter heard l ++ List.filter heard k.
Proof. apply List.filter_app. Qed.

Lemma bad_block sq l : look_block l = Bad -> List.filter heard (parse STREAM_BLOCK sq l) = items l.
Proof. intros E. rewrite parse_unfold, E. done. Qed.

Lemma heard_any n m sq m' sq' l :
  (weight m l + weight m' l < n)%nat -> List.filter heard (parse m sq l) = List.filter heard (parse m' sq' l).
Proof.
  revert m sq m' sq' l. induction n as [|n IH]; intros m sq m' sq' l Hn; [lia|]. unfold weight in *.
  destruct (look_block l) as [| |k] eqn:E.
  - by rewrite (parse_unfold m), (parse_unfold m'), E.
  - destruct m; [destruct m'|].
    + rewrite (parse_unfold _ sq), (parse_unfold _ sq'), E. apply look_block_Bad in E as [Hl _].
      destruct l; cbn [length tail] in *; [lia|]. apply IH; lia.
    + rewrite (bad_block sq') by done. apply IH; lia.
    + rewrite (bad_block sq) by done. apply IH; lia.
  - rewrite (parse_unfold m), (parse_unfold m'), E. rewrite !filter_app_heard. f_equal.
    unfold block_events. rewrite !filter_app_heard. f_equal. by repeat case_match.
Qed.

Lemma items_any m sq l : List.filter heard (parse m sq l) = items l.
Proof. unfold items. eapply heard_any. apply Nat.lt_succ_diag_r. Qed.

(** The item of a block of [n] payload words. *)
Definition item (l : list Z) (n : Z) : stream_event :=
  if n =? 0 then EvAck else EvData (take (4 * Z.to_nat n) (drop 16 l)).

Lemma items_unfold l :
  items l = match look_block l with
            | Short => []
            | Bad => items (tail l)
            | Full n => item l n :: items (drop (block_span n) l)
            end.
Proof.
  unfold items at 1. rewrite parse_unfold. destruct (look_block l) as [| |n]; [done|done|].
  rewrite filter_app_heard, items_any. unfold block_events, item. cbn [app List.filter].
  by destruct (n =? 0).
Qed.

(** A header starts with the two bytes of the magic. *)
Lemma header_bytes a b r n :
  (14 <= length r)%nat -> byte_ok a -> byte_ok b -> bytes_ok r -> header_valid (a :: b :: r) = Some n -> a = 0xC6 /\ b = 0x6C.
Proof.
  intros Hl Ha Hb Hr Hv%header_valid_magic. destruct r as [|c [|d r]]; cbn in Hl; [lia|lia|].
  apply Forall_cons_1 in Hr as [Hc [Hd Hr]%Forall_cons_1]. rewrite le32_sum in Hv by done.
  unfold u16, UHSIF_BLK_MAGIC16 in Hv.
  replace (a + b * 256 + c * 65536 + d * 16777216) with (a + b * 256 + (c + d * 256) * 65536) in Hv by ring.
  rewrite Z.mod_add, Z.mod_small in Hv by lia. lia.
Qed.

(** Without the magic no block starts here. *)
Lemma items_skip a b r :
  bytes_ok (a :: b :: r) -> (a =? 0xC6) && (b =? 0x6C) = false -> items (a :: b :: r) = items (b :: r).
Proof.
  intros [Ha [Hb Hr]%Forall_cons_1]%Forall_cons_1 Hm. rewrite items_unfold.
  assert (Hv : (14 <= length r)%nat -> header_valid (a :: b :: r) = None).
  { intros Hl. destruct (header_valid _) as [n|] eqn:E; [|done].
    apply header_bytes in E as [-> ->]; [|done..]. discriminate Hm. }
  unfold look_block, UHSIF_ACK_SIZE. destruct (Nat.ltb_spec (length (a :: b :: r)) 16) as [Hl|Hl]; cbn [length] in Hl.
  - rewrite items_unfold. unfold look_block, UHSIF_ACK_SIZE. by destruct (Nat.ltb_spec (length (b :: r)) 16); cbn [length] in *; [|lia].
  - by rewrite Hv by lia.
Qed.

Lemma items_short l : (length l < 16)%nat -> items l = [].
Proof. intros Hl. rewrite items_unfold. unfold look_block, UHSIF_ACK_SIZE. by destruct (Nat.ltb_spec (length l) 16); [|lia]. Qed.

(** Up to the next magic there is nothing to hear, whatever follows. *)
Lemma scan_lt l : l <> [] -> (scan l < length l)%nat.
Proof.
  induction l as [|a l IH]; intros Hl; [done|]. cbn [scan length]. destruct l as [|b l]; [lia|].
  destruct (_ && _); [lia|]. specialize (IH ltac:(done)). cbn [length] in *. lia.
Qed.

Lemma scan_items l y : bytes_ok l -> bytes_ok y -> items (l ++ y) = items (drop (scan l) l ++ y).
Proof.
  intros Hl Hy. induction l as [|a l IH]; [done|]. cbn [scan]. destruct l as [|b l]; [done|].
  destruct (_ && _) eqn:E; [done|]. apply Forall_cons_1 in Hl as [Ha Hl]. cbn [drop]. rewrite <- IH by done.
  cbn [app]. apply items_skip; [|done]. apply Forall_cons_2; [done|]. change (bytes_ok ((b :: l) ++ y)). by apply bytes_ok_app.
Qed.

Lemma tail_drop {A} n (l : list A) : tail (drop n l) = drop (S n) l.
Proof. revert l. induction n as [|n IH]; intros [|x l]; done || apply IH. Qed.

(** What a parser has heard. *)
Section Tally.
Context {X : Type} (deliver : list Z -> X -> X).
Implicit Type c : parser X.

Record tally := mk_tally { t_bytes : Z; t_blocks : Z; t_acks : Z; t_sunk : X }.
Definition tally_of c : tally := mk_tally (bytes_payload c) (blocks c) (acks c) (sunk c).
Definition count (t : tally) (e : stream_event) : tally :=
  match e with
  | EvAck => mk_tally (t_bytes t) (t_blocks t) (u32 (t_acks t + 1)) (t_sunk t)
  | EvData d => mk_tally (u64 (t_bytes t + Z.of_nat (length d))) (u32 (t_blocks t + 1)) (t_acks t) (deliver d (t_sunk t))
  | EvRsync => t
  end.

Lemma take_block_spec c seq off plen :
  0 <= plen -> (block_span plen <= length (drop off (pbuf c)))%nat ->
  pbuf (take_block deliver (note_seq c seq) off plen) = pbuf c
  /\ aligned (take_block deliver (note_seq c seq) off plen) = aligned c
  /\ tally_of (take_block deliver (note_seq c seq) off plen) = count (tally_of c) (item (drop off (pbuf c)) plen).
Proof.
  intros Hn Hl.
  assert (Hs : pbuf (note_seq c seq) = pbuf c /\ aligned (note_seq c seq) = aligned c /\ tally_of (note_seq c seq) = tally_of c)
    by (unfold note_seq; by destruct (_ && _)).
  destruct Hs as (Hp & Ha & Ht). generalize dependent (note_seq c seq). intros d Hp Ha Ht.
  unfold take_block, item. destruct (plen =? 0); cbn [pbuf aligned count]; (split; [done|]); (split; [done|]); rewrite <- Ht; [done|].
  rewrite Hp, drop_drop. cbn [count]. rewrite length_take, length_drop, Nat.min_l; [done|].
  rewrite length_drop in Hl. unfold block_span, UHSIF_ACK_SIZE in Hl. lia.
Qed.

(** The header of a block at [off]. *)
Lemma parse_header_spec c off :
  bytes_ok (pbuf c) -> (off + 16 <= length (pbuf c))%nat ->
  let l := drop off (pbuf c) in
  match parse_header deliver c off with
  | inl (c', off') =>
      (off < off' <= length (pbuf c))%nat /\ pbuf c' = pbuf c /\ (aligned c' = false -> off' < length (pbuf c))%nat
      /\ exists es, tally_of c' = fold_left count es (tally_of c)
         /\ forall y, items (l ++ y) = es ++ items (drop off' (pbuf c) ++ y)
  | inr (c', off') =>
      off' = off /\ pbuf c' = pbuf c /\ tally_of c' = tally_of c
      /\ items l = [] /\ (length l < UHSIF_BLK_MAX_SIZE)%nat
  end.
Proof.
  intros Hb Hoff l. unfold parse_header. fold l.
  set (plen := Z.land (Z.shiftr (uhsif_le32 (drop 12 l)) 12) 0xFFF).
  cbv zeta. match goal with |- context [negb ?b] => set (ok := b) end.
  assert (Hok : header_valid l = if ok then Some plen else None).
  { unfold header_valid, uhsif_blk_hdr_ok, ok. fold plen. rewrite crc16_uhsif.
    change 0xFFFF with (Z.ones 16). rewrite Z.land_ones by lia. change (2 ^ 16) with 65536. fold (u16 (uhsif_le32 l)).
    change BLK_MAGIC with UHSIF_BLK_MAGIC16. unfold has, UHSIF_MIN_PAYLOAD_WORDS, UHSIF_MAX_PAYLOAD_WORDS.
    repeat destruct (_ =? _); destruct (1 <=? plen), (plen <=? 4092); reflexivity. }
  assert (Hlen : (16 <= length l)%nat) by (unfold l; rewrite length_drop; lia).
  destruct ok; cbn [negb].
  - pose proof (header_valid_range _ _ Hok) as Hr.
    assert (Hspan : (16 + 4 * Z.to_nat plen)%nat = block_span plen) by done. rewrite Hspan.
    set (c1 := c <| aligned := true |>). change (pbuf c1) with (pbuf c). rewrite <- length_drop. fold l.
    pose proof (block_span_le _ _ Hok) as Hmax. pose proof (block_span_ge plen) as Hge.
    assert (Hlook : look_block l = if (length l <? block_span plen)%nat then Short else Full plen).
    { unfold look_block, UHSIF_ACK_SIZE. rewrite Hok. by destruct (Nat.ltb_spec (length l) 16); [lia|]. }
    destruct (Nat.ltb_spec (length l) (block_span plen)) as [Hs|Hs].
    + split_and!; try done; [|lia]. by rewrite items_unfold, Hlook.
    + destruct (take_block_spec c1 (Z.land (Z.shiftr (uhsif_le32 (drop 12 l)) 24) 0xFF) off plen ltac:(lia) Hs) as (Hp & Ha & Ht).
      split; [unfold l in Hs; rewrite length_drop in Hs; lia|]. split; [exact Hp|]. split; [by rewrite Ha|]. exists [item l plen]. split; [exact Ht|].
      intros y. rewrite items_unfold.
      assert (look_block (l ++ y) = Full plen) as ->.
      { apply look_block_Full. rewrite header_valid_app, length_app by done. split; [done|lia]. }
      cbn [app]. f_equal; [|rewrite drop_app_le by done; unfold l; by rewrite drop_drop].
      unfold item. destruct (plen =? 0); [done|]. f_equal. unfold block_span, UHSIF_ACK_SIZE in Hs.
      rewrite drop_app_le, take_app_le by (rewrite ?length_drop; lia). done.
  - split; [lia|]. split; [done|]. split; [intros _; lia|]. exists []. split; [done|]. intros y. rewrite items_unfold.
    assert (look_block (l ++ y) = Bad) as ->.
    { apply look_block_Bad. rewrite length_app. split; [lia|]. by rewrite header_valid_app. }
    replace (drop (S off) (pbuf c)) with (tail l) by apply tail_drop.
    by destruct l; [cbn in Hlen; lia|].
Qed.

Definition going c (off : nat) : Prop :=
  bytes_ok (pbuf c) /\ (off <= length (pbuf c))%nat
  /\ (aligned c = false -> (off < length (pbuf c))%nat \/ length (pbuf c) = 0%nat).

Lemma parse_round_spec c off :
  going c off ->
  let l := drop off (pbuf c) in
  match parse_round deliver c off with
  | inl (c', off') =>
      (off < off')%nat /\ going c' off' /\ pbuf c' = pbuf c
      /\ exists es, tally_of c' = fold_left count es (tally_of c)
         /\ forall y, bytes_ok y -> items (l ++ y) = es ++ items (drop off' (pbuf c) ++ y)
  | inr (c', off') =>
      pbuf c' = pbuf c /\ tally_of c' = tally_of c
      /\ (forall y, bytes_ok y -> items (l ++ y) = items (drop off' (pbuf c) ++ y))
      /\ items (drop off' (pbuf c)) = [] /\ (length (drop off' (pbuf c)) < UHSIF_BLK_MAX_SIZE)%nat
  end.
Proof.
  intros (Hb & Hoff & Hal) l.
  assert (Hhdr : forall i, (off <= i)%nat -> (i + 16 <= length (pbuf c))%nat ->
    (forall y, bytes_ok y -> items (l ++ y) = items (drop i (pbuf c) ++ y)) ->
    match parse_header deliver c i with
    | inl (c', off') =>
        (off < off')%nat /\ going c' off' /\ pbuf c' = pbuf c
        /\ exists es, tally_of c' = fold_left count es (tally_of c)
           /\ forall y, bytes_ok y -> items (l ++ y) = es ++ items (drop off' (pbuf c) ++ y)
    | inr (c', off') =>
        pbuf c' = pbuf c /\ tally_of c' = tally_of c
        /\ (forall y, bytes_ok y -> items (l ++ y) = items (drop off' (pbuf c) ++ y))
        /\ items (drop off' (pbuf c)) = [] /\ (length (drop off' (pbuf c)) < UHSIF_BLK_MAX_SIZE)%nat
    end).
  { intros i Hi Hl Hskip. pose proof (parse_header_spec c i Hb Hl) as Hs.
    destruct (parse_header deliver c i) as [[c' off']|[c' off']].
    - destruct Hs as (H1 & H2 & H3 & es & H4 & H5). split; [lia|]. split; [|split; [done|]].
      + split_and!; rewrite H2; [done|lia|]. intros Ha. left. by apply H3.
      + exists es. split; [done|]. intros y Hy. rewrite Hskip by done. apply H5.
    - destruct Hs as (-> & H2 & H3 & H4 & H5). by split_and!. }
  assert (Hmax : (16 < UHSIF_BLK_MAX_SIZE)%nat) by (unfold UHSIF_BLK_MAX_SIZE; lia).
  unfold parse_round. destruct (aligned c) eqn:Ha; cbn [negb]; cbv zeta.
  - destruct (Nat.ltb_spec (length (pbuf c) - off) 16) as [Hs|Hs]; [|apply Hhdr; [done|lia|done]].
    split_and!; try done; [apply items_short|]; rewrite length_drop; lia.
  - assert (Hskip : forall y, bytes_ok y -> items (l ++ y) = items (drop (off + scan l) (pbuf c) ++ y)).
    { intros y Hy. rewrite <- drop_drop. fold l. apply scan_items; [|done]. unfold l. by apply bytes_ok_drop. }
    fold l. destruct (Nat.leb_spec (length (pbuf c)) (off + scan l + 1)) as [Hend|Hend].
    + assert (E : (if (0 <? length (pbuf c))%nat then length (pbuf c) - 1 else 0)%nat = (off + scan l)%nat).
      { destruct (Hal eq_refl) as [Hlt|Hz].
        - assert (Hl : l <> []) by (intros El; apply (f_equal length) in El; unfold l in El; rewrite length_drop in El; cbn in El; lia).
          pose proof (scan_lt l Hl) as Hsc. unfold l in Hsc at 2. rewrite length_drop in Hsc.
          destruct (Nat.ltb_spec 0 (length (pbuf c))); lia.
        - assert (El : l = []) by (unfold l; apply nil_length_inv; rewrite length_drop; lia). rewrite El, Hz. cbn. lia. }
      rewrite E. split_and!; try done; [apply items_short|]; rewrite length_drop; lia.
    + destruct (Nat.ltb_spec (length (pbuf c) - (off + scan l)) 16) as [Hs|Hs]; [|apply Hhdr; [lia|lia|done]].
      split_and!; try done; [apply items_short|]; rewrite length_drop; lia.
Qed.

Lemma parse_loop_spec fuel : forall c off,
  going c off -> (length (pbuf c) - off < fuel)%nat ->
  exists c' off' es, parse_loop deliver fuel c off = Some (c', off') /\ pbuf c' = pbuf c
    /\ tally_of c' = fold_left count es (tally_of c)
    /\ (forall y, bytes_ok y -> items (drop off (pbuf c) ++ y) = es ++ items (drop off' (pbuf c) ++ y))
    /\ items (drop off' (pbuf c)) = [] /\ (length (drop off' (pbuf c)) < UHSIF_BLK_MAX_SIZE)%nat.
Proof.
  induction fuel as [|fuel IH]; intros c off Hg Hf; [lia|]. cbn [parse_loop].
  pose proof (parse_round_spec c off Hg) as Hr. destruct (parse_round deliver c off) as [[c1 off1]|[c1 off1]].
  - destruct Hr as (H1 & H2 & H3 & es & H4 & H5).
    destruct (IH c1 off1 H2) as (c2 & off2 & es2 & E & P2 & T2 & I2 & N2 & L2).
    { pose proof (proj1 (proj2 H2)). destruct Hg as (_ & Ho & _). rewrite H3 in *. lia. }
    rewrite H3 in *. exists c2, off2, (es ++ es2). split_and!; try done.
    + by rewrite T2, H4, fold_left_app.
    + intros y Hy. by rewrite H5, I2, app_assoc by done.
  - destruct Hr as (H1 & H2 & H3 & H4 & H5). exists c1, off1, []. by split_and!.
Qed.

(** A parser between two transfers. *)
Definition resting c : Prop := bytes_ok (pbuf c) /\ items (pbuf c) = [] /\ (length (pbuf c) < UHSIF_BLK_MAX_SIZE)%nat.

Lemma parse_push_spec c d :
  resting c -> bytes_ok d -> Z.of_nat (length d) <= URB_SIZE_MAX ->
  exists c' es, parse_push deliver c d = Some c' /\ resting c'
    /\ tally_of c' = fold_left count es (tally_of c)
    /\ forall y, bytes_ok y -> items (pbuf c ++ d ++ y) = es ++ items (pbuf c' ++ y).
Proof.
  intros (Hb & Hn & Hl) Hd Hlen. unfold parse_push.
  destruct (Z.ltb_spec PBUF_SIZE (Z.of_nat (length (pbuf c) + length d))) as [Hbig|_].
  { unfold PBUF_SIZE, URB_SIZE_MAX, UHSIF_BLK_MAX_SIZE in *. lia. }
  cbv zeta. set (c1 := c <| pbuf := pbuf c ++ d |>).
  assert (Hb1 : bytes_ok (pbuf c1)) by by apply bytes_ok_app.
  assert (Hg : going c1 0) by (split_and!; [done|lia|intros _; lia]).
  destruct (parse_loop_spec (S (length (pbuf c1))) c1 0 Hg ltac:(lia)) as (c2 & off & es & -> & P2 & T2 & I2 & N2 & L2).
  cbn [option_bind mbind]. exists (c2 <| pbuf := drop off (pbuf c2) |>), es. split; [done|]. rewrite P2. split; [|split; [done|]].
  - split; [|done]. cbn [pbuf]. by apply bytes_ok_drop.
  - intros y Hy. rewrite drop_0 in I2. rewrite app_assoc. apply (I2 y Hy).
Qed.

Lemma push_all_spec chunks : forall c,
  resting c -> Forall (fun d => bytes_ok d /\ Z.of_nat (length d) <= URB_SIZE_MAX) chunks ->
  exists c', push_all deliver c chunks = Some c' /\ resting c'
    /\ tally_of c' = fold_left count (items (pbuf c ++ concat chunks)) (tally_of c).
Proof.
  assert (Hgen : forall chunks c, resting c ->
    Forall (fun d => bytes_ok d /\ Z.of_nat (length d) <= URB_SIZE_MAX) chunks ->
    exists c' es, push_all deliver c chunks = Some c' /\ resting c' /\ tally_of c' = fold_left count es (tally_of c)
      /\ items (pbuf c ++ concat chunks) = es ++ items (pbuf c')).
  { clear chunks. induction chunks as [|d chunks IH]; intros c Hc Hds.
    - exists c, []. cbn [concat push_all]. by rewrite app_nil_r.
    - apply Forall_cons_1 in Hds as [[Hd Hl] Hds]. cbn [push_all concat].
      destruct (parse_push_spec c d Hc Hd Hl) as (c1 & es & -> & R1 & T1 & I1).
      destruct (IH c1 R1 Hds) as (c2 & es2 & E2 & R2 & T2 & I2). exists c2, (es ++ es2). cbn [mbind option_bind].
      split_and!; try done; [by rewrite T2, T1, fold_left_app|].
      rewrite I1, I2, app_assoc; [done|]. clear - Hds. induction Hds as [|e es [He _] Hes IH]; [apply Forall_nil_2|].
      cbn [concat]. apply bytes_ok_app. by split. }
  intros c Hc Hds. destruct (Hgen chunks c Hc Hds) as (c' & es & E & R & T & I). exists c'. split_and!; try done.
  rewrite I, (proj1 (proj2 R)), app_nil_r. exact T.
Qed.
End Tally.

(** ** In numbers *)

Definition payloads (es : list stream_event) : list (list Z) :=
  omap (fun e => match e with EvData d => Some d | _ => None end) es.
Definition ack_count (es : list stream_event) : nat :=
  length (List.filter (fun e => match e with EvAck => true | _ => false end) es).

Lemma u32_plus a b : u32 (u32 a + b) = u32 (a + b).
Proof. unfold u32. by rewrite Zplus_mod_idemp_l. Qed.
Lemma u64_plus a b : u64 (u64 a + b) = u64 (a + b).
Proof. unfold u64. by rewrite Zplus_mod_idemp_l. Qed.

Lemma count_all {X} (deliver : list Z -> X -> X) es : forall b n a x,
  fold_left (count deliver) es (mk_tally (u64 b) (u32 n) (u32 a) x)
  = mk_tally (u64 (b + Z.of_nat (length (concat (payloads es))))) (u32 (n + Z.of_nat (length (payloads es))))
      (u32 (a + Z.of_nat (ack_count es))) (fold_left (fun x d => deliver d x) (payloads es) x).
Proof.
  induction es as [|e es IH]; intros b n a x; cbn [fold_left payloads omap list_omap concat length ack_count List.filter].
  - by rewrite !Z.add_0_r.
  - destruct e as [d| |]; cbn [count t_bytes t_blocks t_acks t_sunk fold_left length concat].
    + rewrite u64_plus, u32_plus, IH. change (omap _ es) with (payloads es). rewrite length_app. f_equal; f_equal; lia.
    + rewrite u32_plus, IH. change (omap _ es) with (payloads es). f_equal. f_equal. unfold ack_count. lia.
    + by rewrite IH.
Qed.

Lemma payloads_heard es : payloads (List.filter heard es) = payloads es.
Proof. induction es as [|[d| |] es IH]; cbn; [done|by f_equal|done|done]. Qed.
Lemma ack_heard es : ack_count (List.filter heard es) = ack_count es.
Proof. unfold ack_count. induction es as [|[d| |] es IH]; cbn; [done|done|by f_equal|done]. Qed.

Lemma reader_push {X} (deliver : list Z -> X -> X) chunks (x : X) :
  Forall (fun d => bytes_ok d /\ Z.of_nat (length d) <= URB_SIZE_MAX) chunks ->
  exists c s es, push_all deliver (parser_new x) chunks = Some c
    /\ feed_chunks stream_new [] chunks = Some (s, es)
    /\ sunk c = fold_left (fun x d => deliver d x) (payloads es) x
    /\ blocks c = u32 (Z.of_nat (length (payloads es)))
    /\ bytes_payload c = u64 (Z.of_nat (length (concat (payloads es))))
    /\ acks c = u32 (Z.of_nat (ack_count es)).
Proof.
  intros Hds. destruct (push_all_spec deliver chunks (parser_new x)) as (c & E & _ & T); [|done|].
  { split_and!; [apply Forall_nil_2|by apply items_short; cbn; lia|unfold UHSIF_BLK_MAX_SIZE; cbn; lia]. }
  destruct (feed_chunks_spec stream_new ([] : list stream_event) chunks stream_new_ready) as (s & Es & _ & _).
  rewrite apply_events_log in Es. exists c, s, (denote stream_new (concat chunks)). split; [done|]. split; [done|].
  change (denote stream_new (concat chunks)) with (parse STREAM_SCAN None (concat chunks)).
  cbn [pbuf parser_new app] in T. unfold items in T. change (tally_of (parser_new x)) with (mk_tally (u64 0) (u32 0) (u32 0) x) in T.
  rewrite count_all, payloads_heard, ack_heard, !Z.add_0_l in T. unfold tally_of in T. by simplify_eq/=.
Qed.

(** C38: the tools' block reader is the plugin's.  On any bytes, cut into any transfers of at
    most 4 MiB, the reader of the capture tools never leaves its buffer and ends its loop; it
    hands out exactly the payloads the plugin's stream layer hands out for the same bytes, in
    order, and counts them, their bytes and the ACKs. *)
Theorem reader_as_plugin {X} (deliver : list Z -> X -> X) chunks (x : X) :
  Forall (fun d => bytes_ok d /\ Z.of_nat (length d) <= URB_SIZE_MAX) chunks ->
  exists c s es, push_all deliver (parser_new x) chunks = Some c
    /\ feed_chunks stream_new [] chunks = Some (s, es)
    /\ sunk c = fold_left (fun x d => deliver d x) (payloads es) x
    /\ blocks c = u32 (Z.of_nat (length (payloads es)))
    /\ bytes_payload c = u64 (Z.of_nat (length (concat (payloads es))))
    /\ acks c = u32 (Z.of_nat (ack_count es)).
Proof. apply reader_push. Qed.

(** Two transfers: a stray byte, and a block and an ACK cut in the middle. *)
Definition demo_bytes : list Z := 0xC6 :: encode_stream 7 [data_block; ack_block].
Definition demo_chunks : list (list Z) := [take 12 demo_bytes; drop 12 demo_bytes].

Lemma demo_chunks_ok : Forall (fun d => bytes_ok d /\ Z.of_nat (length d) <= URB_SIZE_MAX) demo_chunks.
Proof.
  assert (Hb : bytes_ok demo_bytes) by (vm_compute; repeat apply Forall_cons_2; try apply Forall_nil_2; split; discriminate || reflexivity).
  repeat apply Forall_cons_2; [split; [by apply bytes_ok_take|vm_compute; discriminate]|split; [by apply bytes_ok_drop|vm_compute; discriminate]|apply Forall_nil_2].
Qed.

Lemma reader_as_plugin_witness :
  exists c s es, push_all (fun d l => l ++ [d]) (parser_new []) demo_chunks = Some c
    /\ feed_chunks stream_new [] demo_chunks = Some (s, es)
    /\ sunk c = payloads es /\ sunk c = [[1; 2; 3; 4]] /\ acks c = 1.
Proof.
  destruct (reader_as_plugin (fun d l => l ++ [d]) demo_chunks ([] : list (list Z)) demo_chunks_ok) as (c & s & es & E & F & Hs & _ & _ & Ha).
  exists c, s, es. split; [exact E|]. split; [exact F|].
  assert (Hf : forall ds l, fold_left (fun (x : list (list Z)) d => x ++ [d]) ds l = l ++ ds).
  { induction ds as [|d ds IH]; intros l; cbn [fold_left]; [by rewrite app_nil_r|]. by rewrite IH, <- app_assoc. }
  rewrite Hf in Hs. split; [exact Hs|]. revert E. vm_compute. intros [= <-]. split; reflexivity.
Defined.
