(* ===== verification/Usbcap.v ===== *)
(** * The capture tool (src/tools/usbcap.c)

    [usbcap] starts a capture, keeps transfers on the way and writes the payloads of the blocks
    to a file, with the block reader of BlockReader.v.  libusb, the file system and the clock
    are the surroundings of a run. *)

From Stdlib Require Import String.
From stdpp Require Import strings.
From S2P Require Import Prelude Uhsif Stream Cmd Extcap Libusb BlockReader.
Local Open Scope list_scope.

Definition CMD_RESET : Z := 0x01.
Definition CMD_ENABLE : Z := 0x02.
Definition CMD_SPEED : Z := 0x03.
Definition URBS_MAX : Z := 32.

(** What [main] reads from its arguments; the running time is left to the event loop's script. *)
Record usbcap_opts := mk_usbcap_opts { o_speed : Z; o_null : bool; o_urbs : Z; o_urb_size : Z }.
#[export] Instance usbcap_opts_settable : Settable usbcap_opts := fun o =>
  mk_usbcap_opts (o_speed o) (o_null o) (o_urbs o) (o_urb_size o).

(** [(unsigned) atoi (s)]. *)
Definition atoi_unsigned (s : string) : Z := u32 (strtoll s).

(** The loop over the arguments from the third one on. *)
Fixpoint usbcap_args (argv : list string) (o : usbcap_opts) : usbcap_opts :=
  match argv with
  | [] => o
  | a :: argv =>
      let other :=
        if decide (a = "--null"%string) then o <| o_null := true |>
        else if decide (a = "ls"%string) then o <| o_speed := 0 |>
        else if decide (a = "fs"%string) then o <| o_speed := 1 |>
        else if decide (a = "hs"%string) then o <| o_speed := 2 |>
        else if decide (a = "auto"%string) then o <| o_speed := 3 |>
        else o in
      match argv with
      | v :: argv' =>
          if decide (a = "--urbs"%string) then usbcap_args argv' (o <| o_urbs := atoi_unsigned v |>)
          else if decide (a = "--urb-size"%string) then usbcap_args argv' (o <| o_urb_size := atoi_unsigned v |>)
          else usbcap_args argv other
      | [] => usbcap_args argv other
      end
  end.

Definition usbcap_options (argv : list string) : usbcap_opts :=
  let o := usbcap_args argv (mk_usbcap_opts 3 false 8 (256 * 1024)) in
  let o := if (o_urbs o <? 1) || (URBS_MAX <? o_urbs o) then o <| o_urbs := 8 |> else o in
  if (o_urb_size o <? 4096) || (URB_SIZE_MAX <? o_urb_size o) then o <| o_urb_size := 256 * 1024 |> else o.

(** A completed transfer, with the result of submitting it again. *)
Record xfer := mk_xfer { x_status : status; x_data : list Z; x_submit : Z }.

(** The results of libusb and of the file system: before the capture, of the submissions, and
    the completions handled in the rounds until the time is up and after it. *)
Record surroundings := mk_surroundings {
  init_rc : Z;
  device_found : bool;
  claim_rc : Z;
  file_opens : bool;
  first_submits : list Z;
  loop_rounds : list (list xfer);
  tail_xfers : list xfer;
}.

(** The static variables, with the commands written to the device. *)
Record usbcap := mk_usbcap { reader : parser (option (list Z)); stopping : bool; before_enable : Z; sent : list (list Z) }.
#[export] Instance usbcap_settable : Settable usbcap := fun t =>
  mk_usbcap (reader t) (stopping t) (before_enable t) (sent t).

(** [if (out) fwrite (...)]. *)
Definition write_payload (d : list Z) (out : option (list Z)) : option (list Z) :=
  match out with Some f => Some (f ++ d) | None => None end.

(** [None] is memory written outside the buffer. *)
Definition on_xfer (t : usbcap) (x : xfer) : option usbcap :=
  match x_status x with
  | NO_DEVICE => Some (t <| stopping := true |>)
  | CANCELLED => Some t
  | _ =>
      t ← (if (length (x_data x) =? 0)%nat then Some t
           else r ← parse_push write_payload (reader t) (x_data x); Some (t <| reader := r |>));
      Some (if negb (stopping t) && negb (x_submit x =? 0) then t <| stopping := true |> else t)
  end.

Fixpoint on_xfers (t : usbcap) (xs : list xfer) : option usbcap :=
  match xs with [] => Some t | x :: xs => t ← on_xfer t x; on_xfers t xs end.

(** [while (now_s () < t_end && !stopping)], over the rounds until the time is up. *)
Fixpoint usbcap_loop (rounds : list (list xfer)) (t : usbcap) : option usbcap :=
  match rounds with
  | [] => Some t
  | xs :: rounds => if stopping t then Some t else t ← on_xfers t xs; usbcap_loop rounds t
  end.

Definition send_cmd (seq cid param : Z) (t : usbcap) : usbcap := t <| sent := sent t ++ [build_cmd seq cid param] |>.

(** [main] from the arguments on: the exit status, and the state at the end. *)
Definition usbcap_main (argv : list string) (env : surroundings) : option (usbcap * Z) :=
  let t := mk_usbcap (parser_new None) false 0 [] in
  if (length argv <? 2)%nat then Some (t, 2)
  else
    let o := usbcap_options (drop 2 argv) in
    if negb (init_rc env =? 0) then Some (t, 1)
    else if negb (device_found env) then Some (t, 1)
    else if negb (claim_rc env =? 0) then Some (t, 1)
    else if negb (o_null o) && negb (file_opens env) then Some (t, 1)
    else
      let t := t <| reader := parser_new (if o_null o then None else Some []) |> in
      let t := send_cmd 0 CMD_ENABLE 0 t in
      let t := send_cmd 1 CMD_RESET 1 t in
      let t := send_cmd 2 CMD_SPEED (o_speed o) t in
      let t := send_cmd 3 CMD_RESET 0 t in
      let t := t <| before_enable := bytes_payload (reader t) |> in
      let t := send_cmd 4 CMD_ENABLE 1 t in
      if existsb (fun rc => negb (rc =? 0)) (take (Z.to_nat (o_urbs o)) (first_submits env)) then Some (t, 1)
      else
        t ← usbcap_loop (loop_rounds env) t;
        let t := t <| stopping := true |> in
        let t := send_cmd 5 CMD_ENABLE 0 t in
        t ← on_xfers t (tail_xfers env);
        Some (t, 0).

(** ** What a capture writes *)

Lemma usbcap_urb_size argv : 4096 <= o_urb_size (usbcap_options argv) <= URB_SIZE_MAX.
Proof.
  unfold usbcap_options, URB_SIZE_MAX. set (o := usbcap_args argv _). cbv zeta.
  set (o1 := if (o_urbs o <? 1) || _ then _ else o). clearbody o1.
  destruct (Z.ltb_spec (o_urb_size o1) 4096), (Z.ltb_spec (4 * 1024 * 1024) (o_urb_size o1)); cbn; lia.
Qed.

(** The data a completion delivers, and whether it ends the capture. *)
Definition received (xs : list xfer) : list (list Z) :=
  omap (fun x => match x_status x, x_data x with NO_DEVICE, _ => None | CANCELLED, _ => None | _, [] => None | _, d => Some d end) xs.
Definition ends (x : xfer) : bool :=
  match x_status x with NO_DEVICE => true | CANCELLED => false | _ => negb (x_submit x =? 0) end.

(** The completions handled before the time is up: up to the round that ends the capture. *)
Fixpoint taken (rounds : list (list xfer)) : list xfer :=
  match rounds with
  | [] => []
  | xs :: rounds => xs ++ if existsb ends xs then [] else taken rounds
  end.

Definition xfer_ok (size : Z) (x : xfer) : Prop := bytes_ok (x_data x) /\ Z.of_nat (length (x_data x)) <= size.

Lemma received_app xs ys : received (xs ++ ys) = received xs ++ received ys.
Proof. apply omap_app. Qed.

Lemma push_all_app {X} (deliver : list Z -> X -> X) ds es : forall c,
  push_all deliver c (ds ++ es) = (c ← push_all deliver c ds; push_all deliver c es).
Proof.
  induction ds as [|d ds IH]; intros c; [done|]. cbn [app push_all]. destruct (parse_push deliver c d); [apply IH|done].
Qed.

Lemma on_xfer_spec t x :
  on_xfer t x = (r ← push_all write_payload (reader t) (received [x]);
                 Some (t <| reader := r |> <| stopping := stopping t || ends x |>)).
Proof.
  destruct t as [r st b s]. unfold on_xfer, received, ends. destruct x as [xs xd sub]. cbn [x_status x_data x_submit omap list_omap].
  destruct xs, xd as [|y ys]; cbn [push_all length Nat.eqb mbind option_bind reader]; rewrite ?orb_true_r, ?orb_false_r; try done;
    try (destruct (parse_push _ _ _) as [r'|]; [|done]); cbn [mbind option_bind reader stopping];
    destruct st, (sub =? 0); reflexivity.
Qed.

Lemma on_xfers_spec xs : forall t,
  on_xfers t xs = (r ← push_all write_payload (reader t) (received xs);
                   Some (t <| reader := r |> <| stopping := stopping t || existsb ends xs |>)).
Proof.
  induction xs as [|x xs IH]; intros t; cbn [on_xfers existsb].
  - rewrite orb_false_r. by destruct t.
  - change (received (x :: xs)) with (received ([x] ++ xs)). rewrite received_app, push_all_app, on_xfer_spec.
    destruct (push_all write_payload (reader t) (received [x])) as [r|]; [|done]. cbn [mbind option_bind].
    rewrite IH. cbn -[received push_all ends]. destruct (push_all _ r _) as [r'|]; [|done]. cbn [mbind option_bind]. do 2 f_equal.
    by rewrite orb_assoc.
Qed.

Lemma usbcap_loop_spec rounds : forall t,
  stopping t = false ->
  usbcap_loop rounds t = (r ← push_all write_payload (reader t) (received (taken rounds));
                          Some (t <| reader := r |> <| stopping := existsb (existsb ends) rounds |>)).
Proof.
  induction rounds as [|xs rounds IH]; intros t Ht; cbn [usbcap_loop taken existsb].
  - cbn. destruct t. by cbn in Ht; subst.
  - rewrite Ht, on_xfers_spec, received_app, push_all_app, Ht.
    destruct (push_all _ _ (received xs)) as [r|]; [|done]. cbn [mbind option_bind orb].
    destruct (existsb ends xs) eqn:E.
    + by destruct rounds.
    + rewrite IH by done. change (reader (t <| reader := r |> <| stopping := false |>)) with r. by destruct (push_all write_payload r _).
Qed.

Lemma received_ok size xs :
  size <= URB_SIZE_MAX -> Forall (xfer_ok size) xs -> Forall (fun d => bytes_ok d /\ Z.of_nat (length d) <= URB_SIZE_MAX) (received xs).
Proof.
  intros Hs. induction 1 as [|x xs [Hb Hl] Hxs IH]; [apply Forall_nil_2|].
  unfold received. cbn [omap list_omap]. destruct (x_status x), (x_data x) as [|b d]; try exact IH;
    (apply Forall_cons_2; [split; [done|lia]|exact IH]).
Qed.

(** What a run needs to reach the capture. *)
Definition prepared (argv : list string) (env : surroundings) : bool :=
  (2 <=? length argv)%nat && (init_rc env =? 0) && device_found env && (claim_rc env =? 0)
  && (o_null (usbcap_options (drop 2 argv)) || file_opens env)
  && forallb (fun rc => rc =? 0) (take (Z.to_nat (o_urbs (usbcap_options (drop 2 argv)))) (first_submits env)).

Definition capture_cmds (speed : Z) : list (Z * Z) :=
  [(UHSIF_CMD_ENABLE, 0); (UHSIF_CMD_RESET, 1); (UHSIF_CMD_SPEED, speed); (UHSIF_CMD_RESET, 0); (UHSIF_CMD_ENABLE, 1);
   (UHSIF_CMD_ENABLE, 0)].

(** The plugin's packets for commands sent in turn. *)
Definition packets_of (cmds : list (Z * Z)) : list (list Z) :=
  imap (fun i cmd => build_packet (cmd_init <| Cmd.seq := Z.of_nat i |>) cmd.1 cmd.2) cmds.

Lemma packet_of i cid param : byte_ok i -> byte_ok cid -> build_cmd i cid param = build_packet (cmd_init <| Cmd.seq := i |>) cid param.
Proof.
  intros Hi Hc. pose proof (build_cmd_packet (cmd_init <| Cmd.seq := i |>) cid param) as H.
  change (Cmd.seq (cmd_init <| Cmd.seq := i |>)) with i in H. exact (H Hi Hc).
Qed.

Lemma write_payloads ds out :
  fold_left (fun x d => write_payload d x) ds out = match out with Some f => Some (f ++ concat ds) | None => None end.
Proof.
  revert out. induction ds as [|d ds IH]; intros out; cbn [fold_left concat].
  - destruct out; [by rewrite app_nil_r|done].
  - rewrite IH. destruct out; cbn [write_payload]; [by rewrite <- app_assoc|done].
Qed.

Lemma existsb_forallb {A} (f : A -> bool) l : existsb (fun x => negb (f x)) l = negb (forallb f l).
Proof. induction l as [|x l IH]; [done|]. cbn. rewrite IH. by destruct (f x). Qed.


(** A capture of one round, at the end of which the device is unplugged. *)
Definition demo_env : surroundings :=
  mk_surroundings 0 true 0 true []
    [map (fun d => mk_xfer COMPLETED d 0) demo_chunks; [mk_xfer NO_DEVICE [] 0]; [mk_xfer COMPLETED [0; 1] 0]] [].

