(* ===== verification/UsbcapFast.v ===== *)
(** * The frame statistics of the fast capture tool (src/tools/usbcap_fast.c)

    [usbcap_fast] reads blocks as BlockReader.v describes and walks the frames in their
    payloads to count records and error flags.  The walk is shown to count the frames of the
    plugin's protocol (PacketFrames.v), as long as no status frame is cut between two
    payloads; a cut one derails it. *)

From S2P Require Import Prelude Packet PacketFrames.
Local Open Scope list_scope.

(** [sizeof (fbuf)]. *)
Definition FBUF_SIZE : nat := 3000.

(** The counters, the previous flags, and the [flen] bytes of [fbuf]. *)
Record stats := mk_stats {
  rec_total : Z; ev_crc : Z; ev_ovf : Z; ev_derr : Z;
  pkts_crc : Z; pkts_ovf : Z; pkts_derr : Z;
  st_crc : bool; st_ovf : bool; st_derr : bool;
  fbuf : list Z;
  faligned : bool;
}.
#[export] Instance stats_settable : Settable stats := fun s =>
  mk_stats (rec_total s) (ev_crc s) (ev_ovf s) (ev_derr s) (pkts_crc s) (pkts_ovf s) (pkts_derr s)
    (st_crc s) (st_ovf s) (st_derr s) (fbuf s) (faligned s).
Definition stats_new : stats := mk_stats 0 0 0 0 0 0 0 false false false [] false.

Definition bump (b : bool) (n : Z) : Z := if b then u64 (n + 1) else n.

(** A complete record with its flags. *)
Definition count_record (c o e : bool) (s : stats) : stats :=
  s <| rec_total := u64 (rec_total s + 1) |>
    <| ev_crc := bump (c && negb (st_crc s)) (ev_crc s) |>
    <| ev_ovf := bump (o && negb (st_ovf s)) (ev_ovf s) |>
    <| ev_derr := bump (e && negb (st_derr s)) (ev_derr s) |>
    <| pkts_crc := bump c (pkts_crc s) |> <| pkts_ovf := bump o (pkts_ovf s) |> <| pkts_derr := bump e (pkts_derr s) |>
    <| st_crc := c |> <| st_ovf := o |> <| st_derr := e |>.

Definition unaligned (s : stats) : stats := s <| faligned := false |> <| fbuf := [] |>.

(** [while (flen < upto && i < n) fbuf[flen++] = d[i++]]. *)
Definition fill (s : stats) (upto : nat) (d : list Z) : stats * list Z :=
  let k := (upto - length (fbuf s))%nat in (s <| fbuf := fbuf s ++ take k d |>, drop k d).

Definition frame_size (f : list Z) : Z := Z.lor (Z.shiftl (Z.land (f !!! 3%nat) 7) 8) (f !!! 4%nat).

Definition record_done (s : stats) : stats :=
  let f3 := fbuf s !!! 3%nat in
  unaligned (count_record (has f3 0x10) (has f3 0x08) (has f3 0x20) s).

(** The loop over the bytes left; [None] is fuel used up. *)
Fixpoint stats_loop (fuel : nat) (s : stats) (d : list Z) : option stats :=
  match fuel with
  | O => None
  | S fuel =>
      match d with
      | [] => Some s
      | c :: d' =>
          if negb (faligned s) then
            if has c 0x80 then stats_loop fuel (s <| fbuf := [c] |> <| faligned := true |>) d'
            else stats_loop fuel s (drop 4 d)
          else
            let '(s, d) := fill s 7 d in
            if (length (fbuf s) <? 7)%nat then Some s
            else
              let size := frame_size (fbuf s) in
              if (size <? 7) || (2048 <? size) then stats_loop fuel (unaligned s) d
              else
                let '(s, d) := fill s (Z.to_nat size) d in
                if (length (fbuf s) <? Z.to_nat size)%nat then Some s
                else stats_loop fuel (record_done s) d
      end
  end.

Definition stats_push (s : stats) (d : list Z) : option stats := stats_loop (S (length d)) s d.

Fixpoint stats_pushes (s : stats) (ds : list (list Z)) : option stats :=
  match ds with
  | [] => Some s
  | d :: ds => s ← stats_push s d; stats_pushes s ds
  end.

(** ** Byte by byte

    The same walk as a machine on bytes, with the number of bytes of a status frame still to
    be passed over: [stats_push] is this machine, except that it forgets that number. *)
Definition walk (x : stats * nat) (b : Z) : stats * nat :=
  let '(s, skip) := x in
  match skip with
  | S k => (s, k)
  | O =>
      if negb (faligned s) then
        if has b 0x80 then (s <| fbuf := [b] |> <| faligned := true |>, 0%nat) else (s, 3%nat)
      else
        let s := s <| fbuf := fbuf s ++ [b] |> in
        let size := frame_size (fbuf s) in
        if (length (fbuf s) <? 7)%nat then (s, 0%nat)
        else if (size <? 7) || (2048 <? size) then (unaligned s, 0%nat)
        else if (length (fbuf s) <? Z.to_nat size)%nat then (s, 0%nat)
        else (record_done s, 0%nat)
  end.

Definition walks (d : list Z) (x : stats * nat) : stats * nat := fold_left walk d x.

(** Between two bytes of the walk. *)
Definition walking (s : stats) : Prop :=
  if faligned s then
    (0 < length (fbuf s))%nat
    /\ ((7 <= length (fbuf s))%nat ->
        7 <= frame_size (fbuf s) <= 2048 /\ Z.of_nat (length (fbuf s)) < frame_size (fbuf s))
  else fbuf s = [].

Lemma walks_skip d s k : walks d (s, k) = walks (drop k d) (s, (k - length d)%nat).
Proof.
  revert k. induction d as [|b d IH]; intros k; [by rewrite drop_nil, Nat.sub_0_r|].
  destruct k as [|k]; [done|]. cbn [drop]. change (walks (b :: d) (s, S k)) with (walks d (s, k)). by rewrite IH.
Qed.

Lemma walks_app d e x : walks (d ++ e) x = walks e (walks d x).
Proof. apply fold_left_app. Qed.

Definition more (s : stats) (d : list Z) : stats := s <| fbuf := fbuf s ++ d |>.

Lemma more_nil s : more s [] = s.
Proof. unfold more. destruct s. cbn. by rewrite app_nil_r. Qed.
Lemma more_app s d e : more (more s d) e = more s (d ++ e).
Proof. unfold more. cbn. by rewrite app_assoc. Qed.

Lemma frame_size_app f r : (5 <= length f)%nat -> frame_size (f ++ r) = frame_size f.
Proof.
  intros Hl. unfold frame_size. rewrite !list_lookup_total_alt.
  by rewrite !lookup_app_l by lia.
Qed.

(** Bytes that complete neither the header nor the record. *)
Lemma walks_fill d : forall s,
  faligned s = true ->
  (length (fbuf s) + length d < 7)%nat
  \/ (7 <= length (fbuf s))%nat /\ 7 <= frame_size (fbuf s) <= 2048
     /\ Z.of_nat (length (fbuf s) + length d) < frame_size (fbuf s) ->
  walks d (s, 0%nat) = (more s d, 0%nat).
Proof.
  induction d as [|b d IH]; intros s Ha Hl; [by rewrite more_nil|].
  change (walks (b :: d) (s, 0%nat)) with (walks d (walk (s, 0%nat) b)). cbn [length] in Hl.
  assert (E : walk (s, 0%nat) b = (more s [b], 0%nat)).
  { unfold walk. rewrite Ha. cbn [negb]. cbv zeta. change (s <| fbuf := fbuf s ++ [b] |>) with (more s [b]).
    change (fbuf (more s [b])) with (fbuf s ++ [b]). rewrite length_app. cbn [length].
    destruct (Nat.ltb_spec (length (fbuf s) + 1) 7) as [_|H7]; [done|].
    destruct Hl as [Hl|(Hl & Hr & Hs)]; [lia|]. rewrite frame_size_app by lia.
    destruct (Z.ltb_spec (frame_size (fbuf s)) 7), (Z.ltb_spec 2048 (frame_size (fbuf s))); try lia. cbn [orb].
    by destruct (Nat.ltb_spec (length (fbuf s) + 1) (Z.to_nat (frame_size (fbuf s)))); [|lia]. }
  rewrite E, IH; [by rewrite more_app|done|].
  change (fbuf (more s [b])) with (fbuf s ++ [b]). rewrite length_app. cbn [length].
  destruct Hl as [Hl|(Hl & Hr & Hs)]; [left; lia|]. right. rewrite frame_size_app by lia. lia.
Qed.

(** The byte that completes the header. *)
Lemma walks_header s d :
  faligned s = true -> (length (fbuf s) + length d = 7)%nat -> d <> [] ->
  let s' := more s d in
  walks d (s, 0%nat)
  = if (frame_size (fbuf s') <? 7) || (2048 <? frame_size (fbuf s')) then (unaligned s', 0%nat)
    else if (7 <? Z.to_nat (frame_size (fbuf s')))%nat then (s', 0%nat) else (record_done s', 0%nat).
Proof.
  intros Ha Hl Hd. destruct d as [|b d] using rev_ind; [done|]. clear IHd Hd. rewrite length_app in Hl. cbn [length] in Hl.
  rewrite walks_app, walks_fill by (done || left; lia). cbv zeta. rewrite <- more_app.
  cbn [walks fold_left]. unfold walk at 1. change (faligned (more s d)) with (faligned s). rewrite Ha. cbn [negb]. cbv zeta.
  change ((more s d) <| fbuf := fbuf (more s d) ++ [b] |>) with (more (more s d) [b]).
  set (s1 := more (more s d) [b]). assert (E : length (fbuf s1) = 7%nat).
  { unfold s1, more. cbn [fbuf over]. rewrite !length_app. cbn [length]. lia. }
  rewrite E. by repeat case_match.
Qed.

(** The byte that completes the record. *)
Lemma walks_record s d :
  faligned s = true -> (7 <= length (fbuf s))%nat -> 7 <= frame_size (fbuf s) <= 2048 ->
  Z.of_nat (length (fbuf s) + length d) = frame_size (fbuf s) -> d <> [] ->
  walks d (s, 0%nat) = (record_done (more s d), 0%nat).
Proof.
  intros Ha Hl Hr Hs Hd. destruct d as [|b d] using rev_ind; [done|]. clear IHd Hd. rewrite length_app in Hs. cbn [length] in Hs.
  rewrite walks_app, walks_fill by (done || right; lia). rewrite <- more_app.
  cbn [walks fold_left]. unfold walk at 1. change (faligned (more s d)) with (faligned s). rewrite Ha. cbn [negb]. cbv zeta.
  change ((more s d) <| fbuf := fbuf (more s d) ++ [b] |>) with (more (more s d) [b]).
  set (s1 := more (more s d) [b]).
  assert (E : length (fbuf s1) = (length (fbuf s) + (length d + 1))%nat /\ frame_size (fbuf s1) = frame_size (fbuf s)).
  { unfold s1, more. cbn [fbuf over]. rewrite <- app_assoc, frame_size_app, !length_app by lia. cbn [length]. lia. }
  destruct E as [E1 E2]. rewrite E1, E2.
  destruct (Nat.ltb_spec (length (fbuf s) + (length d + 1)) 7); [lia|].
  destruct (Z.ltb_spec (frame_size (fbuf s)) 7), (Z.ltb_spec 2048 (frame_size (fbuf s))); try lia. cbn [orb].
  by destruct (Nat.ltb_spec (length (fbuf s) + (length d + 1)) (Z.to_nat (frame_size (fbuf s)))); [lia|].
Qed.

(** From a complete header on. *)
Lemma stats_body fuel s d :
  faligned s = true -> (7 <= length (fbuf s))%nat -> 7 <= frame_size (fbuf s) <= 2048 ->
  Z.of_nat (length (fbuf s)) < frame_size (fbuf s) ->
  (forall s' d', walking s' -> (length d' < length d)%nat ->
     stats_loop fuel s' d' = Some (walks d' (s', 0%nat)).1 /\ walking (walks d' (s', 0%nat)).1) ->
  (let '(s', d') := fill s (Z.to_nat (frame_size (fbuf s))) d in
   if (length (fbuf s') <? Z.to_nat (frame_size (fbuf s)))%nat then Some s' else stats_loop fuel (record_done s') d')
  = Some (walks d (s, 0%nat)).1 /\ walking (walks d (s, 0%nat)).1.
Proof.
  intros Ha Hl Hr Hs IH. unfold fill. set (k := (Z.to_nat (frame_size (fbuf s)) - length (fbuf s))%nat).
  change (s <| fbuf := fbuf s ++ take k d |>) with (more s (take k d)).
  assert (El : length (fbuf (more s (take k d))) = (length (fbuf s) + k `min` length d)%nat).
  { unfold more. cbn [fbuf over]. rewrite length_app, length_take. done. }
  destruct (Nat.ltb_spec (length (fbuf (more s (take k d)))) (Z.to_nat (frame_size (fbuf s)))) as [Hlt|Hge].
  - rewrite El in Hlt. rewrite take_ge in El |- * by lia. rewrite walks_fill by (done || right; lia). split; [done|].
    unfold walking. cbn [fst]. change (faligned (more s d)) with (faligned s). rewrite Ha. change (fbuf (more s d)) with (fbuf s ++ d) in *.
    rewrite frame_size_app, El by lia. lia.
  - rewrite El in Hge. assert (ED : walks d (s, 0%nat) = walks (drop k d) (record_done (more s (take k d)), 0%nat)).
    { rewrite <- (take_drop k d) at 1. rewrite walks_app, walks_record; try done; [rewrite length_take; lia|].
      intros E. apply (f_equal length) in E. rewrite length_take in E. cbn in E. lia. }
    rewrite ED. apply IH; [done|]. rewrite length_drop. lia.
Qed.

Lemma stats_loop_walks fuel : forall s d,
  walking s -> (length d < fuel)%nat ->
  stats_loop fuel s d = Some (walks d (s, 0%nat)).1 /\ walking (walks d (s, 0%nat)).1.
Proof.
  induction fuel as [|fuel IH]; intros s d Hw Hf; [lia|]. destruct d as [|c d]; [done|]. cbn [stats_loop].
  cbn [length] in Hf. destruct (faligned s) eqn:Ha; cbn [negb].
  2:{ change (walks (c :: d) (s, 0%nat)) with (walks d (walk (s, 0%nat) c)). 
      assert (Ew : walk (s, 0%nat) c = if has c 0x80 then (s <| fbuf := [c] |> <| faligned := true |>, 0%nat) else (s, 3%nat))
        by (unfold walk; by rewrite Ha).
      rewrite Ew. destruct (has c 0x80).
      - apply IH; [|lia]. unfold walking. cbn. lia.
      - cbn [drop]. rewrite walks_skip. destruct (IH s (drop 3 d) Hw) as [E W]; [rewrite length_drop; lia|].
        destruct (decide (3 <= length d)%nat).
        + replace (3 - length d)%nat with 0%nat by lia. done.
        + rewrite drop_ge in E |- * by lia. done. }
  unfold walking in Hw. rewrite Ha in Hw. destruct Hw as [Hpos Hhdr].
  unfold fill at 1. cbv zeta. set (k := (7 - length (fbuf s))%nat).
  change (s <| fbuf := fbuf s ++ take k (c :: d) |>) with (more s (take k (c :: d))).
  assert (El : length (fbuf (more s (take k (c :: d)))) = (length (fbuf s) + k `min` S (length d))%nat).
  { unfold more. cbn [fbuf over]. rewrite length_app, length_take. done. }
  destruct (Nat.ltb_spec (length (fbuf (more s (take k (c :: d))))) 7) as [H7|H7].
  { rewrite El in H7. rewrite take_ge in El |- * by (cbn [length]; lia). rewrite walks_fill by (done || left; cbn [length]; lia). split; [done|].
    unfold walking. cbn. rewrite Ha. change (fbuf s ++ c :: d) with (fbuf (more s (c :: d))). lia. }
  set (D := c :: d) in *. set (s1 := more s (take k D)) in *.
  assert (Hlen : length D = S (length d)) by done.
  assert (Hfull : length (fbuf s1) = (length (fbuf s) + k)%nat) by lia.
  assert (ED : walks D (s, 0%nat) = walks (drop k D) (walks (take k D) (s, 0%nat))) by (rewrite <- walks_app, take_drop; done).
  destruct (decide (k = 0%nat)) as [Hk|Hk].
  - assert (Es : s1 = s) by (unfold s1; rewrite Hk; apply more_nil). assert (Hl7 : (7 <= length (fbuf s))%nat) by lia.
    destruct (Hhdr Hl7) as [Hr Hs]. rewrite Es, Hk. cbn [drop].
    destruct (Z.ltb_spec (frame_size (fbuf s)) 7), (Z.ltb_spec 2048 (frame_size (fbuf s))); try lia. cbn [orb].
    apply stats_body; try done || lia. intros s2 d2 W2 L2. apply IH; [done|lia].
  - assert (Hh := walks_header s (take k D) Ha). rewrite length_take in Hh. specialize (Hh ltac:(lia)).
    assert (Hne : take k D <> []) by (destruct k; done). specialize (Hh Hne). cbv zeta in Hh. fold s1 in Hh.
    rewrite ED, Hh. destruct ((frame_size (fbuf s1) <? 7) || (2048 <? frame_size (fbuf s1))) eqn:Eb.
    { apply IH; [done|]. rewrite length_drop. lia. }
    apply orb_false_iff in Eb as [Eb1%Z.ltb_ge Eb2%Z.ltb_ge].
    destruct (Nat.ltb_spec 7 (Z.to_nat (frame_size (fbuf s1)))) as [Hbig|Hsmall].
    + apply stats_body; try done || lia. intros s2 d2 W2 L2. apply IH; [done|]. rewrite length_drop in L2. lia.
    + unfold fill. replace (Z.to_nat (frame_size (fbuf s1)) - length (fbuf s1))%nat with 0%nat by lia.
      cbn [take drop]. rewrite app_nil_r. replace (s1 <| fbuf := fbuf s1 |>) with s1 by (by destruct s1).
      destruct (Nat.ltb_spec (length (fbuf s1)) (Z.to_nat (frame_size (fbuf s1)))); [lia|].
      apply IH; [done|]. rewrite length_drop. lia.
Qed.

Lemma stats_push_walks s d :
  walking s -> stats_push s d = Some (walks d (s, 0%nat)).1 /\ walking (walks d (s, 0%nat)).1.
Proof. intros Hw. apply stats_loop_walks; [done|lia]. Qed.

(** Payloads that leave no status frame open are walked as one. *)
Lemma pushes_walks ds : forall s,
  walking s -> (forall k, (walks (concat (take k ds)) (s, 0%nat)).2 = 0%nat) ->
  stats_pushes s ds = Some (walks (concat ds) (s, 0%nat)).1.
Proof.
  induction ds as [|d ds IH]; intros s Hw Hc; [done|]. cbn [stats_pushes concat].
  destruct (stats_push_walks s d Hw) as [-> W]. cbn [mbind option_bind]. pose proof (Hc 1%nat) as H1.
  cbn [take concat] in H1. rewrite app_nil_r in H1. rewrite walks_app.
  destruct (walks d (s, 0%nat)) as [s1 k] eqn:E. cbn [fst snd] in *. subst k. apply IH; [done|].
  intros k. specialize (Hc (S k)). cbn [take concat] in Hc. by rewrite walks_app, E in Hc.
Qed.

(** ** Frames *)

Definition count_frame (s : stats) (f : frame) : stats :=
  match f with
  | FStatus _ _ _ _ _ _ => s
  | FData _ _ ov crc de _ _ => count_record crc ov de s
  end.

Definition idle_stats (s : stats) : Prop := faligned s = false /\ fbuf s = [].

Lemma idle_count f s : idle_stats s -> idle_stats (count_frame s f).
Proof. by destruct f. Qed.

(** The first byte tells the kinds apart. *)
Lemma frame_cons t f :
  frame_wf f -> t = 0 \/ t = 1 ->
  exists b tl, encode_frame t f = b :: tl
    /\ has b 0x80 = match f with FStatus _ _ _ _ _ _ => false | FData _ _ _ _ _ _ _ => true end.
Proof.
  intros Hf Ht. unfold encode_frame.
  destruct f as [tov ts ls vb tr sp|tov ts ov crc de dur d]; cbn [frame_header app frame_first];
    do 2 eexists; (split; [reflexivity|]).
  - destruct Hf as [Hts _]. by destruct (frame_first_decode true t tov ts [] _ Hts Ht eq_refl) as (Hh & _).
  - destruct Hf as [Hts _]. by destruct (frame_first_decode false t tov ts [] _ Hts Ht eq_refl) as (Hh & _).
Qed.

Definition start (s : stats) (b : Z) : stats := s <| fbuf := [b] |> <| faligned := true |>.

Lemma walk_start s b : idle_stats s -> has b 0x80 = true -> walk (s, 0%nat) b = (start s b, 0%nat).
Proof. intros [Ha _] Hb. unfold walk. by rewrite Ha, Hb. Qed.

(** A data frame with its header taken. *)
Lemma data_header t tov ts ov crc de dur d s :
  frame_wf (FData tov ts ov crc de dur d) -> idle_stats s -> t = 0 \/ t = 1 ->
  exists h, frame_header t (FData tov ts ov crc de dur d) = h /\ length h = 7%nat
    /\ frame_size h = Z.of_nat (length d) + 7
    /\ has (h !!! 3%nat) 0x10 = crc /\ has (h !!! 3%nat) 0x08 = ov /\ has (h !!! 3%nat) 0x20 = de.
Proof.
  intros (Hts & Hdur & Hl & Hd) Hs Ht. eexists. split; [reflexivity|]. split; [done|].
  cbn [frame_header frame_first app]. unfold frame_size. cbn [lookup_total list_lookup_total].
  set (n := Z.of_nat (length d)) in *.
  destruct (data_byte3 de crc ov ((n + 7) / 256)) as (E1 & E2 & E3 & E4); [divmod|].
  change 7 with 0x7 at 1. rewrite E1, E2, E3, E4. split; [|done]. rewrite lor2 by divmod. divmod.
Qed.

(** The header of a data frame, byte by byte. *)
Section DataFrame.
Context (t : Z) (tov : bool) (ts : Z) (ov crc de : bool) (dur : Z) (d : list Z) (s : stats).
Let f : frame := FData tov ts ov crc de dur d.
Context (Hf : frame_wf f) (Hs : idle_stats s) (Ht : t = 0 \/ t = 1).

(** The state that holds the bytes [l] of the frame. *)
Let holding (l : list Z) : stats := s <| fbuf := l |> <| faligned := true |>.

Lemma holding_done l :
  l !!! 3%nat = frame_header t f !!! 3%nat -> record_done (holding l) = count_frame s f.
Proof.
  intros E. destruct (data_header t tov ts ov crc de dur d s Hf Hs Ht) as (h & Eh & _ & _ & E1 & E2 & E3).
  unfold record_done. change (fbuf (holding l)) with l. rewrite E. unfold f. rewrite Eh, E1, E2, E3.
  destruct Hs as [Ha Hb]. unfold holding. destruct s. cbn in Ha, Hb. subst. reflexivity.
Qed.

Lemma walks_data_header :
  walks (frame_header t f) (s, 0%nat)
  = if (length d =? 0)%nat then (count_frame s f, 0%nat) else (holding (frame_header t f), 0%nat).
Proof.
  destruct (data_header t tov ts ov crc de dur d s Hf Hs Ht) as (h & Eh & Hl & Hz & _).
  destruct (frame_cons t f Hf Ht) as (b & tl & Eb & Hb). unfold encode_frame in Eb. fold f in Eh. rewrite Eh in *.
  destruct h as [|b' h]; [done|]. cbn [app] in Eb. injection Eb as -> _. cbn [length] in Hl.
  change (walks (b :: h) (s, 0%nat)) with (walks h (walk (s, 0%nat) b)). rewrite walk_start by done.
  rewrite (walks_header (start s b) h); [|done|cbn; lia|by destruct h].
  cbv zeta. change (more (start s b) h) with (holding (b :: h)). change (fbuf (holding (b :: h))) with (b :: h). rewrite Hz.
  destruct Hf as (_ & _ & Hlen & _).
  destruct (Z.ltb_spec (Z.of_nat (length d) + 7) 7), (Z.ltb_spec 2048 (Z.of_nat (length d) + 7)); try lia. cbn [orb].
  destruct (Nat.ltb_spec 7 (Z.to_nat (Z.of_nat (length d) + 7))), (Nat.eqb_spec (length d) 0); try lia; [done|].
  by rewrite holding_done by (by rewrite Eh).
Qed.

Lemma walks_data : walks (encode_frame t f) (s, 0%nat) = (count_frame s f, 0%nat).
Proof.
  unfold encode_frame. rewrite walks_app, walks_data_header. cbn [frame_payload f].
  destruct (Nat.eqb_spec (length d) 0) as [E|E]; [by destruct d|].
  destruct (data_header t tov ts ov crc de dur d s Hf Hs Ht) as (h & Eh & Hl & Hz & _). fold f in Eh. rewrite Eh in *.
  destruct Hf as (_ & _ & Hlen & _).
  rewrite (walks_record (holding h) d); [|done|by change (fbuf (holding h)) with h; lia|change (fbuf (holding h)) with h; lia
    |change (fbuf (holding h)) with h; lia|by destruct d].
  change (more (holding h) d) with (holding (h ++ d)). rewrite holding_done; [done|]. rewrite Eh.
  rewrite !list_lookup_total_alt. by rewrite lookup_app_l by lia.
Qed.

(** Cut anywhere, a data frame leaves nothing to be passed over. *)
Lemma data_cut n : (walks (take n (encode_frame t f)) (s, 0%nat)).2 = 0%nat.
Proof.
  destruct (decide (length (encode_frame t f) <= n)%nat) as [Hn|Hn]; [rewrite take_ge, walks_data by done; done|].
  destruct (data_header t tov ts ov crc de dur d s Hf Hs Ht) as (h & Eh & Hl & Hz & _). fold f in Eh.
  destruct (frame_cons t f Hf Ht) as (b & tl & Eb & Hb). pose proof walks_data_header as Hh.
  unfold encode_frame in *. rewrite Eh in *. cbn [frame_payload f] in *. rewrite length_app in Hn.
  destruct (decide (n < 7)%nat) as [H7|H7].
  - rewrite take_app_le by lia. destruct n as [|n]; [done|]. destruct h as [|b' h]; [done|]. cbn [app] in Eb. injection Eb as -> _.
    cbn [take]. change (walks (b :: take n h) (s, 0%nat)) with (walks (take n h) (walk (s, 0%nat) b)).
    rewrite walk_start, walks_fill; try done. left. cbn. rewrite length_take. lia.
  - rewrite take_app_ge, walks_app, Hh by lia. destruct (Nat.eqb_spec (length d) 0); [lia|].
    destruct Hf as (_ & _ & Hlen & _).
    rewrite (walks_fill (take _ d) (holding h)); [done|done|]. right. change (fbuf (holding h)) with h. rewrite length_take. lia.
Qed.
End DataFrame.

Lemma walks_frame t f s :
  frame_wf f -> idle_stats s -> t = 0 \/ t = 1 -> walks (encode_frame t f) (s, 0%nat) = (count_frame s f, 0%nat).
Proof.
  intros Hf Hs Ht. destruct f as [tov ts ls vb tr sp|tov ts ov crc de dur d]; [|by apply walks_data].
  destruct (frame_cons t _ Hf Ht) as (b & tl & E & Hb). rewrite E. apply (f_equal length) in E. cbn in E.
  change (walks (b :: tl) (s, 0%nat)) with (walks tl (walk (s, 0%nat) b)). unfold walk. rewrite (proj1 Hs), Hb. cbn [negb].
  rewrite walks_skip, drop_ge by lia. by replace (3 - length tl)%nat with 0%nat by lia.
Qed.

Lemma walks_frames fs : forall t s,
  Forall frame_wf fs -> idle_stats s -> t = 0 \/ t = 1 ->
  walks (encode_frames t fs) (s, 0%nat) = (fold_left count_frame fs s, 0%nat).
Proof.
  induction fs as [|f fs IH]; intros t s Hfs Hs Ht; [done|]. apply Forall_cons_1 in Hfs as [Hf Hfs].
  cbn [encode_frames fold_left]. rewrite walks_app, walks_frame by done. apply IH; [done|by apply idle_count|lia].
Qed.

(** The position [n] is not inside a status frame. *)
Fixpoint uncut (fs : list frame) (n : nat) : bool :=
  match fs with
  | [] => true
  | f :: fs =>
      let k := length (encode_frame 0 f) in
      if (n <? k)%nat then match f with FStatus _ _ _ _ _ _ => (n =? 0)%nat | FData _ _ _ _ _ _ _ => true end
      else uncut fs (n - k)
  end.

Lemma uncut_skip fs : forall t s n,
  Forall frame_wf fs -> idle_stats s -> t = 0 \/ t = 1 -> uncut fs n = true ->
  (walks (take n (encode_frames t fs)) (s, 0%nat)).2 = 0%nat.
Proof.
  induction fs as [|f fs IH]; intros t s n Hfs Hs Ht Hn; [cbn [encode_frames]; by rewrite take_nil|]. apply Forall_cons_1 in Hfs as [Hf Hfs].
  cbn [uncut encode_frames] in *.
  assert (El : length (encode_frame t f) = length (encode_frame 0 f)) by (by destruct f).
  destruct (Nat.ltb_spec n (length (encode_frame 0 f))) as [Hlt|Hge].
  - rewrite take_app_le by lia. destruct f; [|by apply data_cut]. by apply Nat.eqb_eq in Hn as ->.
  - rewrite take_app_ge, walks_app, walks_frame by (done || lia). rewrite El. apply IH; [done|by apply idle_count|lia|done].
Qed.

(** ** In numbers *)

(** The flags of the data frames, in order. *)
Definition flag_of (g : bool -> bool -> bool -> bool) (fs : list frame) : list bool :=
  omap (fun f => match f with FStatus _ _ _ _ _ _ => None | FData _ _ ov crc de _ _ => Some (g crc ov de) end) fs.

(** How often a flag goes from clear to set, and how often it is set. *)
Fixpoint rises (before : bool) (l : list bool) : nat :=
  match l with [] => 0 | b :: l => (if b && negb before then 1 else 0) + rises b l end.
Definition sets (l : list bool) : nat := length (List.filter id l).

Lemma u64_add a b : u64 (u64 a + b) = u64 (a + b).
Proof. unfold u64. by rewrite Zplus_mod_idemp_l. Qed.

Lemma bump_add b n : bump b (u64 n) = u64 (n + Z.of_nat (if b then 1 else 0)).
Proof. destruct b; cbn [bump]; [by rewrite u64_add|by rewrite Z.add_0_r]. Qed.

Abbreviation crc_of := (flag_of (fun c _ _ => c)).
Abbreviation ovf_of := (flag_of (fun _ o _ => o)).
Abbreviation derr_of := (flag_of (fun _ _ e => e)).

Lemma last_cons {A} (a d : A) l : List.last (a :: l) d = List.last l a.
Proof.
  revert a d. induction l as [|b l IH]; intros a d; [done|]. change (List.last (b :: l) d = List.last (b :: l) a). by rewrite !IH.
Qed.

Lemma count_frames fs : forall n a b c x y z c0 o0 e0,
  fold_left count_frame fs (mk_stats (u64 n) (u64 a) (u64 b) (u64 c) (u64 x) (u64 y) (u64 z) c0 o0 e0 [] false)
  = mk_stats (u64 (n + Z.of_nat (length (crc_of fs))))
      (u64 (a + Z.of_nat (rises c0 (crc_of fs)))) (u64 (b + Z.of_nat (rises o0 (ovf_of fs)))) (u64 (c + Z.of_nat (rises e0 (derr_of fs))))
      (u64 (x + Z.of_nat (sets (crc_of fs)))) (u64 (y + Z.of_nat (sets (ovf_of fs)))) (u64 (z + Z.of_nat (sets (derr_of fs))))
      (List.last (crc_of fs) c0) (List.last (ovf_of fs) o0) (List.last (derr_of fs) e0) [] false.
Proof.
  induction fs as [|f fs IH]; intros; [by cbn; rewrite !Z.add_0_r|]. cbn [fold_left].
  destruct f as [|tov ts ov crc de dur d]; [apply IH|].
  assert (E : count_frame (mk_stats (u64 n) (u64 a) (u64 b) (u64 c) (u64 x) (u64 y) (u64 z) c0 o0 e0 [] false) (FData tov ts ov crc de dur d)
    = mk_stats (u64 (n + 1)) (bump (crc && negb c0) (u64 a)) (bump (ov && negb o0) (u64 b)) (bump (de && negb e0) (u64 c))
        (bump crc (u64 x)) (bump ov (u64 y)) (bump de (u64 z)) crc ov de [] false) by (rewrite <- u64_add; reflexivity).
  rewrite E, !bump_add, IH. clear E IH. unfold flag_of. cbn [omap list_omap rises sets List.filter]. rewrite !last_cons. unfold sets.
  f_equal; f_equal; cbn [length List.filter id]; repeat case_match; cbn [length]; lia.
Qed.

(** The statistics of the fast tool.  On the payloads of a capture, cut anywhere but inside
    a status frame, the walk ends, and its counters are those of the frames sent: the data
    frames, how many of them carry each error flag, and how often each flag went from clear to
    set. *)
Theorem fast_counts fs ds :
  Forall frame_wf fs -> concat ds = encode_frames 0 fs ->
  (forall k, uncut fs (length (concat (take k ds))) = true) ->
  exists s, stats_pushes stats_new ds = Some s
  /\ rec_total s = u64 (Z.of_nat (length (crc_of fs)))
  /\ pkts_crc s = u64 (Z.of_nat (sets (crc_of fs))) /\ ev_crc s = u64 (Z.of_nat (rises false (crc_of fs)))
  /\ pkts_ovf s = u64 (Z.of_nat (sets (ovf_of fs))) /\ ev_ovf s = u64 (Z.of_nat (rises false (ovf_of fs)))
  /\ pkts_derr s = u64 (Z.of_nat (sets (derr_of fs))) /\ ev_derr s = u64 (Z.of_nat (rises false (derr_of fs))).
Proof.
  intros Hfs Hc Hcut. assert (Hs : idle_stats stats_new) by done.
  exists (fold_left count_frame fs stats_new). split.
  - rewrite pushes_walks; [rewrite Hc, walks_frames by (done || lia); done|done|].
    intros k. assert (E : concat (take k ds) = take (length (concat (take k ds))) (encode_frames 0 fs)).
    { assert (Ec : concat ds = concat (take k ds) ++ concat (drop k ds)) by (by rewrite <- concat_app, take_drop).
      by rewrite <- Hc, Ec, take_app_length. }
    rewrite E. apply uncut_skip; [done|done|by left|apply Hcut].
  - change stats_new with (mk_stats (u64 0) (u64 0) (u64 0) (u64 0) (u64 0) (u64 0) (u64 0) false false false [] false).
    rewrite count_frames. cbn [rec_total pkts_crc ev_crc pkts_ovf ev_ovf pkts_derr ev_derr]. by rewrite !Z.add_0_l.
Qed.

Definition demo_fs : list frame :=
  [FStatus false 0x80 0 false false 0; FData false 1 false true false 2 [7; 8]; FData false 1 false true false 2 []].
Definition demo_enc : list Z := encode_frames 0 demo_fs.

Lemma fast_counts_witness :
  exists s, stats_pushes stats_new [take 9 demo_enc; drop 9 demo_enc] = Some s
  /\ rec_total s = 2 /\ pkts_crc s = 2 /\ ev_crc s = 1 /\ pkts_ovf s = 0.
Proof.
  destruct (fast_counts demo_fs [take 9 demo_enc; drop 9 demo_enc]) as (s & E & H1 & H2 & H3 & H4 & _).
  - repeat apply Forall_cons_2; try apply Forall_nil_2; cbn; repeat split; try lia; repeat constructor; lia.
  - cbn [concat]. by rewrite app_nil_r, take_drop.
  - intros [|[|[|k]]]; vm_compute; reflexivity.
  - exists s. split; [exact E|]. rewrite H1, H2, H3, H4. repeat split.
Defined.

(** A status frame cut after its second byte: its third byte is taken for the start of a data
    frame, and one of the two records behind it is missed. *)
Example cut_status_derails :
  rec_total <$> stats_pushes stats_new [take 2 demo_enc; drop 2 demo_enc] = Some 1.
Proof. vm_compute. reflexivity. Qed.
