(* ===== verification/UsbCmd.v ===== *)
(** * The command tool (src/tools/usb_cmd.c)

    [usb_cmd] sends the commands of its command line to the device and waits for an ACK after
    each.  libusb is the lists of the results of its transfers; [unsigned long] has 64 bits. *)

From Stdlib Require Import String Ascii.
From stdpp Require Import strings.
From S2P Require Import Prelude Uhsif Crc Stream Pcapng Packet Cmd Extcap.
Local Open Scope list_scope.

Definition BLK_MAGIC : Z := 0x6CC6.

(** The inner loop's body, on a register of 32 bits. *)
Definition crc16_bit (crc : Z) : Z :=
  if has crc 0x8000 then Z.lxor (u32 (Z.shiftl crc 1)) 0x1021 else u32 (Z.shiftl crc 1).

Definition crc16 (w1 w2 w3 : Z) : Z :=
  Z.land (fold_left (fun crc i =>
    let w := [w1; w2; w3] !!! Z.to_nat (Z.shiftr i 2) in
    Nat.iter 8 crc16_bit (Z.lxor crc (Z.shiftl (Z.land (Z.shiftr w (Z.land i 3 * 8)) 0xFF) 8))) (seqZ 0 12) 0xFFFF) 0xFFFF.

Definition put_le32 (v : Z) : list Z := [u8 v; u8 (Z.shiftr v 8); u8 (Z.shiftr v 16); u8 (Z.shiftr v 24)].

Definition build_cmd (g_seq cid param : Z) : list Z :=
  let w1 := Z.lor (Z.shiftl (Z.land g_seq 0xFF) 8) (Z.land cid 0xFF) in
  let w2 := param in
  let w3 := 0 in
  let w0 := Z.lor (Z.shiftl (crc16 w1 w2 w3) 16) 0xC7F3 in
  put_le32 w0 ++ put_le32 w1 ++ put_le32 w2 ++ put_le32 w3.

(** ** Numbers: [(unsigned) strtoul (s, NULL, 0)] *)

Definition hex_digit (c : ascii) : option Z :=
  let n := Z.of_nat (nat_of_ascii c) in
  if (48 <=? n) && (n <=? 57) then Some (n - 48)
  else if (97 <=? n) && (n <=? 102) then Some (n - 87)
  else if (65 <=? n) && (n <=? 70) then Some (n - 55)
  else None.

Fixpoint value_in (base : Z) (s : string) (acc : Z) : Z :=
  match s with
  | EmptyString => acc
  | String c s => match hex_digit c with
                  | Some d => if d <? base then value_in base s (acc * base + d) else acc
                  | None => acc end
  end.

(** The digits behind the prefix that gives the base. *)
Definition magnitude (s : string) : Z :=
  match s with
  | String "0" (String x (String d _ as s')) =>
      if (Ascii.eqb x "x" || Ascii.eqb x "X") && (match hex_digit d with Some _ => true | None => false end)
      then value_in 16 s' 0 else value_in 8 s 0
  | String "0" _ => value_in 8 s 0
  | _ => value_in 10 s 0
  end.

Definition ULONG_MAX : Z := 18446744073709551615.

Definition strtoul (s : string) : Z :=
  let '(neg, m) :=
    match skip_space s with
    | String "-" s => (true, magnitude s)
    | String "+" s => (false, magnitude s)
    | s => (false, magnitude s)
    end in
  if ULONG_MAX <? m then ULONG_MAX else if neg then u64 (- m) else m.

Definition to_unsigned (s : string) : Z := u32 (strtoul s).

(** ** The command line *)

Definition speed_param (p : string) : Z :=
  if decide (p = "ls"%string) then 0
  else if decide (p = "fs"%string) then 1
  else if decide (p = "hs"%string) then 2
  else if decide (p = "auto"%string) then 3
  else Z.land (to_unsigned p) 3.

(** One turn of the loop up to the command: its number, its parameter and the arguments left;
    [None] is a parse error. *)
Definition next_cmd (name : string) (argv : list string) : option (Z * Z * list string) :=
  match argv with
  | [] => None
  | v :: argv' =>
      if decide (name = "raw"%string) then
        match argv' with
        | p :: argv'' => Some (to_unsigned v, to_unsigned p, argv'')
        | [] => Some (to_unsigned v, 0, [])
        end
      else if decide (name = "reset"%string) then Some (0x01, Z.land (to_unsigned v) 1, argv')
      else if decide (name = "enable"%string) then Some (0x02, Z.land (to_unsigned v) 1, argv')
      else if decide (name = "speed"%string) then Some (0x03, speed_param v, argv')
      else if decide (name = "test"%string) then Some (0x04, Z.land (to_unsigned v) 1, argv')
      else if decide (name = "upload"%string) then Some (0x20, Z.land (to_unsigned v) 0xFFF, argv')
      else if decide (name = "mask"%string) then Some (0x21, Z.land (to_unsigned v) 0xFFF, argv')
      else None
  end.

(** ** The ACK *)

(** The scan of the bytes received: where the magic of a block stands first. *)
Fixpoint find_ack (n : nat) (l : list Z) (i : nat) : option nat :=
  match n with
  | O => None
  | S n =>
      if (i + 16 <=? length l)%nat then
        if Z.land (uhsif_le32 (drop i l)) 0xFFFF =? BLK_MAGIC then Some i else find_ack n l (S i)
      else None
  end.

Definition IN_SIZE : nat := 65536.

(** The waiting loop: [turns] times 200 ms; the results of the reads left, and whether a block was found. *)
Fixpoint wait_ack (turns : nat) (ins : list (Z * list Z)) (got : list Z) : list (Z * list Z) * option nat :=
  match turns with
  | O => (ins, None)
  | S turns =>
      let '(r, ins) := match ins with [] => ((-7, []), []) | r :: ins => (r, ins) end in
      let data := take (IN_SIZE - length got) r.2 in
      if (r.1 =? 0) && (0 <? length data)%nat then
        let got := got ++ data in
        match find_ack (length got) got 0 with
        | Some i => (ins, Some i)
        | None => wait_ack turns ins got
        end
      else wait_ack turns ins got
  end.

(** The results of libusb. *)
Record results := mk_results { init_rc : Z; device_found : bool; outs : list Z; ins : list (Z * list Z) }.

(** What a run shows: its exit status, the packets the device took, and the verdict on the ACK
    of each command that was waited for. *)
Record shown := mk_shown { rc : Z; taken : list (list Z); acked : list bool }.

(** The loop over the commands. *)
Fixpoint commands (fuel : nat) (noack : bool) (argv : list string) (g_seq : Z) (outs : list Z) (ins : list (Z * list Z)) (o : shown) : shown :=
  match fuel with
  | O => o
  | S fuel =>
      match argv with
      | [] => o
      | name :: argv =>
          match next_cmd name argv with
          | None => mk_shown 2 (taken o) (acked o)
          | Some (cid, param, argv) =>
              let buf := build_cmd g_seq cid param in
              let '(r, outs) := match outs with [] => (0, []) | r :: outs => (r, outs) end in
              if r <? 0 then commands fuel noack argv (u32 (g_seq + 1)) outs ins (mk_shown 1 (taken o) (acked o))
              else
                let '(ins, a) :=
                  if noack then (ins, acked o)
                  else let '(ins, f) := wait_ack 10 ins [] in (ins, acked o ++ [match f with Some _ => true | None => false end]) in
                commands fuel noack argv (u32 (g_seq + 1)) outs ins (mk_shown (rc o) (taken o ++ [buf]) a)
          end
      end
  end.

(** The option, and the arguments behind it. *)
Definition take_noack (argv : list string) : bool * list string :=
  match argv with
  | a :: argv' => if decide (a = "--noack"%string) then (true, argv') else (false, argv)
  | [] => (false, [])
  end.

(** [main] after the program's name. *)
Definition usb_cmd (argv : list string) (env : results) : shown :=
  let '(noack, argv) := take_noack argv in
  if (length argv <? 2)%nat then mk_shown 1 [] []
  else if init_rc env <? 0 then mk_shown 1 [] []
  else if negb (device_found env) then mk_shown 1 [] []
  else commands (length argv) noack argv 0 (outs env) (drop 4 (ins env)) (mk_shown 0 [] []).

(** ** The packets are the plugin's *)

Lemma u16_land z : u16 z = Z.land z 0xFFFF.
Proof. change 0xFFFF with (Z.ones 16). by rewrite Z.land_ones. Qed.

Lemma u16_lxor a b : u16 (Z.lxor a b) = Z.lxor (u16 a) (u16 b).
Proof.
  rewrite !u16_land. apply Z.bits_inj'. intros n Hn. rewrite !Z.land_spec, !Z.lxor_spec, !Z.land_spec.
  by destruct (Z.testbit a n), (Z.testbit b n), (Z.testbit 0xFFFF n).
Qed.

Lemma u16_u32 z : u16 (u32 z) = u16 z.
Proof. unfold u16, u32. change 4294967296 with (65536 * 65536). by rewrite Z.mod_mod_divide by (exists 65536; lia). Qed.

Lemma u16_double z : u16 (Z.shiftl z 1) = u16 (Z.shiftl (u16 z) 1).
Proof. rewrite !Z.shiftl_mul_pow2 by lia. unfold u16. by rewrite Zmult_mod_idemp_l. Qed.

Lemma has_top z : has z 0x8000 = has (u16 z) 0x8000.
Proof. unfold has. rewrite u16_land, <- Z.land_assoc. done. Qed.

(** The tool's register holds the plugin's in its low half. *)
Lemma cmd_crc16_bit_low n crc : u16 (Nat.iter n crc16_bit crc) = Nat.iter n crc_bit (u16 crc).
Proof.
  induction n as [|n IH]; [done|]. rewrite !Nat.iter_succ, <- IH. set (z := Nat.iter n crc16_bit crc). clearbody z. clear IH.
  unfold crc16_bit, crc_bit. rewrite <- has_top. destruct (has z 0x8000).
  - rewrite (u16_small (u16 (Z.lxor _ _))) by apply u16_range. by rewrite !u16_lxor, u16_u32, u16_double.
  - rewrite u16_u32. apply u16_double.
Qed.

Lemma cmd_crc16_uhsif w1 w2 w3 : crc16 w1 w2 w3 = uhsif_hdr_crc16 w1 w2 w3.
Proof.
  unfold crc16, uhsif_hdr_crc16. rewrite <- u16_land.
  assert (Hl : Forall (fun i => 0 <= i < 12) (seqZ 0 12)) by (apply Forall_seqZ; lia).
  change 0xFFFF with (u16 0xFFFF) at 2. generalize 0xFFFF as crc.
  induction Hl as [|i l Hi Hl IH]; intros crc; [done|]. cbn [fold_left]. rewrite IH. f_equal. rewrite cmd_crc16_bit_low. unfold crc_byte, hdr_byte.
  assert (Ew : [w1; w2; w3] !!! Z.to_nat (Z.shiftr i 2) = if i <? 4 then w1 else if i <? 8 then w2 else w3).
  { assert (i = 0 \/ i = 1 \/ i = 2 \/ i = 3 \/ i = 4 \/ i = 5 \/ i = 6 \/ i = 7 \/ i = 8 \/ i = 9 \/ i = 10 \/ i = 11) as Hc by lia.
    by repeat destruct Hc as [->|Hc]; subst. }
  rewrite Ew. set (b := Z.land (Z.shiftr _ _) 0xFF). f_equal. rewrite !u16_lxor, (u16_small (u16 crc)) by apply u16_range. do 2 f_equal.
  assert (Hb : 0 <= b < 256).
  { unfold b. change 0xFF with (Z.ones 8). rewrite Z.land_ones by lia. apply Z.mod_pos_bound. lia. }
  by rewrite (u16_small b) by lia.
Qed.

Lemma land_u8 z : Z.land z 0xFF = u8 z.
Proof. change 0xFF with (Z.ones 8). by rewrite Z.land_ones by lia. Qed.

Lemma usb_build_cmd_packet g cid param : build_cmd g cid param = build_packet (cmd_init <| Cmd.seq := u8 g |>) (u8 cid) param.
Proof. unfold build_cmd, build_packet. by rewrite cmd_crc16_uhsif, !land_u8. Qed.

Lemma usb_read_cmd g cid param : 0 <= param < 4294967296 -> read_command (build_cmd g cid param) = Some (u8 g, u8 cid, param).
Proof.
  intros Hp. rewrite usb_build_cmd_packet. unfold build_packet. cbv zeta. rewrite build_packet_words by apply u8_range.
  apply read_packet; [apply u8_range|apply u8_range|done].
Qed.

(** ** What a run sends *)

(** The commands of a command line up to a parse error, and whether there is one. *)
Fixpoint parsed (fuel : nat) (argv : list string) : list (Z * Z) * bool :=
  match fuel, argv with
  | S fuel, name :: argv =>
      match next_cmd name argv with
      | Some (cid, param, argv) => let '(l, bad) := parsed fuel argv in ((cid, param) :: l, bad)
      | None => ([], true)
      end
  | _, _ => ([], false)
  end.

(** What the device sees of commands numbered from [g] on, where the transfers go as [outs] says. *)
Fixpoint delivered (g : Z) (cmds : list (Z * Z)) (outs : list Z) : list (Z * Z * Z) :=
  match cmds with
  | [] => []
  | (cid, param) :: cmds =>
      let '(r, outs) := match outs with [] => (0, []) | r :: outs => (r, outs) end in
      (if r <? 0 then [] else [(u8 g, u8 cid, param)]) ++ delivered (u32 (g + 1)) cmds outs
  end.

Lemma to_unsigned_range s : 0 <= to_unsigned s < 4294967296.
Proof. apply u32_range. Qed.

Lemma mask_range a k : 0 <= k <= 32 -> 0 <= Z.land a (Z.ones k) < 4294967296.
Proof.
  intros Hk. rewrite Z.land_ones by lia. pose proof (Z.mod_pos_bound a (2 ^ k)). pose proof (Z.pow_le_mono_r 2 k 32).
  change (2 ^ 32) with 4294967296 in *. lia.
Qed.

Lemma next_cmd_param name argv cid param rest :
  next_cmd name argv = Some (cid, param, rest) -> 0 <= param < 4294967296 /\ (length rest < length argv)%nat.
Proof.
  unfold next_cmd, speed_param. destruct argv as [|v argv']; [done|]. cbn [length].
  repeat case_decide; try destruct argv' as [|p argv'']; intros [= <- <- <-]; cbn [length];
    (split; [first [apply to_unsigned_range|apply (mask_range _ 1); lia|apply (mask_range _ 2); lia|apply (mask_range _ 12); lia|lia]|lia]).
Qed.

Lemma delivered_length cmds : forall g outs, (length (delivered g cmds outs) <= length cmds)%nat.
Proof.
  induction cmds as [|[cid param] cmds IH]; intros g outs; cbn [delivered length]; [done|].
  destruct outs as [|r outs]; [specialize (IH (u32 (g + 1)) [])|specialize (IH (u32 (g + 1)) outs)];
    rewrite length_app; [|destruct (r <? 0)]; cbn [Z.ltb length] in *; cbn; lia.
Qed.

Lemma commands_spec noack fuel : forall argv g outs ins o,
  (length argv <= fuel)%nat ->
  let '(cmds, bad) := parsed fuel argv in
  let r := commands fuel noack argv g outs ins o in
  exists ds, taken r = taken o ++ ds /\ map read_command ds = map Some (delivered g cmds outs)
  /\ rc r = (if bad then 2 else if (length ds <? length cmds)%nat then 1 else rc o)
  /\ length (acked r) = (length (acked o) + if noack then 0 else length ds)%nat.
Proof.
  induction fuel as [|fuel IH]; intros argv g outs ins o Hl.
  { destruct argv; [|cbn in Hl; lia]. exists []. cbn. rewrite app_nil_r. split_and!; try done. destruct noack; lia. }
  destruct argv as [|name argv]; cbn [parsed commands].
  { exists []. cbn. rewrite app_nil_r. split_and!; try done. destruct noack; lia. }
  cbn [length] in Hl. destruct (next_cmd name argv) as [[[cid param] rest]|] eqn:En.
  2:{ exists []. cbn. rewrite app_nil_r. split_and!; try done. destruct noack; lia. }
  apply next_cmd_param in En as [Hp Hr].
  destruct (parsed fuel rest) as [cmds bad] eqn:Ep. cbn [delivered]. set (ro := match outs with [] => (0, []) | r :: outs => (r, outs) end). destruct ro as [r outs']. clear outs.
  destruct (Z.ltb_spec r 0) as [Hneg|Hok].
  - specialize (IH rest (u32 (g + 1)) outs' ins (mk_shown 1 (taken o) (acked o)) ltac:(lia)). rewrite Ep in IH. cbv zeta in *.
    destruct IH as (ds & T & D & R & A). exists ds. split; [exact T|]. split; [exact D|]. split; [|exact A].
    rewrite R. cbn [rc length]. apply (f_equal length) in D. rewrite !length_map in D.
    pose proof (delivered_length cmds (u32 (g + 1)) outs'). destruct bad; [done|].
    destruct (Nat.ltb_spec (length ds) (S (length cmds))); [|lia]. by destruct (_ <? _)%nat.
  - set (w := if noack then (ins, acked o) else _).
    assert (Hw : length (snd w) = (length (acked o) + if noack then 0 else 1)%nat).
    { unfold w. destruct noack; [cbn; lia|]. destruct (wait_ack 10 ins []) as [ins' f]. cbn [snd]. by rewrite length_app. }
    destruct w as [ins' a]. cbn [snd] in Hw.
    specialize (IH rest (u32 (g + 1)) outs' ins' (mk_shown (rc o) (taken o ++ [build_cmd g cid param]) a) ltac:(lia)).
    rewrite Ep in IH. cbv zeta in *. destruct IH as (ds & T & D & R & A). exists (build_cmd g cid param :: ds).
    split; [rewrite T; cbn [taken]; by rewrite <- app_assoc|]. split.
    { cbn [map app]. rewrite D. f_equal. by apply usb_read_cmd. }
    split; [rewrite R; cbn [rc length]; by destruct bad; [|destruct (Nat.ltb_spec (length ds) (length cmds)), (Nat.ltb_spec (S (length ds)) (S (length cmds))); try lia]|].
    rewrite A. cbn [acked length]. rewrite Hw. destruct noack; lia.
Qed.



(** A data block with a wrong checksum is taken for the ACK. *)
Example data_block_acks :
  (wait_ack 10 [(0, uhsif_put_le32 0x6CC6 ++ drop 4 (encode_block 7 data_block))] []).2 = Some 0%nat.
Proof. vm_compute. reflexivity. Qed.
